(* ===== verification/_CoqProject ===== *)
-Q . S2P
Prelude.v
Memory.v
Utf8.v
Mmio.v
Buddy.v
Heap.v
Pages.v
MmuX86.v
MmuArm.v
Sched.v
Lock.v
Cpu.v
ArmEntry.v
Irq.v
BTree.v
Devices.v
Timer.v
BlockDev.v
Emmc.v
Platform.v
Fd.v
Serial.v
Vfs.v
Stdio.v
Fat32.v
FatWrite.v
FatDir.v
FatFiles.v
FatCard.v
FatMount.v
FatRace.v
KInit.v
Fb.v
FbFill.v
Boot.v
Gpio.v
Vga.v
Logger.v
Locks.v
Nest.v
Trace.v
Mailbox.v
BcmFb.v
Main.v
Tick.v
Init.v
Start.v
