(* ===== verification/Prelude.v ===== *)
(** * A verification of pi-os

    pi-os is a small kernel in Rust for the Raspberry Pi (ARM, BCM2835) and the
    PC (32-bit x86).  Its crates are [kernel] (memory, file systems, interrupts,
    boot), [drivers] (the hardware abstraction layer [hal], the peripherals and
    the platform tables) and [common] (synchronisation).  This library models
    the Rust code of the three crates as executable functions and proves what
    makes each part correct.  Source paths below are under src/.

    ** Conventions

    A Rust function is a Gallina function into [outcome]: it returns, panics or
    has not finished within its fuel.  Code with state runs in [st S], the
    functions from a state to an outcome and a new state; [Result] is [result]
    and [?] is [let? x := m in k].  Integers are [Z] with their width in the
    operation: [add 32 a b] panics on overflow when [debug_assertions] of the
    class [Profile] is on and wraps around otherwise, [wrap w] is a cast, and
    [usize] has 32 bits on both targets.  Indexing and slicing out of range
    panic.  Memory behind raw pointers is a total map from addresses to bytes
    ([Memory]), device registers and ports are operations of a class whose
    instances are devices ([Mmio] and the port classes of the x86 drivers).
    Hardware, linker symbols and the crates the source imports ([spin], [log],
    [core::fmt]) are arguments or classes of laws; every class of laws has an
    instance against which the witnesses evaluate.

    ** The parts

    Memory management.
    - [Buddy]: kernel/src/mm/buddy_allocator.rs, on the memory its free lists
      live in; [wf] and [coalesced] are its invariants, a list of blocks per
      order its specification.
    - [Heap]: kernel/src/mm/heap_allocator.rs over [Buddy], with the steps of a
      client as a relation ([heap_step]).
    - [Pages]: kernel/src/mm/{page_allocator,page_table}.rs and
      kernel/src/process/stack.rs over [Buddy].
    - [MmuX86], [MmuArm]: kernel/src/arch/{x86,arm}/mmu.rs, specified by the
      processor's table walk with the rights it grants at each level
      ([translate]) and, on x86, by every translation the processor may use
      for an address, those it has cached and not been told to drop among them
      ([sees]).
    - [KInit]: setup_memory_management of kernel/src/kcore/init.rs, which builds
      the table, the heap and the page allocator over one memory.

    Interrupts and scheduling.
    - [Lock]: common/src/sync/irq_mutex.rs over an interrupt flag; [Cpu]: the
      interface common/src/sync/irq.rs with the two implementations of it in
      kernel/src/arch/{arm,x86}/interrupt, kernel/src/arch/x86/time.rs and the
      ARM register context.
    - [Irq]: drivers/src/hal/interrupt.rs, peripheral/bcm2835/intc.rs,
      kernel/src/irq/{handlers,dispatch}.rs, the Rust entry points of
      kernel/src/arch/arm/exception/trap.rs and kernel/src/syscall, with the
      controller behind its spin lock.
    - [ArmEntry]: kernel/src/arch/arm/exception/entry.S and context/switch.S,
      instruction by instruction on the registers and the stack.
    - [Locks]: the spin locks of the running kernel (device manager, logger,
      every device), the accessors of kernel/src/subsystems/mod.rs and
      kernel/src/subsystems/log_sinks, which take them.
    - [Nest]: one processor on which interrupts arrive at any time; the code is
      the list of what it does to locks, lines and the interrupt flag, and the
      steps of the machine are a relation.
    - [Tick]: the dispatcher and the timer handler over the controller, the
      timer, the console and [Locks] together.
    - [Trace]: the same code run on a state that records the locks it takes and
      the changes it makes to devices, and what it means that the record is a
      list of actions of [Nest].
    - [Timer]: drivers/src/hal/timer.rs, peripheral/bcm2835/timer.rs,
      peripheral/x86/i8254_pit.rs and the timer interrupt handler.
    - [Sched]: kernel/src/process/sched/scheduler.rs.

    Devices.
    - [BTree], [Devices]: the ordered maps of the standard library and
      drivers/src/device_manager.rs.
    - [Platform]: drivers/src/platform/{mod,builder}.rs, over the drivers of
      the card and the timer.
    - [Serial], [Gpio], [Vga]: drivers/src/hal/{serial,gpio,console}.rs and
      their drivers in drivers/src/peripheral.
    - [Fb], [FbFill]: drivers/src/hal/fb.rs and peripheral/x86/mb2fb.rs.
    - [Mailbox], [BcmFb]: peripheral/bcm2835/{mailbox,framebuffer}.rs.
    - [BlockDev], [Emmc]: drivers/src/hal/block_device.rs and
      peripheral/bcm2835/emmc.rs.

    Files.
    - [Fd]: kernel/src/fs/{fd,file}.rs; [Vfs]: kernel/src/fs/vfs.rs and
      kernel/src/fs/dev.
    - [Fat32]: kernel/src/fs/fat/fat32.rs over any [BlockDevice]; [FatWrite] and
      [FatDir] prove what writing and path lookup do, [FatMount] what mounting
      makes of a boot sector; [FatRace] has files extended at the same time,
      in steps of the sections under [fat_lock]; [FatFiles] puts FAT32 behind
      the mount table of [Vfs] and the descriptors of [Fd], [FatCard] on the
      card of [Emmc].
    - [Stdio]: the descriptors of a new process on the file of the console, on
      a port of [Serial].

    Boot and the rest of the kernel.
    - [Utf8], [Boot]: kernel/src/boot, from the memory a boot loader leaves to
      the platform's description, over [Platform].
    - [Logger]: kernel/src/logger.rs and kernel/src/subsystems/boot_sinks;
      [Main]: kernel/src/main.rs and the rest of kernel/src/subsystems/mod.rs,
      with the locks of [Locks].
    - [Init]: kernel_init of kernel/src/kcore/init.rs with everything it logs,
      and the registration of devices of kernel/src/subsystems/mod.rs; one state
      holds the memory of [Boot] and [KInit], the boot sinks of [Logger] and the
      devices and locks of [Locks].
    - [Start]: kernel/src/arch/{arm,x86}/boot/boot.S and
      kernel/src/arch/arm/exception/vectors.S, instruction by instruction, from
      the state a boot loader leaves to the calls of kernel_init and
      kernel_main, which are those of [Init].

    ** How the parts meet

    Components meet at classes.  [BlockDevice] is what [Emmc] implements and
    [Fat32] uses; [Disk] adds the laws of a disk, which [SectorDisk], a disk of
    sectors, satisfies, and the card refines [SectorDisk] ([DeviceRefines],
    [card_refines]).  [FrameBuffer] is implemented by [Fb] and [BcmFb] and used
    by the drawing of [Fb] and by [Main]; [FileSystem] and [File] are
    implemented by [Vfs] and used by its mount table and by [Fd].
    [InterruptController], the serial
    and timer traits and [SpinMutex] are classes in the same way.  [Heap],
    [Pages] and [KInit] share the state [BuddyAllocator * mem] of [Buddy], so
    that aliasing between blocks, headers and client data is visible.
    [Locks], [Main], [Tick] and [Init] share the state [kernel]: the locks that are
    taken, the device manager and the devices; a lock that its holder takes
    again is spun on until the fuel is gone, so waiting for ever is visible as
    [OutOfFuel] for every fuel.  Code that works under locks is written against
    the class [KernelOps], which [kernel] implements and, with a record of what
    is done, [Trace.traced].  [Nest] speaks of the same locks through lists of
    actions, and [Tick] proves that the list of the dispatcher, with those of
    the handlers and of a log line, is what the executable code does, action by
    action and in that order ([dispatch_follows_code]).

    ** What the theorems show

    - Invariants and safety: live heap blocks never overlap and nothing is lost
      ([heap_live_blocks_safe], [heap_released_is_fresh]), as long as no block
      of an alignment above 8 is freed, which the code does through the wrong
      address ([free_overaligned_wrong_block]); the card driver
      always returns and keeps its record well formed ([emmc_total],
      [emmc_well_formed]).
    - Functional behaviour on every branch: block allocation and freeing,
      mapping and unmapping on both processors (on x86 with the pages that lie
      in a 4 MiB page, which are not mapped), interrupt dispatch, GPIO pins,
      mailbox calls, drawing, descriptor I/O, mounting, reading and writing
      files, from a path to the bytes of a file ([path_reads_file]).
    - From power-on: the start-up code reaches kernel_init with the argument it
      expects and a cleared .bss, and the whole boot ends in a kernel with its
      memory set up, its devices registered and its log written
      ([multiboot_start], [pc_start_boots], [arm_start_ready]).
    - Interrupts: interrupted code resumes with its registers
      ([irq_transparent]); an interrupt of the timer is answered by a log line
      and stays pending, since no handler is ever registered, and would be
      answered by a tick each if one were ([timer_interrupts]); no
      line is served twice and no object used without its lock
      ([dispatch_no_reentry], [objects_exclusive]); and where it goes wrong: a
      lock held across an interrupt or a log line stops the kernel
      ([nested_interrupt_deadlocks], [print_devices_deadlocks]), so
      that the kernel never reaches its idle loop ([kernel_never_idles]).
    - Interleaving: extensions of different files never share a cluster
      ([extend_race_safe]), two of one file can lose clusters for ever
      ([extend_race_same_file]).
    - Refinement: memory set-up, the x86 boot, the descriptor table, the VGA
      console and the serial ports against abstract specifications; standard
      output down to the wire ([stdout_reaches_wire]); the file system on the
      card against the file system on a disk ([fat_on_card]).
    - Equivalence with reference definitions: bulk fills against single pixels
      ([mb2_fills_plot]), path lookup against a walk over the entries of each
      directory ([fat_open_resolves]).
    - Round trips: table entries, blocks of the card, and files through the
      whole stack ([fat_entry_write], [emmc_write_read], [card_write_read]).
    - Termination: loops with a bound in the code are shown to end
      ([draw_line_path], [emmc_total]); those that wait for a device or follow
      data on a disk are shown to end exactly when the device answers or the
      chain ends ([mailbox_call_result], [get_chain_follows]).
    - Errors and what goes wrong: theorems about the code as it is, such as
      [arm_boot_panics], [arm_init_peripherals_closed], [schedule_starves_mid],
      [irq_guard_double_release] and [fat_write_empty_file], state the effect
      of a mistake in it.

    ** Fuel and bounds

    Loops over a range take the number of rounds the source computes and need
    no further fuel.  Constant fuel: [MAX_ORDER - order] rounds for merging and
    splitting blocks, since orders end at [MAX_ORDER]; [section_fuel] = 4097
    for the sections of 32 bits of address space and the last test; the bounds
    of its own loops for the card driver.  Fuel is an argument of the loops that
    poll a register, parse boot tags, follow a cluster chain or draw a line;
    the theorems say how much is enough: the polls until the device is ready,
    the size of the boot information, the clusters of the volume, the distance
    of the end points.  Where no fuel is enough the theorem says so.

    ** Not modelled

    - Single instructions: barriers, waits and the inline assembly of
      kernel/src/arch/arm/mod.rs.  The function that names the pending line in kernel/src/arch/arm/exception/
      trap.rs belongs to a type that is declared nowhere; it is an argument.
    - kernel/src/process/pcb.rs and the x86 trap frame: declarations that no
      code creates or uses.
    - The device-tree parser, behind a feature that no manifest declares.
    - Text output of [Debug]; the traits of the abstraction layer that nothing
      implements.
    - Heap exhaustion inside collections ([Vec], [String], [BTreeMap]): their
      allocations succeed.  The locks of the mount table, of the device files
      and of one open file, which are taken and released within one call.
    - User programs (an empty crate), build scripts and boot loader settings. *)
From Stdlib Require Import ZArith Lia.
From stdpp Require Export base strings option numbers gmap list.
#[global] Open Scope Z_scope.

(** ** Outcomes of running Rust code *)

(** Build profile: [debug_assertions] is on under [cargo build] (overflow
    checks and [debug_assert!] are compiled in) and off under [--release]. *)
Class Profile := { debug_assertions : bool }.

(** A computation returns, panics, or has not finished within its fuel. *)
Inductive outcome (A : Type) : Type :=
  | Ret (a : A)
  | Panic
  | OutOfFuel.
Arguments Ret {A} a.
Arguments Panic {A}.
Arguments OutOfFuel {A}.

#[export] Instance outcome_ret : MRet outcome := @Ret.
#[export] Instance outcome_bind : MBind outcome := fun A B k m =>
  match m with
  | Ret a => k a
  | Panic => Panic
  | OutOfFuel => OutOfFuel
  end.
#[export] Instance outcome_fmap : FMap outcome := fun A B f m =>
  match m with
  | Ret a => Ret (f a)
  | Panic => Panic
  | OutOfFuel => OutOfFuel
  end.

(** Rust's [Result]. *)
Inductive result (A E : Type) : Type :=
  | Ok (a : A)
  | Err (e : E).
Arguments Ok {A E} a.
Arguments Err {A E} e.

Definition map_err {A E F} (f : E -> F) (r : result A E) : result A F :=
  match r with Ok a => Ok a | Err e => Err (f e) end.

Definition ok_or {A E} (o : option A) (e : E) : result A E :=
  match o with Some a => Ok a | None => Err e end.

(** Stateful code: a state transformer that may panic or run out of fuel. *)
Definition st (S A : Type) : Type := S -> outcome (A * S).

#[export] Instance st_ret S : MRet (st S) := fun A a s => Ret (a, s).
#[export] Instance st_bind S : MBind (st S) := fun A B k m s =>
  match m s with
  | Ret (a, s') => k a s'
  | Panic => Panic
  | OutOfFuel => OutOfFuel
  end.

Definition get {S} : st S S := fun s => Ret (s, s).
Definition put {S} (s' : S) : st S unit := fun _ => Ret (tt, s').
Definition modify {S} (f : S -> S) : st S unit := fun s => Ret (tt, f s).
Definition gets {S A} (f : S -> A) : st S A := fun s => Ret (f s, s).
Definition panic {S A} : st S A := fun _ => Panic.
Definition out_of_fuel {S A} : st S A := fun _ => OutOfFuel.
Definition lift {S A} (m : outcome A) : st S A := fun s =>
  match m with Ret a => Ret (a, s) | Panic => Panic | OutOfFuel => OutOfFuel end.

(** [?] on a stateful [Result]: continue on [Ok], return the [Err]. *)
Definition try_bind {S A B E} (m : st S (result A E)) (k : A -> st S (result B E))
  : st S (result B E) := fun s =>
  match m s with
  | Ret (Ok a, s') => k a s'
  | Ret (Err e, s') => Ret (Err e, s')
  | Panic => Panic
  | OutOfFuel => OutOfFuel
  end.

(** [?] on a pure [Result] that may panic. *)
Definition otry {A B E} (m : outcome (result A E)) (k : A -> outcome (result B E))
  : outcome (result B E) :=
  match m with
  | Ret (Ok a) => k a
  | Ret (Err e) => Ret (Err e)
  | Panic => Panic
  | OutOfFuel => OutOfFuel
  end.

Declare Scope pi_scope.
Delimit Scope pi_scope with pi.
Notation "'let?' x ':=' m 'in' k" := (try_bind m (fun x => k))
  (at level 10, x pattern, m at level 200, k at level 200) : pi_scope.
Notation "'let??' x ':=' m 'in' k" := (otry m (fun x => k))
  (at level 10, x pattern, m at level 200, k at level 200) : pi_scope.
#[global] Open Scope pi_scope.

(** A result together with its state, mapped through an error conversion. *)
Definition st_map_err {S A E F} (f : E -> F) (m : st S (result A E))
  : st S (result A F) := fun s =>
  match m s with
  | Ret (r, s') => Ret (map_err f r, s')
  | Panic => Panic
  | OutOfFuel => OutOfFuel
  end.

(** ** Machine integers

    A [w]-bit unsigned integer is a [Z] in [0, 2^w).  Additions, subtractions
    and multiplications panic on overflow when overflow checks are on and wrap
    otherwise. *)
Definition usize_bits : Z := 32.

Definition wrap (w z : Z) : Z := z mod 2 ^ w.

Definition fits (w z : Z) : Prop := 0 <= z < 2 ^ w.

Definition arith `{Profile} (w z : Z) : outcome Z :=
  if (0 <=? z) && (z <? 2 ^ w) then Ret z
  else if debug_assertions then Panic else Ret (wrap w z).

Definition add `{Profile} (w a b : Z) : outcome Z := arith w (a + b).
Definition sub `{Profile} (w a b : Z) : outcome Z := arith w (a - b).
Definition mul `{Profile} (w a b : Z) : outcome Z := arith w (a * b).

(** [<<] panics (or masks the amount) when the amount reaches the width; bits
    shifted out are lost silently in both profiles. *)
Definition shl `{Profile} (w a n : Z) : outcome Z :=
  if n <? w then Ret (wrap w (Z.shiftl a n))
  else if debug_assertions then Panic else Ret (wrap w (Z.shiftl a (n mod w))).

(** Division panics on zero in both profiles. *)
Definition udiv (a b : Z) : outcome Z := if b =? 0 then Panic else Ret (a / b).
Definition urem (a b : Z) : outcome Z := if b =? 0 then Panic else Ret (a mod b).

(** Bitwise complement of a [w]-bit integer. *)
Definition lnot (w a : Z) : Z := 2 ^ w - 1 - a.

Definition saturating_sub (a b : Z) : Z := Z.max 0 (a - b).
Definition saturating_add (w a b : Z) : Z := Z.min (2 ^ w - 1) (a + b).
Definition wrapping_add (w a b : Z) : Z := wrap w (a + b).
Definition wrapping_sub (w a b : Z) : Z := wrap w (a - b).

(** Signed integers of [w] bits; [as isize] reinterprets the bits. *)
Definition to_signed (w z : Z) : Z := if z mod 2 ^ w <? 2 ^ (w - 1) then z mod 2 ^ w else z mod 2 ^ w - 2 ^ w.

Definition sfits (w z : Z) : Prop := - 2 ^ (w - 1) <= z < 2 ^ (w - 1).

Definition sarith `{Profile} (w z : Z) : outcome Z :=
  if (- 2 ^ (w - 1) <=? z) && (z <? 2 ^ (w - 1)) then Ret z
  else if debug_assertions then Panic else Ret (to_signed w z).

Definition sadd `{Profile} (w a b : Z) : outcome Z := sarith w (a + b).
Definition ssub `{Profile} (w a b : Z) : outcome Z := sarith w (a - b).
Definition smul `{Profile} (w a b : Z) : outcome Z := sarith w (a * b).

(** [assert!] is compiled in always, [debug_assert!] in debug builds. *)
Definition rassert (b : bool) : outcome unit := if b then Ret tt else Panic.
Definition debug_assert `{Profile} (b : bool) : outcome unit :=
  if debug_assertions then rassert b else Ret tt.

(** Indexing a slice or array panics out of range. *)
Definition index {A} (l : list A) (i : Z) : outcome A :=
  match (if i <? 0 then None else l !! Z.to_nat i) with
  | Some a => Ret a
  | None => Panic
  end.

Definition index_set {A} (l : list A) (i : Z) (a : A) : outcome (list A) :=
  if (0 <=? i) && (i <? Z.of_nat (length l)) then Ret (<[Z.to_nat i := a]> l) else Panic.

(** Little-endian bytes. *)
Definition u16_of_le (b0 b1 : Z) : Z := b0 + 256 * b1.
Definition u32_of_le (b0 b1 b2 b3 : Z) : Z :=
  b0 + 256 * b1 + 65536 * b2 + 16777216 * b3.
Definition u32_of_be (b0 b1 b2 b3 : Z) : Z := u32_of_le b3 b2 b1 b0.
Definition le_bytes32 (v : Z) : list Z :=
  [v mod 256; (v / 256) mod 256; (v / 65536) mod 256; (v / 16777216) mod 256].

(** ** Lemmas on checked arithmetic *)

Create HintDb pi.
Create Rewrite HintDb pi.

Section Arith.
Context `{Profile}.

Lemma arith_ok w z : fits w z -> arith w z = Ret z.
Proof. unfold arith, fits. intros [??]. rewrite (proj2 (Z.leb_le _ _)), (proj2 (Z.ltb_lt _ _)); done. Qed.

Lemma add_ok w a b : fits w (a + b) -> add w a b = Ret (a + b).
Proof. apply arith_ok. Qed.

Lemma sub_ok w a b : fits w (a - b) -> sub w a b = Ret (a - b).
Proof. apply arith_ok. Qed.

Lemma mul_ok w a b : fits w (a * b) -> mul w a b = Ret (a * b).
Proof. apply arith_ok. Qed.

Lemma shl_ok w a n : 0 <= n < w -> fits w (a * 2 ^ n) -> shl w a n = Ret (a * 2 ^ n).
Proof.
  unfold shl, fits, wrap. intros ??. rewrite (proj2 (Z.ltb_lt _ _)) by lia.
  by rewrite Z.shiftl_mul_pow2, Z.mod_small by lia.
Qed.

Lemma sadd_ok w a b : sfits w (a + b) -> sadd w a b = Ret (a + b).
Proof.
  unfold sadd, sarith, sfits. intros [??]. by rewrite (proj2 (Z.leb_le _ _)), (proj2 (Z.ltb_lt _ _)).
Qed.

Lemma to_signed_small w z : 0 <= z < 2 ^ (w - 1) -> to_signed w z = z.
Proof.
  intros Hz. unfold to_signed. assert (2 ^ (w - 1) <= 2 ^ w).
  { destruct (Z.le_gt_cases 1 w); [apply Z.pow_le_mono_r; lia|]. rewrite Z.pow_neg_r in Hz; lia. }
  rewrite Z.mod_small by lia. by rewrite (proj2 (Z.ltb_lt _ _)) by lia.
Qed.

(** Whatever the profile, a value that comes back is in range. *)
Lemma arith_fits w z v : 0 <= w -> arith w z = Ret v -> fits w v.
Proof.
  unfold arith, fits, wrap. intros ?.
  destruct ((0 <=? z) && (z <? 2 ^ w)) eqn:E.
  - intros [= ->]. apply andb_true_iff in E as [?%Z.leb_le ?%Z.ltb_lt]. lia.
  - destruct debug_assertions; intros [= <-]. apply Z.mod_pos_bound. lia.
Qed.
End Arith.

Lemma udiv_ok a b : b <> 0 -> udiv a b = Ret (a / b).
Proof. unfold udiv. intros ?%Z.eqb_neq. by rewrite H. Qed.

Lemma urem_ok a b : b <> 0 -> urem a b = Ret (a mod b).
Proof. unfold urem. intros ?%Z.eqb_neq. by rewrite H. Qed.

(** ** Inversion of monadic computations *)

Lemma obind_Ret {A B} (m : outcome A) (k : A -> outcome B) b :
  (m ≫= k) = Ret b <-> exists a, m = Ret a /\ k a = Ret b.
Proof. destruct m; simpl; naive_solver. Qed.

Lemma stbind_Ret {S A B} (m : st S A) (k : A -> st S B) s r :
  (m ≫= k) s = Ret r <-> exists a s', m s = Ret (a, s') /\ k a s' = Ret r.
Proof. unfold mbind, st_bind. destruct (m s) as [[]| |]; naive_solver. Qed.

Lemma stbind_step {S A B} (m : st S A) (k : A -> st S B) s a s' :
  m s = Ret (a, s') -> (m ≫= k) s = k a s'.
Proof. unfold mbind, st_bind. by intros ->. Qed.

Lemma try_step {S A B E} (m : st S (result A E)) (k : A -> st S (result B E)) s a s' :
  m s = Ret (Ok a, s') -> try_bind m k s = k a s'.
Proof. unfold try_bind. by intros ->. Qed.

Lemma try_err {S A B E} (m : st S (result A E)) (k : A -> st S (result B E)) s e s' :
  m s = Ret (Err e, s') -> try_bind m k s = Ret (Err e, s').
Proof. unfold try_bind. by intros ->. Qed.

Lemma lift_Ret {S A} (m : outcome A) (s : S) r s' :
  lift m s = Ret (r, s') <-> m = Ret r /\ s' = s.
Proof. unfold lift. destruct m; naive_solver. Qed.

(** ** Indexing *)

Lemma index_ok {A} (l : list A) i a :
  0 <= i -> l !! Z.to_nat i = Some a -> index l i = Ret a.
Proof. unfold index. intros ? E. destruct (Z.ltb_spec i 0); [lia|]. by rewrite E. Qed.

Lemma index_nat {A} (l : list A) (i : nat) a :
  l !! i = Some a -> index l (Z.of_nat i) = Ret a.
Proof. intros. apply index_ok; [lia|]. by rewrite Nat2Z.id. Qed.

Lemma index_Ret {A} (l : list A) i a :
  index l i = Ret a -> 0 <= i < Z.of_nat (length l) /\ l !! Z.to_nat i = Some a.
Proof.
  unfold index. destruct (Z.ltb_spec i 0); [done|].
  destruct (l !! Z.to_nat i) eqn:E; [|done]. intros [= ->].
  apply lookup_lt_Some in E as ?. split; [lia|done].
Qed.

Lemma index_set_ok {A} (l : list A) i a :
  0 <= i < Z.of_nat (length l) -> index_set l i a = Ret (<[Z.to_nat i := a]> l).
Proof.
  unfold index_set. intros ?.
  by rewrite (proj2 (Z.leb_le _ _)), (proj2 (Z.ltb_lt _ _)) by lia.
Qed.

(** ** Bit arithmetic *)

Lemma land_mask a n : 0 <= n -> Z.land a (2 ^ n - 1) = a mod 2 ^ n.
Proof. intros. rewrite <- Z.land_ones by done. f_equal. rewrite Z.ones_equiv. lia. Qed.

Lemma testbit_high a w n : fits w a -> w <= n -> Z.testbit a n = false.
Proof.
  unfold fits. intros [??] ?. destruct (Z.eq_dec a 0) as [->|]; [apply Z.testbit_0_l|].
  apply Z.bits_above_log2; [done|]. apply Z.log2_lt_pow2; [lia|].
  eapply Z.lt_le_trans; [done|]. apply Z.pow_le_mono_r; lia.
Qed.

Lemma lnot_testbit w a n : fits w a -> 0 <= n ->
  Z.testbit (lnot w a) n = (n <? w) && negb (Z.testbit a n).
Proof.
  intros Ha Hn. destruct (Z.le_gt_cases 0 w) as [Hw|Hw]; last first.
  { unfold fits in Ha. rewrite Z.pow_neg_r in Ha by lia. lia. }
  replace (lnot w a) with (Z.land (Z.lnot a) (Z.ones w)).
  - rewrite Z.land_spec, Z.lnot_spec by lia. rewrite Z.testbit_ones_nonneg by lia. apply andb_comm.
  - rewrite Z.land_ones by lia. unfold lnot, Z.lnot, fits in *.
    symmetry. apply Z.mod_unique with (-1); lia.
Qed.

(** Masking the low bits off rounds down. *)
Lemma land_lnot_mask w a n : 0 <= n <= w -> fits w a ->
  Z.land a (lnot w (2 ^ n - 1)) = a - a mod 2 ^ n.
Proof.
  intros Hn Ha. assert (fits w (2 ^ n - 1)).
  { unfold fits. pose proof (Z.pow_le_mono_r 2 n w). lia. }
  replace (a - a mod 2 ^ n) with (a / 2 ^ n * 2 ^ n) by (pose proof (Z.div_mod a (2 ^ n)); lia).
  rewrite <- Z.shiftr_div_pow2, <- Z.shiftl_mul_pow2 by lia.
  apply Z.bits_inj'. intros k Hk. rewrite Z.land_spec, lnot_testbit, Z.shiftl_spec by done.
  replace (2 ^ n - 1) with (Z.ones n) by (rewrite Z.ones_equiv; lia).
  rewrite Z.testbit_ones_nonneg by lia.
  destruct (Z.ltb_spec k n); simpl.
  - rewrite andb_false_r, andb_false_r. by rewrite Z.testbit_neg_r by lia.
  - rewrite Z.shiftr_spec by lia. replace (k - n + n) with k by lia.
    destruct (Z.ltb_spec k w); simpl; [by rewrite andb_true_r|].
    by rewrite (testbit_high a w k).
Qed.

Lemma lxor_1 q : Z.lxor q 1 = if Z.even q then q + 1 else q - 1.
Proof.
  assert (forall c, Z.lxor (2 * c) 1 = 2 * c + 1) as E0.
  { intros c. apply Z.bits_inj'. intros k Hk. rewrite Z.lxor_spec.
    destruct (Z.eq_dec k 0) as [->|].
    - by rewrite Z.testbit_even_0, Z.testbit_odd_0.
    - replace k with (Z.succ (Z.pred k)) by lia.
      rewrite Z.testbit_even_succ, Z.testbit_odd_succ by lia.
      replace (Z.testbit 1 (Z.succ (Z.pred k))) with false; [by rewrite xorb_false_r|].
      symmetry. apply (testbit_high 1 1); [unfold fits; lia|lia]. }
  rewrite Zeven_mod. destruct (Z.eqb_spec (q mod 2) 0) as [E|E].
  - replace q with (2 * (q / 2)) by (pose proof (Z.div_mod q 2); lia).
    apply E0.
  - replace q with (2 * (q / 2) + 1) by (pose proof (Z.div_mod q 2); pose proof (Z.mod_pos_bound q 2); lia).
    rewrite <- E0 at 1. rewrite Z.lxor_assoc, Z.lxor_nilpotent, Z.lxor_0_r. lia.
Qed.

(** The buddy of the [q]-th block of size [2^n]. *)
Lemma lxor_pow2 q n : 0 <= n ->
  Z.lxor (q * 2 ^ n) (2 ^ n) = if Z.even q then (q + 1) * 2 ^ n else (q - 1) * 2 ^ n.
Proof.
  intros. rewrite <- (Z.mul_1_l (2 ^ n)) at 2. rewrite <- !Z.shiftl_mul_pow2 by done.
  rewrite <- Z.shiftl_lxor, lxor_1. by destruct (Z.even q).
Qed.

(** Multiples of [s] less than [s] apart are equal. *)
Lemma divide_close s a b : 0 < s -> (s | a) -> (s | b) -> a <= b < a + s -> a = b.
Proof.
  intros Hs [p ->] [q ->] [H1 H2]. apply Z.mul_le_mono_pos_r in H1; [|done].
  replace (p * s + s) with ((p + 1) * s) in H2 by lia. apply Z.mul_lt_mono_pos_r in H2; [|done].
  f_equal. lia.
Qed.

(** Or-ing flags below an aligned address adds them. *)
Lemma lor_low a b n : 0 <= n -> (2 ^ n | a) -> 0 <= b < 2 ^ n -> Z.lor a b = a + b.
Proof.
  intros Hn [q ->] Hb. assert (Z.land (q * 2 ^ n) b = 0) as E.
  { apply Z.bits_inj'. intros k Hk. rewrite Z.land_spec, Z.bits_0.
    destruct (Z.lt_ge_cases k n); [by rewrite Z.mul_pow2_bits_low by done|].
    rewrite (testbit_high b n k) by done. apply andb_false_r. }
  by rewrite Z.add_nocarry_lxor, Z.lxor_lor.
Qed.

(** The bit test of a flag word. *)
Lemma land_bit a n : 0 <= n -> (Z.land a (2 ^ n) =? 0) = negb (Z.testbit a n).
Proof.
  intros Hn. destruct (Z.eqb_spec (Z.land a (2 ^ n)) 0) as [E|E].
  - assert (Z.testbit (Z.land a (2 ^ n)) n = false) as H by (by rewrite E, Z.bits_0).
    rewrite Z.land_spec, Z.pow2_bits_true, andb_true_r in H by done. by rewrite H.
  - destruct (Z.testbit a n) eqn:Ea; [done|]. exfalso. apply E. apply Z.bits_inj'. intros k Hk.
    rewrite Z.land_spec, Z.pow2_bits_eqb, Z.bits_0 by done.
    destruct (Z.eqb_spec n k) as [->|]; [by rewrite Ea|apply andb_false_r].
Qed.

(** A field of [w] bits above bit [n]. *)
Lemma land_field a n w : 0 <= n -> 0 <= w ->
  Z.land (Z.shiftr a n) (2 ^ w - 1) = (a / 2 ^ n) mod 2 ^ w.
Proof. intros. by rewrite land_mask, Z.shiftr_div_pow2. Qed.
