(* ===== verification/Memory.v ===== *)
(** * Physical memory

    The byte-addressed memory behind the raw pointers of the kernel: a total
    map from addresses to bytes (its initial content is arbitrary), with the
    accesses the allocators and the page-table code make through [*mut u8],
    [*mut u32] and [core::ptr]. *)
From S2P Require Import Prelude.

(** ** Definitions *)

Definition mem : Type := Z -> Z.

Definition load8 (m : mem) (a : Z) : Z := m a.
Definition store8 (m : mem) (a v : Z) : mem := fun x => if x =? a then v else m x.

Definition load32 (m : mem) (a : Z) : Z :=
  u32_of_le (m a) (m (a + 1)) (m (a + 2)) (m (a + 3)).

Definition store32 (m : mem) (a v : Z) : mem := fun x =>
  if x =? a then v mod 256
  else if x =? a + 1 then (v / 256) mod 256
  else if x =? a + 2 then (v / 65536) mod 256
  else if x =? a + 3 then (v / 16777216) mod 256
  else m x.

(** [core::ptr::write_bytes(a, v, len)]. *)
Definition write_bytes (m : mem) (a v len : Z) : mem := fun x =>
  if (a <=? x) && (x <? a + len) then v else m x.

(** [core::ptr::copy_nonoverlapping(src, dst, len)]. *)
Definition copy_nonoverlapping (m : mem) (src dst len : Z) : mem := fun x =>
  if (dst <=? x) && (x <? dst + len) then m (src + (x - dst)) else m x.

(** The memories agree outside the addresses [P]. *)
Definition same_outside (P : Z -> Prop) (m m' : mem) : Prop :=
  forall x, ~ P x -> m' x = m x.

Definition in_block (a len x : Z) : Prop := a <= x < a + len.

(** ** Lemmas *)

Lemma le_bytes32_fits v : Forall (fits 8) (le_bytes32 v).
Proof. unfold le_bytes32. repeat constructor; apply Z.mod_pos_bound; lia. Qed.

Lemma u32_of_le_bytes v : fits 32 v ->
  u32_of_le (v mod 256) ((v / 256) mod 256) ((v / 65536) mod 256) ((v / 16777216) mod 256) = v.
Proof.
  unfold fits, u32_of_le. intros Hv.
  assert (v / 16777216 < 256) by (apply Z.div_lt_upper_bound; lia).
  rewrite (Z.mod_small (v / 16777216)) by (split; [apply Z.div_pos; lia|done]).
  change 65536 with (256 * 256). change 16777216 with (256 * 256 * 256).
  rewrite <- !Z.div_div by lia.
  pose proof (Z.div_mod v 256). pose proof (Z.div_mod (v / 256) 256).
  pose proof (Z.div_mod (v / 256 / 256) 256). lia.
Qed.

Lemma u32_of_le_fits b0 b1 b2 b3 :
  fits 8 b0 -> fits 8 b1 -> fits 8 b2 -> fits 8 b3 -> fits 32 (u32_of_le b0 b1 b2 b3).
Proof. unfold fits, u32_of_le. lia. Qed.

Lemma load32_store32_eq m a v : fits 32 v -> load32 (store32 m a v) a = v.
Proof.
  intros Hv. unfold load32, store32.
  rewrite !Z.eqb_refl.
  rewrite (proj2 (Z.eqb_neq (a + 1) a)), (proj2 (Z.eqb_neq (a + 2) a)), (proj2 (Z.eqb_neq (a + 2) (a + 1))),
    (proj2 (Z.eqb_neq (a + 3) a)), (proj2 (Z.eqb_neq (a + 3) (a + 1))), (proj2 (Z.eqb_neq (a + 3) (a + 2))) by lia.
  by apply u32_of_le_bytes.
Qed.

Lemma store32_same_outside m a v : same_outside (in_block a 4) m (store32 m a v).
Proof.
  intros x Hx. unfold store32, in_block in *.
  by rewrite !(proj2 (Z.eqb_neq _ _)) by lia.
Qed.

Lemma store8_same_outside m a v : same_outside (in_block a 1) m (store8 m a v).
Proof.
  intros x Hx. unfold store8, in_block in *. by rewrite (proj2 (Z.eqb_neq _ _)) by lia.
Qed.

Lemma load32_same_outside P m m' a :
  same_outside P m m' -> (forall x, in_block a 4 x -> ~ P x) -> load32 m' a = load32 m a.
Proof.
  intros Hs Hd. unfold load32. by rewrite !Hs by (apply Hd; unfold in_block; lia).
Qed.

Lemma load32_store32_ne m a b v :
  a + 4 <= b \/ b + 4 <= a -> load32 (store32 m a v) b = load32 m b.
Proof.
  intros. eapply load32_same_outside; [apply store32_same_outside|]. unfold in_block. lia.
Qed.

#[export] Hint Rewrite load32_store32_ne load32_store32_eq using (unfold fits in *; lia) : pi.

Lemma same_outside_weaken (P Q : Z -> Prop) m m' :
  (forall x, P x -> Q x) -> same_outside P m m' -> same_outside Q m m'.
Proof. intros HPQ Hs x Hx. apply Hs. auto. Qed.

Lemma same_outside_trans P m1 m2 m3 :
  same_outside P m1 m2 -> same_outside P m2 m3 -> same_outside P m1 m3.
Proof. intros H1 H2 x Hx. rewrite H2 by done. by apply H1. Qed.

Lemma same_outside_refl P m : same_outside P m m.
Proof. intros x Hx. done. Qed.

Lemma write_bytes_same_outside m a v len :
  same_outside (in_block a len) m (write_bytes m a v len).
Proof.
  intros x Hx. unfold write_bytes, in_block in *.
  destruct (Z.leb_spec a x), (Z.ltb_spec x (a + len)); simpl; (done || lia).
Qed.

Lemma write_bytes_in m a v len x : in_block a len x -> write_bytes m a v len x = v.
Proof.
  unfold write_bytes, in_block. intros. by rewrite (proj2 (Z.leb_le _ _)), (proj2 (Z.ltb_lt _ _)) by lia.
Qed.
