(* ===== verification/Utf8.v ===== *)
(** * Byte strings

    What the code uses of [core::str]: the check that bytes are well-formed
    UTF-8 and the string they are.  Shared by the boot parsers and FAT32. *)
From Stdlib Require Import Ascii.
From S2P Require Import Prelude.

Definition cont (b : Z) : bool := (0x80 <=? b) && (b <=? 0xbf).
Definition between (a x b : Z) : bool := (a <=? x) && (x <=? b).

(** Well-formed UTF-8, as [core::str::from_utf8] checks it. *)
Fixpoint is_utf8 (l : list Z) : bool :=
  match l with
  | [] => true
  | b :: l1 =>
      if b <? 0x80 then is_utf8 l1
      else
        match l1 with
        | [] => false
        | c1 :: l2 =>
            if between 0xc2 b 0xdf then cont c1 && is_utf8 l2
            else
              match l2 with
              | [] => false
              | c2 :: l3 =>
                  if between 0xe0 b 0xef then
                    between (if b =? 0xe0 then 0xa0 else 0x80) c1 (if b =? 0xed then 0x9f else 0xbf) &&
                    cont c2 && is_utf8 l3
                  else
                    match l3 with
                    | [] => false
                    | c3 :: l4 =>
                        between 0xf0 b 0xf4 &&
                        between (if b =? 0xf0 then 0x90 else 0x80) c1 (if b =? 0xf4 then 0x8f else 0xbf) &&
                        cont c2 && cont c3 && is_utf8 l4
                    end
              end
        end
  end.

Definition string_of_bytes (l : list Z) : string :=
  String.string_of_list_ascii (map (fun b => ascii_of_N (Z.to_N b)) l).

(** [core::str::from_utf8]. *)
Definition from_utf8 (l : list Z) : option string := if is_utf8 l then Some (string_of_bytes l) else None.
