(* ===== verification/Mmio.v ===== *)
(** * Device registers

    Hardware is not part of the repository: a device is a type of states with
    the effect of reading and writing a register.  Drivers are written against
    these classes; what a theorem relies on of a particular device is a class
    of laws next to its driver, and [RegFile] is a concrete device with plain
    storage behind every register. *)
From S2P Require Import Prelude.

(** ** Definitions *)

(** 32-bit memory-mapped registers: [read_volatile] and [write_volatile]. *)
Class Mmio (D : Type) := {
  read32 : Z -> D -> Z * D;
  write32 : Z -> Z -> D -> D;
}.

(** x86 I/O ports: [inb] and [outb]. *)
Class PortIo (D : Type) := {
  in8 : Z -> D -> Z * D;
  out8 : Z -> Z -> D -> D;
}.

Definition read_volatile `{Mmio D} (a : Z) : st D Z := fun s => Ret (read32 a s).
Definition write_volatile `{Mmio D} (a v : Z) : st D unit := fun s => Ret (tt, write32 a v s).
Definition inb `{PortIo D} (p : Z) : st D Z := fun s => Ret (in8 p s).
Definition outb `{PortIo D} (p v : Z) : st D unit := fun s => Ret (tt, out8 p v s).

(** Plain storage, with the accesses made so far (latest first). *)
Record RegFile := mkRegs { regs : gmap Z Z; writes : list (Z * Z) }.

Definition reg (a : Z) (r : RegFile) : Z := default 0 (regs r !! a).

#[export] Instance regfile_mmio : Mmio RegFile := {
  read32 a r := (reg a r, r);
  write32 a v r := mkRegs (<[a := v]> (regs r)) ((a, v) :: writes r);
}.

#[export] Instance regfile_ports : PortIo RegFile := {
  in8 a r := (reg a r, r);
  out8 a v r := mkRegs (<[a := v]> (regs r)) ((a, v) :: writes r);
}.

(** [u32::trailing_zeros]. *)
Fixpoint trailing_zeros_from (n : nat) (i : Z) (v : Z) : Z :=
  match n with
  | O => i
  | S n => if Z.testbit v i then i else trailing_zeros_from n (i + 1) v
  end.

Definition trailing_zeros (v : Z) : Z := trailing_zeros_from 32 0 v.

(** ** Lemmas *)

Lemma trailing_zeros_from_spec n : forall i v, 0 <= i ->
  let r := trailing_zeros_from n i v in
  i <= r <= i + Z.of_nat n /\ (r < i + Z.of_nat n -> Z.testbit v r = true) /\
  forall j, i <= j < r -> Z.testbit v j = false.
Proof.
  induction n as [|n IH]; intros i v Hi; cbn [trailing_zeros_from]; cbn zeta.
  { split; [lia|]. split; intros; lia. }
  destruct (Z.testbit v i) eqn:E.
  - split; [lia|]. split; [done|]. intros; lia.
  - destruct (IH (i + 1) v) as (H1 & H2 & H3); [lia|]. split; [lia|]. split; [intros; apply H2; lia|].
    intros j Hj. destruct (Z.eq_dec j i) as [->|]; [done|]. apply H3. lia.
Qed.

(** The least set bit of a non-zero word. *)
Lemma trailing_zeros_spec v : fits 32 v -> v <> 0 ->
  0 <= trailing_zeros v < 32 /\ Z.testbit v (trailing_zeros v) = true /\
  forall j, 0 <= j < trailing_zeros v -> Z.testbit v j = false.
Proof.
  intros Hv Hne. destruct (trailing_zeros_from_spec 32 0 v) as (H1 & H2 & H3); [lia|].
  fold (trailing_zeros v) in *. destruct (Z.eq_dec (trailing_zeros v) 32) as [E|].
  - exfalso. apply Hne. apply Z.bits_inj'. intros k Hk. rewrite Z.bits_0.
    destruct (Z.lt_ge_cases k 32); [apply H3; lia|]. by apply (testbit_high v 32).
  - split; [lia|]. split; [apply H2; lia|]. done.
Qed.
