(* ===== verification/Buddy.v ===== *)
(** * The buddy allocator (kernel/src/mm/buddy_allocator.rs)

    [BuddyAllocator] keeps one intrusive singly linked free list per order:
    the heads are in the struct, the links in the first word of every free
    block.  The model runs on [BuddyAllocator * mem], so that the links live
    in the memory they manage and aliasing between a free block, a header and
    a client's data is visible.

    The second half proves the allocator correct against an abstract view: a
    list of block addresses per order, well formed ([wf]) and fully coalesced
    ([coalesced]). *)
From S2P Require Import Prelude Memory.

(** ** Data and operations *)

Definition MAX_ORDER : nat := 10.

(** [size_of::<BlockHeader>()] and [align_of::<BlockHeader>()] of the
    [repr(C, align(8))] header holding one [u8]. *)
Definition HEADER_SIZE : Z := 8.
Definition HEADER_ALIGN : Z := 8.

Record BuddyAllocator := mkBuddy {
  free_lists : list Z;       (* [*mut FreeBlock; MAX_ORDER + 1], 0 is null *)
  base_addr : Z;
  total_size : Z;
  min_block_size : Z;
}.

Record Layout := mkLayout { lsize : Z; lalign : Z }.

Definition bstate : Type := BuddyAllocator * mem.

Definition set_lists (b : BuddyAllocator) (fl : list Z) : BuddyAllocator :=
  mkBuddy fl (base_addr b) (total_size b) (min_block_size b).

Definition new (min_block_size : Z) : BuddyAllocator :=
  mkBuddy (replicate (S MAX_ORDER) 0) 0 0 min_block_size.

(** A place that holds a link: a list head or the [next] field of a block. *)
Inductive link := Head (order : nat) | NextOf (block : Z).

Definition read_link (l : link) : st bstate Z := fun '(b, m) =>
  match l with
  | Head order => h ← index (free_lists b) (Z.of_nat order); Ret (h, (b, m))
  | NextOf p => Ret (load32 m p, (b, m))
  end.

Definition write_link (l : link) (v : Z) : st bstate unit := fun '(b, m) =>
  match l with
  | Head order =>
      fl ← index_set (free_lists b) (Z.of_nat order) v; Ret (tt, (set_lists b fl, m))
  | NextOf p => Ret (tt, (b, store32 m p v))
  end.

Definition add_to_free_list (addr : Z) (order : nat) : st bstate unit :=
  head ← read_link (Head order);
  _ ← write_link (NextOf addr) head;
  write_link (Head order) addr.

Definition remove_from_free_list (order : nat) : st bstate Z :=
  block ← read_link (Head order);
  next ← read_link (NextOf block);
  _ ← write_link (Head order) next;
  mret block.

(** The [while] loop of [remove_specific_from_free_list]: [cur] is the
    [&mut *mut FreeBlock] that walks the list. *)
Fixpoint remove_specific_loop (fuel : nat) (addr : Z) (cur : link) : st bstate bool :=
  match fuel with
  | O => out_of_fuel
  | S fuel =>
      block ← read_link cur;
      if block =? 0 then mret false
      else if block =? addr then
        next ← read_link (NextOf block);
        _ ← write_link cur next;
        mret true
      else remove_specific_loop fuel addr (NextOf block)
  end.

(** A list holds at most one block per [min_block_size] bytes. *)
Definition list_fuel (b : BuddyAllocator) : nat :=
  S (Z.to_nat (total_size b / min_block_size b)).

Definition remove_specific_from_free_list (addr : Z) (order : nat) : st bstate bool :=
  fun s => remove_specific_loop (list_fuel s.1) addr (Head order) s.

Section Operations.
Context `{Profile}.

Definition min_of : st bstate Z := gets (fun s : bstate => min_block_size s.1).

(** The inner [while order > 0] of [init]: the order it stops at and the
    new [current]. *)
Fixpoint init_inner (order : nat) (current remaining : Z) : st bstate (nat * Z) :=
  match order with
  | O => mret (O, current)
  | S order' =>
      min ← min_of;
      block_size ← lift (shl usize_bits min (Z.of_nat order));
      fits_here ←
        (if remaining >=? block_size then
           mask ← lift (sub usize_bits block_size 1);
           mret (Z.land current mask =? 0)
         else mret false);
      if (fits_here : bool) then
        _ ← add_to_free_list current order;
        current' ← lift (add usize_bits current block_size);
        mret (order, current')
      else init_inner order' current remaining
  end.

Fixpoint init_loop (fuel : nat) (current end_ : Z) : st bstate unit :=
  match fuel with
  | O => out_of_fuel
  | S fuel =>
      min ← min_of;
      next ← lift (add usize_bits current min);
      if next <=? end_ then
        remaining ← lift (sub usize_bits end_ current);
        '(order, current1) ← init_inner MAX_ORDER current remaining;
        current2 ←
          (if (order =? 0)%nat && (remaining >=? min) then
             _ ← add_to_free_list current1 0;
             lift (add usize_bits current1 min)
           else mret current1);
        init_loop fuel current2 end_
      else mret tt
  end.

(** Every iteration places a block of at least [min_block_size] bytes. *)
Definition init (start_addr end_addr : Z) : st bstate unit :=
  min ← min_of;
  t ← lift (add usize_bits start_addr min);
  t ← lift (sub usize_bits t 1);
  mask ← lift (sub usize_bits min 1);
  let start := Z.land t (lnot usize_bits mask) in
  let end_ := Z.land end_addr (lnot usize_bits mask) in
  total ← lift (sub usize_bits end_ start);
  _ ← modify (fun '(b, m) => (mkBuddy (replicate (S MAX_ORDER) 0) start total min, m));
  init_loop (S (Z.to_nat (total / min))) start end_.

(** The [for split_order in ((order + 1)..=higher_order).rev()] loop. *)
Fixpoint split_loop (block : Z) (orders : list nat) : st bstate unit :=
  match orders with
  | [] => mret tt
  | split_order :: orders =>
      min ← min_of;
      half ← lift (shl usize_bits min (Z.of_nat (split_order - 1)));
      buddy ← lift (add usize_bits block half);
      _ ← add_to_free_list buddy (split_order - 1);
      split_loop block orders
  end.

(** The [for higher_order in (order + 1)..=MAX_ORDER] loop. *)
Fixpoint higher_loop (order : nat) (orders : list nat) : st bstate (option Z) :=
  match orders with
  | [] => mret None
  | higher_order :: orders =>
      head ← read_link (Head higher_order);
      if head =? 0 then higher_loop order orders
      else
        block ← remove_from_free_list higher_order;
        _ ← split_loop block (rev (seq (S order) (higher_order - order)));
        mret (Some block)
  end.

Definition alloc_block_order (order : nat) : st bstate (option Z) :=
  if (MAX_ORDER <? order)%nat then mret None
  else
    head ← read_link (Head order);
    if head =? 0 then higher_loop order (seq (S order) (MAX_ORDER - order))
    else block ← remove_from_free_list order; mret (Some block).

Definition alloc_block : st bstate (option Z) := alloc_block_order 0.

(** The merging [while current_order < MAX_ORDER]; [n] is
    [MAX_ORDER - current_order]. *)
Fixpoint merge_loop (n : nat) (current_addr : Z) (current_order : nat)
  : st bstate (Z * nat) :=
  match n with
  | O => mret (current_addr, current_order)
  | S n =>
      min ← min_of;
      block_size ← lift (shl usize_bits min (Z.of_nat current_order));
      let buddy_addr := Z.lxor current_addr block_size in
      base ← gets (fun s : bstate => base_addr s.1);
      total ← gets (fun s : bstate => total_size s.1);
      outside ←
        (if buddy_addr <? base then mret true
         else limit ← lift (add usize_bits base total); mret (buddy_addr >=? limit));
      if (outside : bool) then mret (current_addr, current_order)
      else
        removed ← remove_specific_from_free_list buddy_addr current_order;
        if (removed : bool)
        then merge_loop n (Z.min current_addr buddy_addr) (S current_order)
        else mret (current_addr, current_order)
  end.

Definition free_block (addr : Z) (order : nat) : st bstate unit :=
  if (MAX_ORDER <? order)%nat then mret tt
  else
    '(current_addr, current_order) ← merge_loop (MAX_ORDER - order) addr order;
    add_to_free_list current_addr current_order.

(** The [while block_size < total_size] loop of [alloc]. *)
Fixpoint order_loop (fuel : nat) (total : Z) (order : nat) (block_size : Z)
  : outcome (nat * Z) :=
  match fuel with
  | O => OutOfFuel
  | S fuel =>
      if block_size <? total then
        block_size' ← shl usize_bits block_size 1;
        order_loop fuel total (S order) block_size'
      else Ret (order, block_size)
  end.

(** After 32 doublings the shifted-out [block_size] is 0 for good. *)
Definition order_fuel : nat := 33.

Definition alloc (layout : Layout) : st bstate (option Z) :=
  if lsize layout =? 0 then mret None
  else
    let align := Z.max (lalign layout) HEADER_ALIGN in
    t ← lift (add usize_bits HEADER_SIZE align);
    t ← lift (sub usize_bits t 1);
    mask ← lift (sub usize_bits align 1);
    let header_size := Z.land t (lnot usize_bits mask) in
    total ← lift (add usize_bits (lsize layout) header_size);
    min ← min_of;
    '(order, _) ← lift (order_loop order_fuel total 0 min);
    r ← alloc_block_order order;
    match r with
    | None => mret None
    | Some addr =>
        _ ← modify (fun '(b, m) => (b, store8 m addr (wrap 8 (Z.of_nat order))));
        user_ptr ← lift (add usize_bits addr header_size);
        _ ← lift (debug_assert (user_ptr mod align =? 0));
        mret (Some user_ptr)
    end.

Definition free (ptr : Z) : st bstate unit :=
  if ptr =? 0 then mret tt
  else
    header_addr ← lift (sub usize_bits ptr HEADER_SIZE);
    order ← gets (fun s : bstate => load8 s.2 header_addr);
    free_block header_addr (Z.to_nat order).
End Operations.

(** ** Geometry of blocks *)

Section Geometry.
Context (mn : Z).        (* log2 of [min_block_size] *)

(** Size of a block of order [k]. *)
Definition bsz (k : nat) : Z := 2 ^ (mn + Z.of_nat k).

Definition aligned (a : Z) (k : nat) : Prop := (bsz k | a).

Definition buddy_of (a : Z) (k : nat) : Z := Z.lxor a (bsz k).

Definition block_bytes (a : Z) (k : nat) : Z -> Prop := in_block a (bsz k).

Definition disjoint_blocks (a : Z) (k : nat) (a' : Z) (k' : nat) : Prop :=
  a + bsz k <= a' \/ a' + bsz k' <= a.

Context (Hmn : 0 <= mn).

Lemma bsz_pos k : 0 < bsz k.
Proof using Hmn. apply Z.pow_pos_nonneg; lia. Qed.

Lemma bsz_S k : bsz (S k) = 2 * bsz k.
Proof using Hmn.
  unfold bsz. rewrite <- Z.pow_succ_r by lia. f_equal. lia.
Qed.

Lemma bsz_0 : bsz 0 = 2 ^ mn.
Proof using. unfold bsz. f_equal. lia. Qed.

Lemma bsz_le j k : (j <= k)%nat -> bsz j <= bsz k.
Proof using Hmn. intros. apply Z.pow_le_mono_r; lia. Qed.

Lemma bsz_divide j k : (j <= k)%nat -> (bsz j | bsz k).
Proof using Hmn.
  intros. exists (2 ^ Z.of_nat (k - j)). unfold bsz.
  rewrite <- Z.pow_add_r by lia. f_equal. lia.
Qed.

Lemma aligned_le a j k : (j <= k)%nat -> aligned a k -> aligned a j.
Proof using Hmn. intros ??. eapply Z.divide_trans; [by apply bsz_divide|done]. Qed.

Lemma aligned_add a j k : (j <= k)%nat -> aligned a k -> aligned (a + bsz j) j.
Proof using Hmn.
  intros ? Ha. apply Z.divide_add_r; [by eapply aligned_le|apply Z.divide_refl].
Qed.

(** The mask test of [init] decides alignment. *)
Lemma land_aligned a k : Z.land a (bsz k - 1) = 0 <-> aligned a k.
Proof using Hmn.
  unfold bsz. rewrite land_mask by lia. pose proof (bsz_pos k). unfold aligned, bsz in *.
  split; [apply Z.mod_divide; lia|intros ?%Z.mod_divide; lia].
Qed.

(** The buddy of an aligned block is its other half at the next order. *)
Lemma buddy_cases a k : aligned a k ->
  (aligned a (S k) /\ buddy_of a k = a + bsz k) \/
  (aligned (a - bsz k) (S k) /\ buddy_of a k = a - bsz k).
Proof using Hmn.
  intros [q ->].
  assert (buddy_of (q * bsz k) k = if Z.even q then (q + 1) * bsz k else (q - 1) * bsz k) as ->
    by (apply lxor_pow2; lia).
  unfold aligned. rewrite bsz_S.
  destruct (Z.even q) eqn:E.
  - left. apply Z.even_spec in E as [c ->]. split; [exists c; lia|lia].
  - right. assert (Z.odd q = true) as [c ->]%Z.odd_spec by (by rewrite <- Z.negb_even, E).
    split; [exists c; lia|lia].
Qed.

Lemma buddy_involutive a k : buddy_of (buddy_of a k) k = a.
Proof using. unfold buddy_of. by rewrite Z.lxor_assoc, Z.lxor_nilpotent, Z.lxor_0_r. Qed.

Lemma buddy_upper a k : aligned a (S k) -> buddy_of (a + bsz k) k = a.
Proof using Hmn.
  intros Ha. destruct (buddy_cases a k) as [[_ E]|[Ha' E]].
  - eapply aligned_le; [|done]. lia.
  - rewrite <- E. apply buddy_involutive.
  - exfalso. pose proof (bsz_pos k) as Hp.
    destruct Ha as [p ->], Ha' as [q Hq].
    rewrite bsz_S in Hq. assert (bsz k * (2 * (p - q) - 1) = 0) as [?|?]%Z.mul_eq_0 by lia; lia.
Qed.

(** A block and its buddy make up the block of the next order. *)
Lemma buddy_merge a k : aligned a k ->
  let m := Z.min a (buddy_of a k) in
  aligned m (S k) /\
  (forall x, block_bytes m (S k) x <-> block_bytes a k x \/ block_bytes (buddy_of a k) k x).
Proof using Hmn.
  intros Ha m. pose proof (bsz_pos k). pose proof (bsz_S k).
  unfold m, block_bytes, in_block.
  destruct (buddy_cases a k Ha) as [[Ha' ->]|[Ha' ->]].
  - rewrite Z.min_l by lia. split; [done|]. lia.
  - rewrite Z.min_r by lia. split; [done|]. lia.
Qed.
End Geometry.

(** ** Abstract view and invariant *)

(** The list of blocks that starts at link value [h]. *)
Fixpoint chain (m : mem) (h : Z) (l : list Z) : Prop :=
  match l with
  | [] => h = 0
  | a :: l => h = a /\ a <> 0 /\ chain m (load32 m a) l
  end.

Definition free_in (fl : list (list Z)) (a : Z) (k : nat) : Prop :=
  exists l, fl !! k = Some l /\ a ∈ l.

Definition free_byte (mn : Z) (fl : list (list Z)) (x : Z) : Prop :=
  exists a k, free_in fl a k /\ block_bytes mn a k x.

Definition in_region (mn : Z) (b : BuddyAllocator) (a : Z) (k : nat) : Prop :=
  base_addr b <= a /\ a + bsz mn k <= base_addr b + total_size b.

(** The managed region: [min_block_size = 2^mn] holds a link and a header,
    the largest block fits a [usize], the region excludes address 0 and ends
    before the address space does. *)
Record geom (mn : Z) (b : BuddyAllocator) : Prop := {
  g_mn : 3 <= mn < 22;
  g_min : min_block_size b = 2 ^ mn;
  g_base : 0 < base_addr b;
  g_total : 0 <= total_size b;
  g_limit : base_addr b + total_size b < 2 ^ 32;
}.

Record wf (mn : Z) (s : bstate) (fl : list (list Z)) : Prop := {
  wf_geom : geom mn s.1;
  wf_heads : length (free_lists s.1) = S MAX_ORDER;
  wf_lists : length fl = S MAX_ORDER;
  wf_chain k h l : free_lists s.1 !! k = Some h -> fl !! k = Some l -> chain s.2 h l;
  wf_block a k : free_in fl a k -> aligned mn a k /\ in_region mn s.1 a k;
  wf_disj a k a' k' : free_in fl a k -> free_in fl a' k' -> (a, k) <> (a', k') ->
    disjoint_blocks mn a k a' k';
  wf_nodup k l : fl !! k = Some l -> NoDup l;
}.

(** No two free blocks are buddies: everything that can merge has merged. *)
Definition coalesced (mn : Z) (fl : list (list Z)) : Prop :=
  forall a k, (k < MAX_ORDER)%nat -> free_in fl a k -> ~ free_in fl (buddy_of mn a k) k.

(** The free lists change, the managed region does not. *)
Definition same_region (b b' : BuddyAllocator) : Prop :=
  base_addr b' = base_addr b /\ total_size b' = total_size b /\
  min_block_size b' = min_block_size b.

(** ** Free lists *)

Lemma free_in_insert fl k l' a j : (k < length fl)%nat ->
  free_in (<[k := l']> fl) a j <-> (j = k /\ a ∈ l') \/ (j <> k /\ free_in fl a j).
Proof.
  intros Hk. unfold free_in. destruct (decide (j = k)) as [->|Hne].
  - rewrite list_lookup_insert_eq by done. naive_solver.
  - rewrite list_lookup_insert_ne by done. naive_solver.
Qed.

Lemma free_in_bound fl a k : free_in fl a k -> (k < length fl)%nat.
Proof. intros (l & H & _). by apply lookup_lt_Some in H. Qed.

Lemma chain_frame m m' h l :
  (forall a, a ∈ l -> load32 m' a = load32 m a) -> chain m h l -> chain m' h l.
Proof.
  revert h. induction l as [|a l IH]; intros h Hf; simpl; [done|].
  intros (-> & Ha & Hc). rewrite Hf by set_solver. split; [done|]. split; [done|].
  apply IH; [set_solver|done].
Qed.

Lemma chain_head m h l : chain m h l -> h = 0 \/ h ∈ l.
Proof. destruct l; simpl; [by left|]. intros (-> & _). set_solver. Qed.

Lemma chain_nonzero m h l : chain m h l -> l <> [] -> h <> 0.
Proof. destruct l; simpl; [done|]. intros (-> & ? & _) _. done. Qed.

Section Invariant.
Context (mn : Z).

Lemma wf_free_fits s fl a k : wf mn s fl -> free_in fl a k -> 0 < a /\ fits 32 a.
Proof using.
  intros Hwf Hin. destruct (wf_block _ _ _ Hwf _ _ Hin) as [_ [??]].
  destruct (wf_geom _ _ _ Hwf). pose proof (bsz_pos mn ltac:(lia) k). unfold fits. lia.
Qed.

Lemma wf_head_fits s fl k h l : wf mn s fl -> fl !! k = Some l -> chain s.2 h l -> fits 32 h.
Proof using.
  intros Hwf Hl [->|Hin]%chain_head; [unfold fits; lia|].
  eapply wf_free_fits; [done|]. by exists l.
Qed.

Lemma bsz_ge_8 k : 3 <= mn -> 8 <= bsz mn k.
Proof using.
  intros. change 8 with (2 ^ 3). apply Z.pow_le_mono_r; lia.
Qed.

(** A memory change outside the free blocks is invisible to the allocator. *)
Lemma wf_frame b m m' fl P : wf mn (b, m) fl -> same_outside P m m' ->
  (forall x, free_byte mn fl x -> ~ P x) -> wf mn (b, m') fl.
Proof using.
  intros Hwf Hs Hd. destruct Hwf as [Hg ?? Hc ???]. split; try done. simpl in *.
  intros k h l Hh Hl. eapply chain_frame; [|by eapply Hc].
  intros a Ha. eapply load32_same_outside; [done|].
  intros x Hx. apply Hd. exists a, k. split; [by exists l|].
  unfold block_bytes, in_block in *. pose proof (bsz_ge_8 k). destruct Hg. lia.
Qed.

(** Shrinking one list keeps the invariant. *)
Lemma wf_update b m m' fl k l l' h' : wf mn (b, m) fl -> fl !! k = Some l ->
  (forall a, a ∈ l' -> a ∈ l) -> NoDup l' -> chain m' h' l' ->
  (forall j a, j <> k -> free_in fl a j -> load32 m' a = load32 m a) ->
  wf mn (set_lists b (<[k := h']> (free_lists b)), m') (<[k := l']> fl).
Proof using.
  intros Hwf Hl Hsub Hnd Hc Hf. destruct Hwf as [Hg Hh Hfl Hch Hb Hd Hn]. simpl in *.
  assert (Hkl : (k < length fl)%nat) by by eapply lookup_lt_Some.
  assert (Hmono : forall a j, free_in (<[k := l']> fl) a j -> free_in fl a j).
  { intros a j [[-> ?]|[_ ?]]%free_in_insert; [|done|done]. exists l. auto. }
  split; simpl; rewrite ?length_insert; try done.
  - destruct Hg; by split.
  - intros j h lj Hhj Hlj. destruct (decide (j = k)) as [->|Hne].
    + rewrite list_lookup_insert_eq in Hhj by lia.
      rewrite list_lookup_insert_eq in Hlj by lia. by simplify_eq.
    + rewrite list_lookup_insert_ne in Hhj by done. rewrite list_lookup_insert_ne in Hlj by done.
      eapply chain_frame; [|by eapply Hch]. intros a Ha. apply (Hf j); [done|]. by exists lj.
  - intros a j Hin. by apply Hb, Hmono.
  - intros a j a' j' ?%Hmono ?%Hmono. by apply Hd.
  - intros j lj Hlj. destruct (decide (j = k)) as [->|Hne].
    + rewrite list_lookup_insert_eq in Hlj by lia. by simplify_eq.
    + rewrite list_lookup_insert_ne in Hlj by done. by eapply Hn.
Qed.
End Invariant.

(** ** Specifications of the list primitives *)

Section Primitives.
Context (mn : Z).

Lemma wf_order b m fl (k : nat) l : wf mn (b, m) fl -> fl !! k = Some l ->
  (k < length (free_lists b))%nat /\ (k < length fl)%nat.
Proof using.
  intros Hwf Hl%lookup_lt_Some. pose proof (wf_heads _ _ _ Hwf).
  pose proof (wf_lists _ _ _ Hwf). simpl in *. lia.
Qed.

Lemma wf_head b m fl (k : nat) l : wf mn (b, m) fl -> fl !! k = Some l ->
  exists h, free_lists b !! k = Some h /\ chain m h l /\
    read_link (Head k) (b, m) = Ret (h, (b, m)).
Proof using.
  intros Hwf Hl. destruct (wf_order _ _ _ _ _ Hwf Hl) as [Hk _].
  destruct (lookup_lt_is_Some_2 (free_lists b) k Hk) as [h Hh].
  exists h. split; [done|]. split; [by eapply (wf_chain _ _ _ Hwf)|].
  simpl. by rewrite (index_nat _ _ h).
Qed.

Lemma write_head b m fl k l h : wf mn (b, m) fl -> fl !! k = Some l ->
  write_link (Head k) h (b, m) = Ret (tt, (set_lists b (<[k := h]> (free_lists b)), m)).
Proof using.
  intros Hwf Hl. destruct (wf_order _ _ _ _ _ Hwf Hl) as [Hk _].
  simpl. rewrite index_set_ok by lia. by rewrite Nat2Z.id.
Qed.

(** A block that shares no byte with the free blocks lies apart from them. *)
Lemma fresh_apart fl a k c j : 3 <= mn ->
  (forall x, block_bytes mn a k x -> ~ free_byte mn fl x) -> free_in fl c j ->
  disjoint_blocks mn a k c j.
Proof using.
  intros Hmn Hfresh Hc. unfold disjoint_blocks.
  pose proof (bsz_ge_8 mn j Hmn). pose proof (bsz_ge_8 mn k Hmn).
  destruct (Z.le_gt_cases (a + bsz mn k) c); [by left|].
  destruct (Z.le_gt_cases (c + bsz mn j) a); [by right|]. exfalso.
  apply (Hfresh (Z.max a c)); [unfold block_bytes, in_block; lia|].
  exists c, j. split; [done|]. unfold block_bytes, in_block. lia.
Qed.

Lemma free_blocks_apart s fl a k c j : wf mn s fl -> free_in fl a k ->
  free_in fl c j -> (a, k) <> (c, j) -> a + 8 <= c \/ c + 8 <= a.
Proof using.
  intros Hwf H1 H2 Hne. destruct (wf_geom _ _ _ Hwf).
  pose proof (wf_disj _ _ _ Hwf _ _ _ _ H1 H2 Hne) as Hd. unfold disjoint_blocks in Hd.
  pose proof (bsz_ge_8 mn k). pose proof (bsz_ge_8 mn j). lia.
Qed.

Lemma free_in_push fl (k : nat) l a c j : fl !! k = Some l ->
  free_in (<[k := a :: l]> fl) c j <-> (c = a /\ j = k) \/ free_in fl c j.
Proof using.
  intros Hl. rewrite free_in_insert by by eapply lookup_lt_Some.
  unfold free_in. destruct (decide (j = k)) as [->|]; set_solver.
Qed.

(** Once its link is written, a fresh block can be made the head. *)
Lemma wf_push b m fl k l a : wf mn (b, m) fl -> fl !! k = Some l ->
  aligned mn a k -> in_region mn b a k ->
  (forall x, block_bytes mn a k x -> ~ free_byte mn fl x) ->
  chain m (load32 m a) l ->
  wf mn (set_lists b (<[k := a]> (free_lists b)), m) (<[k := a :: l]> fl).
Proof using.
  intros Hwf Hl Hal Hreg Hfresh Hc. destruct (wf_order _ _ _ _ _ Hwf Hl) as [Hk Hk'].
  destruct Hwf as [Hg Hhl Hfl Hch Hbl Hd Hn]; simpl in *. pose proof Hg as [??? _ _].
  assert (Hda : forall c j, free_in fl c j -> disjoint_blocks mn a k c j).
  { intros c j. apply fresh_apart; [lia|done]. }
  split; simpl; rewrite ?length_insert; try done.
  - destruct Hg; by split.
  - intros j hj lj Hhj Hlj. destruct (decide (j = k)) as [->|Hne].
    + rewrite list_lookup_insert_eq in Hhj by done. rewrite list_lookup_insert_eq in Hlj by done.
      simplify_eq. simpl. unfold in_region in *. split; [done|]. split; [lia|done].
    + rewrite list_lookup_insert_ne in Hhj by done. rewrite list_lookup_insert_ne in Hlj by done.
      by eapply Hch.
  - intros c j [[-> ->]|?]%free_in_push; [done|by apply Hbl|done].
  - intros c j c' j' [[-> ->]|?]%free_in_push [[-> ->]|?]%free_in_push Hne; try done; auto.
    apply or_comm. by apply Hda.
  - intros j lj Hlj. destruct (decide (j = k)) as [->|Hne].
    + rewrite list_lookup_insert_eq in Hlj by done. simplify_eq. constructor; [|by eapply Hn].
      intros Hin. destruct (Hda a k) as [?|?]; [by exists l| |]; pose proof (bsz_ge_8 mn k); lia.
    + rewrite list_lookup_insert_ne in Hlj by done. by eapply Hn.
Qed.

(** [add_to_free_list] pushes the block. *)
Lemma add_spec b m fl k l a : wf mn (b, m) fl -> fl !! k = Some l ->
  aligned mn a k -> in_region mn b a k ->
  (forall x, block_bytes mn a k x -> ~ free_byte mn fl x) ->
  exists b' m', add_to_free_list a k (b, m) = Ret (tt, (b', m')) /\
    wf mn (b', m') (<[k := a :: l]> fl) /\ same_region b b' /\
    same_outside (block_bytes mn a k) m m'.
Proof using.
  intros Hwf Hl Hal Hreg Hfresh.
  destruct (wf_head _ _ _ _ _ Hwf Hl) as (h & Hh & Hc & Hrd).
  assert (Hhf : fits 32 h) by by eapply (wf_head_fits _ (b, m)).
  assert (Hso : same_outside (block_bytes mn a k) m (store32 m a h)).
  { eapply same_outside_weaken; [|apply store32_same_outside]. intros x.
    pose proof (bsz_ge_8 mn k). destruct (wf_geom _ _ _ Hwf). unfold block_bytes, in_block. lia. }
  assert (Hwf' : wf mn (b, store32 m a h) fl).
  { eapply wf_frame; [done|done|]. naive_solver. }
  exists (set_lists b (<[k := a]> (free_lists b))), (store32 m a h).
  split; [|split; [|by repeat split]].
  - unfold add_to_free_list. erewrite stbind_step by done.
    erewrite stbind_step by done. by erewrite write_head.
  - apply wf_push; try done. rewrite load32_store32_eq by done.
    by apply (wf_chain _ _ _ Hwf' k).
Qed.

(** [remove_from_free_list] pops the head. *)
Lemma remove_head_spec b m fl k l a : wf mn (b, m) fl -> fl !! k = Some (a :: l) ->
  exists b', remove_from_free_list k (b, m) = Ret (a, (b', m)) /\
    wf mn (b', m) (<[k := l]> fl) /\ same_region b b'.
Proof using.
  intros Hwf Hl. destruct (wf_head _ _ _ _ _ Hwf Hl) as (h & Hh & Hc & Hrd). simpl in Hc.
  destruct Hc as (-> & Ha & Hc).
  exists (set_lists b (<[k := load32 m a]> (free_lists b))). split; [|split; [|done]].
  - unfold remove_from_free_list. erewrite stbind_step by done.
    erewrite stbind_step by done. by erewrite stbind_step by by eapply write_head.
  - pose proof (wf_nodup _ _ _ Hwf _ _ Hl) as [_ Hnd]%NoDup_cons.
    eapply wf_update; try done. set_solver.
Qed.
End Primitives.

(** ** Searching a list *)

Section Search.
Context (mn : Z).

Definition spaced (l : list Z) : Prop :=
  forall c d, c ∈ l -> d ∈ l -> c <> d -> c + 4 <= d \/ d + 4 <= c.

Definition links_of (l : list Z) (x : Z) : Prop := exists c, c ∈ l /\ in_block c 4 x.

Definition without (addr : Z) (l : list Z) : list Z := filter (fun c => c <> addr) l.

Lemma without_notin addr l : addr ∉ l -> without addr l = l.
Proof using.
  intros Hn. unfold without. induction l as [|c l IH]; [done|].
  rewrite filter_cons_True by set_solver. f_equal. apply IH. set_solver.
Qed.

Lemma without_spec addr l c : c ∈ without addr l <-> c <> addr /\ c ∈ l.
Proof using. unfold without. by rewrite list_elem_of_filter. Qed.

(** The walk from the [next] field of block [p]. *)
Lemma search_next addr : forall l fuel p b m,
  chain m (load32 m p) l -> (length l < fuel)%nat -> NoDup (p :: l) -> spaced (p :: l) ->
  (forall c, c ∈ l -> fits 32 c) ->
  if decide (addr ∈ l) then
    exists m', remove_specific_loop fuel addr (NextOf p) (b, m) = Ret (true, (b, m')) /\
      chain m' (load32 m' p) (without addr l) /\ same_outside (links_of (p :: l)) m m'
  else remove_specific_loop fuel addr (NextOf p) (b, m) = Ret (false, (b, m)).
Proof using.
  induction l as [|c l IH]; intros [|fuel] p b m Hc Hlen Hnd Hsp Hfit; simpl in Hlen; try lia.
  { rewrite decide_False by set_solver. simpl in Hc. simpl. unfold mbind, st_bind; simpl.
    by rewrite Hc. }
  apply NoDup_cons in Hnd as [Hp Hnd]. destruct Hc as (Hpc & Hc0 & Hc).
  cbn [remove_specific_loop]. erewrite stbind_step by done. rewrite Hpc.
  rewrite (proj2 (Z.eqb_neq c 0)) by done.
  destruct (Z.eqb_spec c addr) as [->|Hca].
  - rewrite decide_True by set_solver.
    exists (store32 m p (load32 m addr)). apply NoDup_cons in Hnd as [Ha Hnd].
    assert (fits 32 (load32 m addr)).
    { apply chain_head in Hc as [->|?]; [unfold fits; lia|]. apply Hfit. set_solver. }
    split; [done|]. unfold without. rewrite filter_cons_False by naive_solver.
    fold (without addr l). rewrite (without_notin _ _ Ha). split.
    + rewrite load32_store32_eq by done. eapply chain_frame; [|done]. intros d Hd.
      apply load32_store32_ne. apply Hsp; set_solver.
    + eapply same_outside_weaken; [|apply store32_same_outside]. intros x Hx.
      exists p. set_solver.
  - assert (Hsp' : spaced (c :: l)) by (intros ????; apply Hsp; set_solver).
    assert (Hfit' : forall d, d ∈ l -> fits 32 d) by (intros; apply Hfit; set_solver).
    specialize (IH fuel c b m Hc ltac:(lia) Hnd Hsp' Hfit').
    destruct (decide (addr ∈ l)) as [Hin|Hin].
    + rewrite decide_True by set_solver. destruct IH as (m' & -> & Hc' & Hso).
      exists m'. split; [done|]. unfold without. rewrite filter_cons_True by done.
      fold (without addr l). assert (Hsame : load32 m' p = c).
      { rewrite <- Hpc. eapply load32_same_outside; [done|]. intros x Hx (d & Hd & Hdx).
        unfold in_block in *. destruct (Hsp p d); [set_solver..|lia|lia]. }
      split; [by rewrite Hsame|]. eapply same_outside_weaken; [|done].
      intros x (d & ? & ?). exists d. set_solver.
    + by rewrite decide_False by set_solver.
Qed.

(** Disjoint blocks in the region are at most [total / min] many. *)
Lemma block_count (l : list Z) base total s : 0 < s -> NoDup l ->
  (forall c, c ∈ l -> base <= c /\ c + s <= base + total) ->
  (forall c d, c ∈ l -> d ∈ l -> c <> d -> c + s <= d \/ d + s <= c) ->
  (length l <= Z.to_nat (total / s))%nat.
Proof using.
  intros Hs Hnd Hr Hd.
  set (f := fun c => Z.to_nat ((c - base) / s)).
  assert (Hf : NoDup (f <$> l)).
  { apply NoDup_fmap_2_strong; [|done]. intros c d Hc Hdd E. unfold f in E.
    destruct (decide (c = d)) as [|Hne]; [done|]. exfalso.
    pose proof (Hr _ Hc). pose proof (Hr _ Hdd).
    assert (0 <= (c - base) / s) by (apply Z.div_pos; lia).
    assert (0 <= (d - base) / s) by (apply Z.div_pos; lia).
    apply Z2Nat.inj in E; [|done..].
    pose proof (Z.div_mod (c - base) s ltac:(lia)). pose proof (Z.mod_pos_bound (c - base) s Hs).
    pose proof (Z.div_mod (d - base) s ltac:(lia)). pose proof (Z.mod_pos_bound (d - base) s Hs).
    destruct (Hd c d Hc Hdd Hne); nia. }
  rewrite <- (length_fmap f l), <- (length_seq (Z.to_nat (total / s)) 0).
  apply submseteq_length, NoDup_submseteq; [done|].
  intros i (c & -> & Hc)%list_elem_of_fmap. apply elem_of_seq. unfold f.
  pose proof (Hr _ Hc). split; [lia|]. simpl.
  assert ((c - base) / s < total / s); [|pose proof (Z.div_pos (c - base) s); lia].
  apply Z.lt_le_trans with ((c - base + s) / s); [|apply Z.div_le_mono; lia].
  replace (c - base + s) with (c - base + 1 * s) by lia. rewrite Z.div_add by lia. lia.
Qed.
End Search.

Section RemoveSpecific.
Context (mn : Z).

Lemma wf_spaced b m fl (k : nat) l : wf mn (b, m) fl -> fl !! k = Some l -> spaced l.
Proof using.
  intros Hwf Hl c d Hc Hd Hne.
  destruct (wf_geom _ _ _ Hwf). pose proof (bsz_ge_8 mn k).
  destruct (wf_disj _ _ _ Hwf c k d k) as [?|?]; [by exists l|by exists l|congruence|lia|lia].
Qed.

Lemma wf_list_fuel b m fl (k : nat) l : wf mn (b, m) fl -> fl !! k = Some l ->
  (length l < list_fuel b)%nat.
Proof using.
  intros Hwf Hl. destruct (wf_geom _ _ _ Hwf) as [? Hmin ???]; simpl in *.
  unfold list_fuel. rewrite Hmin. apply le_n_S.
  pose proof (bsz_le mn ltac:(lia) 0 k ltac:(lia)) as Hle. rewrite bsz_0 in Hle.
  apply (block_count l (base_addr b)).
  - apply Z.pow_pos_nonneg; lia.
  - by eapply (wf_nodup _ _ _ Hwf).
  - intros c Hc. destruct (wf_block _ _ _ Hwf c k) as [_ [??]]; [by exists l|]. simpl in *. lia.
  - intros c d Hc Hd Hne.
    destruct (wf_disj _ _ _ Hwf c k d k) as [?|?]; [by exists l|by exists l|congruence|lia|lia].
Qed.

Lemma links_free b m fl (k : nat) l x : wf mn (b, m) fl -> fl !! k = Some l ->
  links_of l x -> free_byte mn fl x.
Proof using.
  intros Hwf Hl (c & Hc & Hx). exists c, k. split; [by exists l|].
  destruct (wf_geom _ _ _ Hwf). pose proof (bsz_ge_8 mn k).
  unfold block_bytes, in_block in *. lia.
Qed.

Lemma set_lists_id b (k : nat) h : free_lists b !! k = Some h ->
  set_lists b (<[k := h]> (free_lists b)) = b.
Proof using. intros Hh. rewrite list_insert_id by done. by destruct b. Qed.

(** [remove_specific_from_free_list] takes the block out if it is listed and
    reports whether it was; its walk always ends. *)
Lemma remove_specific_spec b m fl k l addr : wf mn (b, m) fl -> fl !! k = Some l ->
  if decide (addr ∈ l) then
    exists b' m', remove_specific_from_free_list addr k (b, m) = Ret (true, (b', m')) /\
      wf mn (b', m') (<[k := without addr l]> fl) /\ same_region b b' /\
      same_outside (free_byte mn fl) m m'
  else remove_specific_from_free_list addr k (b, m) = Ret (false, (b, m)).
Proof using.
  intros Hwf Hl. destruct (wf_head _ _ _ _ _ _ Hwf Hl) as (h & Hh & Hc & Hrd).
  pose proof (wf_list_fuel _ _ _ _ _ Hwf Hl) as Hfuel.
  pose proof (wf_nodup _ _ _ Hwf _ _ Hl) as Hnd. pose proof (wf_spaced _ _ _ _ _ Hwf Hl) as Hsp.
  unfold remove_specific_from_free_list; cbn [fst].
  revert Hfuel. generalize (list_fuel b) as fl_fuel. intros [|fuel] Hfuel; [lia|].
  cbn [remove_specific_loop]. erewrite stbind_step by done.
  destruct l as [|p l]; [simpl in Hc; subst h; by rewrite decide_False by set_solver|].
  destruct Hc as (-> & Hp0 & Hc). rewrite (proj2 (Z.eqb_neq p 0)) by done.
  apply NoDup_cons in Hnd as [Hp Hnd].
  destruct (Z.eqb_spec p addr) as [->|Hpa].
  - rewrite decide_True by set_solver.
    exists (set_lists b (<[k := load32 m addr]> (free_lists b))), m.
    unfold without. rewrite filter_cons_False by naive_solver. fold (without addr l).
    rewrite without_notin by done. split; [|split; [|split; [done|by apply same_outside_refl]]].
    + erewrite stbind_step by done. by erewrite stbind_step by by eapply write_head.
    + eapply wf_update; try done. set_solver.
  - pose proof (search_next addr l fuel p b m Hc ltac:(simpl in Hfuel; lia)) as Hs.
    assert (Hfits : forall c, c ∈ l -> fits 32 c).
    { intros c ?. eapply (wf_free_fits _ _ _ _ k Hwf). exists (p :: l). set_solver. }
    specialize (Hs ltac:(by constructor) Hsp Hfits).
    destruct (decide (addr ∈ l)) as [Hin|Hin]; [|by rewrite decide_False by set_solver].
    rewrite decide_True by set_solver. destruct Hs as (m' & Heq & Hc' & Hso).
    unfold without. rewrite filter_cons_True by done. fold (without addr l).
    exists b, m'. split; [done|]. split; [|split; [done|]].
    + rewrite <- (set_lists_id b k p) by done. eapply wf_update; try done.
      * intros a [->|[_ ?]%without_spec]%elem_of_cons; set_solver.
      * constructor; [by intros [??]%without_spec|by apply NoDup_filter].
      * intros j a Hne Ha. eapply load32_same_outside; [done|]. intros x Hx (c & Hc1 & Hcx).
        destruct (free_blocks_apart mn (b, m) fl a j c k) as [?|?]; try done;
          [by exists (p :: l)|congruence|unfold in_block in *; lia..].
    + eapply same_outside_weaken; [|done]. intros x. by eapply links_free.
Qed.
End RemoveSpecific.

(** ** Bytes covered by the free lists *)

Section Cover.
Context (mn : Z).

Lemma free_byte_push fl (k : nat) l a x : fl !! k = Some l ->
  free_byte mn (<[k := a :: l]> fl) x <-> block_bytes mn a k x \/ free_byte mn fl x.
Proof using.
  intros Hl. unfold free_byte. split.
  - intros (c & j & [[-> ->]|Hin]%free_in_push & Hx); [by left| |done]. right. eauto.
  - intros [Hx|(c & j & Hin & Hx)].
    + exists a, k. rewrite free_in_push by done. auto.
    + exists c, j. rewrite free_in_push by done. auto.
Qed.

Lemma free_in_without fl (k : nat) l a c j : fl !! k = Some l ->
  free_in (<[k := without a l]> fl) c j <-> free_in fl c j /\ (c, j) <> (a, k).
Proof using.
  intros Hl. rewrite free_in_insert by by eapply lookup_lt_Some. rewrite without_spec.
  unfold free_in. destruct (decide (j = k)) as [->|]; naive_solver.
Qed.

Lemma free_byte_without s fl (k : nat) l a : wf mn s fl -> fl !! k = Some l -> a ∈ l ->
  (forall x, free_byte mn fl x <-> free_byte mn (<[k := without a l]> fl) x \/ block_bytes mn a k x) /\
  (forall x, block_bytes mn a k x -> ~ free_byte mn (<[k := without a l]> fl) x).
Proof using.
  intros Hwf Hl Ha. unfold free_byte. split; intros x.
  - split.
    + intros (c & j & Hin & Hx). destruct (decide ((c, j) = (a, k))) as [[= -> ->]|]; [by right|].
      left. exists c, j. by rewrite free_in_without.
    + intros [(c & j & Hin & Hx)|Hx].
      * apply free_in_without in Hin as [??]; [|done]. eauto.
      * exists a, k. split; [by exists l|done].
  - intros Hx (c & j & Hin & Hc). apply free_in_without in Hin as [Hin Hne]; [|done].
    destruct (wf_disj _ _ _ Hwf c j a k Hin) as [?|?]; [by exists l|done|..];
      unfold block_bytes, in_block in *; lia.
Qed.

Lemma coalesced_subset fl fl' : (forall a k, free_in fl' a k -> free_in fl a k) ->
  coalesced mn fl -> coalesced mn fl'.
Proof using. intros Hs Hc a k Hk Ha Hb. by eapply (Hc a k); auto. Qed.

Lemma buddy_ne a k : 0 <= mn -> buddy_of mn a k <> a.
Proof using.
  intros Hmn E. unfold buddy_of in E. assert (Z.lxor a (Z.lxor a (bsz mn k)) = 0) as E'.
  { rewrite E. apply Z.lxor_nilpotent. }
  rewrite <- Z.lxor_assoc, Z.lxor_nilpotent, Z.lxor_0_l in E'. pose proof (bsz_pos mn Hmn k). lia.
Qed.

Lemma coalesced_push fl (k : nat) l a : 0 <= mn -> fl !! k = Some l -> coalesced mn fl ->
  ((k < MAX_ORDER)%nat -> ~ free_in fl (buddy_of mn a k) k) ->
  coalesced mn (<[k := a :: l]> fl).
Proof using.
  intros Hmn Hl Hc Hb c j Hj [[-> ->]|Hin]%free_in_push [[Heq Hjk]|Hin']%free_in_push; try done.
  - by eapply buddy_ne.
  - by apply Hb.
  - subst j. apply Hb; [done|]. rewrite <- Heq, buddy_involutive. done.
  - by eapply (Hc c j).
Qed.
End Cover.

(** ** Specifications of the block operations *)

Section BlockOps.
Context `{Profile} (mn : Z).

(** What [alloc_block_order k] promises from free lists [fl]. *)
Definition alloc_post (s : bstate) (fl : list (list Z)) (k : nat)
    (r : option Z) (s' : bstate) : Prop :=
  match r with
  | Some a => exists fl', wf mn s' fl' /\ coalesced mn fl' /\ same_region s.1 s'.1 /\
      aligned mn a k /\ in_region mn s.1 a k /\
      (forall x, free_byte mn fl x <-> free_byte mn fl' x \/ block_bytes mn a k x) /\
      (forall x, block_bytes mn a k x -> ~ free_byte mn fl' x) /\
      same_outside (free_byte mn fl') s.2 s'.2
  | None => s' = s /\ forall a j, free_in fl a j -> (j < k)%nat
  end.

(** What [free_block a k] promises. *)
Definition free_post (s : bstate) (fl : list (list Z)) (a : Z) (k : nat) (s' : bstate) : Prop :=
  exists fl', wf mn s' fl' /\ coalesced mn fl' /\ same_region s.1 s'.1 /\
    (forall x, free_byte mn fl' x <-> free_byte mn fl x \/ block_bytes mn a k x) /\
    same_outside (free_byte mn fl') s.2 s'.2.

Lemma same_region_trans b1 b2 b3 : same_region b1 b2 -> same_region b2 b3 -> same_region b1 b3.
Proof using. unfold same_region. intuition congruence. Qed.

Lemma same_region_in b b' a k : same_region b b' -> in_region mn b a k <-> in_region mn b' a k.
Proof using. unfold same_region, in_region. intros (-> & -> & _). done. Qed.

Lemma shl_bsz b k : geom mn b -> (k <= MAX_ORDER)%nat ->
  shl usize_bits (min_block_size b) (Z.of_nat k) = Ret (bsz mn k).
Proof using.
  intros [? Hm _ _ _] Hk. unfold MAX_ORDER in *. unfold bsz. rewrite Hm, Z.pow_add_r by lia.
  apply shl_ok; [unfold usize_bits; lia|]. rewrite <- Z.pow_add_r by lia. unfold fits, usize_bits.
  split; [apply Z.pow_nonneg; lia|]. apply Z.pow_lt_mono_r; lia.
Qed.

Lemma wf_lookup s fl (k : nat) : wf mn s fl -> (k <= MAX_ORDER)%nat -> exists l, fl !! k = Some l.
Proof using.
  intros Hwf Hk. apply lookup_lt_is_Some_2. rewrite (wf_lists _ _ _ Hwf). lia.
Qed.

Lemma rev_seq_S k n : rev (seq (S k) (S n)) = (S (k + n)) :: rev (seq (S k) n).
Proof using. rewrite seq_S, rev_app_distr. simpl. f_equal. Qed.

(** Splitting keeps the lower part of the block and frees the rest. *)
Lemma split_spec : forall n b m fl A k,
  wf mn (b, m) fl -> coalesced mn fl -> (k + n <= MAX_ORDER)%nat ->
  aligned mn A (k + n) -> in_region mn b A (k + n) ->
  (forall x, block_bytes mn A (k + n) x -> ~ free_byte mn fl x) ->
  exists b' m' fl', split_loop A (rev (seq (S k) n)) (b, m) = Ret (tt, (b', m')) /\
    wf mn (b', m') fl' /\ coalesced mn fl' /\ same_region b b' /\
    (forall x, free_byte mn fl' x <->
      free_byte mn fl x \/ (block_bytes mn A (k + n) x /\ ~ block_bytes mn A k x)) /\
    same_outside (fun x => block_bytes mn A (k + n) x /\ ~ block_bytes mn A k x) m m'.
Proof using.
  induction n as [|n IH]; intros b m fl A k Hwf Hco Hk Hal Hreg Hfr.
  { exists b, m, fl. rewrite Nat.add_0_r. split; [done|]. do 2 (split; [done|]).
    split; [done|]. split; [naive_solver|apply same_outside_refl]. }
  rewrite rev_seq_S. cbn [split_loop]. pose proof (wf_geom _ _ _ Hwf) as Hg.
  pose proof Hg as [Hmn _ Hb _ Hlim]. cbn [fst] in *.
  replace (k + S n)%nat with (S (k + n)) in * by lia.
  pose proof (bsz_S mn ltac:(lia) (k + n)) as HS. pose proof (bsz_pos mn ltac:(lia) (k + n)).
  pose proof (bsz_le mn ltac:(lia) k (k + n) ltac:(lia)) as Hle.
  unfold in_region, block_bytes, in_block in Hreg, Hfr.
  destruct (wf_lookup _ _ (k + n) Hwf) as [l Hl]; [lia|].
  destruct (add_spec mn b m fl (k + n) l (A + bsz mn (k + n))) as (b1 & m1 & E1 & Hwf1 & Hr1 & Hso1);
    try done.
  { apply aligned_add with (k := S (k + n)); [lia|lia|done]. }
  { unfold in_region. lia. }
  { intros x Hx. apply Hfr. unfold block_bytes, in_block in *. lia. }
  assert (Hco1 : coalesced mn (<[(k + n)%nat := (A + bsz mn (k + n)) :: l]> fl)).
  { apply coalesced_push; [lia|done|done|]. intros _. rewrite buddy_upper by (lia || done).
    intros Hin. apply (Hfr A); [lia|]. exists A, (k + n)%nat. split; [done|].
    unfold block_bytes, in_block. lia. }
  destruct (IH b1 m1 _ A k Hwf1 Hco1) as (b2 & m2 & fl2 & E2 & Hwf2 & Hco2 & Hr2 & Hfb & Hso2).
  { lia. }
  { eapply (aligned_le mn); [lia| |done]. lia. }
  { apply (same_region_in _ _ _ _ Hr1). unfold in_region. lia. }
  { intros x Hx [Hx'|Hx']%free_byte_push; [| |done].
    - unfold block_bytes, in_block in *. lia.
    - apply (Hfr x); [|done]. unfold block_bytes, in_block in *. lia. }
  exists b2, m2, fl2. split; [|split; [done|split; [done|split; [by eapply same_region_trans|split]]]].
  - erewrite stbind_step by done. replace (S (k + n) - 1)%nat with (k + n)%nat by lia.
    erewrite stbind_step by (by rewrite (shl_bsz b) by (done || lia)).
    erewrite stbind_step.
    2: { rewrite add_ok by (unfold fits, usize_bits; lia). done. }
    by erewrite stbind_step.
  - intros x. rewrite Hfb, free_byte_push by done. unfold block_bytes, in_block.
    clear - HS Hle. split; intros; intuition lia.
  - eapply same_outside_trans; (eapply same_outside_weaken; [|done]);
      intros x; unfold block_bytes, in_block; clear - HS Hle; intuition lia.
Qed.

Lemma in_block_dec a k x : block_bytes mn a k x \/ ~ block_bytes mn a k x.
Proof using. unfold block_bytes, in_block. lia. Qed.

Lemma empty_list b m fl (k : nat) l h : wf mn (b, m) fl -> fl !! k = Some l ->
  chain m h l -> (h = 0 <-> l = []).
Proof using.
  intros Hwf Hl Hc. destruct l as [|a l]; [by simpl in Hc|].
  destruct Hc as (-> & Ha & _). naive_solver.
Qed.

(** Taking the head of list [j] and splitting it down to order [k]. *)
Lemma take_spec b m fl (k j : nat) A l : wf mn (b, m) fl -> coalesced mn fl ->
  (k <= j <= MAX_ORDER)%nat -> fl !! j = Some (A :: l) ->
  exists s', (block ← remove_from_free_list j;
              _ ← split_loop block (rev (seq (S k) (j - k)));
              mret (Some block)) (b, m) = Ret (Some A, s') /\
    alloc_post (b, m) fl k (Some A) s'.
Proof using.
  intros Hwf Hco Hk Hl. pose proof (wf_geom _ _ _ Hwf) as [Hmn _ _ _ _].
  assert (HA : free_in fl A j) by (exists (A :: l); set_solver).
  destruct (wf_block _ _ _ Hwf _ _ HA) as [Hal Hreg]. simpl in Hreg.
  destruct (remove_head_spec _ _ _ _ _ _ _ Hwf Hl) as (b1 & E1 & Hwf1 & Hr1).
  pose proof (wf_nodup _ _ _ Hwf _ _ Hl) as [Hnot Hnd]%NoDup_cons.
  destruct (free_byte_without mn _ _ _ _ A Hwf Hl ltac:(set_solver)) as [Hb1 Hb2].
  assert (Hwo : without A (A :: l) = l).
  { unfold without. rewrite filter_cons_False by naive_solver. by apply without_notin. }
  assert (Hin1 : forall c i, free_in (<[j := l]> fl) c i -> free_in fl c i).
  { intros c i. rewrite <- Hwo at 1. by intros [? _]%free_in_without. }
  rewrite Hwo in Hb1, Hb2.
  destruct (split_spec (j - k) b1 m (<[j := l]> fl) A k) as (b2 & m2 & fl2 & E2 & Hwf2 & Hco2 & Hr2 & Hfb & Hso);
    replace (k + (j - k))%nat with j in * by lia; try done.
  { by eapply coalesced_subset. }
  { lia. }
  { by apply (same_region_in _ _ _ _ Hr1). }
  exists (b2, m2). split; [|exists fl2; simpl].
  { erewrite stbind_step by done. by erewrite stbind_step. }
  pose proof (bsz_le mn ltac:(lia) k j ltac:(lia)).
  split; [done|]. split; [done|]. split; [by eapply same_region_trans|].
  split; [eapply (aligned_le mn); [lia| |done]; lia|].
  split; [unfold in_region in *; lia|].
  assert (Hsub : forall x, block_bytes mn A k x -> block_bytes mn A j x)
    by (intros x; unfold block_bytes, in_block; lia).
  split; [intros x; rewrite Hb1, Hfb; pose proof (in_block_dec A k x); naive_solver|].
  split; [intros x; rewrite Hfb; naive_solver|].
  eapply same_outside_weaken; [|done]. intros x. rewrite Hfb. auto.
Qed.

Lemma higher_spec b m fl k : wf mn (b, m) fl -> coalesced mn fl ->
  forall n j, (j + n = S MAX_ORDER)%nat -> (k < j)%nat ->
  (forall a i, free_in fl a i -> (i < k \/ j <= i)%nat) ->
  exists r s', higher_loop k (seq j n) (b, m) = Ret (r, s') /\ alloc_post (b, m) fl k r s'.
Proof using.
  intros Hwf Hco. induction n as [|n IH]; intros j Hj Hkj Hempty.
  { exists None, (b, m). split; [done|]. split; [done|]. intros a i Hin.
    pose proof (free_in_bound _ _ _ Hin). rewrite (wf_lists _ _ _ Hwf) in *.
    destruct (Hempty a i Hin); lia. }
  destruct (wf_lookup _ _ j Hwf) as [l Hl]; [lia|].
  destruct (wf_head _ _ _ _ _ _ Hwf Hl) as (h & Hh & Hc & Hrd).
  cbn [seq higher_loop]. erewrite stbind_step by done.
  destruct (Z.eqb_spec h 0) as [H0|H0].
  - apply (empty_list _ _ _ _ _ _ Hwf Hl Hc) in H0 as ->.
    apply IH; [lia|lia|]. intros a i Hin. destruct (Hempty a i Hin) as [?|?]; [by left|].
    destruct (decide (i = j)) as [->|]; [|right; lia]. destruct Hin as (l & ? & ?). set_solver.
  - destruct l as [|A l]; [done|]. assert (h = A) as -> by (by destruct Hc).
    destruct (take_spec b m fl k j A l) as (s' & E & Hpost); [done|done|lia|done|].
    exists (Some A), s'. split; [|done]. exact E.
Qed.

(** [alloc_block_order] hands out an aligned block of the region, taken from
    the free bytes and no longer free, or fails when no block is big enough. *)
Lemma alloc_block_order_ok s fl k : wf mn s fl -> coalesced mn fl -> (k <= MAX_ORDER)%nat ->
  exists r s', alloc_block_order k s = Ret (r, s') /\ alloc_post s fl k r s'.
Proof using.
  destruct s as [b m]. intros Hwf Hco Hk. unfold alloc_block_order.
  rewrite (proj2 (Nat.ltb_ge _ _)) by done.
  destruct (wf_lookup _ _ k Hwf) as [l Hl]; [lia|].
  destruct (wf_head _ _ _ _ _ _ Hwf Hl) as (h & Hh & Hc & Hrd).
  erewrite stbind_step by done. destruct (Z.eqb_spec h 0) as [H0|H0].
  - apply (empty_list _ _ _ _ _ _ Hwf Hl Hc) in H0 as ->.
    apply higher_spec; [done|done|unfold MAX_ORDER in *; lia|lia|].
    intros a i Hin. destruct (decide (i = k)) as [->|]; [|lia].
    destruct Hin as (l & ? & ?). set_solver.
  - destruct l as [|A l]; [done|]. assert (h = A) as -> by (by destruct Hc).
    destruct (take_spec b m fl k k A l) as (s' & E & Hpost); [done|done|lia|done|].
    exists (Some A), s'. split; [|done]. rewrite Nat.sub_diag in E. simpl in E.
    apply stbind_Ret in E as (a & s1 & E1 & E2). erewrite stbind_step by done. exact E2.
Qed.

(** State of the merge between iterations, from free lists [fl] and a freed
    block [a] of order [k]. *)
Definition merging (b : BuddyAllocator) (m : mem) (fl : list (list Z)) (a : Z) (k : nat)
    (a' : Z) (k' : nat) (b' : BuddyAllocator) (m' : mem) (fl' : list (list Z)) : Prop :=
  (k' <= MAX_ORDER)%nat /\ wf mn (b', m') fl' /\ coalesced mn fl' /\ same_region b b' /\
  aligned mn a' k' /\ in_region mn b a' k' /\
  (forall x, block_bytes mn a' k' x -> ~ free_byte mn fl' x) /\
  (forall x, free_byte mn fl' x \/ block_bytes mn a' k' x <->
             free_byte mn fl x \/ block_bytes mn a k x) /\
  same_outside (free_byte mn fl) m m'.

Lemma merging_refl b m fl a k : (k <= MAX_ORDER)%nat -> wf mn (b, m) fl -> coalesced mn fl ->
  aligned mn a k -> in_region mn b a k ->
  (forall x, block_bytes mn a k x -> ~ free_byte mn fl x) -> merging b m fl a k a k b m fl.
Proof using.
  intros. unfold merging, same_region. pose proof (same_outside_refl (free_byte mn fl) m).
  repeat (split; [done|]). done.
Qed.

(** One merge with a listed buddy. *)
Lemma merging_step b m fl a k l : wf mn (b, m) fl -> coalesced mn fl -> (k < MAX_ORDER)%nat ->
  aligned mn a k -> in_region mn b a k ->
  (forall x, block_bytes mn a k x -> ~ free_byte mn fl x) ->
  fl !! k = Some l -> buddy_of mn a k ∈ l ->
  exists b' m' fl', remove_specific_from_free_list (buddy_of mn a k) k (b, m) = Ret (true, (b', m')) /\
    merging b m fl a k (Z.min a (buddy_of mn a k)) (S k) b' m' fl'.
Proof using.
  intros Hwf Hco Hk Hal Hreg Hfr Hl Hin. pose proof (wf_geom _ _ _ Hwf) as [Hmn _ _ _ _].
  pose proof (remove_specific_spec mn b m fl k l (buddy_of mn a k) Hwf Hl) as Hs.
  rewrite decide_True in Hs by done. destruct Hs as (b' & m' & E & Hwf' & Hr & Hso).
  exists b', m', (<[k := without (buddy_of mn a k) l]> fl). split; [done|].
  destruct (free_byte_without mn _ _ _ _ _ Hwf Hl Hin) as [Hb1 Hb2].
  destruct (buddy_merge mn ltac:(lia) a k Hal) as [Hal' Hun].
  assert (Hbud : in_region mn b (buddy_of mn a k) k).
  { apply (wf_block _ _ _ Hwf). by exists l. }
  split; [lia|]. split; [done|]. split.
  { eapply coalesced_subset; [|done]. intros c j. by intros [? _]%free_in_without. }
  split; [done|]. split; [done|]. split.
  { pose proof (bsz_S mn ltac:(lia) k). pose proof (bsz_pos mn ltac:(lia) k).
    unfold in_region in *. destruct (buddy_cases mn ltac:(lia) a k Hal) as [[_ Hb]|[_ Hb]]; rewrite Hb in *; lia. }
  split; [intros x [?|?]%Hun; naive_solver|]. split; [intros x; rewrite Hb1, Hun; tauto|done].
Qed.

Lemma merge_spec : forall n b m fl a k,
  (k + n = MAX_ORDER)%nat -> wf mn (b, m) fl -> coalesced mn fl ->
  aligned mn a k -> in_region mn b a k ->
  (forall x, block_bytes mn a k x -> ~ free_byte mn fl x) ->
  exists a' k' b' m' fl', merge_loop n a k (b, m) = Ret ((a', k'), (b', m')) /\
    merging b m fl a k a' k' b' m' fl' /\
    ((k' < MAX_ORDER)%nat -> ~ free_in fl' (buddy_of mn a' k') k').
Proof using.
  induction n as [|n IH]; intros b m fl a k Hk Hwf Hco Hal Hreg Hfr.
  { exists a, k, b, m, fl. split; [done|]. split; [by apply merging_refl; [lia|..]|lia]. }
  assert (Hstop : ~ free_in fl (buddy_of mn a k) k -> exists a' k' b' m' fl',
    Ret ((a, k), (b, m)) = Ret ((a', k'), (b', m')) /\
    merging b m fl a k a' k' b' m' fl' /\
    ((k' < MAX_ORDER)%nat -> ~ free_in fl' (buddy_of mn a' k') k')).
  { intros Hn. exists a, k, b, m, fl. split; [done|]. split; [by apply merging_refl; [lia|..]|done]. }
  pose proof (wf_geom _ _ _ Hwf) as Hg. pose proof Hg as [Hmn _ Hb Ht Hlim]. cbn [fst] in *.
  destruct (wf_lookup _ _ k Hwf) as [l Hl]; [lia|].
  cbn [merge_loop]. erewrite stbind_step by done.
  erewrite stbind_step by (by rewrite (shl_bsz b) by (done || lia)).
  fold (buddy_of mn a k). do 2 erewrite stbind_step by done. cbn [fst].
  destruct (Z.ltb_spec (buddy_of mn a k) (base_addr b)) as [Hout|Hge].
  { apply Hstop. intros Hin. destruct (wf_block _ _ _ Hwf _ _ Hin) as [_ [? _]]. simpl in *. lia. }
  erewrite stbind_step.
  2: { erewrite stbind_step; [done|]. by rewrite add_ok by (unfold fits, usize_bits; lia). }
  destruct (Z.geb_spec (buddy_of mn a k) (base_addr b + total_size b)) as [Hout|Hlt].
  { apply Hstop. intros Hin. destruct (wf_block _ _ _ Hwf _ _ Hin) as [_ [_ ?]].
    pose proof (bsz_pos mn ltac:(lia) k). simpl in *. lia. }
  destruct (decide (buddy_of mn a k ∈ l)) as [Hin|Hin]; last first.
  { pose proof (remove_specific_spec mn b m fl k l (buddy_of mn a k) Hwf Hl) as Hs.
    rewrite decide_False in Hs by done. erewrite stbind_step by done.
    apply Hstop. intros (l' & ? & ?). by simplify_eq. }
  destruct (merging_step b m fl a k l) as (b1 & m1 & fl1 & E1 & Hm1); try done; [lia|].
  erewrite stbind_step by done.
  destruct Hm1 as (_ & Hwf1 & Hco1 & Hr1 & Hal1 & Hreg1 & Hfr1 & Hb1 & Hso1).
  destruct (IH b1 m1 fl1 (Z.min a (buddy_of mn a k)) (S k)) as (a2 & k2 & b2 & m2 & fl2 & E2 & Hm2 & Hn2);
    try done; [lia|by apply (same_region_in _ _ _ _ Hr1)|].
  destruct Hm2 as (Hk2 & Hwf2 & Hco2 & Hr2 & Hal2 & Hreg2 & Hfr2 & Hb2 & Hso2).
  exists a2, k2, b2, m2, fl2. split; [done|]. split; [|done].
  split; [done|]. split; [done|]. split; [done|]. split; [by eapply same_region_trans|].
  split; [done|]. split; [by apply (same_region_in _ _ _ _ Hr1)|]. split; [done|].
  split; [intros x; by rewrite Hb2, Hb1|].
  eapply same_outside_trans; [done|]. eapply same_outside_weaken; [|done].
  intros x Hx. destruct (proj1 (Hb1 x) (or_introl Hx)) as [?|Hbl]; [done|].
  exfalso. apply (Hfr1 x); [|done]. apply (buddy_merge mn ltac:(lia) a k Hal). by left.
Qed.

(** [free_block] returns exactly the block's bytes to the free lists, merged
    as far as possible. *)
Lemma free_block_ok s fl a k : wf mn s fl -> coalesced mn fl -> (k <= MAX_ORDER)%nat ->
  aligned mn a k -> in_region mn s.1 a k ->
  (forall x, block_bytes mn a k x -> ~ free_byte mn fl x) ->
  exists s', free_block a k s = Ret (tt, s') /\ free_post s fl a k s'.
Proof using.
  destruct s as [b m]. intros Hwf Hco Hk Hal Hreg Hfr. unfold free_block.
  rewrite (proj2 (Nat.ltb_ge _ _)) by done.
  pose proof (wf_geom _ _ _ Hwf) as [Hmn _ _ _ _].
  destruct (merge_spec (MAX_ORDER - k) b m fl a k) as (a1 & k1 & b1 & m1 & fl1 & E1 & Hm1 & Hn1);
    try done; [lia|].
  destruct Hm1 as (Hk1 & Hwf1 & Hco1 & Hr1 & Hal1 & Hreg1 & Hfr1 & Hb1 & Hso1).
  destruct (wf_lookup _ _ k1 Hwf1) as [l1 Hl1]; [lia|].
  destruct (add_spec mn b1 m1 fl1 k1 l1 a1) as (b2 & m2 & E2 & Hwf2 & Hr2 & Hso2); try done.
  { by apply (same_region_in _ _ _ _ Hr1). }
  exists (b2, m2). split; [erewrite stbind_step by done; exact E2|].
  assert (Hcov : forall x, free_byte mn (<[k1 := a1 :: l1]> fl1) x <->
    free_byte mn fl x \/ block_bytes mn a k x).
  { intros x. rewrite free_byte_push by done. rewrite <- Hb1. tauto. }
  exists (<[k1 := a1 :: l1]> fl1). split; [done|].
  split; [apply coalesced_push; (done || lia)|]. split; [by eapply same_region_trans|].
  split; [done|]. eapply same_outside_trans; (eapply same_outside_weaken; [|done]);
    intros x Hx; apply Hcov; [by left|]. apply Hb1. by right.
Qed.
End BlockOps.

(** ** Initialisation *)

Section Init.
Context `{Profile} (mn : Z).

(** Blocks placed so far cover [base, c) and are as large as their address
    and the end of the region allow. *)
Record placed (b : BuddyAllocator) (m : mem) (fl : list (list Z)) (c : Z) : Prop := {
  pl_wf : wf mn (b, m) fl;
  pl_cover x : free_byte mn fl x <-> base_addr b <= x < c;
  pl_range : base_addr b <= c <= base_addr b + total_size b;
  pl_aligned : aligned mn c 0;
  pl_greedy a k : free_in fl a k -> (k < MAX_ORDER)%nat ->
    ~ (aligned mn a (S k) /\ a + bsz mn (S k) <= base_addr b + total_size b);
}.

(** No block of an order above [o] fits at [c]. *)
Definition no_fit_above (b : BuddyAllocator) (c : Z) (o : nat) : Prop :=
  forall j, (o < j <= MAX_ORDER)%nat ->
    ~ (aligned mn c j /\ c + bsz mn j <= base_addr b + total_size b).

Lemma placed_push b m fl c k : placed b m fl c -> (k <= MAX_ORDER)%nat ->
  aligned mn c k -> c + bsz mn k <= base_addr b + total_size b -> no_fit_above b c k ->
  exists b' m' fl', add_to_free_list c k (b, m) = Ret (tt, (b', m')) /\
    placed b' m' fl' (c + bsz mn k) /\ same_region b b' /\
    same_outside (block_bytes mn c k) m m'.
Proof using.
  intros [Hwf Hcov Hrg Hal Hgr] Hk Halk Hend Hnf.
  pose proof (wf_geom _ _ _ Hwf) as [Hmn _ _ _ _]. pose proof (bsz_pos mn ltac:(lia) k).
  destruct (wf_lookup mn _ _ k Hwf) as [l Hl]; [lia|].
  destruct (add_spec mn b m fl k l c) as (b' & m' & E & Hwf' & Hr & Hso); try done.
  { unfold in_region. lia. }
  { intros x Hx. rewrite Hcov. unfold block_bytes, in_block in *. lia. }
  exists b', m', (<[k := c :: l]> fl). split; [done|]. split; [|done].
  pose proof Hr as (Eb & Et & Em). split; rewrite ?Eb, ?Et; try done.
  - intros x. rewrite free_byte_push by done. rewrite Hcov. unfold block_bytes, in_block. lia.
  - lia.
  - apply Z.divide_add_r; [done|]. apply bsz_divide; lia.
  - intros a j [[-> ->]|Hin]%free_in_push Hj; [|by apply Hgr|done].
    apply Hnf. lia.
Qed.

Lemma init_inner_spec : forall o b m fl c, placed b m fl c -> (o <= MAX_ORDER)%nat ->
  no_fit_above b c o ->
  exists k c' b' m' fl', init_inner o c (base_addr b + total_size b - c) (b, m) = Ret ((k, c'), (b', m')) /\
    placed b' m' fl' c' /\ same_region b b' /\
    same_outside (in_block c (c' - c)) m m' /\
    if decide (k = O) then c' = c /\ (b', m') = (b, m) /\ no_fit_above b c 0
    else c' = c + bsz mn k.
Proof using.
  induction o as [|o IH]; intros b m fl c Hpl Ho Hnf.
  { exists O, c, b, m, fl. split; [done|]. split; [done|]. split; [done|].
    split; [apply same_outside_refl|]. by rewrite decide_True. }
  pose proof (wf_geom _ _ _ (pl_wf _ _ _ _ Hpl)) as Hg. pose proof Hg as [Hmn _ _ _ Hlim].
  cbn [fst] in *. cbn [init_inner]. erewrite stbind_step by done.
  erewrite stbind_step by (by rewrite (shl_bsz mn b) by (done || lia)).
  pose proof (bsz_pos mn ltac:(lia) (S o)). pose proof (pl_range _ _ _ _ Hpl) as Hrg.
  pose proof (pl_wf _ _ _ _ Hpl) as Hwf. assert (0 < base_addr b) by by apply Hg.
  assert (Hnext : ~ (aligned mn c (S o) /\ c + bsz mn (S o) <= base_addr b + total_size b) ->
    no_fit_above b c o).
  { intros Hn j Hj. destruct (decide (j = S o)) as [->|]; [done|]. apply Hnf. lia. }
  destruct (Z.geb_spec (base_addr b + total_size b - c) (bsz mn (S o))) as [Hge|Hlt]; last first.
  { erewrite stbind_step by done. apply (IH b m fl c); [done|lia|]. apply Hnext. lia. }
  erewrite stbind_step.
  2: { erewrite stbind_step; [done|]. by rewrite sub_ok by (unfold fits, usize_bits; lia). }
  destruct (Z.eqb_spec (Z.land c (bsz mn (S o) - 1)) 0) as [Ha|Ha]; last first.
  { apply (IH b m fl c); [done|lia|]. apply Hnext. rewrite <- (land_aligned mn) by lia. tauto. }
  apply land_aligned in Ha; [|lia].
  destruct (placed_push b m fl c (S o)) as (b' & m' & fl' & E & Hpl' & Hr & Hso); try done; [lia|].
  exists (S o), (c + bsz mn (S o)), b', m', fl'. split; [|split; [done|split; [done|]]].
  - erewrite stbind_step by done.
    erewrite stbind_step by (by rewrite add_ok by (unfold fits, usize_bits; lia)). done.
  - split; [|by rewrite decide_False].
    eapply same_outside_weaken; [|done]. intros x. unfold block_bytes, in_block. lia.
Qed.

Lemma init_loop_spec : forall fuel b m fl c, placed b m fl c ->
  base_addr b + total_size b + bsz mn 0 < 2 ^ 32 -> aligned mn (base_addr b + total_size b) 0 ->
  (Z.to_nat ((base_addr b + total_size b - c) / bsz mn 0) < fuel)%nat ->
  exists b' m' fl', init_loop fuel c (base_addr b + total_size b) (b, m) = Ret (tt, (b', m')) /\
    placed b' m' fl' (base_addr b + total_size b) /\ same_region b b' /\
    same_outside (in_block c (base_addr b + total_size b - c)) m m'.
Proof using.
  induction fuel as [|fuel IH]; intros b m fl c Hpl Hlim Hend Hfuel; [lia|].
  pose proof (pl_wf _ _ _ _ Hpl) as Hwf. pose proof (wf_geom _ _ _ Hwf) as Hg.
  pose proof Hg as [Hmn Hmin Hb _ _]. cbn [fst] in *. pose proof (pl_range _ _ _ _ Hpl) as Hrg.
  pose proof (bsz_pos mn ltac:(lia) 0) as H0. pose proof (pl_aligned _ _ _ _ Hpl) as Hca.
  rewrite <- bsz_0 in Hmin.
  cbn [init_loop]. erewrite stbind_step by done. cbn [fst]. rewrite Hmin.
  erewrite stbind_step by (by rewrite add_ok by (unfold fits, usize_bits; lia)).
  destruct (Z.leb_spec (c + bsz mn 0) (base_addr b + total_size b)) as [Hle|Hgt]; last first.
  { assert (c = base_addr b + total_size b) as <-.
    { apply (divide_close (bsz mn 0)); (done || lia). }
    exists b, m, fl. split; [done|]. split; [done|]. split; [done|apply same_outside_refl]. }
  erewrite stbind_step by (by rewrite sub_ok by (unfold fits, usize_bits; lia)).
  destruct (init_inner_spec MAX_ORDER b m fl c) as (k & c1 & b1 & m1 & fl1 & E1 & Hpl1 & Hr1 & Hso1 & Hk);
    try done; [intros j Hj; lia|].
  erewrite stbind_step by done. cbn beta iota.
  assert (Hdone : forall b2 m2 fl2 c2 s, s = Ret (c2, (b2, m2)) -> placed b2 m2 fl2 c2 ->
    same_region b b2 -> c + bsz mn 0 <= c2 -> same_outside (in_block c (c2 - c)) m m2 ->
    exists b' m' fl', (match s with Ret (a, s') => init_loop fuel a (base_addr b + total_size b) s'
      | Panic => Panic | OutOfFuel => OutOfFuel end) = Ret (tt, (b', m')) /\
      placed b' m' fl' (base_addr b + total_size b) /\ same_region b b' /\
      same_outside (in_block c (base_addr b + total_size b - c)) m m').
  { intros b2 m2 fl2 c2 s -> Hpl2 Hr2 Hc2 Hso2. pose proof Hr2 as (Eb & Et & _).
    pose proof (pl_range _ _ _ _ Hpl2) as Hrg2. rewrite Eb, Et in Hrg2.
    destruct (IH b2 m2 fl2 c2) as (b3 & m3 & fl3 & E3 & Hpl3 & Hr3 & Hso3);
      rewrite ?Eb, ?Et; try done.
    { assert ((base_addr b + total_size b - c2) / bsz mn 0 < (base_addr b + total_size b - c) / bsz mn 0); [|
        pose proof (Z.div_pos (base_addr b + total_size b - c2) (bsz mn 0)); lia].
      apply Z.lt_le_trans with ((base_addr b + total_size b - c2 + 1 * bsz mn 0) / bsz mn 0);
        [rewrite Z.div_add by lia; lia|apply Z.div_le_mono; lia]. }
    rewrite ?Eb, ?Et in *. exists b3, m3, fl3. split; [done|]. split; [done|].
    split; [by eapply same_region_trans|].
    eapply same_outside_trans; (eapply same_outside_weaken; [|done]); intros x; unfold in_block; lia. }
  unfold mbind at 1, st_bind at 1. destruct (decide (k = O)) as [->|Hk0].
  - destruct Hk as (-> & [= -> ->] & Hnf). rewrite (proj2 (Z.geb_le _ _)) by lia. cbn [Nat.eqb andb].
    destruct (placed_push b m fl c 0) as (b2 & m2 & fl2 & E2 & Hpl2 & Hr2 & Hso2); try done; [lia|].
    apply (Hdone b2 m2 fl2 (c + bsz mn 0)); [|done|done|lia|].
    + erewrite stbind_step by done. by rewrite add_ok by (unfold fits, usize_bits; lia).
    + eapply same_outside_weaken; [|done]. intros x. unfold block_bytes, in_block; lia.
  - rewrite (proj2 (Nat.eqb_neq _ _)) by done. cbn [andb].
    apply (Hdone b1 m1 fl1 c1); try done. pose proof (bsz_le mn ltac:(lia) 0 k). lia.
Qed.

(** Greedy placement leaves no two buddies free. *)
Lemma placed_coalesced b m fl c : placed b m fl c -> coalesced mn fl.
Proof using.
  intros [Hwf _ _ _ Hgr] a k Hk Ha Hb. pose proof (wf_geom _ _ _ Hwf) as [Hmn _ _ _ _].
  destruct (wf_block _ _ _ Hwf _ _ Ha) as [Hal [_ He]].
  destruct (wf_block _ _ _ Hwf _ _ Hb) as [_ [_ He']]. cbn [fst] in *.
  pose proof (bsz_S mn ltac:(lia) k).
  destruct (buddy_cases mn ltac:(lia) a k Hal) as [[Hal' E]|[Hal' E]]; rewrite E in *.
  - apply (Hgr a k); [done|done|]. split; [done|lia].
  - apply (Hgr (a - bsz mn k) k); [done|done|]. split; [done|lia].
Qed.

(** The region [init] manages: the bounds rounded inwards. *)
Definition region_start (start_addr : Z) : Z :=
  let t := start_addr + 2 ^ mn - 1 in t - t mod 2 ^ mn.
Definition region_end (end_addr : Z) : Z := end_addr - end_addr mod 2 ^ mn.

Definition init_pre (b : BuddyAllocator) (start_addr end_addr : Z) : Prop :=
  3 <= mn < 22 /\ min_block_size b = 2 ^ mn /\ 0 < start_addr /\
  region_start start_addr <= region_end end_addr /\ end_addr + 2 ^ mn < 2 ^ 32.

Definition init_post (s : bstate) (start end_ : Z) (s' : bstate) : Prop :=
  base_addr s'.1 = start /\ total_size s'.1 = end_ - start /\
  exists fl, wf mn s' fl /\ coalesced mn fl /\
    (forall x, free_byte mn fl x <-> start <= x < end_) /\
    same_outside (in_block start (end_ - start)) s.2 s'.2.

Lemma region_bounds start_addr end_addr b : init_pre b start_addr end_addr ->
  start_addr <= region_start start_addr /\ region_end end_addr <= end_addr /\
  aligned mn (region_start start_addr) 0 /\ aligned mn (region_end end_addr) 0 /\
  start_addr + 2 ^ mn < 2 ^ 32.
Proof using.
  intros (Hmn & _ & ? & Hle & Hlim). unfold region_start, region_end, aligned in *. rewrite bsz_0.
  assert (0 < 2 ^ mn) as Hp by (apply Z.pow_pos_nonneg; lia).
  pose proof (Z.mod_pos_bound (start_addr + 2 ^ mn - 1) _ Hp).
  pose proof (Z.mod_pos_bound end_addr _ Hp).
  repeat split; try lia; apply Z.mod_divide; try lia; rewrite Zminus_mod_idemp_r, Z.sub_diag;
    apply Z.mod_0_l; lia.
Qed.

(** The empty allocator, just before the first block is placed. *)
Lemma placed_empty m start len : 3 <= mn < 22 -> 0 < start -> 0 <= len ->
  start + len < 2 ^ 32 -> aligned mn start 0 -> aligned mn (start + len) 0 ->
  placed (mkBuddy (replicate (S MAX_ORDER) 0) start len (2 ^ mn)) m
    (replicate (S MAX_ORDER) []) start.
Proof using.
  intros. assert (Hno : forall a k, ~ free_in (replicate (S MAX_ORDER) []) a k).
  { intros a k (l & [-> _]%lookup_replicate & Hin). set_solver. }
  set (fl := replicate (S MAX_ORDER) (@nil Z)) in *. set (hs := replicate (S MAX_ORDER) 0).
  split; [split| | | |]; cbn [fst snd free_lists base_addr total_size]; try done; try lia;
    try (by intros a k Hin; destruct (Hno a k)).
  - intros k h l [-> _]%lookup_replicate [-> _]%lookup_replicate. done.
  - intros a k a' k' Hin. destruct (Hno _ _ Hin).
  - intros k l [-> _]%lookup_replicate. constructor.
  - intros x. split; [|lia]. by intros (a & k & Hin%Hno & _).
Qed.

Lemma init_ok s start_addr end_addr : init_pre s.1 start_addr end_addr ->
  exists s', init start_addr end_addr s = Ret (tt, s') /\
    init_post s (region_start start_addr) (region_end end_addr) s'.
Proof using.
  destruct s as [b m]. intros Hpre. destruct (region_bounds _ _ _ Hpre) as (Hs & He & Has & Hae & Hs32).
  destruct Hpre as (Hmn & Hmin & Hpos & Hle & Hlim). cbn [fst] in *.
  assert (0 < 2 ^ mn) as Hp by (apply Z.pow_pos_nonneg; lia).
  unfold init. erewrite stbind_step by done. cbn [fst]. rewrite Hmin.
  do 3 erewrite stbind_step by (by rewrite ?add_ok, ?sub_ok by (unfold fits, usize_bits; lia)).
  rewrite !land_lnot_mask by (unfold fits, usize_bits; lia).
  fold (region_end end_addr). change (start_addr + 2 ^ mn - 1 - (start_addr + 2 ^ mn - 1) mod 2 ^ mn)
    with (region_start start_addr).
  erewrite stbind_step by (by rewrite sub_ok by (unfold fits, usize_bits; lia)).
  erewrite stbind_step by done.
  set (start := region_start start_addr) in *. set (end_ := region_end end_addr) in *.
  set (b0 := mkBuddy _ start (end_ - start) (2 ^ mn)).
  assert (Hpl : placed b0 m (replicate (S MAX_ORDER) []) start).
  { apply placed_empty; try lia; [done|]. by replace (start + (end_ - start)) with end_ by lia. }
  replace end_ with (base_addr b0 + total_size b0) by (simpl; lia).
  destruct (init_loop_spec (S (Z.to_nat ((end_ - start) / 2 ^ mn))) b0 m _ start Hpl)
    as (b' & m' & fl' & E & Hpl' & (Eb & Et & _) & Hso); simpl; rewrite ?bsz_0;
    replace (start + (end_ - start)) with end_ by lia; try done; try lia.
  exists (b', m'). simpl in E. replace (start + (end_ - start)) with end_ in * by lia.
  split; [exact E|]. simpl in *. split; [done|]. split; [done|].
  exists fl'. replace (start + (end_ - start)) with end_ in * by lia.
  split; [apply Hpl'|]. split; [by eapply placed_coalesced|].
  split; [|done]. intros x. rewrite (pl_cover _ _ _ _ Hpl'), Eb. done.
Qed.
End Init.

(** ** Canonical free lists

    A fully coalesced cover of a region is unique: each aligned block that is
    free byte for byte lies inside one free block. *)
Section Canonical.
Context (mn : Z).

Lemma block_inside s fl j a c k : wf mn s fl -> aligned mn a j -> free_in fl c k ->
  (j <= k)%nat -> block_bytes mn c k a ->
  forall x, block_bytes mn a j x -> block_bytes mn c k x.
Proof using.
  intros Hwf Ha Hc Hjk [Hl Hu] x [Hx1 Hx2]. pose proof (wf_geom _ _ _ Hwf) as [Hmn _ _ _ _].
  split; [lia|]. destruct (wf_block _ _ _ Hwf _ _ Hc) as [Hal _].
  destruct (Z.le_gt_cases (a + bsz mn j) (c + bsz mn k)) as [|Hgt]; [lia|exfalso].
  assert (Hd : (bsz mn j | c + bsz mn k)).
  { apply Z.divide_add_r; [by eapply aligned_le; [lia|exact Hjk|done]|by apply bsz_divide; lia]. }
  pose proof (bsz_pos mn ltac:(lia) j).
  enough (a = c + bsz mn k) by lia. apply (divide_close (bsz mn j)); [lia|done|done|lia].
Qed.

(** Blocks of the same order that contain each other's base coincide. *)
Lemma block_eq a c k : 0 <= mn -> aligned mn a k -> aligned mn c k -> block_bytes mn c k a -> c = a.
Proof using.
  intros Hmn Ha Hc [??]. pose proof (bsz_pos mn Hmn k). by apply (divide_close (bsz mn k)).
Qed.

(** Two free halves of an aligned block lie in one free block. *)
Lemma halves_merge s fl j a c k c' k' : wf mn s fl -> coalesced mn fl -> (S j <= MAX_ORDER)%nat ->
  aligned mn a (S j) -> free_in fl c k -> (j <= k)%nat -> block_bytes mn c k a ->
  free_in fl c' k' -> (j <= k')%nat -> block_bytes mn c' k' (a + bsz mn j) ->
  exists d i, free_in fl d i /\ (S j <= i)%nat /\ block_bytes mn d i a.
Proof using.
  intros Hwf Hco Hj Ha Hc Hk Hx Hc' Hk' Hx'. pose proof (wf_geom _ _ _ Hwf) as [Hmn _ _ _ _].
  pose proof (bsz_S mn ltac:(lia) j) as E. pose proof (bsz_pos mn ltac:(lia) j).
  assert (Haj : aligned mn a j) by (by eapply aligned_le; [| |exact Ha]; lia).
  destruct (wf_block _ _ _ Hwf _ _ Hc) as [Hal _], (wf_block _ _ _ Hwf _ _ Hc') as [Hal' _].
  destruct (decide (S j <= k)%nat) as [Hle|Hgt]; [by exists c, k|]. assert (k = j) as -> by lia.
  apply block_eq in Hx as ->; [|lia|done|done].
  destruct (decide (S j <= k')%nat) as [Hle|Hgt'].
  - exists c', k'. split; [done|]. split; [done|]. destruct Hx' as [H1 H2]. split; [|lia].
    destruct (Z.le_gt_cases c' a) as [|Hlt]; [done|exfalso].
    enough (a = c') by lia. apply (divide_close (bsz mn (S j))); [lia|done| |lia].
    by eapply aligned_le; [lia|exact Hle|done].
  - assert (k' = j) as -> by lia. exfalso.
    apply block_eq in Hx' as ->; [|lia|by eapply aligned_add; [lia| |exact Haj]|done].
    apply (Hco a j); [lia|done|].
    destruct (buddy_cases mn ltac:(lia) a j Haj) as [[_ ->]|[Hbad _]]; [done|].
    enough (a - bsz mn j = a) by lia. apply (divide_close (bsz mn (S j))); [lia|done|done|lia].
Qed.

Lemma covered_block s fl : wf mn s fl -> coalesced mn fl -> forall j a, (j <= MAX_ORDER)%nat ->
  aligned mn a j -> (forall x, block_bytes mn a j x -> free_byte mn fl x) ->
  exists c k, free_in fl c k /\ (j <= k)%nat /\ block_bytes mn c k a.
Proof using.
  intros Hwf Hco. pose proof (wf_geom _ _ _ Hwf) as [Hmn _ _ _ _].
  induction j as [|j IH]; intros a Hj Ha Hcov.
  - pose proof (bsz_pos mn ltac:(lia) 0). destruct (Hcov a) as (c & k & Hc & Hx); [split; lia|].
    exists c, k. split; [done|]. split; [lia|done].
  - pose proof (bsz_S mn ltac:(lia) j) as E. pose proof (bsz_pos mn ltac:(lia) j).
    destruct (IH a) as (c & k & Hc & Hk & Hx); [lia|by eapply aligned_le; [| |exact Ha]; lia| |].
    { intros x [??]. apply Hcov. split; lia. }
    destruct (IH (a + bsz mn j)) as (c' & k' & Hc' & Hk' & Hx'); [lia|by apply (aligned_add mn ltac:(lia) a j (S j)); [lia|]| |].
    { intros x [??]. apply Hcov. split; lia. }
    by eapply (halves_merge s fl j a c k c' k').
Qed.

(** Two coalesced covers of the same bytes consist of the same blocks. *)
Lemma canonical_sub s fl s' fl' a k : wf mn s fl -> wf mn s' fl' -> coalesced mn fl ->
  coalesced mn fl' -> (forall x, free_byte mn fl x <-> free_byte mn fl' x) ->
  free_in fl a k -> free_in fl' a k.
Proof using.
  intros Hwf Hwf' Hco Hco' Hcov Ha. pose proof (wf_geom _ _ _ Hwf) as [Hmn _ _ _ _].
  destruct (wf_block _ _ _ Hwf _ _ Ha) as [Hal _].
  pose proof (free_in_bound _ _ _ Ha) as Hk. rewrite (wf_lists _ _ _ Hwf) in Hk.
  destruct (covered_block s' fl' Hwf' Hco' k a) as (c & i & Hc & Hki & Hx); [lia|done| |].
  { intros x Hx. apply Hcov. by exists a, k. }
  destruct (wf_block _ _ _ Hwf' _ _ Hc) as [Halc _].
  pose proof (free_in_bound _ _ _ Hc) as Hi. rewrite (wf_lists _ _ _ Hwf') in Hi.
  destruct (covered_block s fl Hwf Hco i c) as (d & j & Hd & Hij & Hx'); [lia|done| |].
  { intros x Hx'. apply Hcov. by exists c, i. }
  pose proof (block_inside s fl i c d j Hwf Halc Hd Hij Hx' a Hx) as Hda.
  assert ((a, k) = (d, j)) as [= <- <-].
  { destruct (decide ((a, k) = (d, j))) as [|Hne]; [done|exfalso].
    pose proof (bsz_pos mn ltac:(lia) k). destruct Hda.
    destruct (wf_disj _ _ _ Hwf a k d j Ha Hd Hne); unfold disjoint_blocks in *; lia. }
  assert (i = k) as -> by lia. apply block_eq in Hx as ->; [done|lia|done|done].
Qed.
End Canonical.

(** ** Theorems *)

Section Claims.
Context `{Profile}.

(** [init] on a region of at least one rounded block leaves well formed,
    fully coalesced free lists that cover exactly the bytes between the two
    bounds rounded inwards, and writes nowhere outside that region. *)
Theorem init_correct mn s start_addr end_addr : init_pre mn s.1 start_addr end_addr ->
  exists s', init start_addr end_addr s = Ret (tt, s') /\
    init_post mn s (region_start mn start_addr) (region_end mn end_addr) s'.
Proof using. apply init_ok. Qed.

(** C11: [alloc_block_order] returns a naturally aligned block of the order
    asked for, inside the region, taken out of the free bytes, keeps the
    lists coalesced and touches only free memory; it returns [None], with
    the state unchanged, only when no free block is large enough. *)
Theorem alloc_block_order_correct mn s fl k :
  wf mn s fl -> coalesced mn fl -> (k <= MAX_ORDER)%nat ->
  exists r s', alloc_block_order k s = Ret (r, s') /\ alloc_post mn s fl k r s'.
Proof using. apply alloc_block_order_ok. Qed.

(** C10: [free_block] of a block that is not free adds exactly its bytes to the
    free bytes, merges buddies until none is left to merge, and touches only
    memory that is free afterwards. *)
Theorem free_block_correct mn s fl a k :
  wf mn s fl -> coalesced mn fl -> (k <= MAX_ORDER)%nat -> aligned mn a k ->
  in_region mn s.1 a k -> (forall x, block_bytes mn a k x -> ~ free_byte mn fl x) ->
  exists s', free_block a k s = Ret (tt, s') /\ free_post mn s fl a k s'.
Proof using. apply free_block_ok. Qed.
End Claims.

(** An empty allocator over a 64-byte region. *)
Definition demo_region (m : mem) : bstate :=
  (mkBuddy (replicate (S MAX_ORDER) 0) 4096 64 32, m).

Lemma demo_wf m : wf 5 (demo_region m) (replicate (S MAX_ORDER) []) /\
  coalesced 5 (replicate (S MAX_ORDER) []).
Proof.
  assert (placed 5 (demo_region m).1 m (replicate (S MAX_ORDER) []) 4096) as Hp.
  { apply placed_empty; try lia; [exists 128|exists 130]; done. }
  split; [apply Hp|]. by eapply placed_coalesced.
Qed.

Lemma demo_not_free x : ~ free_byte 5 (replicate (S MAX_ORDER) []) x.
Proof. intros (a & k & (l & [-> _]%lookup_replicate & Hin) & _). set_solver. Qed.

Lemma init_correct_witness : exists s', init (H := Build_Profile true) 4100 8190 (new 32, fun _ => 255) = Ret (tt, s') /\
  init_post 5 (new 32, fun _ => 255) (region_start 5 4100) (region_end 5 8190) s'.
Proof. apply init_correct. repeat split; vm_compute; congruence. Defined.

Lemma free_block_correct_witness : exists s',
  free_block (H := Build_Profile true) 4096 0 (demo_region (fun _ => 0)) = Ret (tt, s') /\
  free_post 5 (demo_region (fun _ => 0)) (replicate (S MAX_ORDER) []) 4096 0 s'.
Proof.
apply free_block_correct; [apply (demo_wf (fun _ => 0))|apply (demo_wf (fun _ => 0))
    |unfold MAX_ORDER; lia|by exists 128|split; vm_compute; congruence|intros; apply demo_not_free].
Defined.

Lemma alloc_block_order_correct_witness : exists s fl r s',
  init (H := Build_Profile true) 4096 8192 (new 32, fun _ => 0) = Ret (tt, s) /\
  alloc_block_order (H := Build_Profile true) 3 s = Ret (r, s') /\ alloc_post 5 s fl 3 r s'.
Proof.
  destruct (init_ok (H := Build_Profile true) 5 (new 32, fun _ => 0) 4096 8192)
    as (s & E & _ & _ & fl & Hwf & Hco & _).
  { repeat split; vm_compute; congruence. }
  destruct (alloc_block_order_correct (H := Build_Profile true) 5 s fl 3 Hwf Hco) as (r & s' & E' & Hp).
  { unfold MAX_ORDER; lia. }
  by exists s, fl, r, s'.
Defined.
