(* ===== verification/Heap.v ===== *)
(** * The kernel heap (kernel/src/mm/heap_allocator.rs) over the buddy allocator

    [HeapAllocator] wraps an optional [BuddyAllocator] behind a lock; its
    [GlobalAlloc] methods call [BuddyAllocator::alloc] and [free], which put a
    one-byte header in front of the user's bytes.  The file proves what a
    request returns, that the header finds the block again, that [realloc]
    keeps the contents, and, over every sequence of requests, frees and client
    writes, that live blocks never overlap and no byte is lost. *)
From S2P Require Import Prelude Memory Buddy.

(** ** Operations *)

Definition HEAP_MIN_BLOCK_SIZE : Z := 32.

(** [HeapAllocator::inner] and the memory it manages. *)
Definition hstate : Type := option BuddyAllocator * mem.

Section HeapOperations.
Context `{Profile}.

(** [HeapAllocator::init]. *)
Definition heap_init (start end_ : Z) : st hstate unit := fun '(inner, m) =>
  match inner with
  | Some _ => Panic
  | None =>
      match init start end_ (new HEAP_MIN_BLOCK_SIZE, m) with
      | Ret (_, (b, m)) => Ret (tt, (Some b, m))
      | Panic => Panic
      | OutOfFuel => OutOfFuel
      end
  end.

(** [GlobalAlloc::alloc]: the error handler panics. *)
Definition heap_alloc (layout : Layout) : st hstate Z := fun '(inner, m) =>
  match inner with
  | None => Panic
  | Some b =>
      match alloc layout (b, m) with
      | Ret (Some ptr, (b, m)) => Ret (ptr, (Some b, m))
      | Ret (None, _) => Panic
      | Panic => Panic
      | OutOfFuel => OutOfFuel
      end
  end.

(** [GlobalAlloc::dealloc]. *)
Definition heap_dealloc (ptr : Z) : st hstate unit := fun '(inner, m) =>
  match inner with
  | None => Ret (tt, (None, m))
  | Some b =>
      match free ptr (b, m) with
      | Ret (_, (b, m)) => Ret (tt, (Some b, m))
      | Panic => Panic
      | OutOfFuel => OutOfFuel
      end
  end.

(** [GlobalAlloc::realloc]. *)
Definition heap_realloc (ptr : Z) (old_layout : Layout) (new_size : Z) : st hstate Z :=
  new_ptr ← heap_alloc (mkLayout new_size (lalign old_layout));
  if new_ptr =? 0 then mret 0
  else
    _ ← modify (fun '(inner, m) =>
          (inner, copy_nonoverlapping m ptr new_ptr (Z.min (lsize old_layout) new_size)));
    _ ← heap_dealloc ptr;
    mret new_ptr.
End HeapOperations.

(** ** Requests *)

(** What Rust guarantees of a [Layout]. *)
Definition layout_ok (l : Layout) : Prop :=
  (exists a, 0 <= a < 31 /\ lalign l = 2 ^ a) /\ 0 <= lsize l /\ lsize l + lalign l <= 2 ^ 31.

(** Bytes in front of the user's pointer: the alignment, at least 8. *)
Definition header_of (l : Layout) : Z := Z.max (lalign l) HEADER_ALIGN.

Definition request (l : Layout) : Z := lsize l + header_of l.

(** Order [k] is the least whose blocks hold [total] bytes. *)
Definition fits_order (mn total : Z) (k : nat) : Prop :=
  total <= bsz mn k /\ forall j, (j < k)%nat -> bsz mn j < total.

Section Orders.
Context `{Profile} (mn : Z).

Lemma order_loop_spec : forall fuel total o, 0 <= mn -> total <= 2 ^ 31 ->
  mn + Z.of_nat o <= 31 -> 32 - (mn + Z.of_nat o) <= Z.of_nat fuel ->
  exists k, order_loop fuel total o (bsz mn o) = Ret (k, bsz mn k) /\ (o <= k)%nat /\
    total <= bsz mn k /\ forall j, (o <= j < k)%nat -> bsz mn j < total.
Proof using.
  induction fuel as [|fuel IH]; intros total o Hmn Ht Ho Hf; [lia|]. cbn [order_loop].
  destruct (Z.ltb_spec (bsz mn o) total) as [Hlt|Hge].
  - assert (mn + Z.of_nat o <= 30).
    { destruct (Z.eq_dec (mn + Z.of_nat o) 31) as [E|]; [|lia].
      unfold bsz in Hlt. rewrite E in Hlt. lia. }
    assert (E : bsz mn o * 2 ^ 1 = bsz mn (S o)) by (rewrite bsz_S by lia; lia).
    assert (fits usize_bits (bsz mn (S o))).
    { split; [pose proof (bsz_pos mn Hmn (S o)); lia|]. apply Z.pow_lt_mono_r; unfold usize_bits; lia. }
    rewrite shl_ok, E; [|unfold usize_bits; lia|by rewrite E].
    destruct (IH total (S o)) as (k & Hk & Hok & Htk & Hmin); try lia.
    exists k. split; [exact Hk|]. split; [lia|]. split; [done|].
    intros j Hj. destruct (decide (j = o)) as [->|]; [done|]. apply Hmin. lia.
  - exists o. split; [done|]. split; [lia|]. split; [done|]. intros; lia.
Qed.

(** Past 2^31 bytes the doubling shifts the last bit out and never stops. *)
Lemma order_loop_zero : forall fuel total o, 0 < total ->
  order_loop fuel total o 0 = OutOfFuel.
Proof using.
  induction fuel as [|fuel IH]; intros total o Ht; [done|]. cbn [order_loop].
  rewrite (proj2 (Z.ltb_lt 0 total)) by done. simpl. by apply IH.
Qed.

Lemma order_loop_diverges_from : forall fuel total o, 0 <= mn -> 2 ^ 31 < total ->
  mn + Z.of_nat o <= 31 -> order_loop fuel total o (bsz mn o) = OutOfFuel.
Proof using.
  induction fuel as [|fuel IH]; intros total o Hmn Ht Ho; [done|]. cbn [order_loop].
  assert (bsz mn o <= 2 ^ 31) by (apply Z.pow_le_mono_r; lia).
  rewrite (proj2 (Z.ltb_lt _ _)) by lia.
  assert (E : Z.shiftl (bsz mn o) 1 = bsz mn (S o)).
  { rewrite Z.shiftl_mul_pow2, bsz_S by lia. lia. }
  unfold shl. change (1 <? usize_bits) with true. cbn iota. rewrite E. unfold wrap, mbind, outcome_bind.
  destruct (Z.eq_dec (mn + Z.of_nat o) 31) as [E31|].
  - replace (bsz mn (S o)) with (1 * 2 ^ usize_bits)
      by (unfold bsz, usize_bits; replace (mn + Z.of_nat (S o)) with 32 by lia; lia).
    rewrite Z.mod_mul by (unfold usize_bits; lia). apply order_loop_zero. lia.
  - rewrite Z.mod_small.
    + apply IH; lia.
    + split; [pose proof (bsz_pos mn Hmn (S o)); lia|]. apply Z.pow_lt_mono_r; unfold usize_bits; lia.
Qed.

Lemma request_order total : 0 <= mn <= 31 -> total <= 2 ^ 31 ->
  exists k, order_loop order_fuel total 0 (2 ^ mn) = Ret (k, bsz mn k) /\ fits_order mn total k.
Proof using.
  intros. rewrite <- bsz_0. destruct (order_loop_spec order_fuel total 0) as (k & E & _ & Hk & Hmin);
    try lia; [unfold order_fuel; lia|].
  exists k. split; [done|]. split; [done|]. intros. apply Hmin. lia.
Qed.

(** The rounding of [size_of::<BlockHeader>()] up to the alignment. *)
Lemma header_size_eq l : layout_ok l ->
  Z.land (HEADER_SIZE + header_of l - 1) (lnot usize_bits (header_of l - 1)) = header_of l.
Proof using.
  intros [(a & Ha & El) Hs]. unfold header_of, HEADER_SIZE, HEADER_ALIGN. rewrite El.
  assert (Hpow : exists c, 3 <= c < 31 /\ Z.max (2 ^ a) 8 = 2 ^ c).
  { destruct (Z.le_gt_cases 3 a).
    - exists a. split; [lia|]. apply Z.max_l. change 8 with (2 ^ 3). apply Z.pow_le_mono_r; lia.
    - exists 3. split; [lia|]. apply Z.max_r. change 8 with (2 ^ 3). apply Z.pow_le_mono_r; lia. }
  destruct Hpow as (c & Hc & ->).
  assert (8 <= 2 ^ c) by (change 8 with (2 ^ 3); apply Z.pow_le_mono_r; lia).
  assert (2 ^ c <= 2 ^ 30) by (apply Z.pow_le_mono_r; lia).
  rewrite land_lnot_mask by (unfold fits, usize_bits; lia).
  replace (8 + 2 ^ c - 1) with (7 + 1 * 2 ^ c) by lia.
  rewrite Z.mod_add, Z.mod_small by lia. lia.
Qed.
End Orders.

(** ** Requests and frees on the buddy allocator *)

Section Requests.
Context `{Profile} (mn : Z).

(** A live block: the allocator knows nothing of it but its header byte. *)
Definition owned (s : bstate) (fl : list (list Z)) (a : Z) (k : nat) : Prop :=
  (k <= MAX_ORDER)%nat /\ aligned mn a k /\ in_region mn s.1 a k /\
  (forall x, block_bytes mn a k x -> ~ free_byte mn fl x) /\ load8 s.2 a = Z.of_nat k.

(** What [alloc l] promises once the order [k] is fixed. *)
Definition request_post (s : bstate) (fl : list (list Z)) (l : Layout) (k : nat)
    (r : option Z) (s' : bstate) : Prop :=
  match r with
  | Some p => exists fl', wf mn s' fl' /\ coalesced mn fl' /\ same_region s.1 s'.1 /\
      owned s' fl' (p - header_of l) k /\ (lalign l | p) /\
      in_block (p - header_of l) (bsz mn k) p /\ p + lsize l <= p - header_of l + bsz mn k /\
      (forall x, free_byte mn fl x <->
         free_byte mn fl' x \/ block_bytes mn (p - header_of l) k x) /\
      same_outside (free_byte mn fl) s.2 s'.2
  | None => s' = s /\ forall a j, free_in fl a j -> (j < k)%nat
  end.

Lemma header_pow2 l : layout_ok l ->
  exists c, 3 <= c < 31 /\ header_of l = 2 ^ c /\ (lalign l | header_of l).
Proof using.
  intros [(a & Ha & El) _]. unfold header_of, HEADER_ALIGN. rewrite El.
  destruct (Z.le_gt_cases 3 a).
  - exists a. split; [lia|]. rewrite Z.max_l; [split; [done|apply Z.divide_refl]|].
    change 8 with (2 ^ 3). apply Z.pow_le_mono_r; lia.
  - exists 3. split; [lia|]. rewrite Z.max_r; [split; [done|]|].
    + exists (2 ^ (3 - a)). rewrite <- Z.pow_add_r by lia. change 8 with (2 ^ 3). f_equal. lia.
    + change 8 with (2 ^ 3). apply Z.pow_le_mono_r; lia.
Qed.

(** The header is part of every block that holds the request. *)
Lemma header_divides l k a : 0 <= mn -> layout_ok l -> request l <= bsz mn k ->
  aligned mn a k -> (header_of l | a).
Proof using.
  intros Hmn Hl Hr Ha. destruct (header_pow2 l Hl) as (c & Hc & Eh & _).
  eapply Z.divide_trans; [|exact Ha]. rewrite Eh in *. unfold bsz in *.
  assert (c <= mn + Z.of_nat k) as Hle.
  { apply (Z.pow_le_mono_r_iff 2); try lia. unfold request in Hr. destruct Hl as (_ & ? & _). lia. }
  exists (2 ^ (mn + Z.of_nat k - c)). rewrite <- Z.pow_add_r by lia. f_equal. lia.
Qed.

(** Filling in the header of a block just taken. *)
Lemma header_written s s' fl l k a : wf mn s fl -> layout_ok l -> (k <= MAX_ORDER)%nat ->
  request l <= bsz mn k -> 0 < lsize l -> alloc_post mn s fl k (Some a) s' ->
  request_post s fl l k (Some (a + header_of l)) (s'.1, store8 s'.2 a (Z.of_nat k)).
Proof using.
  destruct s' as [b' m']. cbn [fst snd].
  intros Hwf Hl Hk Hr Hr0 (fl' & Hwf' & Hco & Hreg & Hal & Hin & Hcov & Hfr & Hso).
  destruct (header_pow2 l Hl) as (c & Hc & Eh & Hd). destruct Hl as [Hla Hls].
  assert (0 < header_of l) by (rewrite Eh; apply Z.pow_pos_nonneg; lia).
  pose proof (wf_geom _ _ _ Hwf) as [Hmn _ _ _ _]. pose proof (bsz_pos mn ltac:(lia) k).
  assert (Ha : block_bytes mn a k a) by (unfold block_bytes, in_block; lia).
  exists fl'. replace (a + header_of l - header_of l) with a by lia. unfold request, in_block in *.
  split; [|split; [done|split; [done|split; [|split; [|split; [lia|split; [lia|split; [done|]]]]]]]].
  - eapply (wf_frame mn); [done|apply store8_same_outside|]. unfold in_block. cbn [fst snd].
    intros x Hx ?. replace x with a in Hx by lia. by apply (Hfr a).
  - split; [done|]. split; [done|]. split; [by apply (same_region_in mn _ _ _ _ Hreg)|].
    split; [done|]. unfold load8, store8. cbn. by rewrite Z.eqb_refl.
  - apply Z.divide_add_r; [|done]. eapply Z.divide_trans; [exact Hd|].
    eapply (header_divides l k); [lia| |done|done]. by split.
  - eapply same_outside_trans;
      [eapply same_outside_weaken; [|exact Hso]; intros x Hx; apply Hcov; by left|].
    eapply same_outside_weaken; [|apply store8_same_outside].
    unfold in_block. intros x Hx. replace x with a by lia. apply Hcov. by right.
Qed.

Lemma alloc_ok s fl l : wf mn s fl -> coalesced mn fl -> layout_ok l -> lsize l <> 0 ->
  request l <= 2 ^ 31 ->
  exists k r s', fits_order mn (request l) k /\ alloc l s = Ret (r, s') /\
    request_post s fl l k r s'.
Proof using.
  intros Hwf Hco Hl Hs Hreq. pose proof (wf_geom _ _ _ Hwf) as [Hmn Hmin _ _ Hlim].
  destruct (header_pow2 l Hl) as (c & Hc & Eh & Hd). pose proof Hl as (_ & Hls & _).
  assert (8 <= header_of l <= 2 ^ 30) as Hh.
  { rewrite Eh. split; [change 8 with (2 ^ 3)|]; apply Z.pow_le_mono_r; lia. }
  destruct (request_order mn (request l)) as (k & Eo & Hfit); [lia|done|].
  unfold alloc. rewrite (proj2 (Z.eqb_neq _ _)) by done. fold (header_of l).
  do 3 erewrite stbind_step
    by (rewrite ?add_ok, ?sub_ok by (unfold fits, usize_bits, HEADER_SIZE; lia); done).
  rewrite header_size_eq by done. fold (request l).
  erewrite stbind_step by (rewrite add_ok by (unfold fits, usize_bits, request in *; lia); done).
  erewrite stbind_step by done. rewrite Hmin. fold (request l).
  erewrite stbind_step by (rewrite Eo; done). cbv beta iota.
  destruct (decide (k <= MAX_ORDER)%nat) as [Hk|Hk]; last first.
  { exists k, None, s. split; [done|]. split.
    - erewrite stbind_step
        by (unfold alloc_block_order; rewrite (proj2 (Nat.ltb_lt _ _)) by lia; done). done.
    - split; [done|]. intros a j Hin%free_in_bound. rewrite (wf_lists _ _ _ Hwf) in Hin. lia. }
  destruct (alloc_block_order_ok mn s fl k Hwf Hco Hk) as (r & s' & E & Hpost).
  destruct r as [a|]; [|exists k, None, s'; split; [done|]; split; [by erewrite stbind_step by done|done]].
  pose proof (header_written s s' fl l k a Hwf Hl Hk (proj1 Hfit) ltac:(lia) Hpost) as Hp.
  destruct Hpost as (fl' & Hwf' & _ & _ & Hal & [Hin1 Hin2] & _). destruct s' as [b' m'].
  exists k, (Some (a + header_of l)), (b', store8 m' a (Z.of_nat k)). split; [done|]. split; [|done].
  destruct Hfit as [Hfit _]. unfold request in Hfit. destruct (wf_geom _ _ _ Hwf) as [_ _ Hb _ _].
  erewrite stbind_step by done. cbv beta iota. erewrite stbind_step by done.
  replace (wrap 8 (Z.of_nat k)) with (Z.of_nat k)
    by (symmetry; apply Z.mod_small; unfold MAX_ORDER in Hk; lia).
  erewrite stbind_step by (rewrite add_ok by (unfold fits, usize_bits; lia); done).
  erewrite stbind_step; [done|]. unfold debug_assert, rassert. fold (header_of l).
  rewrite (proj2 (Z.eqb_eq _ _)); [by destruct debug_assertions|].
  apply Z.mod_divide; [lia|]. apply Z.divide_add_r; [|apply Z.divide_refl].
  by eapply (header_divides l k); [lia|..].
Qed.

(** [free] of a pointer 8 bytes past a live block gives the block back. *)
Lemma free_ok s fl a k : wf mn s fl -> coalesced mn fl -> owned s fl a k ->
  exists s', free (a + HEADER_SIZE) s = Ret (tt, s') /\ free_post mn s fl a k s'.
Proof using.
  intros Hwf Hco (Hk & Hal & Hin & Hfr & Hhd). pose proof (wf_geom _ _ _ Hwf) as [Hmn _ Hb _ Hlim].
  pose proof (bsz_ge_8 mn k ltac:(lia)). destruct Hin as [Hin1 Hin2].
  destruct (free_block_ok mn s fl a k) as (s' & E & Hpost); try done.
  exists s'. split; [|done]. unfold free, HEADER_SIZE. rewrite (proj2 (Z.eqb_neq _ _)) by lia.
  erewrite stbind_step by (rewrite sub_ok by (unfold fits, usize_bits; lia); done).
  replace (a + 8 - 8) with a by lia. erewrite stbind_step by done. rewrite Hhd, Nat2Z.id. exact E.
Qed.
End Requests.

(** ** Clients of the heap

    The abstract view of the heap is the map from live pointers to their
    layouts.  A client may ask for any layout; it gives back, and moves, blocks
    of alignments of at most 8 only, the ones for which [free] finds the header
    (see [free_overaligned_wrong_block] for the others). *)

Section Client.
Context `{Profile} (lo hi : Z).   (* the region given to [heap_init] *)

Definition HEAP_LOG : Z := 5.

(** The requests that can be answered: no other returns ([alloc_servable]). *)
Definition servable (l : Layout) : Prop :=
  layout_ok l /\ 0 < lsize l /\ request l <= 2 ^ 31.

(** The order [alloc] computes for a request. *)
Definition order_of (l : Layout) : nat :=
  match order_loop order_fuel (request l) 0 HEAP_MIN_BLOCK_SIZE with
  | Ret (k, _) => k
  | _ => O
  end.

Definition user_bytes (p : Z) (l : Layout) : Z -> Prop := in_block p (lsize l).

Definition live_bytes (p : Z) (l : Layout) : Z -> Prop :=
  block_bytes HEAP_LOG (p - header_of l) (order_of l).

Record heap_inv (b : BuddyAllocator) (m : mem) (fl : list (list Z))
    (live : gmap Z Layout) : Prop := {
  hi_region : base_addr b = lo /\ base_addr b + total_size b = hi;
  hi_wf : wf HEAP_LOG (b, m) fl;
  hi_co : coalesced HEAP_LOG fl;
  hi_live p l : live !! p = Some l ->
    servable l /\ owned HEAP_LOG (b, m) fl (p - header_of l) (order_of l);
  hi_disj p l p' l' : live !! p = Some l -> live !! p' = Some l' -> p <> p' ->
    forall x, live_bytes p l x -> ~ live_bytes p' l' x;
  hi_cover x : lo <= x < hi <->
    free_byte HEAP_LOG fl x \/ exists p l, live !! p = Some l /\ live_bytes p l x;
}.

(** One call of a client into the heap. *)
Inductive heap_call : hstate * gmap Z Layout -> hstate * gmap Z Layout -> Prop :=
  | call_alloc h live l p h' : layout_ok l -> heap_alloc l h = Ret (p, h') ->
      heap_call (h, live) (h', <[p := l]> live)
  | call_dealloc h live p l h' : live !! p = Some l -> lalign l <= HEADER_SIZE ->
      heap_dealloc p h = Ret (tt, h') -> heap_call (h, live) (h', delete p live)
  | call_realloc h live p l n p' h' : live !! p = Some l -> lalign l <= HEADER_SIZE ->
      layout_ok (mkLayout n (lalign l)) -> heap_realloc p l n h = Ret (p', h') ->
      heap_call (h, live) (h', <[p' := mkLayout n (lalign l)]> (delete p live)).

(** A client calls the heap or writes to a byte it was given. *)
Inductive heap_step : hstate * gmap Z Layout -> hstate * gmap Z Layout -> Prop :=
  | step_call c c' : heap_call c c' -> heap_step c c'
  | step_write inner m live p l x v : live !! p = Some l -> user_bytes p l x ->
      heap_step ((inner, m), live) ((inner, store8 m x v), live).

(** ** The invariant is kept *)

Lemma order_of_fits l : servable l -> fits_order HEAP_LOG (request l) (order_of l) /\
  forall k, fits_order HEAP_LOG (request l) k -> k = order_of l.
Proof using.
  intros (Hl & Hs & Hr). unfold order_of. change HEAP_MIN_BLOCK_SIZE with (2 ^ HEAP_LOG).
  destruct (request_order HEAP_LOG (request l)) as (k & -> & Hk); [unfold HEAP_LOG; lia|done|].
  split; [done|]. intros j [Hj1 Hj2]. destruct Hk as [Hk1 Hk2].
  destruct (Nat.lt_trichotomy j k) as [Hlt|[->|Hlt]]; [|done|].
  - specialize (Hk2 _ Hlt). lia.
  - specialize (Hj2 _ Hlt). lia.
Qed.

Lemma header_of_small l : lalign l <= HEADER_SIZE -> header_of l = HEADER_SIZE.
Proof using. unfold header_of, HEADER_ALIGN, HEADER_SIZE. lia. Qed.

Lemma header_of_pos l : HEADER_SIZE <= header_of l.
Proof using. unfold header_of, HEADER_ALIGN, HEADER_SIZE. lia. Qed.

(** The user's bytes lie in the block, past the header. *)
Lemma user_in_live p l x : servable l -> user_bytes p l x ->
  live_bytes p l x /\ x <> p - header_of l.
Proof using.
  intros Hl Hx. pose proof (header_of_pos l) as Eh.
  destruct (order_of_fits l Hl) as [[Hfit _] _]. unfold request in Hfit.
  unfold live_bytes, user_bytes, block_bytes, in_block, HEADER_SIZE in *. lia.
Qed.

Lemma pointer_in_live p l : servable l -> live_bytes p l p.
Proof using. intros Hl. apply user_in_live; [done|]. destruct Hl as (_ & ? & _). unfold user_bytes, in_block. lia. Qed.

Lemma header_in_live p l : live_bytes p l (p - header_of l).
Proof using.
  pose proof (bsz_pos HEAP_LOG ltac:(unfold HEAP_LOG; lia) (order_of l)).
  unfold live_bytes, block_bytes, in_block. lia.
Qed.

Lemma live_not_free b m fl live p l x : heap_inv b m fl live -> live !! p = Some l ->
  live_bytes p l x -> ~ free_byte HEAP_LOG fl x.
Proof using.
  intros Hi Hp Hx. destruct (hi_live _ _ _ _ Hi _ _ Hp) as [_ (_ & _ & _ & Hfr & _)]. by apply Hfr.
Qed.

(** Writes to user bytes keep the invariant. *)
Lemma inv_write b m m' fl live P : heap_inv b m fl live -> same_outside P m m' ->
  (forall x, P x -> exists p l, live !! p = Some l /\ user_bytes p l x) ->
  heap_inv b m' fl live.
Proof using.
  intros Hi Hs HP. pose proof (fun p l x => live_not_free b m fl live p l x Hi) as Hnf.
  destruct Hi as [[Hrl Hrh] Hwf Hco Hl Hd Hc]. split; [done| |done| |done|done].
  - eapply wf_frame; [done|done|]. intros x Hx (p & l & Hp & Hu)%HP.
    eapply (Hnf p l x); [done| |done]. apply user_in_live; [|done]. by apply (Hl p).
  - intros p l Hp. destruct (Hl _ _ Hp) as [Hsm (? & ? & ? & ? & Hh)].
    do 5 (split; [done|]). unfold load8 in *. cbn [snd] in *. rewrite Hs; [done|].
    intros (p' & l' & Hp' & Hu)%HP. destruct (Hl _ _ Hp') as [Hsm' _].
    destruct (user_in_live _ _ _ Hsm' Hu) as [Hin Hne].
    destruct (decide (p = p')) as [<-|Hpp]; [by simplify_eq|].
    apply (Hd _ _ _ _ Hp Hp' Hpp (p - header_of l)); [apply header_in_live|done].
Qed.

(** A request either yields a fresh block or finds every block too small. *)
Definition alloc_result (b : BuddyAllocator) (m : mem) (fl : list (list Z))
    (live : gmap Z Layout) (l : Layout) : Prop :=
  (exists p b' m' fl', heap_alloc l (Some b, m) = Ret (p, (Some b', m')) /\ p <> 0 /\
     live !! p = None /\ heap_inv b' m' fl' (<[p := l]> live) /\
     (lalign l | p) /\ same_outside (free_byte HEAP_LOG fl) m m' /\
     (forall x, live_bytes p l x -> free_byte HEAP_LOG fl x)) \/
  (heap_alloc l (Some b, m) = Panic /\ forall a j, free_in fl a j -> (j < order_of l)%nat).

Lemma owned_frame s s' fl fl' a k : owned HEAP_LOG s fl a k -> same_region s.1 s'.1 ->
  (forall x, free_byte HEAP_LOG fl' x -> block_bytes HEAP_LOG a k x ->
     free_byte HEAP_LOG fl x) ->
  load8 s'.2 a = load8 s.2 a -> owned HEAP_LOG s' fl' a k.
Proof using.
  intros (Hk & Hal & Hin & Hfr & Hh) Hr Hsub E. split; [done|]. split; [done|].
  split; [by apply (same_region_in HEAP_LOG _ _ _ _ Hr)|]. split; [|congruence].
  intros x Hx Hf. by apply (Hfr x), Hsub.
Qed.

(** A request that is answered can be: one of no bytes fails, and one past
    2^31 bytes never ends. *)
Lemma alloc_servable b m fl live l p h' : heap_inv b m fl live -> layout_ok l ->
  heap_alloc l (Some b, m) = Ret (p, h') -> servable l.
Proof using.
  intros Hi Hl E. destruct (Z.le_gt_cases (request l) (2 ^ 31)) as [Hr|Hr].
  - split; [done|]. split; [|done]. destruct (Z.eq_dec (lsize l) 0) as [E0|]; [|destruct Hl as (_ & ? & _); lia].
    exfalso. unfold heap_alloc, alloc in E. by rewrite E0 in E.
  - exfalso. pose proof (wf_geom _ _ _ (hi_wf _ _ _ _ Hi)) as [_ Hmin _ _ _]. cbn [fst] in Hmin.
    destruct (header_pow2 l Hl) as (c & Hc & Eh & _). pose proof Hl as ((a & Ha & Ela) & Hls & Hsum).
    assert (8 <= header_of l <= 2 ^ 30) as Hh.
    { rewrite Eh. split; [change 8 with (2 ^ 3)|]; apply Z.pow_le_mono_r; lia. }
    assert (1 <= lalign l) by (rewrite Ela; pose proof (Z.pow_pos_nonneg 2 a); lia).
    assert (header_of l <= lalign l + 7) by (unfold header_of, HEADER_ALIGN; lia).
    assert (0 < lsize l) by (unfold request in Hr; lia).
    revert E. unfold heap_alloc, alloc. rewrite (proj2 (Z.eqb_neq _ _)) by lia. fold (header_of l).
    do 3 erewrite stbind_step
      by (rewrite ?add_ok, ?sub_ok by (unfold fits, usize_bits, HEADER_SIZE; lia); done).
    rewrite header_size_eq by done. fold (request l).
    erewrite stbind_step by (rewrite add_ok by (unfold fits, usize_bits, request in *; lia); done).
    erewrite stbind_step by reflexivity. cbn [fst]. rewrite Hmin. fold (request l).
    unfold mbind, st_bind, lift. rewrite <- bsz_0.
    by rewrite (order_loop_diverges_from HEAP_LOG order_fuel (request l) 0) by (unfold HEAP_LOG; lia).
Qed.

Lemma inv_alloc b m fl live l : heap_inv b m fl live -> servable l ->
  alloc_result b m fl live l.
Proof using.
  intros Hi Hsm. pose proof (fun p l x => live_not_free b m fl live p l x Hi) as Hnf.
  pose proof Hsm as (Hlo & Hs & Hrq). destruct (order_of_fits l Hsm) as [_ Huniq].
  destruct Hi as [[Hrl Hrh] Hwf Hco Hl Hd Hc].
  destruct (alloc_ok HEAP_LOG (b, m) fl l) as (k & r & [b' m'] & ->%Huniq & E & Hpost); try done; [lia|].
  destruct r as [p|]; [left|right]; last first.
  { destruct Hpost as [_ Hno]. split; [|done]. unfold heap_alloc. by rewrite E. }
  destruct Hpost as (fl' & Hwf' & Hco' & Hr & Hown & Hdiv & Hin & Hsz & Hcov & Hso).
  fold (live_bytes p l) in Hcov. cbn [fst snd] in *.
  assert (Hnew : live !! p = None).
  { destruct (live !! p) as [l0|] eqn:E0; [|done]. exfalso. destruct (Hl _ _ E0) as [Hs0 _].
    apply (Hnf _ _ _ E0 (pointer_in_live p l0 Hs0)), Hcov. right. by apply pointer_in_live. }
  exists p, b', m', fl'. split; [unfold heap_alloc; by rewrite E|].
  assert (Hp0 : p <> 0).
  { destruct Hown as (_ & _ & [? _] & _). destruct (wf_geom _ _ _ Hwf'). cbn in *.
    pose proof (header_of_pos l). unfold HEADER_SIZE in *. lia. }
  split; [done|]. split; [done|]. split; [|split; [done|split; [done|intros x Hx; apply Hcov; by right]]].
  split; [destruct Hr as (-> & -> & _); done|done|done| | |].
  - intros q l0 Hq. destruct (decide (q = p)) as [->|Hne].
    { rewrite lookup_insert_eq in Hq. by injection Hq as <-. }
    rewrite lookup_insert_ne in Hq by done. destruct (Hl _ _ Hq) as [? Ho]. split; [done|].
    eapply owned_frame; [exact Ho|done| |].
    + intros x ? _. apply Hcov. by left.
    + apply Hso. eapply Hnf; [exact Hq|]. apply header_in_live.
  - intros p1 l1 p2 l2 H1 H2 Hne x Hx1 Hx2.
    apply lookup_insert_Some in H1 as [[-> ->]|[? H1]], H2 as [[-> ->]|[? H2]]; [done| | |].
    + eapply Hnf; [exact H2|done|]. apply Hcov. by right.
    + eapply Hnf; [exact H1|done|]. apply Hcov. by right.
    + by eapply (Hd p1 l1 p2 l2).
  - intros x. rewrite Hc, Hcov. split.
    + intros [[?|?]|(q & l0 & Hq & Hx)]; [by left|right; exists p, l; by rewrite lookup_insert_eq|].
      right. exists q, l0. rewrite lookup_insert_ne by congruence. done.
    + intros [?|(q & l0 & [[-> ->]|[_ Hq]]%lookup_insert_Some & Hx)]; [by left; left|by left; right|].
      right. by exists q, l0.
Qed.

Lemma inv_dealloc b m fl live p l : heap_inv b m fl live -> live !! p = Some l -> lalign l <= HEADER_SIZE ->
  exists b' m' fl', heap_dealloc p (Some b, m) = Ret (tt, (Some b', m')) /\
    heap_inv b' m' fl' (delete p live) /\ same_outside (free_byte HEAP_LOG fl') m m' /\
    (forall x, free_byte HEAP_LOG fl' x <-> free_byte HEAP_LOG fl x \/ live_bytes p l x).
Proof using.
  intros Hi Hp Ha. pose proof (fun p l x => live_not_free b m fl live p l x Hi) as Hnf.
  destruct Hi as [[Hrl Hrh] Hwf Hco Hl Hd Hc]. destruct (Hl _ _ Hp) as [Hsm Ho].
  destruct (free_ok HEAP_LOG (b, m) fl _ _ Hwf Hco Ho) as ([b' m'] & E & fl' & Hwf' & Hco' & Hr & Hcov & Hso).
  fold (live_bytes p l) in Hcov. rewrite (header_of_small l Ha) in E.
  replace (p - HEADER_SIZE + HEADER_SIZE) with p in E by lia.
  exists b', m', fl'. split; [unfold heap_dealloc; by rewrite E|]. split; [|by split].
  assert (Hkeep : forall q l0 x, delete p live !! q = Some l0 -> live_bytes q l0 x ->
    ~ free_byte HEAP_LOG fl' x).
  { intros q l0 x [Hne Hq]%lookup_delete_Some Hx [Hf|Hf]%Hcov; [by eapply Hnf|].
    by eapply (Hd q l0 p l). }
  split; [destruct Hr as (Eb & Et & _); cbn in *; lia|done|done| | |].
  - intros q l0 Hq. pose proof Hq as [Hne Hq']%lookup_delete_Some.
    destruct (Hl _ _ Hq') as [? Ho']. split; [done|].
    eapply owned_frame; [exact Ho'|done| |].
    + intros x Hf Hx. by destruct (Hkeep q l0 x).
    + apply Hso. apply (Hkeep q l0); [done|]. apply header_in_live.
  - intros p1 l1 p2 l2 [_ H1]%lookup_delete_Some [_ H2]%lookup_delete_Some. by apply Hd.
  - intros x. rewrite Hc, Hcov. split.
    + intros [?|(q & l0 & Hq & Hx)]; [by left; left|]. destruct (decide (q = p)) as [->|Hne].
      * left. right. by simplify_eq.
      * right. exists q, l0. by rewrite lookup_delete_ne.
    + intros [[?|?]|(q & l0 & [_ Hq]%lookup_delete_Some & Hx)]; [by left| |]; right; by eexists _, _.
Qed.

(** [realloc] moves the block and carries its contents along. *)
Lemma inv_realloc b m fl live p l n : heap_inv b m fl live -> live !! p = Some l -> lalign l <= HEADER_SIZE ->
  servable (mkLayout n (lalign l)) ->
  (exists p' b' m' fl', heap_realloc p l n (Some b, m) = Ret (p', (Some b', m')) /\
     heap_inv b' m' fl' (<[p' := mkLayout n (lalign l)]> (delete p live)) /\
     live !! p' = None /\
     (forall i, 0 <= i < Z.min (lsize l) n -> m' (p' + i) = m (p + i)) /\
     (forall q l0 x, live !! q = Some l0 -> q <> p -> live_bytes q l0 x -> m' x = m x)) \/
  (heap_realloc p l n (Some b, m) = Panic /\
     forall a j, free_in fl a j -> (j < order_of (mkLayout n (lalign l)))%nat).
Proof using.
  intros Hi Hp Ha Hsm. set (l' := mkLayout n (lalign l)) in *. unfold heap_realloc. fold l'.
  destruct (inv_alloc b m fl live l' Hi Hsm) as
    [(p' & b1 & m1 & fl1 & E1 & Hp0 & Hnew & Hi1 & _ & Hso1 & Hfree)|[E1 Hno]]; last first.
  { right. split; [|done]. unfold mbind, st_bind. by rewrite E1. }
  left. assert (Hne : p' <> p) by congruence.
  set (len := Z.min (lsize l) n). set (m2 := copy_nonoverlapping m1 p p' len).
  assert (Hso2 : same_outside (in_block p' len) m1 m2).
  { intros x Hx. unfold m2, copy_nonoverlapping, in_block in *.
    destruct (Z.leb_spec p' x), (Z.ltb_spec x (p' + len)); simpl; done || lia. }
  assert (Hi2 : heap_inv b1 m2 fl1 (<[p' := l']> live)).
  { eapply inv_write; [done|done|]. intros x Hx. exists p', l'. rewrite lookup_insert_eq.
    split; [done|]. unfold user_bytes, in_block in *. simpl. lia. }
  destruct (inv_dealloc b1 m2 fl1 _ p l Hi2) as (b3 & m3 & fl3 & E3 & Hi3 & Hso3 & _).
  { by rewrite lookup_insert_ne. }
  { done. }
  rewrite delete_insert_ne in Hi3 by done.
  assert (Hold : forall q l0 x, live !! q = Some l0 -> live_bytes q l0 x -> m1 x = m x).
  { intros q l0 x Hq Hx. apply Hso1. by eapply live_not_free. }
  assert (Hkeep : forall q l0 x, <[p' := l']> (delete p live) !! q = Some l0 ->
    live_bytes q l0 x -> m3 x = m2 x).
  { intros q l0 x Hq Hx. apply Hso3. by eapply live_not_free. }
  exists p', b3, m3, fl3. split; [|split; [done|split; [done|split]]].
  - erewrite stbind_step by done. rewrite (proj2 (Z.eqb_neq _ _)) by done.
    erewrite stbind_step by done. by erewrite stbind_step by done.
  - fold len. intros i Hlt. assert (Hu : user_bytes p' l' (p' + i)).
    { unfold user_bytes, in_block. simpl. lia. }
    rewrite (Hkeep p' l') by (try apply user_in_live; rewrite ?lookup_insert_eq; done).
    unfold m2, copy_nonoverlapping.
    rewrite (proj2 (Z.leb_le _ _)), (proj2 (Z.ltb_lt _ _)) by lia. cbn.
    replace (p + (p' + i - p')) with (p + i) by lia. apply (Hold p l); [done|].
    apply user_in_live; [by apply (hi_live _ _ _ _ Hi p l)|]. unfold user_bytes, in_block. lia.
  - intros q l0 x Hq Hqp Hx. assert (q <> p') by congruence.
    rewrite (Hkeep q l0) by (rewrite ?lookup_insert_ne, ?lookup_delete_ne by done; done).
    rewrite Hso2; [by apply (Hold q l0)|]. intros Hx'. eapply (hi_disj _ _ _ _ Hi1 q l0 p' l'); try done.
    + by rewrite lookup_insert_ne.
    + by rewrite lookup_insert_eq.
    + apply user_in_live; [done|]. unfold user_bytes, in_block in *. simpl. lia.
Qed.

(** The heap is initialised and consistent with the live map. *)
Definition heap_ok (c : hstate * gmap Z Layout) : Prop :=
  exists b m fl, c.1 = (Some b, m) /\ heap_inv b m fl c.2.

Lemma heap_call_ok c c' : heap_call c c' -> heap_ok c ->
  heap_ok c' /\ forall q l0 x, c.2 !! q = Some l0 -> c'.2 !! q = Some l0 ->
    user_bytes q l0 x -> c'.1.2 x = c.1.2 x.
Proof using.
  intros Hc (b & m & fl & E & Hi).
  destruct Hc as [h live l p h' Hlo Ec|h live p l h' Hp Ha Ec|h live p l n p' h' Hp Ha Hlo Ec];
    cbn [fst snd] in *; subst h.
  - assert (Hsm := alloc_servable _ _ _ _ _ _ _ Hi Hlo Ec). destruct (inv_alloc b m fl live l Hi Hsm) as
      [(p1 & b1 & m1 & fl1 & E1 & _ & Hnew & Hi1 & _ & Hso1 & _)|[E1 _]]; [|congruence].
    rewrite E1 in Ec. injection Ec as <- <-. split; [by exists b1, m1, fl1|].
    intros q l0 x Hq _ Hx. apply Hso1. eapply live_not_free; [done|done|].
    apply user_in_live; [|done]. by apply (hi_live _ _ _ _ Hi q).
  - destruct (inv_dealloc b m fl live p l Hi Hp Ha) as (b1 & m1 & fl1 & E1 & Hi1 & Hso1 & _).
    rewrite E1 in Ec. injection Ec as <-. split; [by exists b1, m1, fl1|].
    intros q l0 x Hq Hq' Hx. apply Hso1. eapply live_not_free; [done|done|].
    apply user_in_live; [|done]. by apply (hi_live _ _ _ _ Hi q).
  - assert (Hsm : servable (mkLayout n (lalign l))).
    { pose proof Ec as Ec'. unfold heap_realloc, mbind at 1, st_bind at 1 in Ec'.
      destruct (heap_alloc _ _) as [[q h1]| |] eqn:Eq; [|done..]. by eapply alloc_servable. }
    destruct (inv_realloc b m fl live p l n Hi Hp Ha Hsm) as
      [(p1 & b1 & m1 & fl1 & E1 & Hi1 & Hnew & _ & Hso1)|[E1 _]]; [|congruence].
    rewrite E1 in Ec. injection Ec as <- <-. split; [by exists b1, m1, fl1|].
    intros q l0 x Hq Hq' Hx. cbn [fst snd] in *.
    assert (q <> p).
    { intros ->. rewrite lookup_insert_ne, lookup_delete_eq in Hq' by congruence. done. }
    apply (Hso1 q l0); [done|done|].
    apply user_in_live; [|done]. by apply (hi_live _ _ _ _ Hi q).
Qed.

Lemma heap_step_ok c c' : heap_step c c' -> heap_ok c -> heap_ok c'.
Proof using.
  intros Hs Hok. destruct Hs as [c c' Hc|inner m live p l x v Hp Hx].
  - by eapply heap_call_ok.
  - destruct Hok as (b & m' & fl & [= -> ->] & Hi). exists b, (store8 m' x v), fl. split; [done|].
    eapply inv_write; [done|apply store8_same_outside|]. unfold in_block. intros y Hy.
    replace y with x by lia. by exists p, l.
Qed.

Lemma heap_steps_ok c c' : rtc heap_step c c' -> heap_ok c -> heap_ok c'.
Proof using. induction 1; [done|]. eauto using heap_step_ok. Qed.

(** Initialisation hands the whole region to the free lists. *)
Lemma heap_init_ok m0 start_addr end_addr : init_pre HEAP_LOG (new HEAP_MIN_BLOCK_SIZE) start_addr end_addr ->
  region_start HEAP_LOG start_addr = lo -> region_end HEAP_LOG end_addr = hi ->
  exists h, heap_init start_addr end_addr (None, m0) = Ret (tt, h) /\ heap_ok (h, ∅).
Proof using.
  intros Hpre El Eh. destruct (init_ok HEAP_LOG (new HEAP_MIN_BLOCK_SIZE, m0) start_addr end_addr Hpre)
    as ([b m] & E & Eb & Et & fl & Hwf & Hco & Hcov & _). cbn [fst] in *.
  exists (Some b, m). split; [unfold heap_init; by rewrite E|]. exists b, m, fl. split; [done|].
  split; cbn [fst snd]; [lia|done|done|done|done|]. intros x. rewrite <- El, <- Eh, <- Hcov.
  split; [by left|]. by intros [?|(p & l & ? & _)].
Qed.
End Client.

(** ** Theorems *)

Section Claims.
Context `{Profile}.

(** C1: whatever a client does through [alloc] of any valid layout, [dealloc]
    and [realloc] of allocations of an alignment of at most 8, and writes to
    the bytes it was given, live allocations, of any alignment, never overlap
    and lie inside the region the heap was given, and every one of an
    alignment of at most 8 can be released without a panic; for those of
    larger alignments [dealloc] does not find the block, see
    [free_overaligned_wrong_block]. *)
Theorem heap_live_blocks_safe m0 start_addr end_addr h0 h live :
  init_pre HEAP_LOG (new HEAP_MIN_BLOCK_SIZE) start_addr end_addr ->
  heap_init start_addr end_addr (None, m0) = Ret (tt, h0) ->
  rtc heap_step (h0, ∅) (h, live) ->
  (forall p l p' l' x, live !! p = Some l -> live !! p' = Some l' -> p <> p' ->
     user_bytes p l x -> ~ user_bytes p' l' x) /\
  (forall p l x, live !! p = Some l -> user_bytes p l x ->
     region_start HEAP_LOG start_addr <= x < region_end HEAP_LOG end_addr) /\
  (forall p l, live !! p = Some l -> lalign l <= HEADER_SIZE -> exists h', heap_dealloc p h = Ret (tt, h')).
Proof using.
  intros Hpre E Hsteps. destruct (heap_init_ok _ _ m0 _ _ Hpre eq_refl eq_refl) as (h1 & E1 & Hok).
  rewrite E in E1. injection E1 as <-. eapply heap_steps_ok in Hok as (b & m & fl & Eh & Hi); [|done].
  cbn [fst snd] in *. subst h. split; [|split].
  - intros p l p' l' x Hp Hp' Hne Hx Hx'. destruct (hi_live _ _ _ _ _ _ Hi _ _ Hp) as [Hs _].
    destruct (hi_live _ _ _ _ _ _ Hi _ _ Hp') as [Hs' _].
    by eapply (hi_disj _ _ _ _ _ _ Hi p l p' l' Hp Hp' Hne x); apply user_in_live.
  - intros p l x Hp Hx. apply (hi_cover _ _ _ _ _ _ Hi). right. exists p, l. split; [done|].
    apply user_in_live; [|done]. by apply (hi_live _ _ _ _ _ _ Hi p).
  - intros p l Hp Ha. destruct (inv_dealloc _ _ _ _ _ _ _ _ Hi Hp Ha) as (b' & m' & fl' & E1 & _).
    by exists (Some b', m').
Qed.

(** a call into the heap changes no byte of an allocation that stays
    live across the call: headers, links and copies never reach client data. *)
Theorem heap_call_frame m0 start_addr end_addr h0 h live h' live' q l x :
  init_pre HEAP_LOG (new HEAP_MIN_BLOCK_SIZE) start_addr end_addr ->
  heap_init start_addr end_addr (None, m0) = Ret (tt, h0) ->
  rtc heap_step (h0, ∅) (h, live) -> heap_call (h, live) (h', live') ->
  live !! q = Some l -> live' !! q = Some l -> user_bytes q l x -> h'.2 x = h.2 x.
Proof using.
  intros Hpre E Hsteps Hc Hq Hq' Hx.
  destruct (heap_init_ok _ _ m0 _ _ Hpre eq_refl eq_refl) as (h1 & E1 & Hok).
  rewrite E in E1. injection E1 as <-. eapply heap_steps_ok in Hok; [|done].
  destruct (heap_call_ok _ _ _ _ Hc Hok) as [_ Hf]. by apply (Hf q l x).
Qed.

(** [realloc] of a live allocation returns a fresh pointer whose first
    min(old size, new size) bytes are the old contents, or panics because no
    free block is large enough. *)
Theorem heap_realloc_contents lo hi b m fl live p l n :
  heap_inv lo hi b m fl live -> live !! p = Some l -> lalign l <= HEADER_SIZE -> servable (mkLayout n (lalign l)) ->
  (exists p' h', heap_realloc p l n (Some b, m) = Ret (p', h') /\ live !! p' = None /\
     forall i, 0 <= i < Z.min (lsize l) n -> h'.2 (p' + i) = m (p + i)) \/
  (heap_realloc p l n (Some b, m) = Panic /\
     forall a j, free_in fl a j -> (j < order_of (mkLayout n (lalign l)))%nat).
Proof using.
  intros Hi Hp Ha Hs. destruct (inv_realloc lo hi b m fl live p l n Hi Hp Ha Hs) as
    [(p' & b' & m' & fl' & E & _ & Hnew & Hc & _)|Hno]; [left|by right].
  by exists p', (Some b', m').
Qed.

(** C12: once every allocation has been released, after any sequence of
    [alloc], of [dealloc] and [realloc] of allocations of an alignment of at
    most 8 (which those that are released have), and of client writes, the
    free lists hold exactly the blocks they held after initialisation: nothing
    leaks and fragmentation heals completely. *)
Theorem heap_released_is_fresh m0 start_addr end_addr h0 h :
  init_pre HEAP_LOG (new HEAP_MIN_BLOCK_SIZE) start_addr end_addr ->
  heap_init start_addr end_addr (None, m0) = Ret (tt, h0) ->
  rtc heap_step (h0, ∅) (h, ∅) ->
  exists b0 m0' fl0 b m fl, h0 = (Some b0, m0') /\ h = (Some b, m) /\
    wf HEAP_LOG (b0, m0') fl0 /\ wf HEAP_LOG (b, m) fl /\
    forall a k, free_in fl a k <-> free_in fl0 a k.
Proof using.
  intros Hpre E Hsteps. destruct (heap_init_ok _ _ m0 _ _ Hpre eq_refl eq_refl) as (h1 & E1 & Hok).
  rewrite E in E1. injection E1 as <-. pose proof (heap_steps_ok _ _ _ _ Hsteps Hok) as Hok'.
  destruct Hok as (b0 & m1 & fl0 & E0 & Hi0), Hok' as (b & m & fl & E1 & Hi). cbn [fst snd] in *.
  assert (Hcov : forall x, free_byte HEAP_LOG fl x <-> free_byte HEAP_LOG fl0 x).
  { intros x. pose proof (hi_cover _ _ _ _ _ _ Hi x). pose proof (hi_cover _ _ _ _ _ _ Hi0 x).
    setoid_rewrite lookup_empty in H0. setoid_rewrite lookup_empty in H1. naive_solver. }
  destruct Hi as [_ Hwf Hco _ _ _], Hi0 as [_ Hwf0 Hco0 _ _ _].
  exists b0, m1, fl0, b, m, fl. do 4 (split; [done|]). intros a k. split.
  - by apply (canonical_sub HEAP_LOG (b, m) fl (b0, m1) fl0).
  - by apply (canonical_sub HEAP_LOG (b0, m1) fl0 (b, m) fl).
Qed.

(** [BuddyAllocator::alloc] on every valid layout of non-zero size up to
    2^31 bytes with its header takes the least order that fits, returns an
    aligned pointer past a header that records the order, with room for the
    request, or [None] when no free block of that order or above exists. *)
Theorem alloc_request mn s fl l : wf mn s fl -> coalesced mn fl -> layout_ok l -> lsize l <> 0 ->
  request l <= 2 ^ 31 ->
  exists k r s', fits_order mn (request l) k /\ alloc l s = Ret (r, s') /\
    request_post mn s fl l k r s'.
Proof using. apply alloc_ok. Qed.

(** the search for an order never ends once size and header exceed 2^31
    bytes: the block size is shifted to 0 and stays there, in either build
    profile, however many iterations it is given. *)
Theorem alloc_order_search_diverges mn fuel l : 0 <= mn <= 31 -> 2 ^ 31 < request l ->
  order_loop fuel (request l) 0 (2 ^ mn) = OutOfFuel.
Proof using.
  intros Hmn Hr. rewrite <- bsz_0. apply order_loop_diverges_from; lia.
Qed.

(** a pointer allocated with an alignment above 8 is freed through the
    wrong address: [free] reads its header 8 bytes before the pointer, where
    [alloc] wrote none, and hands [free_block] an address that is no block. *)
Theorem free_overaligned_wrong_block mn s fl l p s' a : wf mn s fl -> coalesced mn fl ->
  layout_ok l -> lsize l <> 0 -> request l <= 2 ^ 31 -> lalign l = 2 ^ a -> 4 <= a ->
  alloc l s = Ret (Some p, s') ->
  free p s' = free_block (p - 8) (Z.to_nat (s'.2 (p - 8))) s' /\
  p - 8 <> p - header_of l /\ ~ (16 | p - 8).
Proof using.
  intros Hwf Hco Hl Hs Hr Ela Ha E.
  destruct (alloc_ok mn s fl l Hwf Hco Hl Hs Hr) as (k & r & s1 & _ & E1 & Hp).
  rewrite E in E1. injection E1 as <- <-. destruct Hp as (fl' & Hwf' & _ & _ & Ho & Hd & [_ Hinp] & _).
  assert (16 <= 2 ^ a) by (change 16 with (2 ^ 4); apply Z.pow_le_mono_r; lia).
  assert (header_of l = 2 ^ a) as Eh by (unfold header_of, HEADER_ALIGN; lia).
  destruct Ho as (_ & _ & [Hin1 Hin2] & _). destruct (wf_geom _ _ _ Hwf') as [Hm _ Hb _ Hlim].
  pose proof (bsz_pos mn ltac:(lia) k). destruct Hl as [(a' & Ha' & Ela') [Hl1 Hl2]].
  split; [|split; [lia|]].
  - unfold free, HEADER_SIZE. rewrite (proj2 (Z.eqb_neq _ _)) by lia.
    erewrite stbind_step by (rewrite sub_ok; [done|]; unfold fits, usize_bits; lia).
    done.
  - rewrite Ela in Hd. intros [q Hq]. destruct Hd as [c Hc].
    replace (2 ^ a) with (2 ^ (a - 4) * 16) in Hc;
      [generalize dependent (2 ^ (a - 4)); intros; lia|].
    change 16 with (2 ^ 4). rewrite <- Z.pow_add_r by lia. f_equal. lia.
Qed.
End Claims.

(** ** Witnesses *)

Section Witnesses.
#[local] Instance debug_profile : Profile := Build_Profile true.

Definition demo_mem : mem := fun _ => 0.

Lemma demo_pre : init_pre HEAP_LOG (new HEAP_MIN_BLOCK_SIZE) 4096 8192.
Proof using. repeat split; vm_compute; congruence. Qed.

Lemma demo_layout n : 0 < n <= 1000 -> layout_ok (mkLayout n 4).
Proof using. intros. split; simpl; [exists 2; split; [lia|done]|lia]. Qed.

(** A small allocation and one aligned to 64 bytes; the small one can be
    released. *)
Lemma heap_live_blocks_safe_witness : exists h0 h1 h,
  heap_init 4096 8192 (None, demo_mem) = Ret (tt, h0) /\ heap_alloc (mkLayout 10 4) h0 = Ret (4104, h1) /\
  heap_alloc (mkLayout 40 64) h1 = Ret (4288, h) /\
  (forall x, user_bytes 4104 (mkLayout 10 4) x -> ~ user_bytes 4288 (mkLayout 40 64) x) /\
  exists h', heap_dealloc 4104 h = Ret (tt, h').
Proof using.
  assert (Hf : match heap_init 4096 8192 (None, demo_mem) with
    | Ret (_, h0) => match heap_alloc (mkLayout 10 4) h0 with
        | Ret (p, h1) => match heap_alloc (mkLayout 40 64) h1 with Ret (q, _) => Some (p, q) | _ => None end
        | _ => None end
    | _ => None end = Some (4104, 4288)) by (vm_compute; reflexivity).
  destruct (heap_init 4096 8192 (None, demo_mem)) as [[[] h0]| |] eqn:E; [|done..].
  destruct (heap_alloc (mkLayout 10 4) h0) as [[p h1]| |] eqn:E0; [|done..].
  destruct (heap_alloc (mkLayout 40 64) h1) as [[q h]| |] eqn:E1; [|done..]. injection Hf as -> ->.
  exists h0, h1, h. split; [reflexivity|]. split; [exact E0|]. split; [exact E1|].
  destruct (heap_live_blocks_safe demo_mem 4096 8192 h0 h (<[4288 := mkLayout 40 64]> (<[4104 := mkLayout 10 4]> ∅))
    demo_pre E) as (Hd & _ & Hf).
  - eapply rtc_l; [|eapply rtc_once].
    + eapply step_call, call_alloc; [apply (demo_layout 10); lia|exact E0].
    + eapply step_call, call_alloc; [split; simpl; [exists 6; split; [lia|done]|lia]|exact E1].
  - split; [|apply (Hf 4104 (mkLayout 10 4)); [reflexivity|vm_compute; congruence]].
    intros x. apply (Hd 4104 (mkLayout 10 4) 4288 (mkLayout 40 64) x); [reflexivity|reflexivity|lia].
Defined.

Lemma heap_call_frame_witness : exists h0 h h',
  heap_init 4096 8192 (None, demo_mem) = Ret (tt, h0) /\ heap_alloc (mkLayout 10 4) h0 = Ret (4104, h) /\
  heap_alloc (mkLayout 40 4) h = Ret (4168, h') /\ h'.2 4104 = h.2 4104.
Proof using.
  eexists _, _, _. split; [vm_compute; reflexivity|]. split; [vm_compute; reflexivity|].
  split; [vm_compute; reflexivity|].
  eapply (heap_call_frame demo_mem 4096 8192 _ _ (<[4104 := mkLayout 10 4]> ∅) _
    (<[4168 := mkLayout 40 4]> (<[4104 := mkLayout 10 4]> ∅)) 4104 (mkLayout 10 4) 4104);
    [apply demo_pre|vm_compute; reflexivity| | |reflexivity|reflexivity|split; simpl; lia].
  - eapply rtc_once, step_call, call_alloc; [apply demo_layout; lia|vm_compute; reflexivity].
  - apply call_alloc; [apply demo_layout; lia|vm_compute; reflexivity].
Defined.

Lemma heap_realloc_contents_witness : exists lo hi b m fl, heap_inv lo hi b m fl {[ 4104 := mkLayout 10 4 ]} /\
  ((exists p' h', heap_realloc 4104 (mkLayout 10 4) 40 (Some b, m) = Ret (p', h') /\
     ({[ 4104 := mkLayout 10 4 ]} : gmap Z Layout) !! p' = None /\
     forall i, 0 <= i < 10 -> h'.2 (p' + i) = m (4104 + i)) \/
   (heap_realloc 4104 (mkLayout 10 4) 40 (Some b, m) = Panic /\
     forall a j, free_in fl a j -> (j < order_of (mkLayout 40 4))%nat)).
Proof using.
  destruct (heap_init_ok _ _ demo_mem _ _ demo_pre eq_refl eq_refl) as (h0 & E & Hok).
  assert (exists h, heap_alloc (mkLayout 10 4) h0 = Ret (4104, h)) as [h Ea].
  { vm_compute in E. injection E as <-. eexists. vm_compute. reflexivity. }
  destruct (heap_call_ok _ _ _ _ (call_alloc h0 ∅ _ _ h (demo_layout 10 ltac:(lia)) Ea) Hok)
    as [(b & m & fl & -> & Hi) _]. cbn [snd] in Hi. rewrite insert_empty in Hi.
  eexists _, _, b, m, fl. split; [exact Hi|].
  apply (heap_realloc_contents _ _ b m fl _ 4104 (mkLayout 10 4) 40 Hi);
    [apply lookup_singleton_eq|vm_compute; congruence|].
  split; [apply demo_layout; lia|]. split; vm_compute; congruence.
Defined.

Lemma heap_released_is_fresh_witness : exists h0 h h',
  heap_init 4096 8192 (None, demo_mem) = Ret (tt, h0) /\ heap_alloc (mkLayout 10 4) h0 = Ret (4104, h) /\
  heap_dealloc 4104 h = Ret (tt, h') /\
  exists b0 m0 fl0 b m fl, h0 = (Some b0, m0) /\ h' = (Some b, m) /\
    wf HEAP_LOG (b0, m0) fl0 /\ wf HEAP_LOG (b, m) fl /\
    forall a k, free_in fl a k <-> free_in fl0 a k.
Proof using.
  eexists _, _, _. split; [vm_compute; reflexivity|]. split; [vm_compute; reflexivity|].
  split; [vm_compute; reflexivity|].
  eapply (heap_released_is_fresh demo_mem 4096 8192); [apply demo_pre|vm_compute; reflexivity|].
  eapply rtc_l; [|eapply rtc_once].
  - eapply step_call, call_alloc; [apply (demo_layout 10); lia|vm_compute; reflexivity].
  - replace (∅ : gmap Z Layout) with (delete 4104 (<[4104 := mkLayout 10 4]> (∅ : gmap Z Layout)))
      by (vm_compute; reflexivity).
    eapply step_call, call_dealloc; [reflexivity|vm_compute; congruence|vm_compute; reflexivity].
Defined.

Lemma alloc_request_witness : exists fl k r s',
  fits_order 5 (request (mkLayout 10 4)) k /\ alloc (mkLayout 10 4) (demo_region demo_mem) = Ret (r, s') /\
  request_post 5 (demo_region demo_mem) fl (mkLayout 10 4) k r s'.
Proof using.
  exists (replicate (S MAX_ORDER) []).
  apply alloc_request; [apply demo_wf|apply (demo_wf demo_mem)|apply (demo_layout 10); lia|done|done].
Defined.

(** A single request of 2^31 - 1 bytes is a valid [Layout]. *)
Lemma alloc_order_search_diverges_witness :
  layout_ok (mkLayout (2 ^ 31 - 1) 1) /\
  order_loop 1000 (request (mkLayout (2 ^ 31 - 1) 1)) 0 (2 ^ 5) = OutOfFuel.
Proof using.
  split; [|apply alloc_order_search_diverges; [lia|vm_compute; congruence]].
  split; [exists 0; split; [lia|done]|simpl; lia].
Defined.

Lemma free_overaligned_wrong_block_witness : exists s s',
  init 4096 8192 (new 32, demo_mem) = Ret (tt, s) /\ alloc (mkLayout 16 16) s = Ret (Some 4112, s') /\
  free 4112 s' = free_block (4112 - 8) (Z.to_nat (s'.2 (4112 - 8))) s' /\
  4112 - 8 <> 4112 - header_of (mkLayout 16 16) /\ ~ (16 | 4112 - 8).
Proof using.
  destruct (init_ok 5 (new 32, demo_mem) 4096 8192 demo_pre) as (s & E & _ & _ & fl & Hwf & Hco & _).
  assert (exists s', alloc (mkLayout 16 16) s = Ret (Some 4112, s')) as [s' Ea].
  { vm_compute in E. injection E as <-. eexists. vm_compute. reflexivity. }
  exists s, s'. split; [done|]. split; [done|].
  apply (free_overaligned_wrong_block 5 s fl (mkLayout 16 16) 4112 s' 4 Hwf Hco);
    [|done|vm_compute; congruence|done|lia|done].
  split; [exists 4; split; [lia|done]|simpl; lia].
Defined.
End Witnesses.
