(* ===== verification/Pages.v ===== *)
(** * Pages, page tables and process stacks

    kernel/src/mm/page_allocator.rs puts a [BuddyAllocator] of 4 KiB blocks in
    a [OnceCell]; kernel/src/mm/page_table.rs wraps its blocks in handles that
    zero on creation and free on drop; kernel/src/process/stack.rs builds the
    kernel and user stacks from order-2 blocks. *)
From S2P Require Import Prelude Memory Buddy.

(** ** Operations *)

Definition PAGE_SIZE : Z := 4096.

(** [PageAllocator::inner] and the memory. *)
Definition pstate : Type := option BuddyAllocator * mem.

(** A handle: [Page], [PageBlock], [L1Table] and [L2Table] all hold an address
    and the flag that catches double frees in debug builds. *)
Record Handle := mkHandle { haddr : Z; freed : bool }.

Section PageOperations.
Context `{Profile}.

(** [PageAllocator::init]: the buddy allocator is set up before the cell is
    found occupied. *)
Definition pages_init (start end_ : Z) : st pstate unit := fun '(inner, m) =>
  match init start end_ (new PAGE_SIZE, m) with
  | Ret (_, (b, m)) =>
      match inner with None => Ret (tt, (Some b, m)) | Some _ => Panic end
  | Panic => Panic
  | OutOfFuel => OutOfFuel
  end.

Definition with_page_allocator {R} (f : st bstate R) : st pstate R := fun '(inner, m) =>
  match inner with
  | None => Panic
  | Some b =>
      match f (b, m) with
      | Ret (r, (b, m)) => Ret (r, (Some b, m))
      | Panic => Panic
      | OutOfFuel => OutOfFuel
      end
  end.

(** The constructors: zero [len] bytes, then [NonNull::new(addr).unwrap()]. *)
Definition handle_new (len addr : Z) : st bstate Handle :=
  _ ← modify (fun '(b, m) => (b, write_bytes m addr 0 len));
  if addr =? 0 then panic else mret (mkHandle addr false).

Definition Page_new (addr : Z) : st bstate Handle := handle_new PAGE_SIZE addr.

Definition PageBlock_new (order : nat) (addr : Z) : st bstate Handle :=
  len ← lift (shl usize_bits PAGE_SIZE (Z.of_nat order));
  handle_new len addr.

Definition L1Table_new (addr : Z) : st bstate Handle :=
  len ← lift (shl usize_bits PAGE_SIZE 1);
  handle_new len addr.

Definition L2Table_new (addr : Z) : st bstate Handle := handle_new PAGE_SIZE addr.

(** [Option::map] with an effectful constructor. *)
Definition map_new (r : option Z) (new_ : Z -> st bstate Handle) : st bstate (option Handle) :=
  match r with
  | Some addr => h ← new_ addr; mret (Some h)
  | None => mret None
  end.

Definition pages_alloc : st pstate (option Handle) :=
  with_page_allocator (r ← alloc_block; map_new r Page_new).

Definition pages_alloc_block (order : nat) : st pstate (option Handle) :=
  with_page_allocator (r ← alloc_block_order order; map_new r (PageBlock_new order)).

Definition alloc_l1_table : st pstate (option Handle) :=
  with_page_allocator (r ← alloc_block_order 2; map_new r L1Table_new).

Definition alloc_l2_table : st pstate (option Handle) :=
  with_page_allocator (r ← alloc_block; map_new r L2Table_new).

(** [PageAllocator::free_block]: nothing to do before initialisation. *)
Definition pages_free_block (addr : Z) (order : nat) : st pstate unit := fun '(inner, m) =>
  match inner with
  | None => Ret (tt, (None, m))
  | Some _ => with_page_allocator (free_block addr order) (inner, m)
  end.

(** [AllocFlag::mark_freed]: a no-op in release builds. *)
Definition mark_freed (h : Handle) : outcome Handle :=
  if debug_assertions then
    if freed h then Panic else Ret (mkHandle (haddr h) true)
  else Ret h.

(** The four [Drop] implementations differ in the order they give back. *)
Definition drop_handle (order : nat) (h : Handle) : st pstate Handle :=
  h ← lift (mark_freed h);
  _ ← pages_free_block (haddr h) order;
  mret h.

Definition Page_drop : Handle -> st pstate Handle := drop_handle 0.
Definition PageBlock_drop (order : nat) : Handle -> st pstate Handle := drop_handle order.
Definition L1Table_drop : Handle -> st pstate Handle := drop_handle 2.
Definition L2Table_drop : Handle -> st pstate Handle := drop_handle 0.

Definition L1_ENTRIES : Z := 4096.
Definition L2_ENTRIES : Z := 256.

Definition set_entry (limit : Z) (t : Handle) (index value : Z) (m : mem) : outcome mem :=
  _ ← rassert (index <? limit);
  Ret (store32 m (haddr t + 4 * index) value).

Definition get_entry (limit : Z) (t : Handle) (index : Z) (m : mem) : outcome Z :=
  _ ← rassert (index <? limit);
  Ret (load32 m (haddr t + 4 * index)).

Definition L1Table_set_entry := set_entry L1_ENTRIES.
Definition L1Table_get_entry := get_entry L1_ENTRIES.
Definition L2Table_set_entry := set_entry L2_ENTRIES.
Definition L2Table_get_entry := get_entry L2_ENTRIES.

(** *** Process stacks *)

Inductive StackError := OutOfMemory.

Definition KERNEL_STACK_ORDER : nat := 2.
Definition USER_STACK_ORDER : nat := 2.

Definition KernelStack_new : st pstate (result Handle StackError) :=
  r ← pages_alloc_block KERNEL_STACK_ORDER;
  mret (ok_or r OutOfMemory).

Definition UserStack_new : st pstate (result Handle StackError) :=
  r ← pages_alloc_block USER_STACK_ORDER;
  mret (ok_or r OutOfMemory).

Definition stack_bottom (s : Handle) : Z := haddr s.
Definition stack_size (order : nat) : outcome Z := shl usize_bits PAGE_SIZE (Z.of_nat order).
Definition stack_top (order : nat) (s : Handle) : outcome Z :=
  size ← stack_size order; add usize_bits (haddr s) size.
Definition initial_sp (order : nat) (s : Handle) : outcome Z :=
  top ← stack_top order s; sub usize_bits top 16.
End PageOperations.

(** ** Lemmas *)

Section Pages.
Context `{Profile}.

Definition PAGE_LOG : Z := 12.

(** The allocator is set up and its free lists are [fl]. *)
Definition pages_ok (s : pstate) (fl : list (list Z)) : Prop :=
  exists b, s.1 = Some b /\ wf PAGE_LOG (b, s.2) fl /\ coalesced PAGE_LOG fl.

(** What an allocation of [order] with the first [len] bytes zeroed gives. *)
Definition handle_post (s : pstate) (fl : list (list Z)) (order : nat) (len : Z)
    (r : option Handle) (s' : pstate) : Prop :=
  match r with
  | Some h => exists fl', pages_ok s' fl' /\ freed h = false /\ haddr h <> 0 /\
      aligned PAGE_LOG (haddr h) order /\ fits 32 (haddr h + bsz PAGE_LOG order) /\
      (forall x, haddr h <= x < haddr h + len -> s'.2 x = 0) /\
      (forall x, free_byte PAGE_LOG fl x <->
         free_byte PAGE_LOG fl' x \/ block_bytes PAGE_LOG (haddr h) order x) /\
      (forall x, block_bytes PAGE_LOG (haddr h) order x -> ~ free_byte PAGE_LOG fl' x) /\
      (forall b, s'.1 = Some b -> in_region PAGE_LOG b (haddr h) order) /\
      same_outside (fun x => free_byte PAGE_LOG fl' x \/ in_block (haddr h) len x) s.2 s'.2
  | None => s' = s /\ forall a j, free_in fl a j -> (j < order)%nat
  end.

Lemma bsz_page k : bsz PAGE_LOG k = PAGE_SIZE * 2 ^ Z.of_nat k.
Proof using. unfold bsz, PAGE_LOG, PAGE_SIZE. rewrite Z.pow_add_r by lia. done. Qed.

Lemma handle_new_ok len a s : a <> 0 ->
  handle_new len a s = Ret (mkHandle a false, (s.1, write_bytes s.2 a 0 len)).
Proof using.
  intros Ha. destruct s as [b m]. unfold handle_new. erewrite stbind_step by done.
  by rewrite (proj2 (Z.eqb_neq _ _)) by done.
Qed.

(** Zeroing part of a block just taken disturbs nothing else. *)
Lemma handle_alloc s fl order len r b m s1 (new_ : Z -> st bstate Handle) :
  s = (Some b, m) -> wf PAGE_LOG (b, m) fl -> coalesced PAGE_LOG fl ->
  alloc_block_order order (b, m) = Ret (r, s1) -> alloc_post PAGE_LOG (b, m) fl order r s1 ->
  0 <= len <= bsz PAGE_LOG order ->
  (forall a s, new_ a s = handle_new len a s) ->
  exists h s', with_page_allocator (r ← alloc_block_order order; map_new r new_) s = Ret (h, s') /\
    handle_post s fl order len h s'.
Proof using.
  intros -> Hwf Hco E Hpost Hlen Hnew. unfold with_page_allocator.
  erewrite stbind_step by exact E. destruct r as [a|]; last first.
  { destruct Hpost as [-> Hno]. by exists None, (Some b, m). }
  destruct Hpost as (fl' & Hwf' & Hco' & Hr & Hal & Hin & Hcov & Hfr & Hso).
  pose proof (wf_geom _ _ _ Hwf) as [_ _ Hb _ Hlim]. pose proof Hin as [Hin1 Hin2]. cbn [fst snd] in *.
  pose proof (bsz_pos PAGE_LOG ltac:(unfold PAGE_LOG; lia) order).
  exists (Some (mkHandle a false)), (Some s1.1, write_bytes s1.2 a 0 len).
  split; [cbn; unfold mbind, st_bind; rewrite Hnew, handle_new_ok by lia; done|].
  exists fl'. cbn [haddr freed fst snd]. split.
  { exists s1.1. split; [done|]. split; [|done]. destruct s1 as [b1 m1].
    eapply (wf_frame PAGE_LOG); [done|apply write_bytes_same_outside|].
    intros x Hx Hx'. apply (Hfr x); [|done]. unfold block_bytes, in_block in *. cbn in *. lia. }
  split; [done|]. split; [lia|]. split; [done|]. split; [unfold fits; lia|].
  split; [intros x Hx; by apply write_bytes_in|]. split; [done|]. split; [done|].
  split; [intros ? [= <-]; by apply (same_region_in PAGE_LOG _ _ _ _ Hr)|].
  eapply same_outside_trans; [eapply same_outside_weaken; [|exact Hso]; by left|].
  eapply same_outside_weaken; [|apply write_bytes_same_outside]. by right.
Qed.

Lemma alloc_handle_ok s fl order len new_ : pages_ok s fl -> (order <= MAX_ORDER)%nat ->
  0 <= len <= bsz PAGE_LOG order -> (forall a s, new_ a s = handle_new len a s) ->
  exists h s', with_page_allocator (r ← alloc_block_order order; map_new r new_) s = Ret (h, s') /\
    handle_post s fl order len h s'.
Proof using.
  intros (b & Eb & Hwf & Hco) Ho Hlen Hnew. destruct s as [inner m]. cbn [fst snd] in *. subst inner.
  destruct (alloc_block_order_ok PAGE_LOG (b, m) fl order Hwf Hco Ho) as (r & s1 & E & Hpost).
  by eapply handle_alloc.
Qed.

Lemma PageBlock_new_eq order a s : (order <= MAX_ORDER)%nat ->
  PageBlock_new order a s = handle_new (bsz PAGE_LOG order) a s.
Proof using.
  intros Ho. unfold PageBlock_new, MAX_ORDER in *. erewrite stbind_step; [done|].
  rewrite bsz_page, shl_ok; [done|unfold usize_bits; lia|].
  unfold fits, PAGE_SIZE, usize_bits.
  assert (0 < 2 ^ Z.of_nat order) by (apply Z.pow_pos_nonneg; lia).
  assert (2 ^ Z.of_nat order <= 2 ^ 10) by (apply Z.pow_le_mono_r; lia). lia.
Qed.

Lemma drop_handle_ok s fl order h : pages_ok s fl -> (order <= MAX_ORDER)%nat ->
  freed h = false -> aligned PAGE_LOG (haddr h) order ->
  (forall b, s.1 = Some b -> in_region PAGE_LOG b (haddr h) order) ->
  (forall x, block_bytes PAGE_LOG (haddr h) order x -> ~ free_byte PAGE_LOG fl x) ->
  exists h' s' fl', drop_handle order h s = Ret (h', s') /\ pages_ok s' fl' /\
    (forall x, free_byte PAGE_LOG fl' x <->
       free_byte PAGE_LOG fl x \/ block_bytes PAGE_LOG (haddr h) order x) /\
    same_outside (free_byte PAGE_LOG fl') s.2 s'.2.
Proof using.
  intros (b & Eb & Hwf & Hco) Ho Hf Hal Hin Hfr. destruct s as [inner m]. cbn [fst snd] in *. subst inner.
  destruct (free_block_ok PAGE_LOG (b, m) fl (haddr h) order Hwf Hco Ho Hal (Hin b eq_refl) Hfr)
    as ([b' m'] & E & fl' & Hwf' & Hco' & _ & Hcov & Hso).
  exists (if debug_assertions then mkHandle (haddr h) true else h), (Some b', m'), fl'.
  split; [|split; [by exists b'|by split]].
  unfold drop_handle, mark_freed. rewrite Hf. unfold mbind, st_bind.
  destruct debug_assertions; cbn; by rewrite E.
Qed.
End Pages.

(** ** Theorems *)

Section Claims.
Context `{Profile}.

(** allocating a page block of any order yields a fresh, naturally
    aligned, fully zeroed block taken out of the free bytes, or [None]
    exactly when no free block is large enough; nothing else changes. *)
Theorem page_block_alloc s fl order : pages_ok s fl -> (order <= MAX_ORDER)%nat ->
  exists h s', pages_alloc_block order s = Ret (h, s') /\
    handle_post s fl order (bsz PAGE_LOG order) h s'.
Proof using.
  intros Hok Ho. apply alloc_handle_ok; [done|done| |intros; by apply PageBlock_new_eq].
  pose proof (bsz_pos PAGE_LOG ltac:(unfold PAGE_LOG; lia) order). lia.
Qed.

(** dropping a page block right after allocating it restores exactly the
    free lists of before: splits are undone by merges. *)
Theorem page_block_roundtrip s fl order h s1 : pages_ok s fl -> (order <= MAX_ORDER)%nat ->
  pages_alloc_block order s = Ret (Some h, s1) ->
  exists h' s2 fl2, PageBlock_drop order h s1 = Ret (h', s2) /\ pages_ok s2 fl2 /\
    (forall a k, free_in fl2 a k <-> free_in fl a k) /\
    same_outside (free_byte PAGE_LOG fl) s.2 s2.2.
Proof using.
  intros Hok Ho E. pose proof (bsz_pos PAGE_LOG ltac:(unfold PAGE_LOG; lia) order).
  destruct (alloc_handle_ok s fl order (bsz PAGE_LOG order) (PageBlock_new order)) as (r & s' & E' & Hp);
    [done|done|lia|intros; by apply PageBlock_new_eq|].
  unfold pages_alloc_block in E. rewrite E' in E. injection E as -> ->.
  destruct Hp as (fl1 & Hok1 & Hf & Hne & Hal & _ & _ & Hcov & Hfr & Hin & Hso).
  destruct (drop_handle_ok s1 fl1 order h) as (h' & s2 & fl2 & E2 & Hok2 & Hcov2 & Hso2); try done.
  exists h', s2, fl2. split; [done|]. split; [done|].
  assert (Hsame : forall x, free_byte PAGE_LOG fl2 x <-> free_byte PAGE_LOG fl x).
  { intros x. by rewrite Hcov2, Hcov. }
  destruct Hok as (b & _ & Hwf & Hco), Hok2 as (b2 & _ & Hwf2 & Hco2). split.
  - intros a k. split.
    + by apply (canonical_sub PAGE_LOG (b2, s2.2) fl2 (b, s.2) fl).
    + by apply (canonical_sub PAGE_LOG (b, s.2) fl (b2, s2.2) fl2).
  - eapply same_outside_trans; (eapply same_outside_weaken; [|done]); intros x; [|apply Hsame].
    rewrite Hcov. unfold block_bytes. tauto.
Qed.

(** a kernel stack is a fresh zeroed 16 KiB block: its top is its bottom
    plus its size and the initial stack pointer is 16-byte aligned inside it;
    the only error is [OutOfMemory], when no order-2 block is free. *)
Theorem kernel_stack_new s fl : pages_ok s fl ->
  (exists h s', KernelStack_new s = Ret (Ok h, s') /\
     stack_top KERNEL_STACK_ORDER h = Ret (stack_bottom h + 16384) /\
     initial_sp KERNEL_STACK_ORDER h = Ret (stack_bottom h + 16368) /\
     (16 | stack_bottom h + 16368) /\
     (forall x, stack_bottom h <= x < stack_bottom h + 16384 ->
        s'.2 x = 0 /\ free_byte PAGE_LOG fl x)) \/
  (KernelStack_new s = Ret (Err OutOfMemory, s) /\ forall a j, free_in fl a j -> (j < 2)%nat).
Proof using.
  intros Hok. assert (KERNEL_STACK_ORDER <= MAX_ORDER)%nat by (unfold KERNEL_STACK_ORDER, MAX_ORDER; lia).
  destruct (alloc_handle_ok s fl KERNEL_STACK_ORDER (bsz PAGE_LOG KERNEL_STACK_ORDER)
    (PageBlock_new KERNEL_STACK_ORDER)) as (r & s' & E & Hp);
    [done|done|vm_compute; split; congruence|intros; by apply PageBlock_new_eq|].
  change (bsz PAGE_LOG KERNEL_STACK_ORDER) with 16384 in Hp.
  destruct r as [h|]; [left|right].
  - destruct Hp as (fl' & Hok' & _ & Hne & Hal & Hfit & Hz & Hcov & _ & Hin & _).
    exists h, s'. unfold stack_bottom in *. change (bsz PAGE_LOG KERNEL_STACK_ORDER) with 16384 in Hfit.
    assert (0 < haddr h) as Hpos.
    { destruct Hok' as (b & Eb & Hwf & _). destruct (Hin _ Eb), (wf_geom _ _ _ Hwf). cbn in *. lia. }
    assert (stack_top KERNEL_STACK_ORDER h = Ret (haddr h + 16384)) as Et.
    { unfold stack_top, stack_size. rewrite shl_ok by (vm_compute; split; congruence).
      apply add_ok. exact Hfit. }
    split; [unfold KernelStack_new, pages_alloc_block; by erewrite stbind_step by exact E|].
    split; [exact Et|]. split.
    { unfold initial_sp. rewrite Et. cbn. rewrite sub_ok by (unfold fits, usize_bits in *; lia).
      f_equal. lia. }
    split.
    + destruct Hal as [q Hq]. change (bsz PAGE_LOG KERNEL_STACK_ORDER) with 16384 in Hq.
      exists (q * 1024 + 1023). lia.
    + intros x Hx. split; [by apply Hz|]. apply Hcov. right. exact Hx.
  - destruct Hp as [-> Hno]. split; [|exact Hno].
    unfold KernelStack_new, pages_alloc_block. by erewrite stbind_step by exact E.
Qed.

(** an L1 entry reads back as written and leaves the others alone; an
    index of 4096 or more panics without touching memory. *)
Theorem l1_table_entries t i j v m : 0 <= i -> 0 <= j -> fits 32 v ->
  (i < 4096 -> j < 4096 -> exists m', L1Table_set_entry t i v m = Ret m' /\
     L1Table_get_entry t j m' = (if i =? j then Ret v else L1Table_get_entry t j m)) /\
  (4096 <= i -> L1Table_set_entry t i v m = Panic /\ L1Table_get_entry t i m = Panic).
Proof using.
  intros Hi Hj Hv. unfold L1Table_set_entry, L1Table_get_entry, set_entry, get_entry, rassert, L1_ENTRIES.
  split.
  - intros Hi' Hj'. rewrite !(proj2 (Z.ltb_lt _ _)) by done. cbn. eexists. split; [done|].
    destruct (Z.eqb_spec i j) as [<-|Hne]; f_equal; [by apply load32_store32_eq|].
    apply load32_store32_ne. lia.
  - intros Hi'. by rewrite (proj2 (Z.ltb_ge _ _)) by done.
Qed.

(** a new L1 table has zero in its first 2048 entries only: the other
    2048 of its 4096 entries keep whatever the block held before. *)
Theorem l1_table_half_zeroed s fl : pages_ok s fl ->
  exists r s', alloc_l1_table s = Ret (r, s') /\
    forall h, r = Some h ->
      (forall i, 0 <= i < 2048 -> L1Table_get_entry h i s'.2 = Ret 0) /\
      (forall i, 2048 <= i < 4096 -> L1Table_get_entry h i s'.2 = L1Table_get_entry h i s.2).
Proof using.
  intros Hok. destruct (alloc_handle_ok s fl 2 8192 L1Table_new) as (r & s' & E & Hp);
    [done|unfold MAX_ORDER; lia|vm_compute; split; congruence| |].
  { intros a s0. unfold L1Table_new. erewrite stbind_step; [done|]. by rewrite shl_ok by (vm_compute; split; congruence). }
  exists r, s'. split; [exact E|]. intros h ->.
  destruct Hp as (fl' & _ & _ & _ & _ & _ & Hz & _ & Hfr & _ & Hso).
  unfold L1Table_get_entry, get_entry, rassert, L1_ENTRIES.
  split; intros i Hi; rewrite (proj2 (Z.ltb_lt _ _)) by lia; cbn.
  - unfold load32. rewrite !Hz by lia. done.
  - f_equal. eapply load32_same_outside; [exact Hso|]. unfold in_block. intros x Hx [Hx'|Hx']; [|lia].
    apply (Hfr x); [|done]. unfold block_bytes, in_block. change (bsz PAGE_LOG 2) with 16384. lia.
Qed.
End Claims.

(** ** Witnesses *)

Section Witnesses.
#[local] Instance debug_profile : Profile := Build_Profile true.

(** A freshly initialised allocator over 64 KiB. *)
Lemma demo_pages m : exists s fl, pages_init 65536 131072 (None, m) = Ret (tt, s) /\ pages_ok s fl.
Proof using.
  destruct (init_ok 12 (new PAGE_SIZE, m) 65536 131072) as ([b m'] & E & _ & _ & fl & Hwf & Hco & _).
  { repeat split; vm_compute; congruence. }
  exists (Some b, m'), fl. split; [unfold pages_init; by rewrite E|]. by exists b.
Qed.

Lemma page_block_alloc_witness : exists s fl h s', pages_init 65536 131072 (None, fun _ => 7) = Ret (tt, s) /\
  pages_alloc_block 1 s = Ret (h, s') /\ handle_post s fl 1 (bsz PAGE_LOG 1) h s'.
Proof using.
  destruct (demo_pages (fun _ => 7)) as (s & fl & E & Hok).
  destruct (page_block_alloc s fl 1 Hok) as (h & s' & E' & Hp); [unfold MAX_ORDER; lia|].
  by exists s, fl, h, s'.
Defined.

Lemma page_block_roundtrip_witness : exists s fl h s1 h' s2 fl2,
  pages_init 65536 131072 (None, fun _ => 7) = Ret (tt, s) /\ pages_alloc_block 1 s = Ret (Some h, s1) /\
  PageBlock_drop 1 h s1 = Ret (h', s2) /\ pages_ok s2 fl2 /\
  forall a k, free_in fl2 a k <-> free_in fl a k.
Proof using.
  destruct (demo_pages (fun _ => 7)) as (s & fl & E & Hok).
  assert (exists h s1, pages_alloc_block 1 s = Ret (Some h, s1)) as (h & s1 & E1).
  { vm_compute in E. injection E as <-. eexists _, _. vm_compute. reflexivity. }
  destruct (page_block_roundtrip s fl 1 h s1 Hok) as (h' & s2 & fl2 & E2 & Hok2 & Hiff & _);
    [unfold MAX_ORDER; lia|done|].
  by exists s, fl, h, s1, h', s2, fl2.
Defined.

Lemma kernel_stack_new_witness : exists s fl, pages_init 65536 131072 (None, fun _ => 7) = Ret (tt, s) /\
  ((exists h s', KernelStack_new s = Ret (Ok h, s') /\
     stack_top KERNEL_STACK_ORDER h = Ret (stack_bottom h + 16384) /\
     initial_sp KERNEL_STACK_ORDER h = Ret (stack_bottom h + 16368) /\
     (16 | stack_bottom h + 16368) /\
     (forall x, stack_bottom h <= x < stack_bottom h + 16384 ->
        s'.2 x = 0 /\ free_byte PAGE_LOG fl x)) \/
   (KernelStack_new s = Ret (Err OutOfMemory, s) /\ forall a j, free_in fl a j -> (j < 2)%nat)).
Proof using.
  destruct (demo_pages (fun _ => 7)) as (s & fl & E & Hok).
  exists s, fl. split; [done|]. by apply kernel_stack_new.
Defined.

Lemma l1_table_entries_witness :
  (1 < 4096 -> 2 < 4096 -> exists m', L1Table_set_entry (mkHandle 16384 false) 1 5 (fun _ => 0) = Ret m' /\
     L1Table_get_entry (mkHandle 16384 false) 2 m' =
       (if 1 =? 2 then Ret 5 else L1Table_get_entry (mkHandle 16384 false) 2 (fun _ => 0))) /\
  (4096 <= 1 -> L1Table_set_entry (mkHandle 16384 false) 1 5 (fun _ => 0) = Panic /\
     L1Table_get_entry (mkHandle 16384 false) 1 (fun _ => 0) = Panic).
Proof using. apply l1_table_entries; [lia|lia|unfold fits; lia]. Defined.

Lemma l1_table_half_zeroed_witness : exists s h s', alloc_l1_table s = Ret (Some h, s') /\
  L1Table_get_entry h 0 s'.2 = Ret 0 /\ L1Table_get_entry h 4095 s'.2 = Ret 0xFFFFFFFF.
Proof using.
  destruct (demo_pages (fun _ => 255)) as (s & fl & E & Hok).
  destruct (l1_table_half_zeroed s fl Hok) as (r & s' & E' & Hp).
  assert (exists h s0, alloc_l1_table s = Ret (Some h, s0) /\ L1Table_get_entry h 4095 s.2 = Ret 0xFFFFFFFF)
    as (h & s0 & E0 & E1).
  { vm_compute in E. injection E as <-. eexists _, _. split; vm_compute; reflexivity. }
  rewrite E' in E0. injection E0 as -> <-. destruct (Hp h eq_refl) as [Hlo Hhi].
  exists s, h, s'. split; [done|]. split; [by apply Hlo|]. by rewrite Hhi.
Defined.
End Witnesses.
