(* ===== verification/MmuX86.v ===== *)
(** * Two-level paging on x86 (kernel/src/arch/x86/mmu.rs)

    [X86Mmu] edits the page directory CR3 points to and takes page tables from
    a static pool of 64 frames.  The state is physical memory, the control
    registers, the pool cursor and the translations the processor may have
    cached; tables are read and written at their physical addresses, as the
    code does.  [translate] is the processor's page walk, [sees] what it may
    use for an address, from the walk or from its cache; the operations are
    specified against them. *)
From S2P Require Import Prelude Memory.

(** ** Constants *)

Definition PD_ENTRIES : Z := 1024.
Definition PT_ENTRIES : Z := 1024.
Definition PAGE_SIZE : Z := 4096.
Definition PT_SIZE : Z := PT_ENTRIES * 4.
Definition PT_POOL_COUNT : Z := 64.
Definition X86_PRESENT : Z := 1.
Definition X86_WRITABLE : Z := 2.
Definition X86_USER : Z := 4.
Definition X86_PWT : Z := 8.
Definition X86_PCD : Z := 16.
Definition X86_PS : Z := 128.
Definition PHYS_ADDR_MASK : Z := 0xFFFFF000.

(** [MapFlags] (kernel/src/mm/mmu.rs). *)
Definition MF_READ : Z := 1.
Definition MF_WRITE : Z := 2.
Definition MF_EXEC : Z := 4.
Definition MF_USER : Z := 8.
Definition MF_DEVICE : Z := 16.
Definition MF_CACHED : Z := 32.

(** [bitflags]' [contains]. *)
Definition contains (flags f : Z) : bool := Z.land flags f =? f.

Definition pd_index (va : Z) : Z := Z.land (Z.shiftr va 22) 0x3FF.
Definition pt_index (va : Z) : Z := Z.land (Z.shiftr va 12) 0x3FF.
Definition page_offset (va : Z) : Z := Z.land va 0xFFF.

(** ** The processor *)

(** What a translation grants to a page.  Supervisor writes are checked
    against [writable] when CR0.WP is set. *)
Record rights := mkRights { writable : bool; user : bool; write_through : bool; cache_disabled : bool }.

(** A cached translation of a page; [big] if a 4 MiB page gave it. *)
Record cached := mkCached { frame : Z; granted : rights; big : bool }.

(** [tlb] has, for every page number, all the translations the processor may
    hold: it may cache any translation at any time. *)
Record x86 := mkX86 {
  ram : mem;
  cr0 : Z;
  cr3 : Z;
  cr4 : Z;
  PT_POOL_NEXT : Z;
  tlb : Z -> list cached;
}.

(** *** The page walk *)

Definition present (e : Z) : bool := negb (Z.land e X86_PRESENT =? 0).
Definition large (e : Z) : bool := negb (Z.land e X86_PS =? 0).
Definition frame_of (e : Z) : Z := Z.land e PHYS_ADDR_MASK.
Definition pd_of (s : x86) : Z := frame_of (cr3 s).
Definition pde (s : x86) (i : Z) : Z := load32 (ram s) (pd_of s + 4 * i).
Definition paging (s : x86) : bool := Z.testbit (cr0 s) 31.
Definition pse (s : x86) : bool := Z.testbit (cr4 s) 4.

(** Both levels must allow a write and an access from user mode; the cache
    bits are those of the last level. *)
Definition grants (upper e : Z) : rights :=
  mkRights (Z.testbit upper 1 && Z.testbit e 1) (Z.testbit upper 2 && Z.testbit e 2) (Z.testbit e 3) (Z.testbit e 4).

(** Whether a present 4 MiB entry maps the address. *)
Definition maps_large (s : x86) (va : Z) : bool :=
  pse s && present (pde s (pd_index va)) && large (pde s (pd_index va)).

(** The physical address a virtual address reaches and what is granted there. *)
Definition translate (s : x86) (va : Z) : option (Z * rights) :=
  let e := pde s (pd_index va) in
  if negb (paging s) then Some (va, mkRights true true false false)
  else if negb (present e) then None
  else if pse s && large e then Some (Z.land e 0xFFC00000 + va mod 2 ^ 22, grants e e)
  else
    let t := load32 (ram s) (frame_of e + 4 * pt_index va) in
    if present t then Some (frame_of t + va mod 4096, grants e t) else None.

(** *** The translation cache *)

(** Before the tables change, their translations may have been cached. *)
Definition remember (s : x86) : Z -> list cached := fun p =>
  if paging s then
    match translate s (p * 4096) with
    | Some (pa, g) => mkCached pa g (maps_large s (p * 4096)) :: tlb s p
    | None => tlb s p
    end
  else tlb s p.

(** [invlpg] drops what is cached for the page, and for the whole of a 4 MiB
    page. *)
Definition flush (va : Z) (t : Z -> list cached) : Z -> list cached := fun p =>
  if p =? va / 4096 then []
  else if p / 1024 =? va / 2 ^ 22 then filter (fun c => big c = false) (t p)
  else t p.

(** What the processor may use for an address. *)
Definition may_use (s : x86) (va : Z) : list (option (Z * rights)) :=
  translate s va :: map (fun c => Some (frame c + va mod 4096, granted c)) (tlb s (va / 4096)).

Definition sees (s : x86) (va : Z) (t : option (Z * rights)) : Prop := t ∈ may_use s va.

(** What is cached is what the tables say. *)
Definition coherent (s : x86) : Prop := forall p c, 0 <= p < 2 ^ 20 -> c ∈ tlb s p ->
  translate s (p * 4096) = Some (frame c, granted c) /\ big c = maps_large s (p * 4096).

(** ** Operations *)

Definition read_entry (a : Z) : st x86 Z := gets (fun s => load32 (ram s) a).
Definition written (s : x86) (a v : Z) : x86 :=
  mkX86 (store32 (ram s) a v) (cr0 s) (cr3 s) (cr4 s) (PT_POOL_NEXT s) (remember s).
Definition write_entry (a v : Z) : st x86 unit := modify (fun s => written s a v).
Definition read_cr3 : st x86 Z := gets cr3.
Definition write_cr3 (v : Z) : st x86 unit :=
  modify (fun s => mkX86 (ram s) (cr0 s) v (cr4 s) (PT_POOL_NEXT s) (fun _ => [])).
Definition enable_paging : st x86 unit :=
  modify (fun s => mkX86 (ram s) (Z.lor (cr0 s) 0x80000000) (cr3 s) (cr4 s) (PT_POOL_NEXT s) (remember s)).
Definition enable_pse : st x86 unit :=
  modify (fun s => mkX86 (ram s) (cr0 s) (cr3 s) (Z.lor (cr4 s) 0x10) (PT_POOL_NEXT s) (remember s)).
Definition flushed (s : x86) (va : Z) : x86 :=
  mkX86 (ram s) (cr0 s) (cr3 s) (cr4 s) (PT_POOL_NEXT s) (flush va (tlb s)).
Definition invlpg (va : Z) : st x86 unit := modify (fun s => flushed s va).

Definition invalidate_tlb_entry (va : Z) : st x86 unit := invlpg va.
Definition invalidate_tlb_all : st x86 unit := c ← read_cr3; write_cr3 c.

Definition map_flags_to_x86 (flags : Z) : Z :=
  let bits := X86_PRESENT in
  let bits := if contains flags MF_WRITE then Z.lor bits X86_WRITABLE else bits in
  let bits := if contains flags MF_USER then Z.lor bits X86_USER else bits in
  if contains flags MF_DEVICE then Z.lor bits (Z.lor X86_PCD X86_PWT) else bits.

Section Operations.
Context `{Profile} (PT_POOL : Z).   (* address of the static pool *)

Definition alloc_pt_frame : st x86 Z :=
  s ← get;
  let idx := PT_POOL_NEXT s in
  _ ← put (mkX86 (ram s) (cr0 s) (cr3 s) (cr4 s) (wrapping_add usize_bits idx 1) (tlb s));
  _ ← lift (rassert (idx <? PT_POOL_COUNT));
  offset ← lift (mul usize_bits idx PT_SIZE);
  mret (PT_POOL + offset).

Definition init (l1_phys : Z) : st x86 unit :=
  _ ← enable_pse;
  _ ← write_entry l1_phys (Z.lor (Z.lor (Z.lor 0 X86_PS) X86_WRITABLE) X86_PRESENT);
  _ ← write_entry (l1_phys + 4) (Z.lor (Z.lor (Z.lor 0x400000 X86_PS) X86_WRITABLE) X86_PRESENT);
  _ ← write_cr3 l1_phys;
  enable_paging.

(** The body of the loop of [map_region]. *)
Definition map_page (pd pte_bits virt_start phys_start i : Z) : st x86 unit :=
  offset ← lift (mul usize_bits i PAGE_SIZE);
  va ← lift (add usize_bits virt_start offset);
  offset' ← lift (mul usize_bits i PAGE_SIZE);
  pa ← lift (add usize_bits phys_start offset');
  let pdi := pd_index va in
  let pti := pt_index va in
  pde ← read_entry (pd + 4 * pdi);
  pt ← (if negb (Z.land pde X86_PRESENT =? 0) then mret (Z.land pde PHYS_ADDR_MASK)
        else
          pt_frame ← alloc_pt_frame;
          let new_pde := Z.lor (Z.lor (Z.lor pt_frame X86_WRITABLE) X86_USER) X86_PRESENT in
          _ ← write_entry (pd + 4 * pdi) new_pde;
          mret pt_frame);
  let pte := Z.lor (Z.land pa PHYS_ADDR_MASK) pte_bits in
  _ ← write_entry (pt + 4 * pti) pte;
  invlpg va.

(** [for i in i..i+n]. *)
Fixpoint for_pages (body : Z -> st x86 unit) (n : nat) (i : Z) : st x86 unit :=
  match n with
  | O => mret tt
  | S n => _ ← body i; for_pages body n (i + 1)
  end.

Definition page_count (virt size : Z) : outcome Z :=
  t ← add usize_bits size (page_offset virt);
  t ← add usize_bits t PAGE_SIZE;
  t ← sub usize_bits t 1;
  udiv t PAGE_SIZE.

Definition page_base (a : Z) : Z := Z.land a (lnot usize_bits 0xFFF).

Definition map_region (virt phys size flags : Z) : st x86 unit :=
  let pte_bits := map_flags_to_x86 flags in
  let virt_start := page_base virt in
  let phys_start := page_base phys in
  pages ← lift (page_count virt size);
  c ← read_cr3;
  let pd := Z.land c PHYS_ADDR_MASK in
  for_pages (map_page pd pte_bits virt_start phys_start) (Z.to_nat pages) 0.

(** The body of the loop of [unmap_region]. *)
Definition unmap_page (pd virt_start i : Z) : st x86 unit :=
  offset ← lift (mul usize_bits i PAGE_SIZE);
  va ← lift (add usize_bits virt_start offset);
  let pdi := pd_index va in
  let pti := pt_index va in
  pde ← read_entry (pd + 4 * pdi);
  if Z.land pde X86_PRESENT =? 0 then mret tt
  else if negb (Z.land pde X86_PS =? 0) then
    _ ← write_entry (pd + 4 * pdi) 0; invlpg va
  else
    let pt := Z.land pde PHYS_ADDR_MASK in
    _ ← write_entry (pt + 4 * pti) 0;
    invlpg va.

Definition unmap_region (virt size : Z) : st x86 unit :=
  let virt_start := page_base virt in
  pages ← lift (page_count virt size);
  c ← read_cr3;
  let pd := Z.land c PHYS_ADDR_MASK in
  for_pages (unmap_page pd virt_start) (Z.to_nat pages) 0.
End Operations.

(** ** What is asked for *)

(** What the flags of a mapping ask for; device memory is not cached. *)
Definition requested (flags : Z) : rights :=
  mkRights (contains flags MF_WRITE) (contains flags MF_USER) (contains flags MF_DEVICE) (contains flags MF_DEVICE).

(** Under an entry that allows everything, the last level decides. *)
Lemma grants_map_flags upper e flags : Z.testbit upper 1 = true -> Z.testbit upper 2 = true ->
  (forall k, 0 <= k < 12 -> Z.testbit e k = Z.testbit (map_flags_to_x86 flags) k) -> grants upper e = requested flags.
Proof.
  intros H1 H2 He. unfold grants. rewrite H1, H2, !He by lia. unfold map_flags_to_x86, requested.
  destruct (contains flags MF_WRITE), (contains flags MF_USER), (contains flags MF_DEVICE); reflexivity.
Qed.

(** ** Indices and entries *)

Lemma pd_index_eq va : fits 32 va -> pd_index va = va / 2 ^ 22 /\ 0 <= pd_index va < 1024.
Proof.
  intros [??]. unfold pd_index. change 0x3FF with (2 ^ 10 - 1). rewrite land_field by lia.
  assert (0 <= va / 2 ^ 22 < 2 ^ 10) by (split; [apply Z.div_pos; lia|apply Z.div_lt_upper_bound; lia]).
  rewrite Z.mod_small by lia. lia.
Qed.

Lemma pt_index_eq va : pt_index va = (va / 4096) mod 1024 /\ 0 <= pt_index va < 1024.
Proof.
  unfold pt_index. change 0x3FF with (2 ^ 10 - 1). rewrite land_field by lia.
  change (2 ^ 12) with 4096. change (2 ^ 10) with 1024. pose proof (Z.mod_pos_bound (va / 4096) 1024). lia.
Qed.

(** Two addresses share both indices exactly when they share a page. *)
Lemma same_page v w : fits 32 v -> fits 32 w ->
  (pd_index v = pd_index w /\ pt_index v = pt_index w) <-> v / 4096 = w / 4096.
Proof.
  intros Hv Hw. destruct (pd_index_eq v Hv) as [-> _], (pd_index_eq w Hw) as [-> _].
  destruct (pt_index_eq v) as [-> _], (pt_index_eq w) as [-> _].
  change (2 ^ 22) with (4096 * 1024). rewrite <- !Z.div_div by lia.
  pose proof (Z.div_mod (v / 4096) 1024). pose proof (Z.div_mod (w / 4096) 1024).
  split; [|by intros ->]. intros [E1 E2]. lia.
Qed.

Lemma present_bit e : present e = Z.testbit e 0.
Proof. unfold present. change X86_PRESENT with (2 ^ 0). rewrite land_bit by done. apply negb_involutive. Qed.

Lemma large_bit e : large e = Z.testbit e 7.
Proof. unfold large. change X86_PS with (2 ^ 7). rewrite land_bit by done. apply negb_involutive. Qed.

Lemma frame_of_eq e : fits 32 e -> frame_of e = e - e mod 4096.
Proof.
  intros He. unfold frame_of. change PHYS_ADDR_MASK with (lnot 32 (2 ^ 12 - 1)).
  by rewrite land_lnot_mask.
Qed.

Lemma frame_of_aligned e : fits 32 e -> (4096 | frame_of e) /\ 0 <= frame_of e /\ frame_of e + 4096 <= 2 ^ 32.
Proof.
  intros He. rewrite frame_of_eq by done. unfold fits in He. pose proof (Z.div_mod e 4096).
  pose proof (Z.mod_pos_bound e 4096). assert (e / 4096 < 2 ^ 20) by (apply Z.div_lt_upper_bound; lia).
  assert (0 <= e / 4096) by (apply Z.div_pos; lia).
  split; [exists (e / 4096); lia|]. lia.
Qed.

(** An entry built from a frame and flags. *)
Lemma entry_parts a b : (4096 | a) -> fits 32 a -> 0 <= b < 4096 ->
  let e := Z.lor a b in fits 32 e /\ frame_of e = a /\ Z.land e 0xFFF = b /\
  forall k, 0 <= k < 12 -> Z.testbit e k = Z.testbit b k.
Proof.
  intros Ha Hf Hb e. assert (E : e = a + b) by (by apply (lor_low a b 12)).
  assert (Hm : e mod 4096 = b).
  { rewrite E. destruct Ha as [q ->]. rewrite Z.add_comm, Z.mod_add, Z.mod_small by lia. lia. }
  assert (He : fits 32 e).
  { unfold fits in *. destruct Ha as [q Hq]. lia. }
  split; [done|]. split; [rewrite frame_of_eq by done; lia|]. split.
  - change 0xFFF with (2 ^ 12 - 1). by rewrite land_mask.
  - intros k Hk. unfold e. rewrite Z.lor_spec. destruct Ha as [q ->]. change 4096 with (2 ^ 12).
    by rewrite Z.mul_pow2_bits_low by lia.
Qed.

(** ** The cache and the tables *)

Lemma page_number p : 0 <= p < 2 ^ 20 -> fits 32 (p * 4096) /\ p * 4096 / 4096 = p /\ pd_index (p * 4096) = p / 1024.
Proof.
  intros Hp. assert (fits 32 (p * 4096)) as Hf by (unfold fits; lia). split; [done|]. split; [by apply Z.div_mul|].
  destruct (pd_index_eq _ Hf) as [-> _]. change (2 ^ 22) with (4096 * 1024). by rewrite <- Z.div_div, Z.div_mul by lia.
Qed.

Lemma page_of v : fits 32 v -> 0 <= v / 4096 < 2 ^ 20 /\ fits 32 (v / 4096 * 4096) /\
  pd_index (v / 4096 * 4096) = pd_index v /\ pt_index (v / 4096 * 4096) = pt_index v /\ v / 4096 / 1024 = v / 2 ^ 22.
Proof.
  intros Hv. assert (0 <= v / 4096 < 2 ^ 20) as Hp.
  { unfold fits in Hv. split; [apply Z.div_pos; lia|apply Z.div_lt_upper_bound; lia]. }
  destruct (page_number _ Hp) as (Hf & E & _). split; [done|]. split; [done|].
  destruct (same_page (v / 4096 * 4096) v Hf Hv) as [_ Hs]. destruct (Hs E) as [-> ->]. split_and!; [done|done|].
  change (2 ^ 22) with (4096 * 1024). by rewrite Z.div_div.
Qed.

(** The addresses of a page are translated together. *)
Lemma translate_page s v : fits 32 v ->
  translate s v = (fun t => (t.1 + v mod 4096, t.2)) <$> translate s (v / 4096 * 4096).
Proof.
  intros Hv. destruct (page_of v Hv) as (_ & _ & Ei & Ej & _). unfold translate. rewrite Ei, Ej.
  pose proof (Z.div_mod v 4096) as Ed. destruct (paging s); cbn [negb]; [|cbn; do 2 f_equal; lia].
  destruct (present (pde s (pd_index v))); cbn [negb]; [|done].
  destruct (pse s && large _); cbn.
  - do 2 f_equal. rewrite <- Z.add_assoc. f_equal. change (2 ^ 22) with (4096 * 1024).
    rewrite !Z.rem_mul_r, Z.div_mul, Z.mod_mul by lia. lia.
  - destruct (present _); cbn; [|done]. do 2 f_equal. rewrite Z.mod_mul by lia. lia.
Qed.

Lemma coherent_sees s v t : coherent s -> fits 32 v -> sees s v t -> t = translate s v.
Proof.
  intros Hc Hv [->|Ht]%elem_of_cons; [done|]. apply list_elem_of_In, in_map_iff in Ht as (c & <- & Hin%list_elem_of_In).
  destruct (page_of v Hv) as (Hp & _). destruct (Hc _ _ Hp Hin) as [E _]. by rewrite (translate_page s v Hv), E.
Qed.

Lemma remember_coherent s p c : coherent s -> 0 <= p < 2 ^ 20 -> c ∈ remember s p ->
  translate s (p * 4096) = Some (frame c, granted c) /\ big c = maps_large s (p * 4096).
Proof.
  intros Hc Hp. unfold remember. destruct (paging s); [|by apply Hc].
  destruct (translate s (p * 4096)) as [[pa g]|] eqn:E; [|intros Hin; rewrite <- E; by apply Hc].
  intros [->|Hin]%elem_of_cons; [done|]. rewrite <- E. by apply Hc.
Qed.

(** A change of the tables that no page notices. *)
Lemma coherent_same s s' : coherent s -> tlb s' = remember s ->
  (forall v, fits 32 v -> translate s' v = translate s v /\ maps_large s' v = maps_large s v) -> coherent s'.
Proof.
  intros Hc Et Hs p c Hp Hin. destruct (page_number p Hp) as (Hf & _). destruct (Hs _ Hf) as [-> ->].
  rewrite Et in Hin. by apply remember_coherent.
Qed.

(** A change that only pages notice that are flushed afterwards. *)
Lemma coherent_flushed s s' va : coherent s -> fits 32 va -> tlb s' = flush va (remember s) ->
  (forall v, fits 32 v -> v / 4096 <> va / 4096 ->
     (translate s' v = translate s v /\ maps_large s' v = maps_large s v) \/
     (pd_index v = pd_index va /\ maps_large s v = true)) -> coherent s'.
Proof.
  intros Hc Hva Et Hs p c Hp Hin. destruct (page_number p Hp) as (Hf & Ep & Ei). rewrite Et in Hin. unfold flush in Hin.
  destruct (Z.eqb_spec p (va / 4096)); [by apply not_elem_of_nil in Hin|].
  assert (Hr : c ∈ remember s p /\ (p / 1024 = va / 2 ^ 22 -> big c = false)).
  { destruct (Z.eqb_spec (p / 1024) (va / 2 ^ 22)); [|by split].
    apply list_elem_of_filter in Hin as [? ?]. by split. }
  destruct Hr as [Hr Hb]. destruct (remember_coherent s p c Hc Hp Hr) as [E1 E2].
  destruct (Hs (p * 4096) Hf) as [[-> ->]|[Eq Hl]]; [by rewrite Ep|done|].
  rewrite Ei in Eq. destruct (pd_index_eq va Hva) as [Ed _]. rewrite Hb in E2 by congruence. congruence.
Qed.

(** ** Well-formed tables *)

Section Tables.
Context `{Profile} (PT_POOL : Z).

(** Paging is on; every present entry of the directory is a 4 MiB mapping or
    leads, with all rights, to a pool frame of its own, and the frames not
    handed out yet are zero. *)
Record tables_ok (s : x86) : Prop := {
  tk_on : paging s = true /\ pse s = true;
  tk_cr3 : fits 32 (cr3 s);
  tk_pool : (4096 | PT_POOL) /\ 0 <= PT_POOL /\ PT_POOL + 64 * 4096 < 2 ^ 32;
  tk_next : 0 <= PT_POOL_NEXT s <= 64;
  tk_apart : pd_of s + 4096 <= PT_POOL \/ PT_POOL + 64 * 4096 <= pd_of s;
  tk_pde i : 0 <= i < 1024 -> present (pde s i) = true -> large (pde s i) = false ->
    Z.testbit (pde s i) 1 = true /\ Z.testbit (pde s i) 2 = true /\
    exists k, 0 <= k < PT_POOL_NEXT s /\ frame_of (pde s i) = PT_POOL + 4096 * k;
  tk_inj i j : 0 <= i < 1024 -> 0 <= j < 1024 -> i <> j ->
    present (pde s i) = true -> large (pde s i) = false ->
    present (pde s j) = true -> large (pde s j) = false ->
    frame_of (pde s i) <> frame_of (pde s j);
  tk_fresh k j : PT_POOL_NEXT s <= k < 64 -> 0 <= j < 1024 ->
    load32 (ram s) (PT_POOL + 4096 * k + 4 * j) = 0;
}.

(** The walk when paging is on. *)
Lemma translate_on s v : tables_ok s -> translate s v =
  if negb (present (pde s (pd_index v))) then None
  else if large (pde s (pd_index v)) then
    Some (Z.land (pde s (pd_index v)) 0xFFC00000 + v mod 2 ^ 22, grants (pde s (pd_index v)) (pde s (pd_index v)))
  else
    let t := load32 (ram s) (frame_of (pde s (pd_index v)) + 4 * pt_index v) in
    if present t then Some (frame_of t + v mod 4096, grants (pde s (pd_index v)) t) else None.
Proof using. intros Hok. destruct (tk_on s Hok) as [E1 E2]. unfold translate. by rewrite E1, E2. Qed.

Lemma maps_large_on s v : tables_ok s -> maps_large s v = present (pde s (pd_index v)) && large (pde s (pd_index v)).
Proof using. intros Hok. destruct (tk_on s Hok) as [_ E2]. unfold maps_large. by rewrite E2. Qed.

Lemma pool_not_pd s a i : tables_ok s -> PT_POOL <= a -> a + 4 <= PT_POOL + 64 * 4096 ->
  0 <= i < 1024 -> a + 4 <= pd_of s + 4 * i \/ pd_of s + 4 * i + 4 <= a.
Proof using. intros Hok ???. destruct (tk_apart s Hok); lia. Qed.

(** Writing an entry of a page table changes the translation of one page. *)
Lemma write_pte_ok s va e : tables_ok s -> fits 32 va -> fits 32 e ->
  present (pde s (pd_index va)) = true -> large (pde s (pd_index va)) = false ->
  let s' := written s (frame_of (pde s (pd_index va)) + 4 * pt_index va) e in
  tables_ok s' /\ (forall i, 0 <= i < 1024 -> pde s' i = pde s i) /\
  forall v, fits 32 v -> translate s' v =
    if v / 4096 =? va / 4096
    then if present e then Some (frame_of e + v mod 4096, grants (pde s (pd_index va)) e) else None
    else translate s v.
Proof using.
  intros Hok Hva He Hp Hl s'. destruct (pd_index_eq va Hva) as [_ Hdi]. destruct (pt_index_eq va) as [_ Hti].
  destruct (tk_pde s Hok _ Hdi Hp Hl) as (_ & _ & k & Hk & Ef). pose proof (tk_next s Hok) as Hn.
  assert (Hpde : forall i, 0 <= i < 1024 -> pde s' i = pde s i).
  { intros i Hi. unfold pde, s'. cbn [ram written]. apply load32_store32_ne. rewrite Ef.
    apply pool_not_pd; try done; lia. }
  assert (Hok' : tables_ok s').
  { destruct Hok as [H0 H1 H2 H3 H4 H5 H6 H7]. split; try done.
    + intros i Hi. rewrite Hpde by done. by apply H5.
    + intros i j Hi Hj. rewrite !Hpde by done. by apply H6.
    + intros k' j Hk' Hj. unfold s'. cbn [ram written]. rewrite load32_store32_ne; [by apply H7|].
      cbn in Hk'. lia. }
  split; [done|]. split; [done|]. intros v Hv. rewrite (translate_on s' v Hok'), (translate_on s v Hok).
  destruct (pd_index_eq v Hv) as [_ Hdv]. destruct (pt_index_eq v) as [_ Htv].
  rewrite Hpde by done. destruct (Z.eqb_spec (v / 4096) (va / 4096)) as [E|E].
  - apply (same_page v va Hv Hva) in E as [-> ->]. rewrite Hp, Hl. cbn [negb].
    unfold s'. cbn [ram written]. by rewrite load32_store32_eq.
  - rewrite <- (same_page v va Hv Hva) in E.
    destruct (present (pde s (pd_index v))) eqn:Ep; [cbn [negb]|done].
    destruct (large (pde s (pd_index v))) eqn:El; [done|].
    destruct (tk_pde s Hok _ Hdv Ep El) as (_ & _ & k' & Hk' & Ef').
    unfold s'. cbn [ram written]. rewrite load32_store32_ne; [done|]. rewrite Ef, Ef'.
    destruct (Z.eq_dec k k') as [<-|]; [|lia].
    destruct (Z.eq_dec (pd_index v) (pd_index va)) as [Ed|Ed].
    + assert (pt_index v <> pt_index va) by (intros ?; by apply E). lia.
    + exfalso. by apply (tk_inj s Hok _ _ Hdv Hdi Ed Ep El Hp Hl); rewrite Ef, Ef'.
Qed.

(** Hooking a fresh frame into an empty directory entry. *)
Lemma new_table_ok s i : tables_ok s -> 0 <= i < 1024 -> present (pde s i) = false ->
  PT_POOL_NEXT s < 64 ->
  let f := PT_POOL + 4096 * PT_POOL_NEXT s in
  let e := Z.lor (Z.lor (Z.lor f X86_WRITABLE) X86_USER) X86_PRESENT in
  let s' := mkX86 (store32 (ram s) (pd_of s + 4 * i) e) (cr0 s) (cr3 s) (cr4 s)
              (PT_POOL_NEXT s + 1) (remember s) in
  tables_ok s' /\ pde s' i = e /\ present e = true /\ large e = false /\ frame_of e = f /\
  (forall j, 0 <= j < 1024 -> j <> i -> pde s' j = pde s j) /\
  forall v, fits 32 v -> translate s' v = translate s v.
Proof using.
  intros Hok Hi Hnp Hlt f e s'. pose proof (tk_next s Hok) as Hn.
  destruct (tk_pool s Hok) as (Hpa & Hp0 & Hp1).
  assert (Hfa : (4096 | f)) by (apply Z.divide_add_r; [done|by exists (PT_POOL_NEXT s); lia]).
  assert (Ee : e = Z.lor f 7) by (unfold e; by rewrite <- !Z.lor_assoc).
  destruct (entry_parts f 7 Hfa) as (Hef & Hfr & _ & Hbits); [unfold fits, f; lia|lia|].
  rewrite <- Ee in *.
  assert (Hpr : present e = true) by (rewrite present_bit, Hbits by lia; done).
  assert (Hla : large e = false) by (rewrite large_bit, Hbits by lia; done).
  assert (Hpd' : pd_of s' = pd_of s) by done.
  assert (Hself : pde s' i = e).
  { unfold pde. rewrite Hpd'. cbn [ram s']. by apply load32_store32_eq. }
  assert (Hother : forall j, 0 <= j < 1024 -> j <> i -> pde s' j = pde s j).
  { intros j Hj Hne. unfold pde. rewrite Hpd'. cbn [ram s']. apply load32_store32_ne. lia. }
  assert (Hframe : forall k j, 0 <= k < 64 -> 0 <= j < 1024 ->
    load32 (ram s') (PT_POOL + 4096 * k + 4 * j) = load32 (ram s) (PT_POOL + 4096 * k + 4 * j)).
  { intros k j Hk Hj. cbn [ram s']. apply load32_store32_ne.
    apply or_comm, pool_not_pd; try done; lia. }
  assert (Hok' : tables_ok s').
  { destruct Hok as [H0 H1 H2 H3 H4 H5 H6 H7]. split; try done; [cbn; lia| | |].
    + intros j Hj. destruct (Z.eq_dec j i) as [->|Hne].
      { rewrite Hself. intros _ _. rewrite !Hbits by lia. do 2 (split; [done|]).
        exists (PT_POOL_NEXT s). split; [cbn; lia|done]. }
      rewrite Hother by done. intros ??. destruct (H5 j) as (? & ? & k & Hk & ?); try done.
      do 2 (split; [done|]). exists k. split; [cbn; lia|done].
    + assert (Hnew : forall j, 0 <= j < 1024 -> present (pde s j) = true -> large (pde s j) = false ->
        frame_of (pde s j) <> f).
      { intros j Hj Hp Hl. destruct (H5 j Hj Hp Hl) as (_ & _ & k & Hk & ->). unfold f. lia. }
      intros j1 j2 Hj1 Hj2 Hne. destruct (Z.eq_dec j1 i) as [->|N1], (Z.eq_dec j2 i) as [->|N2]; [done| | |];
        rewrite ?Hself, ?(Hother j1), ?(Hother j2) by done; rewrite ?Hfr.
      * intros _ _ ?? E. by apply (Hnew j2).
      * intros ?? _ _ E. by apply (Hnew j1).
      * by apply H6.
    + intros k j Hk Hj. cbn [PT_POOL_NEXT s'] in Hk. rewrite Hframe by lia. apply H7; lia. }
  split; [done|]. do 5 (split; [done|]). intros v Hv. rewrite (translate_on s' v Hok'), (translate_on s v Hok).
  destruct (pd_index_eq v Hv) as [_ Hdv]. destruct (pt_index_eq v) as [_ Htv].
  destruct (Z.eq_dec (pd_index v) i) as [->|Hne].
  - rewrite Hself, Hpr, Hla, Hnp, Hfr. cbn [negb]. unfold f. rewrite Hframe by lia.
    by rewrite (tk_fresh s Hok) by lia.
  - rewrite Hother by done. destruct (present (pde s (pd_index v))) eqn:Ep; [cbn [negb]|done].
    destruct (large (pde s (pd_index v))) eqn:El; [done|].
    destruct (tk_pde s Hok _ Hdv Ep El) as (_ & _ & k & Hk & Ef). rewrite Ef, Hframe by lia. done.
Qed.

(** ** Mapping one page *)

(** What mapping the page at [va] to [pa] does to the state. *)
Definition mapped (s : x86) (va pa flags : Z) (s' : x86) : Prop :=
  (tables_ok s' /\ coherent s') /\ pd_of s' = pd_of s /\
  PT_POOL_NEXT s' = PT_POOL_NEXT s + (if present (pde s (pd_index va)) then 0 else 1) /\
  (forall v, fits 32 v -> translate s' v =
     if v / 4096 =? va / 4096 then Some (pa + v mod 4096, requested flags) else translate s v) /\
  present (pde s' (pd_index va)) = true /\ large (pde s' (pd_index va)) = false /\
  (forall j, 0 <= j < 1024 -> j <> pd_index va -> pde s' j = pde s j).

Lemma alloc_pt_frame_ok s : tables_ok s -> PT_POOL_NEXT s < 64 ->
  alloc_pt_frame PT_POOL s = Ret (PT_POOL + 4096 * PT_POOL_NEXT s,
    mkX86 (ram s) (cr0 s) (cr3 s) (cr4 s) (PT_POOL_NEXT s + 1) (tlb s)).
Proof using.
  intros Hok Hlt. pose proof (tk_next s Hok) as Hn. unfold alloc_pt_frame.
  erewrite stbind_step by done. cbv beta zeta. erewrite stbind_step by done.
  erewrite stbind_step.
  2: { unfold rassert, PT_POOL_COUNT. rewrite (proj2 (Z.ltb_lt _ _)) by done. done. }
  erewrite stbind_step.
  2: { rewrite mul_ok; [done|]. unfold fits, PT_SIZE, PT_ENTRIES, usize_bits. lia. }
  unfold wrapping_add, wrap, usize_bits, PT_SIZE, PT_ENTRIES. rewrite Z.mod_small by lia.
  unfold mret, st_ret. do 2 f_equal. lia.
Qed.

Lemma exhausted_pool s : PT_POOL_NEXT s = 64 -> alloc_pt_frame PT_POOL s = Panic.
Proof using. intros E. unfold alloc_pt_frame, mbind, st_bind. cbn. by rewrite E. Qed.

Lemma map_flags_ok flags : 0 <= map_flags_to_x86 flags < 4096 /\ Z.testbit (map_flags_to_x86 flags) 0 = true.
Proof using.
  unfold map_flags_to_x86. destruct (contains flags MF_WRITE), (contains flags MF_USER), (contains flags MF_DEVICE);
    vm_compute; split; try split; congruence.
Qed.

Lemma write_pte_mapped s va pa flags : tables_ok s -> coherent s -> fits 32 va -> (4096 | pa) -> fits 32 pa ->
  present (pde s (pd_index va)) = true -> large (pde s (pd_index va)) = false ->
  mapped s va pa flags (flushed (written s (frame_of (pde s (pd_index va)) + 4 * pt_index va)
    (Z.lor (Z.land pa PHYS_ADDR_MASK) (map_flags_to_x86 flags))) va).
Proof using.
  intros Hok Hc Hva Hpa Hpf Hp Hl. destruct (map_flags_ok flags) as [Hb Hb0]. pose proof (pd_index_eq va Hva) as [_ Hi].
  assert (Epa : Z.land pa PHYS_ADDR_MASK = pa).
  { fold (frame_of pa). rewrite frame_of_eq by done. apply Z.mod_divide in Hpa; lia. }
  destruct (entry_parts pa _ Hpa Hpf Hb) as (Hef & Hfr & _ & Hbits). rewrite Epa.
  destruct (write_pte_ok s va _ Hok Hva Hef Hp Hl) as (Hok1 & Hpde & Htr). set (s1 := written _ _ _) in *.
  assert (Hok2 : tables_ok (flushed s1 va)) by (by destruct Hok1; split).
  assert (Hpr : present (Z.lor pa (map_flags_to_x86 flags)) = true) by (rewrite present_bit, Hbits by lia; done).
  destruct (tk_pde s Hok _ Hi Hp Hl) as (Hw & Hu & _). rewrite Hpr, Hfr, (grants_map_flags _ _ flags Hw Hu Hbits) in Htr.
  split; [split; [done|]|]; [|split; [done|split; [rewrite Hp; cbn; lia|split; [exact Htr|]]]].
  - eapply (coherent_flushed s _ va Hc Hva); [reflexivity|]. intros v Hv Hne. left.
    change (translate (flushed s1 va) v) with (translate s1 v). rewrite Htr, (proj2 (Z.eqb_neq _ _)) by done.
    split; [done|]. rewrite !maps_large_on by done. change (pde (flushed s1 va)) with (pde s1).
    destruct (pd_index_eq v Hv) as [_ Hdv]. by rewrite Hpde.
  - change (pde (flushed s1 va)) with (pde s1). rewrite !Hpde by done. split; [done|]. split; [done|].
    intros j Hj _. by apply Hpde.
Qed.

Lemma map_page_ok s flags vs ps i : tables_ok s -> coherent s ->
  let va := vs + i * 4096 in let pa := ps + i * 4096 in
  fits 32 (i * 4096) -> fits 32 va -> (4096 | pa) -> fits 32 pa ->
  (present (pde s (pd_index va)) = true -> large (pde s (pd_index va)) = false) ->
  (present (pde s (pd_index va)) = false -> PT_POOL_NEXT s < 64) ->
  exists s', map_page PT_POOL (pd_of s) (map_flags_to_x86 flags) vs ps i s = Ret (tt, s') /\ mapped s va pa flags s'.
Proof using.
  intros Hok Hc va pa Hi Hva Hpa Hpf Hnl Hroom. unfold map_page.
  change PAGE_SIZE with 4096. unfold usize_bits.
  erewrite stbind_step by (by rewrite mul_ok). erewrite stbind_step by (by rewrite add_ok).
  erewrite stbind_step by (by rewrite mul_ok). erewrite stbind_step by (by rewrite add_ok).
  fold va pa. erewrite stbind_step by done. fold (pde s (pd_index va)).
  fold (present (pde s (pd_index va))). pose proof (pd_index_eq va Hva) as [_ Hdi].
  destruct (present (pde s (pd_index va))) eqn:Ep.
  - erewrite stbind_step by done. erewrite stbind_step by done. eexists. split; [done|].
    by apply write_pte_mapped; [..|apply Hnl].
  - destruct (new_table_ok s (pd_index va) Hok Hdi Ep (Hroom eq_refl)) as (Hok1 & Hself & Hp & Hl & Hfr & Hoth & Htr).
    set (s1 := mkX86 _ _ _ _ _ _) in *. set (e := Z.lor _ X86_PRESENT) in *.
    erewrite stbind_step.
    2: { erewrite stbind_step by (by apply alloc_pt_frame_ok; [|apply Hroom]). erewrite stbind_step by done. done. }
    change (written _ (pd_of s + 4 * pd_index va) _) with s1. erewrite stbind_step by done. eexists. split; [done|].
    assert (Hc1 : coherent s1).
    { apply (coherent_same s s1 Hc eq_refl). intros v Hv. split; [by apply Htr|]. rewrite !maps_large_on by done.
      destruct (pd_index_eq v Hv) as [_ Hdv]. destruct (Z.eq_dec (pd_index v) (pd_index va)) as [E|Hne].
      - by rewrite E, Hself, Ep, Hp, Hl.
      - by rewrite Hoth. }
    destruct (write_pte_mapped s1 va pa flags Hok1 Hc1 Hva Hpa Hpf) as (H1 & H2 & H3 & H4 & H5 & H6 & H7);
      [by rewrite Hself|by rewrite Hself|].
    rewrite Hself, Hfr in *. split; [done|]. split; [done|]. split; [rewrite Ep; rewrite H3, Hp; cbn; lia|].
    split; [intros v Hv; rewrite H4, Htr by done; done|]. split; [done|]. split; [done|].
    intros j Hj Hne. by rewrite H7, Hoth.
Qed.

(** The pool is empty, and the page needs a table. *)
Lemma map_page_panics s flags vs ps i : let va := vs + i * 4096 in let pa := ps + i * 4096 in
  fits 32 (i * 4096) -> fits 32 va -> fits 32 pa -> present (pde s (pd_index va)) = false -> PT_POOL_NEXT s = 64 ->
  map_page PT_POOL (pd_of s) (map_flags_to_x86 flags) vs ps i s = Panic.
Proof using.
  intros va pa Hi Hva Hpf Ep Hn. unfold map_page.
  change PAGE_SIZE with 4096. unfold usize_bits.
  erewrite stbind_step by (by rewrite mul_ok). erewrite stbind_step by (by rewrite add_ok).
  erewrite stbind_step by (by rewrite mul_ok). erewrite stbind_step by (by rewrite add_ok).
  fold va pa. erewrite stbind_step by done. fold (pde s (pd_index va)).
  fold (present (pde s (pd_index va))). rewrite Ep. cbn iota. unfold mbind, st_bind. by rewrite exhausted_pool.
Qed.

(** ** Whole regions *)

Definition in_range (lo hi v : Z) : bool := (lo <=? v) && (v <? hi).

(** No directory entry of the range is a 4 MiB mapping. *)
Definition no_large (s : x86) (lo hi : Z) : Prop := forall v, lo <= v < hi -> maps_large s v = false.

(** The tables that the directory entries of [va] to [last] still need. *)
Definition absent (s : x86) (i : Z) : Z := if present (pde s i) then 0 else 1.

Fixpoint missing (s : x86) (i : Z) (n : nat) : Z :=
  match n with O => 0 | S n => absent s i + missing s (i + 1) n end.

Definition frames_for (s : x86) (va last : Z) : Z :=
  missing s (pd_index va) (S (Z.to_nat (pd_index last - pd_index va))).

(** Enough pool frames for them. *)
Definition room (s : x86) (va last : Z) : Prop := PT_POOL_NEXT s + frames_for s va last <= 64.

Lemma page_step vs i v : (4096 | vs) -> 0 <= i -> fits 32 v ->
  v / 4096 = (vs + i * 4096) / 4096 <-> vs + i * 4096 <= v < vs + (i + 1) * 4096.
Proof using.
  intros [q ->] Hi Hv. replace (q * 4096 + i * 4096) with ((q + i) * 4096) by lia.
  rewrite Z.div_mul by lia. pose proof (Z.div_mod v 4096). pose proof (Z.mod_pos_bound v 4096). lia.
Qed.

Lemma page_mod vs i v : (4096 | vs) -> vs + i * 4096 <= v < vs + (i + 1) * 4096 ->
  v mod 4096 = v - vs - i * 4096.
Proof using.
  intros [q ->] Hv. symmetry. apply Z.mod_unique_pos with (q + i); lia.
Qed.

(** Consecutive pages lie in the same or in consecutive directory entries. *)
Lemma next_pd_index va : (4096 | va) -> 0 <= va -> va + 4096 < 2 ^ 32 ->
  pd_index (va + 4096) = pd_index va \/ pd_index (va + 4096) = pd_index va + 1.
Proof using.
  intros Hd H0 Hlt. destruct (pd_index_eq va) as [-> _]; [split; lia|].
  destruct (pd_index_eq (va + 4096)) as [-> _]; [split; lia|].
  pose proof (Z.div_mod va (2 ^ 22)). pose proof (Z.mod_pos_bound va (2 ^ 22)).
  pose proof (Z.div_mod (va + 4096) (2 ^ 22)). pose proof (Z.mod_pos_bound (va + 4096) (2 ^ 22)). lia.
Qed.

Lemma missing_same s s' n : forall i, (forall j, i <= j < i + Z.of_nat n -> pde s' j = pde s j) ->
  missing s' i n = missing s i n.
Proof using.
  induction n as [|n IH]; intros i Hs; [done|]. cbn [missing]. unfold absent. rewrite Hs by lia. f_equal.
  apply IH. intros j Hj. apply Hs. lia.
Qed.

Lemma missing_pos s n : forall i, 0 <= missing s i n.
Proof using.
  induction n as [|n IH]; intros i; [done|]. cbn [missing]. specialize (IH (i + 1)). unfold absent. destruct (present _); lia.
Qed.

(** A mapped page takes the frame it needs, and no other. *)
Lemma mapped_room s s1 va pa flags last : mapped s va pa flags s1 -> (4096 | va) -> 0 <= va -> va + 4096 <= last ->
  last < 2 ^ 32 -> PT_POOL_NEXT s1 + frames_for s1 (va + 4096) last = PT_POOL_NEXT s + frames_for s va last.
Proof using.
  intros (_ & _ & Hn & _ & Hp & _ & Hoth) Hd H0 Hle Hlt. rewrite Hn. unfold frames_for.
  destruct (pd_index_eq last) as [El Hl]; [unfold fits; lia|].
  destruct (pd_index_eq va) as [Ev Hv]; [unfold fits; lia|].
  destruct (pd_index_eq (va + 4096)) as [Ew Hw]; [unfold fits; lia|].
  assert (pd_index (va + 4096) <= pd_index last) as Hm by (rewrite Ew, El; apply Z.div_le_mono; lia).
  assert (Hms : forall k, Z.of_nat k <= 1024 - (pd_index va + 1) -> missing s1 (pd_index va + 1) k = missing s (pd_index va + 1) k).
  { intros k Hk. apply missing_same. intros j Hj. apply Hoth; lia. }
  destruct (next_pd_index va Hd H0) as [E|E]; [lia| |]; rewrite E in *.
  - cbn [missing]. unfold absent. rewrite Hp, Hms by lia. lia.
  - replace (Z.to_nat (pd_index last - pd_index va)) with (S (Z.to_nat (pd_index last - (pd_index va + 1)))) by lia.
    rewrite Hms by lia. cbn [missing]. unfold absent. lia.
Qed.

Lemma no_large_next s s1 va pa flags hi : tables_ok s -> mapped s va pa flags s1 -> fits 32 va -> 0 <= va -> hi <= 2 ^ 32 ->
  no_large s va hi -> no_large s1 (va + 4096) hi.
Proof using.
  intros Hok ((Hok1 & _) & _ & _ & _ & _ & Hl & Hoth) Hva H0 Hhi Hno v Hv. rewrite (maps_large_on s1) by done.
  destruct (pd_index_eq v) as [_ Hdv]; [unfold fits; lia|].
  destruct (Z.eq_dec (pd_index v) (pd_index va)) as [->|Hne]; [by rewrite Hl, andb_false_r|].
  rewrite Hoth by done. rewrite <- maps_large_on by done. apply Hno. lia.
Qed.

(** One page more on top of the pages after it. *)
Lemma range_step vs ps i hi v (g : rights) rest : (4096 | vs) -> 0 <= i -> fits 32 v ->
  vs + (i + 1) * 4096 <= hi ->
  (if in_range (vs + (i + 1) * 4096) hi v then Some (ps + (v - vs), g)
   else if v / 4096 =? (vs + i * 4096) / 4096 then Some (ps + i * 4096 + v mod 4096, g) else rest) =
  if in_range (vs + i * 4096) hi v then Some (ps + (v - vs), g) else rest.
Proof using.
  intros Hvs Hi Hv Hhi. pose proof (page_step vs i v Hvs Hi Hv) as Hpg. unfold in_range.
  destruct (Z.leb_spec (vs + (i + 1) * 4096) v), (Z.leb_spec (vs + i * 4096) v), (Z.ltb_spec v hi);
    cbn; try lia; destruct (Z.eqb_spec (v / 4096) ((vs + i * 4096) / 4096)) as [Eq|Nq]; try done;
    try (apply Hpg in Eq; lia); try (exfalso; apply Nq, Hpg; lia).
  rewrite (page_mod vs i v Hvs) by (apply Hpg; done). do 2 f_equal. lia.
Qed.

Section Loop.
Context (flags vs ps : Z) (Hvs : (4096 | vs)) (Hps : (4096 | ps)) (Hv0 : 0 <= vs) (Hp0 : 0 <= ps).
#[local] Notation map_pages := (fun pd => for_pages (map_page PT_POOL pd (map_flags_to_x86 flags) vs ps)).

(** The next page of the loop, if its table is there or can be taken. *)
Lemma loop_page n i s : tables_ok s -> coherent s -> 0 <= i ->
  let hi := vs + (i + Z.of_nat (S n)) * 4096 in
  hi < 2 ^ 32 -> ps + (i + Z.of_nat (S n)) * 4096 < 2 ^ 32 -> no_large s (vs + i * 4096) hi ->
  (present (pde s (pd_index (vs + i * 4096))) = false -> PT_POOL_NEXT s < 64) ->
  exists s1, map_page PT_POOL (pd_of s) (map_flags_to_x86 flags) vs ps i s = Ret (tt, s1) /\
    mapped s (vs + i * 4096) (ps + i * 4096) flags s1 /\ no_large s1 (vs + (i + 1) * 4096) hi.
Proof using Hvs Hps Hv0 Hp0.
  intros Hok Hc Hi hi Hhi Hphi Hno Hfree.
  destruct (map_page_ok s flags vs ps i Hok Hc) as (s1 & E & Hm); [unfold fits, hi in *; lia..| | | | |].
  - apply Z.divide_add_r; [done|by exists i].
  - unfold fits, hi in *. lia.
  - assert (Hm := Hno (vs + i * 4096) ltac:(unfold hi; lia)). rewrite maps_large_on in Hm by done.
    intros Hp. by rewrite Hp in Hm.
  - done.
  - exists s1. split; [done|]. split; [done|]. replace (vs + (i + 1) * 4096) with (vs + i * 4096 + 4096) by lia.
    eapply no_large_next; [done|done|unfold fits, hi in *; lia|lia|unfold hi in *; lia|done].
Qed.

Lemma map_loop : forall n i s, tables_ok s -> coherent s -> 0 <= i ->
  let hi := vs + (i + Z.of_nat n) * 4096 in
  hi < 2 ^ 32 -> ps + (i + Z.of_nat n) * 4096 < 2 ^ 32 ->
  no_large s (vs + i * 4096) hi -> ((0 < n)%nat -> room s (vs + i * 4096) (hi - 4096)) ->
  exists s', map_pages (pd_of s) n i s = Ret (tt, s') /\ (tables_ok s' /\ coherent s') /\ pd_of s' = pd_of s /\
    (forall v, fits 32 v -> translate s' v =
      if in_range (vs + i * 4096) hi v then Some (ps + (v - vs), requested flags) else translate s v).
Proof using Hvs Hps Hv0 Hp0.
  induction n as [|n IH]; intros i s Hok Hc Hi hi Hhi Hphi Hno Hroom.
  { exists s. do 3 (split; [done|]). intros v Hv.
    unfold in_range. destruct (Z.leb_spec (vs + i * 4096) v), (Z.ltb_spec v hi); try done. unfold hi in *; lia. }
  specialize (Hroom ltac:(lia)). destruct (loop_page n i s Hok Hc Hi Hhi Hphi Hno) as (s1 & E & Hm & Hno1).
  { intros Ep. unfold room, frames_for in Hroom. cbn [missing] in Hroom. unfold absent in Hroom. rewrite Ep in Hroom.
    pose proof (missing_pos s (Z.to_nat (pd_index (hi - 4096) - pd_index (vs + i * 4096))) (pd_index (vs + i * 4096) + 1)). lia. }
  cbn [for_pages]. erewrite stbind_step by exact E. pose proof Hm as ((Hok1 & Hc1) & Epd & _ & Htr & _).
  subst hi. replace (i + Z.of_nat (S n)) with (i + 1 + Z.of_nat n) in * by lia.
  destruct (IH (i + 1) s1 Hok1 Hc1) as (s2 & E2 & Hok2 & Epd2 & Htr2); try (lia || done).
  { intros Hn. unfold room in *. replace (vs + (i + 1) * 4096) with (vs + i * 4096 + 4096) by lia.
    rewrite (mapped_room _ _ _ _ _ _ Hm); [done| |lia|lia|lia].
    apply Z.divide_add_r; [done|by exists i]. }
  exists s2. rewrite <- Epd. split; [done|]. split; [done|]. split; [congruence|].
  intros v Hv. rewrite Htr2, Htr by done. by apply range_step; [..|lia].
Qed.

Lemma map_loop_panics : forall n i s, tables_ok s -> coherent s -> 0 <= i ->
  let hi := vs + (i + Z.of_nat (S n)) * 4096 in
  hi < 2 ^ 32 -> ps + (i + Z.of_nat (S n)) * 4096 < 2 ^ 32 ->
  no_large s (vs + i * 4096) hi -> ~ room s (vs + i * 4096) (hi - 4096) ->
  map_pages (pd_of s) (S n) i s = Panic.
Proof using Hvs Hps Hv0 Hp0.
  induction n as [|n IH]; intros i s Hok Hc Hi hi Hhi Hphi Hno Hroom; pose proof (tk_next s Hok) as Hnx;
    (destruct (decide (present (pde s (pd_index (vs + i * 4096))) = false /\ PT_POOL_NEXT s = 64)) as [[Ep En]|Hgo];
     [cbn [for_pages]; unfold mbind, st_bind; rewrite map_page_panics by (unfold fits, hi in *; (done || lia)); done|]).
  - exfalso. apply Hroom. unfold room, frames_for. replace (hi - 4096) with (vs + i * 4096) by (unfold hi; lia).
    rewrite Z.sub_diag. change (Z.to_nat 0) with 0%nat. cbn [missing]. unfold absent. destruct (present _); [lia|].
    destruct (Z.eq_dec (PT_POOL_NEXT s) 64); [|lia]. exfalso. by apply Hgo.
  - destruct (loop_page (S n) i s Hok Hc Hi Hhi Hphi Hno) as (s1 & E & Hm & Hno1).
    { intros Ep. destruct (Z.eq_dec (PT_POOL_NEXT s) 64); [|lia]. exfalso. by apply Hgo. }
    cbn [for_pages]. erewrite stbind_step by exact E. pose proof Hm as ((Hok1 & Hc1) & Epd & _).
    rewrite <- Epd. subst hi. replace (i + Z.of_nat (S (S n))) with (i + 1 + Z.of_nat (S n)) in * by lia.
    apply (IH (i + 1) s1 Hok1 Hc1); try (lia || done).
    unfold room in *. replace (vs + (i + 1) * 4096) with (vs + i * 4096 + 4096) by lia.
    rewrite (mapped_room _ _ _ _ _ _ Hm); [done| |lia|lia|lia].
    apply Z.divide_add_r; [done|by exists i].
Qed.
End Loop.

(** ** Unmapping *)

Definition unmapped (s : x86) (va : Z) (s' : x86) : Prop :=
  (tables_ok s' /\ coherent s') /\ pd_of s' = pd_of s /\
  (forall v, fits 32 v -> maps_large s v = false -> maps_large s' v = false) /\
  (forall v, fits 32 v -> v / 4096 = va / 4096 -> translate s' v = None) /\
  (forall v, fits 32 v -> v / 4096 <> va / 4096 -> maps_large s v = false ->
     translate s' v = translate s v).

Lemma maps_large_translate s v : tables_ok s -> translate s v = None -> maps_large s v = false.
Proof using.
  intros Hok. rewrite translate_on, maps_large_on by done. by destruct (present _), (large _).
Qed.

Lemma clear_pde_ok s i : tables_ok s -> 0 <= i < 1024 ->
  let s' := written s (pd_of s + 4 * i) 0 in
  tables_ok s' /\ pde s' i = 0 /\ (forall j, 0 <= j < 1024 -> j <> i -> pde s' j = pde s j) /\
  forall v, fits 32 v -> pd_index v <> i -> translate s' v = translate s v.
Proof using.
  intros Hok Hi s'. assert (Hself : pde s' i = 0) by (unfold pde, s'; cbn [ram written]; by apply load32_store32_eq).
  assert (Hother : forall j, 0 <= j < 1024 -> j <> i -> pde s' j = pde s j).
  { intros j Hj Hne. unfold pde, s'. cbn [ram written]. apply load32_store32_ne. change (pd_of _) with (pd_of s). lia. }
  assert (Hframe : forall k j, 0 <= k < 64 -> 0 <= j < 1024 ->
    load32 (ram s') (PT_POOL + 4096 * k + 4 * j) = load32 (ram s) (PT_POOL + 4096 * k + 4 * j)).
  { intros k j Hk Hj. unfold s'. cbn [ram written]. apply load32_store32_ne.
    apply or_comm, pool_not_pd; try done; lia. }
  pose proof (tk_next s Hok) as Hnx. assert (Hok' : tables_ok s').
  { destruct Hok as [H0 H1 H2 H3 H4 H5 H6 H7]. split; try done.
    + intros j Hj. destruct (Z.eq_dec j i) as [->|Hne]; [by rewrite Hself|]. rewrite Hother by done. by apply H5.
    + intros j1 j2 Hj1 Hj2 Hne. destruct (Z.eq_dec j1 i) as [->|N1]; [by rewrite Hself|].
      destruct (Z.eq_dec j2 i) as [->|N2]; [by rewrite Hself|]. rewrite !Hother by done. by apply H6.
    + intros k j Hk Hj. rewrite Hframe by (cbn in Hk; lia). by apply H7. }
  split; [done|split; [done|split; [done|]]].
  intros v Hv Hne. destruct (pd_index_eq v Hv) as [_ Hdv]. destruct (pt_index_eq v) as [_ Htv].
  rewrite !translate_on, Hother by done.
  destruct (present (pde s (pd_index v))) eqn:Ep; [cbn [negb]|done].
  destruct (large (pde s (pd_index v))) eqn:El; [done|].
  destruct (tk_pde s Hok _ Hdv Ep El) as (_ & _ & k & Hk & ->). rewrite Hframe by lia. done.
Qed.

(** The three cases of a page: no table, a 4 MiB page, an entry. *)
Lemma unmap_large_ok s va : tables_ok s -> coherent s -> fits 32 va -> maps_large s va = true ->
  unmapped s va (flushed (written s (pd_of s + 4 * pd_index va) 0) va).
Proof using.
  intros Hok Hc Hva Hml. pose proof (pd_index_eq va Hva) as [_ Hdi].
  destruct (clear_pde_ok s (pd_index va) Hok Hdi) as (Hok1 & Hself & Hoth & Htr). set (s1 := written _ _ _) in *.
  assert (Hok2 : tables_ok (flushed s1 va)) by (by destruct Hok1; split).
  assert (Hel : forall v, fits 32 v -> pd_index v <> pd_index va -> maps_large s1 v = maps_large s v).
  { intros v Hv Hne. destruct (pd_index_eq v Hv) as [_ Hdv]. by rewrite !maps_large_on, Hoth by done. }
  assert (Hne : forall v, maps_large s v = false -> pd_index v <> pd_index va).
  { intros v Hv E. unfold maps_large in *. by rewrite E, Hml in Hv. }
  assert (Hsame : forall v, pd_index v = pd_index va -> maps_large s v = true).
  { intros v E. unfold maps_large in *. by rewrite E. }
  split; [split; [done|]|split; [done|split; [|split]]].
  - eapply (coherent_flushed s _ va Hc Hva); [reflexivity|]. intros v Hv _.
    destruct (Z.eq_dec (pd_index v) (pd_index va)) as [E|E]; [right; by auto|left].
    split; [by apply Htr|by apply Hel].
  - intros v Hv Hm. change (maps_large s1 v = false). by rewrite Hel by auto.
  - intros v Hv E. destruct (same_page v va Hv Hva) as [_ Hs]. destruct (Hs E) as [Ei _].
    change (translate s1 v = None). by rewrite translate_on, Ei, Hself by done.
  - intros v Hv _ Hm. change (translate s1 v = translate s v). by auto.
Qed.

Lemma unmap_pte_ok s va : tables_ok s -> coherent s -> fits 32 va ->
  present (pde s (pd_index va)) = true -> large (pde s (pd_index va)) = false ->
  unmapped s va (flushed (written s (frame_of (pde s (pd_index va)) + 4 * pt_index va) 0) va).
Proof using.
  intros Hok Hc Hva Hp Hl. destruct (write_pte_ok s va 0 Hok Hva) as (Hok1 & Hpde & Htr); [unfold fits; lia|done|done|].
  set (s1 := written _ _ _) in *. assert (Hok2 : tables_ok (flushed s1 va)) by (by destruct Hok1; split).
  assert (Hml : forall v, fits 32 v -> maps_large s1 v = maps_large s v).
  { intros v Hv. destruct (pd_index_eq v Hv) as [_ Hdv]. by rewrite !maps_large_on, Hpde by done. }
  split; [split; [done|]|split; [done|split; [|split]]].
  - eapply (coherent_flushed s _ va Hc Hva); [reflexivity|]. intros v Hv Hne. left.
    split; [|by apply Hml]. change (translate s1 v = translate s v). by rewrite Htr, (proj2 (Z.eqb_neq _ _)).
  - intros v Hv Hm. change (maps_large s1 v = false). by rewrite Hml.
  - intros v Hv E. change (translate s1 v = None). by rewrite Htr, (proj2 (Z.eqb_eq _ _)).
  - intros v Hv E _. change (translate s1 v = translate s v). by rewrite Htr, (proj2 (Z.eqb_neq _ _)).
Qed.

Lemma unmap_page_ok s vs i : tables_ok s -> coherent s -> let va := vs + i * 4096 in
  fits 32 (i * 4096) -> fits 32 va ->
  exists s', unmap_page (pd_of s) vs i s = Ret (tt, s') /\ unmapped s va s'.
Proof using.
  intros Hok Hc va Hi Hva. unfold unmap_page. change PAGE_SIZE with 4096. unfold usize_bits.
  erewrite stbind_step by (by rewrite mul_ok). erewrite stbind_step by (by rewrite add_ok).
  fold va. erewrite stbind_step by done. fold (pde s (pd_index va)).
  destruct (Z.land (pde s (pd_index va)) X86_PRESENT =? 0) eqn:Ep.
  { exists s. split; [done|]. do 3 (split; [done|]). split; [|done]. intros v Hv E.
    destruct (same_page v va Hv Hva) as [_ Hs]. destruct (Hs E) as [Ei _].
    rewrite translate_on, Ei by done. unfold present. by rewrite Ep. }
  assert (Hp : present (pde s (pd_index va)) = true) by (unfold present; by rewrite Ep).
  fold (large (pde s (pd_index va))). destruct (large (pde s (pd_index va))) eqn:El;
    erewrite stbind_step by reflexivity; eexists; (split; [reflexivity|]).
  - apply unmap_large_ok; [done..|]. by rewrite maps_large_on, Hp, El.
  - by apply unmap_pte_ok.
Qed.

Lemma unmap_loop vs : (4096 | vs) -> 0 <= vs -> forall n i s, tables_ok s -> coherent s -> 0 <= i ->
  let hi := vs + (i + Z.of_nat n) * 4096 in hi <= 2 ^ 32 ->
  exists s', for_pages (unmap_page (pd_of s) vs) n i s = Ret (tt, s') /\
    (tables_ok s' /\ coherent s') /\ pd_of s' = pd_of s /\
    forall v, fits 32 v -> (in_range (vs + i * 4096) hi v = true -> translate s' v = None) /\
      (in_range (vs + i * 4096) hi v = false -> maps_large s v = false -> translate s' v = translate s v).
Proof using.
  intros Hvs Hv0. induction n as [|n IH]; intros i s Hok Hc Hi hi Hhi.
  { exists s. do 3 (split; [done|]). intros v Hv. split; [|done].
    unfold in_range, hi. destruct (Z.leb_spec (vs + i * 4096) v), (Z.ltb_spec v (vs + (i + Z.of_nat 0) * 4096)); done || lia. }
  destruct (unmap_page_ok s vs i Hok Hc) as (s1 & E & (Hok1 & Hc1) & Epd & Hml & Hnone & Hsame);
    [unfold fits, hi in *; lia|unfold fits, hi in *; lia|].
  cbn [for_pages]. erewrite stbind_step by exact E.
  destruct (IH (i + 1) s1 Hok1 Hc1) as (s2 & E2 & [Hok2 Hc2] & Epd2 & H2); [lia|unfold hi in *; lia|].
  exists s2. rewrite <- Epd. split; [done|]. split; [done|]. split; [congruence|].
  replace (i + 1 + Z.of_nat n) with (i + Z.of_nat (S n)) in H2 by lia. fold hi in H2.
  intros v Hv. destruct (H2 v Hv) as [H2a H2b]. pose proof (page_step vs i v Hvs Hi Hv) as Hpg.
  assert (Hr : in_range (vs + i * 4096) hi v =
    in_range (vs + (i + 1) * 4096) hi v || (v / 4096 =? (vs + i * 4096) / 4096)).
  { unfold in_range. destruct (Z.eqb_spec (v / 4096) ((vs + i * 4096) / 4096)) as [Eq|Nq].
    - apply Hpg in Eq. rewrite orb_true_r. unfold hi in *.
      rewrite (proj2 (Z.leb_le _ _)), (proj2 (Z.ltb_lt _ _)); [done|lia|lia].
    - rewrite orb_false_r. destruct (Z.leb_spec (vs + (i + 1) * 4096) v), (Z.leb_spec (vs + i * 4096) v); try done; [lia|].
      exfalso. apply Nq, Hpg. lia. }
  rewrite Hr. destruct (in_range (vs + (i + 1) * 4096) hi v) eqn:Er; cbn [orb].
  - split; [by intros _; apply H2a|done].
  - destruct (Z.eqb_spec (v / 4096) ((vs + i * 4096) / 4096)) as [Eq|Nq].
    + split; [|done]. intros _. rewrite H2b; [by apply Hnone|done|]. by apply maps_large_translate, Hnone.
    + split; [done|]. intros _ Hm. rewrite H2b; [by apply Hsame|done|by apply Hml].
Qed.
End Tables.

(** ** Theorems *)

Section Regions.
Context `{Profile}.

Definition pages_of (virt size : Z) : Z := (size + virt mod 4096 + 4095) / 4096.

Lemma page_base_eq a : fits 32 a -> page_base a = a - a mod 4096 /\ (4096 | page_base a) /\ 0 <= page_base a.
Proof using.
  intros Ha. unfold page_base. change 0xFFF with (2 ^ 12 - 1). unfold usize_bits.
  rewrite land_lnot_mask by (done || lia). change (2 ^ 12) with 4096.
  pose proof (Z.div_mod a 4096). pose proof (Z.mod_pos_bound a 4096). unfold fits in Ha.
  assert (0 <= a / 4096) by (apply Z.div_pos; lia).
  split; [done|]. split; [exists (a / 4096); lia|lia].
Qed.

Lemma page_count_ok virt size : fits 32 virt -> 0 <= size -> size + virt mod 4096 + 4096 < 2 ^ 32 ->
  page_count virt size = Ret (pages_of virt size) /\ 0 <= pages_of virt size /\
  pages_of virt size * 4096 <= size + virt mod 4096 + 4095.
Proof using.
  intros Hv Hs Hlim. unfold page_count, page_offset. change 0xFFF with (2 ^ 12 - 1).
  rewrite land_mask by lia. change (2 ^ 12) with 4096. pose proof (Z.mod_pos_bound virt 4096).
  unfold PAGE_SIZE. rewrite add_ok by (unfold fits, usize_bits; lia). cbn [mbind outcome_bind].
  rewrite add_ok by (unfold fits, usize_bits; lia). cbn [mbind outcome_bind].
  rewrite sub_ok by (unfold fits, usize_bits; lia). cbn [mbind outcome_bind].
  rewrite udiv_ok by done. unfold pages_of.
  replace (size + virt mod 4096 + 4096 - 1) with (size + virt mod 4096 + 4095) by lia.
  pose proof (Z.div_mod (size + virt mod 4096 + 4095) 4096). pose proof (Z.mod_pos_bound (size + virt mod 4096 + 4095) 4096).
  split; [done|]. split; [apply Z.div_pos; lia|lia].
Qed.

End Regions.

Section Claims.
Context `{Profile} (PT_POOL : Z).

Lemma map_region_loop s virt phys size flags : fits 32 virt -> 0 <= size -> size + virt mod 4096 + 4096 < 2 ^ 32 ->
  map_region PT_POOL virt phys size flags s =
  for_pages (map_page PT_POOL (pd_of s) (map_flags_to_x86 flags) (page_base virt) (page_base phys))
    (Z.to_nat (pages_of virt size)) 0 s.
Proof using.
  intros Hv Hs Hl. destruct (page_count_ok virt size Hv Hs Hl) as (Ec & _). unfold map_region.
  erewrite stbind_step by (by rewrite Ec). by erewrite stbind_step by done.
Qed.

(** A page under a 4 MiB entry: the entry is taken for a page table, so the
    new entry goes into the memory the large page maps. *)
Lemma map_page_in_large s bits vs ps : fits 32 vs -> fits 32 ps -> present (pde s (pd_index vs)) = true ->
  large (pde s (pd_index vs)) = true ->
  let target := frame_of (pde s (pd_index vs)) + 4 * pt_index vs in
  (target + 4 <= pd_of s \/ pd_of s + 4096 <= target) -> paging s = true -> pse s = true ->
  exists s', map_page PT_POOL (pd_of s) bits vs ps 0 s = Ret (tt, s') /\
    ram s' = store32 (ram s) target (Z.lor (Z.land ps PHYS_ADDR_MASK) bits) /\
    translate s' vs = translate s vs.
Proof using.
  intros Hva Hps Hp Hl target Hsep Hon Hpse. unfold map_page.
  do 4 (erewrite stbind_step by (rewrite ?mul_ok, ?add_ok by (unfold fits, usize_bits in *; lia); done)).
  rewrite Z.mul_0_l, !Z.add_0_r. erewrite stbind_step by done.
  fold (pde s (pd_index vs)). fold (present (pde s (pd_index vs))). rewrite Hp.
  erewrite stbind_step by done. erewrite stbind_step by done. eexists. split; [done|]. split; [done|].
  fold (frame_of (pde s (pd_index vs))). fold target. set (s1 := written _ _ _).
  destruct (pd_index_eq vs Hva) as [_ Hi].
  assert (E : pde s1 (pd_index vs) = pde s (pd_index vs)).
  { unfold pde. change (pd_of s1) with (pd_of s). cbn [ram written s1]. apply load32_store32_ne. lia. }
  change (translate s1 vs = translate s vs). unfold translate.
  change (paging s1) with (paging s). change (pse s1) with (pse s). by rewrite E, Hp, Hl, Hon, Hpse.
Qed.

(** C13: [map_region] on well-formed tables, with nothing stale in the
    translation cache, for a region that ends a page before the end of the
    address space.  Where no address of its pages lies in a 4 MiB page (those
    that [init] sets up are the first 8 MiB), there are two cases.  If the pool
    has a frame for every table that is still missing, whatever the processor
    may then use for an address, be it the tables or its cache, is for every
    page that meets [virt, virt+size) the matching physical page with exactly
    the rights of the flags, and for every other address what the tables said
    before; and the tables are well formed again.  If the pool has too few, it
    panics.  A page that lies in a 4 MiB page is not mapped: its entry
    overwrites four bytes of the physical memory the large page maps, and the
    address is translated as before. *)
Theorem x86_map_region_correct s virt phys size flags : tables_ok PT_POOL s -> coherent s ->
  fits 32 virt -> fits 32 phys -> 0 <= size ->
  virt + size + 4096 < 2 ^ 32 -> phys + virt mod 4096 + size + 4096 < 2 ^ 32 ->
  let lo := page_base virt in let hi := lo + 4096 * pages_of virt size in
  (no_large s lo hi -> (0 < pages_of virt size -> room s lo (hi - 4096)) ->
   exists s', map_region PT_POOL virt phys size flags s = Ret (tt, s') /\ tables_ok PT_POOL s' /\ coherent s' /\
    forall v t, fits 32 v -> sees s' v t -> t =
      if in_range lo hi v then Some (page_base phys + (v - lo), requested flags) else translate s v) /\
  (no_large s lo hi -> 0 < pages_of virt size -> ~ room s lo (hi - 4096) ->
   map_region PT_POOL virt phys size flags s = Panic) /\
  (pages_of virt size = 1 -> maps_large s lo = true ->
   let target := frame_of (pde s (pd_index lo)) + 4 * pt_index lo in
   (target + 4 <= pd_of s \/ pd_of s + 4096 <= target) ->
   exists s', map_region PT_POOL virt phys size flags s = Ret (tt, s') /\
    ram s' = store32 (ram s) target (Z.lor (Z.land (page_base phys) PHYS_ADDR_MASK) (map_flags_to_x86 flags)) /\
    translate s' lo = translate s lo).
Proof using.
  intros Hok Hc Hv Hp Hs Hlv Hlp lo hi.
  destruct (page_base_eq virt Hv) as (Ev & Hva & Hv0). destruct (page_base_eq phys Hp) as (Ep & Hpa & Hp0).
  pose proof (Z.mod_pos_bound virt 4096). pose proof (Z.mod_pos_bound phys 4096).
  assert (virt mod 4096 <= virt) by (apply Z.mod_le; unfold fits in Hv; lia).
  destruct (page_count_ok virt size Hv Hs) as (_ & Hn0 & Hn1); [lia|].
  rewrite (map_region_loop s virt phys size flags Hv Hs) by lia. fold lo.
  assert (Ehi : lo + (0 + Z.of_nat (Z.to_nat (pages_of virt size))) * 4096 = hi) by (unfold hi; lia).
  assert (Elo : lo + 0 * 4096 = lo) by lia. split; [|split].
  - intros Hno Hroom. destruct (map_loop PT_POOL flags lo (page_base phys) Hva Hpa Hv0 Hp0
      (Z.to_nat (pages_of virt size)) 0 s Hok Hc) as (s' & E & (Hok' & Hc') & _ & Htr); rewrite ?Elo, ?Ehi; try (lia || done).
    { intros Hpos. apply Hroom. lia. }
    exists s'. do 3 (split; [done|]). intros v t Hfv Ht. rewrite (coherent_sees s' v t Hc' Hfv Ht), Htr by done.
    by rewrite Elo, Ehi.
  - intros Hno Hpos Hroom. destruct (Z.to_nat (pages_of virt size)) as [|n] eqn:En; [lia|].
    apply (map_loop_panics PT_POOL flags lo (page_base phys) Hva Hpa Hv0 Hp0 n 0 s Hok Hc); rewrite ?Elo, ?Ehi; (lia || done).
  - intros E1 Hml target Hsep. rewrite (maps_large_on PT_POOL) in Hml by done. apply andb_true_iff in Hml as [Hpr Hla].
    destruct (tk_on _ _ Hok) as [Hon Hps].
    destruct (map_page_in_large s (map_flags_to_x86 flags) lo (page_base phys)) as (s' & E & Er & Et); try done;
      [unfold fits in *; lia|unfold fits in *; lia|].
    exists s'. rewrite E1. change (Z.to_nat 1) with 1%nat. cbn [for_pages].
    by erewrite stbind_step by exact E.
Qed.

(** [unmap_region], on well-formed tables with nothing stale in the cache,
    leaves nothing that the processor could use for an address of the pages
    that meet [virt, virt+size), and keeps the translation of every other
    address that is not part of a 4 MiB mapping. *)
Theorem x86_unmap_region_correct s virt size : tables_ok PT_POOL s -> coherent s -> fits 32 virt -> 0 <= size ->
  virt + size + 4096 < 2 ^ 32 ->
  let lo := page_base virt in let hi := lo + 4096 * pages_of virt size in
  exists s', unmap_region virt size s = Ret (tt, s') /\ tables_ok PT_POOL s' /\ coherent s' /\
    forall v t, fits 32 v -> sees s' v t -> (in_range lo hi v = true -> t = None) /\
      (in_range lo hi v = false -> maps_large s v = false -> t = translate s v).
Proof using.
  intros Hok Hc Hv Hs Hlv lo hi. destruct (page_base_eq virt Hv) as (Ev & Hva & Hv0).
  pose proof (Z.mod_pos_bound virt 4096).
  assert (virt mod 4096 <= virt) by (apply Z.mod_le; unfold fits in Hv; lia).
  destruct (page_count_ok virt size Hv Hs) as (Ec & Hn0 & Hn1); [lia|].
  destruct (unmap_loop PT_POOL (page_base virt) Hva Hv0 (Z.to_nat (pages_of virt size)) 0 s Hok Hc)
    as (s' & E & (Hok' & Hc') & _ & Htr); [lia|rewrite Z.add_0_l, Z2Nat.id by done; lia|].
  exists s'. split; [|split; [done|split; [done|]]].
  - unfold unmap_region. erewrite stbind_step by (by rewrite Ec). by erewrite stbind_step by done.
  - intros v t Hfv Ht. rewrite (coherent_sees s' v t Hc' Hfv Ht). specialize (Htr v Hfv).
    rewrite Z.mul_0_l, Z.add_0_r, Z.add_0_l, Z2Nat.id in Htr by done.
    fold lo in Htr. by replace (lo + pages_of virt size * 4096) with hi in Htr by (unfold hi, lo; lia).
Qed.

Lemma x86_init_ok s l1 : (4096 | l1) -> fits 32 l1 ->
  (4096 | PT_POOL) -> 0 <= PT_POOL -> PT_POOL + 64 * 4096 < 2 ^ 32 -> l1 + 4096 <= PT_POOL \/ PT_POOL + 64 * 4096 <= l1 ->
  PT_POOL_NEXT s = 0 -> (forall i, 0 <= i < 1024 -> load32 (ram s) (l1 + 4 * i) = 0) ->
  (forall k j, 0 <= k < 64 -> 0 <= j < 1024 -> load32 (ram s) (PT_POOL + 4096 * k + 4 * j) = 0) ->
  exists s', init l1 s = Ret (tt, s') /\ tables_ok PT_POOL s' /\ coherent s' /\
    forall v, fits 32 v -> translate s' v = if v <? 8 * 2 ^ 20 then Some (v, mkRights true false false false) else None.
Proof using.
  intros Hal Hfit Hpa Hp0 Hp1 Hap Hn Hz Hpz. eexists. split; [reflexivity|]. set (s' := mkX86 _ _ _ _ _ _).
  assert (Hpd : pd_of s' = l1).
  { unfold pd_of. cbn [cr3 s']. rewrite frame_of_eq by done. apply Z.mod_divide in Hal; lia. }
  assert (Hpde : forall i, 0 <= i < 1024 -> pde s' i = if i =? 0 then 0x83 else if i =? 1 then 0x400083 else 0).
  { intros i Hi. unfold pde. rewrite Hpd. cbn [ram s' written].
    destruct (Z.eqb_spec i 0) as [->|]; [|destruct (Z.eqb_spec i 1) as [->|]].
    - rewrite Z.mul_0_r, Z.add_0_r, load32_store32_ne by lia. by rewrite load32_store32_eq by (vm_compute; split; congruence).
    - by rewrite Z.mul_1_r, load32_store32_eq by (vm_compute; split; congruence).
    - by rewrite !load32_store32_ne, Hz by lia. }
  assert (Hl : forall i, 0 <= i < 1024 -> present (pde s' i) = true -> large (pde s' i) = true).
  { intros i Hi. rewrite Hpde by done. by destruct (i =? 0), (i =? 1). }
  assert (Hok : tables_ok PT_POOL s').
  { split.
    - unfold paging, pse. cbn [cr0 cr4 s' written]. by rewrite !Z.lor_spec, !orb_true_r.
    - done.
    - done.
    - cbn. lia.
    - rewrite Hpd. exact Hap.
    - intros i Hi Hp Hla. by rewrite (Hl i Hi Hp) in Hla.
    - intros i j Hi _ _ Hp Hla. by rewrite (Hl i Hi Hp) in Hla.
    - intros k j Hk Hj. cbn in Hk. cbn [ram s' written]. rewrite !load32_store32_ne by lia. apply Hpz; lia. }
  split; [done|]. split.
  - set (s2 := mkX86 (ram s') (cr0 s) l1 (cr4 s') (PT_POOL_NEXT s') (fun _ => [])).
    intros p c Hp Hin. change (c ∈ remember s2 p) in Hin. unfold remember in Hin.
    destruct (paging s2) eqn:Eon; [|by apply not_elem_of_nil in Hin].
    assert (Et : translate s' (p * 4096) = translate s2 (p * 4096)).
    { destruct (tk_on _ _ Hok) as [Eon' _]. unfold translate. by rewrite Eon, Eon'. }
    rewrite Et. destruct (translate s2 (p * 4096)) as [[pa g]|]; [|by apply not_elem_of_nil in Hin].
    by apply list_elem_of_singleton in Hin as ->.
  - intros v Hv. destruct (pd_index_eq v Hv) as [Ei Hi]. change (2 ^ 22) with 4194304 in *.
    pose proof (Z.div_mod v 4194304). pose proof (Z.mod_pos_bound v 4194304).
    rewrite (translate_on PT_POOL) by done. rewrite Hpde by done.
    destruct (Z.eqb_spec (pd_index v) 0) as [E0|]; [|destruct (Z.eqb_spec (pd_index v) 1) as [E1|]].
    + rewrite (proj2 (Z.ltb_lt _ _)) by lia. change (Some (0 + v mod 4194304, mkRights true false false false) = Some (v, mkRights true false false false)).
      do 2 f_equal. lia.
    + rewrite (proj2 (Z.ltb_lt _ _)) by lia. change (Some (0x400000 + v mod 4194304, mkRights true false false false) = Some (v, mkRights true false false false)).
      do 2 f_equal. lia.
    + by rewrite (proj2 (Z.ltb_ge _ _)) by lia.
Qed.

(** [init] on a zeroed 4 KiB-aligned page apart from the pool, with the pool
    unused, turns paging on with the first 8 MiB identity-mapped, for the
    supervisor, writable, and nothing else; the tables are well formed and
    nothing is cached. *)
Theorem x86_init_identity s l1 : (4096 | l1) -> fits 32 l1 ->
  (4096 | PT_POOL) -> 0 <= PT_POOL -> PT_POOL + 64 * 4096 < 2 ^ 32 -> l1 + 4096 <= PT_POOL \/ PT_POOL + 64 * 4096 <= l1 ->
  PT_POOL_NEXT s = 0 -> (forall i, 0 <= i < 1024 -> load32 (ram s) (l1 + 4 * i) = 0) ->
  (forall k j, 0 <= k < 64 -> 0 <= j < 1024 -> load32 (ram s) (PT_POOL + 4096 * k + 4 * j) = 0) ->
  exists s', init l1 s = Ret (tt, s') /\ tables_ok PT_POOL s' /\ coherent s' /\
    forall v, fits 32 v -> translate s' v = if v <? 8 * 2 ^ 20 then Some (v, mkRights true false false false) else None.
Proof using. apply x86_init_ok. Qed.

(** Reloading CR3 leaves the tables as the only source of translations. *)
Theorem x86_invalidate_all s v t : exists s', invalidate_tlb_all s = Ret (tt, s') /\
  (sees s' v t <-> t = translate s v) /\ coherent s'.
Proof using.
  eexists. split; [reflexivity|]. split.
  - unfold sees, may_use. cbn. rewrite list_elem_of_singleton. done.
  - intros p c _ Hin. by apply not_elem_of_nil in Hin.
Qed.
End Claims.

(** ** Witnesses *)

Section Witnesses.
#[local] Instance debug_profile : Profile := Build_Profile true.

(** Zeroed memory before [init], the directory at 0x10000, the pool at 0x100000. *)
Definition demo_x86 : x86 := mkX86 (fun _ => 0) 0 0 0 0 (fun _ => []).

Lemma x86_init_identity_witness : exists s, init 0x10000 demo_x86 = Ret (tt, s) /\ tables_ok 0x100000 s /\ coherent s /\
  forall v, fits 32 v -> translate s v = if v <? 8 * 2 ^ 20 then Some (v, mkRights true false false false) else None.
Proof using.
  apply (x86_init_identity 0x100000 demo_x86 0x10000);
    [by exists 16|unfold fits; lia|by exists 256|lia|lia|lia|done|intros i _; done|intros k j _ _; done].
Defined.

(** The tables that [init] leaves, and an empty cache. *)
Definition demo_tables : x86 :=
  mkX86 (store32 (store32 (fun _ => 0) 0x10000 0x83) 0x10004 0x400083) 0x80000000 0x10000 0x10 0 (fun _ => []).

Lemma demo_tables_ok : tables_ok 0x100000 demo_tables /\ coherent demo_tables.
Proof using.
  destruct (x86_init_ok 0x100000 demo_x86 0x10000) as (s & E & Hok & _);
    [by exists 16|unfold fits; lia|by exists 256|lia|lia|lia|done|intros i _; done|intros k j _ _; done|].
  injection E as <-. split; [by destruct Hok; split|].
  intros p c _ Hin. by apply not_elem_of_nil in Hin.
Qed.

(** From 8 MiB on nothing is mapped. *)
Lemma demo_no_large lo hi : 0x800000 <= lo -> hi <= 0xc00000 -> no_large demo_tables lo hi.
Proof using.
  intros Hlo Hhi v Hv. unfold maps_large. destruct (pd_index_eq v) as [-> _]; [unfold fits; lia|].
  assert (v / 2 ^ 22 = 2) as -> by (symmetry; apply Z.div_unique with (v - 0x800000); lia). reflexivity.
Qed.

(** Two pages of the third 4 MiB; and mapping the VGA buffer, which [init] has
    mapped, writes to physical address 0x2e0 instead. *)
Lemma x86_map_region_correct_witness :
  (exists s', map_region 0x100000 0x800123 0xc00000 5000 MF_WRITE demo_tables = Ret (tt, s') /\
    forall t, sees s' 0x801004 t -> t = Some (0xc01004, mkRights true false false false)) /\
  (exists s', map_region 0x100000 0xb8000 0xb8000 4000 MF_WRITE demo_tables = Ret (tt, s') /\
    ram s' = store32 (ram demo_tables) 0x2e0 0xb8003 /\ translate s' 0xb8000 = translate demo_tables 0xb8000).
Proof using.
  destruct demo_tables_ok as [Hok Hc]. split.
  - destruct (x86_map_region_correct 0x100000 demo_tables 0x800123 0xc00000 5000 MF_WRITE Hok Hc) as ((s' & E & _ & _ & Hs) & _);
      [unfold fits; lia|unfold fits; lia|lia|vm_compute; congruence|vm_compute; congruence|apply demo_no_large; vm_compute; congruence|
       intros _; vm_compute; congruence|].
    exists s'. split; [exact E|]. intros t Ht. apply (Hs 0x801004 t); [unfold fits; lia|exact Ht].
  - destruct (x86_map_region_correct 0x100000 demo_tables 0xb8000 0xb8000 4000 MF_WRITE Hok Hc) as (_ & _ & Hl);
      [unfold fits; lia|unfold fits; lia|lia|vm_compute; congruence|vm_compute; congruence|].
    destruct Hl as (s' & E & Er & Et); [reflexivity|reflexivity|left; vm_compute; congruence|].
    exists s'. split; [exact E|]. split; [exact Er|exact Et].
Defined.

Lemma x86_unmap_region_correct_witness : exists s', unmap_region 0x400123 5000 demo_tables = Ret (tt, s') /\
  tables_ok 0x100000 s' /\ coherent s' /\ forall t, sees s' 0x401000 t -> t = None.
Proof using.
  destruct demo_tables_ok as [Hok Hc].
  destruct (x86_unmap_region_correct 0x100000 demo_tables 0x400123 5000 Hok Hc) as (s' & E & Hok' & Hc' & Hs);
    [unfold fits; lia|lia|lia|].
  exists s'. do 3 (split; [assumption|]). intros t Ht. destruct (Hs 0x401000 t) as [Hn _]; [unfold fits; lia|exact Ht|].
  by apply Hn.
Defined.
End Witnesses.
