(* ===== verification/MmuArm.v ===== *)
(** * Section mappings on ARM (kernel/src/arch/arm/mmu.rs)

    [ArmMmu] fills a 4096-entry first-level table with 1 MiB section
    descriptors.  The state is physical memory, the published address of the
    kernel's table and the coprocessor registers [enable_mmu] loads.
    [translate] is the hardware walk over section descriptors and [accessible]
    adds the domain check, against which the operations are specified. *)
From S2P Require Import Prelude Memory.

(** ** Constants and entries *)

Definition NUM_L1_ENTRIES : Z := 4096.
Definition SECTION_SIZE : Z := 0x100000.
Definition SECTION_MASK : Z := 0xFFF00000.
Definition PAGE_MASK : Z := 0xFFFFF000.

Definition AP_PRIV_RW : Z := 1.
Definition AP_PRIV_RW_USER_RO : Z := 2.
Definition AP_FULL : Z := 3.
Definition AP_PRIV_RO : Z := 5.

Definition DOMAIN_KERNEL : Z := 0.
Definition DOMAIN_USER : Z := 1.
Definition DOMAIN_HW : Z := 2.

Definition MEM_DEVICE : Z := 4.
Definition MEM_NORMAL_UNCACHED : Z := 0x1000.
Definition MEM_NORMAL_WRITEBACK : Z := 0x100c.

Definition ap_bits (ap : Z) : Z :=
  Z.lor (Z.shiftl (Z.land ap 4) 13) (Z.shiftl (Z.land ap 3) 10).

Definition section_entry (phys_addr mem_type ap domain : Z) (exec : bool) : Z :=
  let xn := if exec then 0 else 16 in
  Z.lor (Z.lor (Z.lor (Z.lor (Z.lor (Z.land phys_addr SECTION_MASK) mem_type) (ap_bits ap))
    (Z.shiftl domain 5)) xn) 2.

Definition coarse_entry (l2_phys domain : Z) : Z :=
  Z.lor (Z.lor (Z.land l2_phys 0xFFFFFC00) (Z.shiftl domain 5)) 1.

Definition l2_page_entry (phys_addr ap : Z) : Z :=
  let base := Z.land phys_addr PAGE_MASK in
  let ap_l2 := Z.lor (Z.shiftl (Z.land ap 4) 7) (Z.shiftl (Z.land ap 3) 4) in
  Z.lor (Z.lor (Z.lor (Z.lor base ap_l2) 8) 4) 2.

Definition l1_index (va : Z) : Z := Z.shiftr va 20.
Definition l2_index (va : Z) : Z := Z.land (Z.shiftr va 12) 0xFF.
Definition coarse_base (l1_entry : Z) : Z := Z.land l1_entry 0xFFFFFC00.
Definition is_section_entry (entry : Z) : bool := Z.land entry 3 =? 2.
Definition is_coarse_entry (entry : Z) : bool := Z.land entry 3 =? 1.

(** [MapFlags] (kernel/src/mm/mmu.rs). *)
Definition MF_WRITE : Z := 2.
Definition MF_EXEC : Z := 4.
Definition MF_USER : Z := 8.
Definition MF_DEVICE : Z := 16.
Definition MF_CACHED : Z := 32.
Definition contains (flags f : Z) : bool := Z.land flags f =? f.

(** [drivers::platform::MemoryMap], as far as the MMU reads it. *)
Record MemoryMap := mkMap {
  ram_start : Z; ram_size : Z; peripheral_base : Z; peripheral_size : Z;
}.

(** ** Operations *)

Record arm := mkArm {
  ram : mem;
  KERNEL_L1_TABLE_PHYS : Z;
  ttbr0 : Z;
  dacr : Z;
  sctlr : Z;
  tlb_ops : list (option Z);     (* [None] invalidates everything *)
}.

Definition write_entry (a v : Z) : st arm unit := modify (fun s =>
  mkArm (store32 (ram s) a v) (KERNEL_L1_TABLE_PHYS s) (ttbr0 s) (dacr s) (sctlr s) (tlb_ops s)).

Definition tlb (op : option Z) : st arm unit := modify (fun s =>
  mkArm (ram s) (KERNEL_L1_TABLE_PHYS s) (ttbr0 s) (dacr s) (sctlr s) (op :: tlb_ops s)).

(** [enable_mmu]: TTBR0 with its attributes, DACR with only domain 0 open, the
    MMU and the caches on, [AFE] off. *)
Definition enable_mmu (base : Z) : st arm unit := modify (fun s =>
  mkArm (ram s) (KERNEL_L1_TABLE_PHYS s) (Z.lor (Z.lor base 64) 1) 1
    (Z.lor (Z.lor (Z.lor (Z.land (sctlr s) (lnot 32 (2 ^ 29))) 1) 4) 0x1000)
    (None :: tlb_ops s)).

Section Operations.
Context `{Profile}.

Definition round_up (size : Z) : outcome Z :=
  t ← add usize_bits size SECTION_SIZE;
  t ← sub usize_bits t 1;
  Ret (Z.land t SECTION_MASK).

(** The two [while addr < end] loops of [init]. *)
Fixpoint identity_loop (fuel : nat) (l1 addr end_ mem_type domain : Z) (exec : bool) : st arm unit :=
  match fuel with
  | O => out_of_fuel
  | S fuel =>
      if addr <? end_ then
        _ ← write_entry (l1 + 4 * l1_index addr) (section_entry addr mem_type AP_PRIV_RW domain exec);
        addr' ← lift (add usize_bits addr SECTION_SIZE);
        identity_loop fuel l1 addr' end_ mem_type domain exec
      else mret tt
  end.

(** The address space has 4096 sections. *)
Definition section_fuel : nat := 4097.

(** One of the two regions of [init]: bounds rounded outwards, then the loop. *)
Definition identity_map (l1 base size mem_type domain : Z) (exec : bool) : st arm unit :=
  let start := Z.land base SECTION_MASK in
  e ← lift (add usize_bits base size);
  end_ ← lift (round_up e);
  identity_loop section_fuel l1 start end_ mem_type domain exec.

Definition init (mm : MemoryMap) (vectors l1 : Z) : st arm unit :=
  _ ← identity_map l1 (ram_start mm) (ram_size mm) MEM_NORMAL_WRITEBACK DOMAIN_KERNEL true;
  let v := Z.land vectors SECTION_MASK in
  _ ← write_entry (l1 + 4 * l1_index v)
        (section_entry v MEM_NORMAL_WRITEBACK AP_PRIV_RW DOMAIN_KERNEL true);
  _ ← identity_map l1 (peripheral_base mm) (peripheral_size mm) MEM_DEVICE DOMAIN_HW false;
  enable_mmu l1.

Definition ap_of (flags : Z) : Z :=
  if contains flags MF_USER then
    if contains flags MF_WRITE then AP_FULL else AP_PRIV_RW_USER_RO
  else
    if contains flags MF_WRITE then AP_PRIV_RW else AP_PRIV_RO.

Definition mem_type_of (flags : Z) : Z :=
  if contains flags MF_DEVICE then MEM_DEVICE
  else if contains flags MF_CACHED then MEM_NORMAL_WRITEBACK
  else MEM_NORMAL_UNCACHED.

Definition domain_of (flags : Z) : Z :=
  if contains flags MF_USER then DOMAIN_USER else DOMAIN_KERNEL.

Fixpoint map_loop (fuel : nat) (l1 virt phys flags offset aligned_size : Z) : st arm unit :=
  match fuel with
  | O => out_of_fuel
  | S fuel =>
      if offset <? aligned_size then
        va ← lift (add usize_bits virt offset);
        pa ← lift (add usize_bits phys offset);
        _ ← write_entry (l1 + 4 * l1_index va)
              (section_entry pa (mem_type_of flags) (ap_of flags) (domain_of flags) (contains flags MF_EXEC));
        offset' ← lift (add usize_bits offset SECTION_SIZE);
        map_loop fuel l1 virt phys flags offset' aligned_size
      else mret tt
  end.

Definition map_region (virt phys size flags : Z) : st arm unit :=
  l1 ← gets KERNEL_L1_TABLE_PHYS;
  aligned_size ← lift (round_up size);
  _ ← map_loop section_fuel l1 virt phys flags 0 aligned_size;
  tlb None.

Fixpoint unmap_loop (fuel : nat) (l1 virt offset aligned_size : Z) : st arm unit :=
  match fuel with
  | O => out_of_fuel
  | S fuel =>
      if offset <? aligned_size then
        va ← lift (add usize_bits virt offset);
        _ ← write_entry (l1 + 4 * l1_index va) 0;
        _ ← tlb (Some va);
        offset' ← lift (add usize_bits offset SECTION_SIZE);
        unmap_loop fuel l1 virt offset' aligned_size
      else mret tt
  end.

Definition unmap_region (virt size : Z) : st arm unit :=
  l1 ← gets KERNEL_L1_TABLE_PHYS;
  aligned_size ← lift (round_up size);
  unmap_loop section_fuel l1 virt 0 aligned_size.
End Operations.

(** ** The hardware walk *)

Definition entry (m : mem) (l1 va : Z) : Z := load32 m (l1 + 4 * (va / SECTION_SIZE)).

(** The physical address and the attribute bits of a section descriptor. *)
Definition translate (m : mem) (l1 va : Z) : option (Z * Z) :=
  let e := entry m l1 va in
  if is_section_entry e then Some (Z.land e SECTION_MASK + va mod SECTION_SIZE, Z.land e 0xFFFFF)
  else None.

(** Domain [d] is open when its field of DACR is client or manager. *)
Definition domain_open (dacr d : Z) : bool := Z.testbit dacr (2 * d).
Definition domain_field (attrs : Z) : Z := Z.land (Z.shiftr attrs 5) 15.

Definition accessible (s : arm) (l1 va : Z) : option Z :=
  match translate (ram s) l1 va with
  | Some (pa, attrs) => if domain_open (dacr s) (domain_field attrs) then Some pa else None
  | None => None
  end.

(** Attributes of the sections [map_region] writes. *)
Definition section_attrs (mem_type ap domain : Z) (exec : bool) : Z :=
  section_entry 0 mem_type ap domain exec.

(** What the attribute bits mean to the processor (short descriptors, AFE off):
    who may read and write, whether instructions may be fetched, the memory
    type and the domain.  Privileged code may read every section of AP 1 to 7. *)
Inductive MemKind := StronglyOrdered | DeviceMemory | NormalUncached | NormalWriteBack | OtherMemory.

Record access := mkAccess {
  priv_write : bool; user_read : bool; user_write : bool; executable : bool; kind : MemKind; domain : Z;
}.

Definition kind_of (attrs : Z) : MemKind :=
  let tex := Z.land (Z.shiftr attrs 12) 7 in
  match Z.testbit attrs 3, Z.testbit attrs 2 with
  | false, false => if tex =? 0 then StronglyOrdered else if tex =? 1 then NormalUncached else OtherMemory
  | false, true => if tex =? 0 then DeviceMemory else OtherMemory
  | true, true => if tex =? 1 then NormalWriteBack else OtherMemory
  | true, false => OtherMemory
  end.

Definition decode (attrs : Z) : access :=
  let ap := 4 * Z.land (Z.shiftr attrs 15) 1 + Z.land (Z.shiftr attrs 10) 3 in
  mkAccess ((1 <=? ap) && (ap <=? 3)) ((ap =? 2) || (ap =? 3) || (ap =? 6) || (ap =? 7)) (ap =? 3)
    (negb (Z.testbit attrs 4)) (kind_of attrs) (domain_field attrs).

(** Where an address goes and what may be done there. *)
Definition sees (s : arm) (va : Z) : option (Z * access) :=
  match translate (ram s) (KERNEL_L1_TABLE_PHYS s) va with
  | Some (pa, attrs) => Some (pa, decode attrs)
  | None => None
  end.

(** What the flags of a mapping ask for; a user mapping that is not writable
    stays writable for the kernel. *)
Definition requested (flags : Z) : access :=
  let write := contains flags MF_WRITE in let user := contains flags MF_USER in
  mkAccess (write || user) user (user && write) (contains flags MF_EXEC)
    (if contains flags MF_DEVICE then DeviceMemory
     else if contains flags MF_CACHED then NormalWriteBack else NormalUncached)
    (if user then DOMAIN_USER else DOMAIN_KERNEL).

(** ** Lemmas *)

Lemma decode_section_attrs flags :
  decode (section_attrs (mem_type_of flags) (ap_of flags) (domain_of flags) (contains flags MF_EXEC)) = requested flags.
Proof.
  unfold mem_type_of, ap_of, domain_of, requested.
  destruct (contains flags MF_WRITE), (contains flags MF_USER), (contains flags MF_EXEC),
    (contains flags MF_DEVICE), (contains flags MF_CACHED); reflexivity.
Qed.

Lemma section_entry_parts phys mt ap d x : fits 32 phys ->
  let a := section_attrs mt ap d x in 0 <= a < 2 ^ 20 -> Z.land a 3 = 2 ->
  let e := section_entry phys mt ap d x in
  fits 32 e /\ is_section_entry e = true /\ Z.land e SECTION_MASK = phys - phys mod SECTION_SIZE /\
  Z.land e 0xFFFFF = a.
Proof.
  intros Hp a Ha H2 e. set (b := phys - phys mod SECTION_SIZE).
  assert (Hd : (2 ^ 20 | b)).
  { exists (phys / SECTION_SIZE). unfold b. change (2 ^ 20) with SECTION_SIZE.
    pose proof (Z.div_mod phys SECTION_SIZE). unfold SECTION_SIZE in *. lia. }
  assert (Emask : forall z, fits 32 z -> Z.land z SECTION_MASK = z - z mod SECTION_SIZE).
  { intros z Hz. change SECTION_MASK with (lnot 32 (2 ^ 20 - 1)). by rewrite land_lnot_mask. }
  assert (Ee : e = b + a).
  { rewrite <- (lor_low b a 20) by done. unfold e, a, section_attrs, section_entry. rewrite Emask by done.
    fold b. rewrite Z.land_0_l, Z.lor_0_l. by rewrite <- !Z.lor_assoc. }
  assert (Hb : 0 <= b /\ b + 2 ^ 20 <= 2 ^ 32).
  { unfold b, SECTION_SIZE, fits in *. pose proof (Z.div_mod phys 0x100000).
    pose proof (Z.mod_pos_bound phys 0x100000). assert (phys / 0x100000 < 4096) by (apply Z.div_lt_upper_bound; lia).
    lia. }
  assert (Hm : e mod SECTION_SIZE = a).
  { rewrite Ee. destruct Hd as [q ->]. change SECTION_SIZE with (2 ^ 20). rewrite Z.add_comm, Z.mod_add, Z.mod_small by lia. lia. }
  assert (He : fits 32 e) by (unfold fits; lia).
  split; [done|]. split; [|split].
  - unfold is_section_entry. apply Z.eqb_eq. rewrite <- H2, <- Hm.
    change 3 with (2 ^ 2 - 1). rewrite !land_mask by lia. change SECTION_SIZE with (2 ^ 2 * 2 ^ 18).
    by rewrite Z.rem_mul_r, (Z.mul_comm (2 ^ 2) (_ mod _)), Z.mod_add, Z.mod_mod by lia.
  - rewrite Emask by done. lia.
  - change 0xFFFFF with (2 ^ 20 - 1). by rewrite land_mask.
Qed.

Lemma l1_index_eq va : l1_index va = va / SECTION_SIZE.
Proof. unfold l1_index. by rewrite Z.shiftr_div_pow2. Qed.

(** [n] consecutive entries from index [k] hold [e 0], ..., [e (n-1)]. *)
Definition filled (l1 : Z) (m : mem) (k n : Z) (e : Z -> Z) (m' : mem) : Prop :=
  forall i, load32 m' (l1 + 4 * i) = if (k <=? i) && (i <? k + n) then e (i - k) else load32 m (l1 + 4 * i).

Lemma filled_none l1 m k n e : n <= 0 -> filled l1 m k n e m.
Proof. intros Hn i. destruct (Z.leb_spec k i), (Z.ltb_spec i (k + n)); cbn; done || lia. Qed.

Lemma filled_cons l1 m m' k n e : 0 <= n -> fits 32 (e 0) ->
  filled l1 (store32 m (l1 + 4 * k) (e 0)) (k + 1) n (fun j => e (j + 1)) m' -> filled l1 m k (n + 1) e m'.
Proof.
  intros Hn He Hf i. rewrite Hf. destruct (Z.eq_dec i k) as [->|Hne].
  - rewrite (proj2 (Z.leb_gt (k + 1) k)) by lia. cbn. rewrite load32_store32_eq by done.
    rewrite (proj2 (Z.leb_le k k)), (proj2 (Z.ltb_lt k (k + (n + 1)))) by lia. cbn. f_equal. lia.
  - rewrite load32_store32_ne by lia. destruct (Z.leb_spec (k + 1) i), (Z.ltb_spec i (k + 1 + n)),
      (Z.leb_spec k i), (Z.ltb_spec i (k + (n + 1))); cbn; try done; try lia. f_equal. lia.
Qed.

Lemma translate_filled l1 m k n e m' va : filled l1 m k n e m' ->
  translate m' l1 va = if (k <=? va / SECTION_SIZE) && (va / SECTION_SIZE <? k + n)
    then (let d := e (va / SECTION_SIZE - k) in
          if is_section_entry d then Some (Z.land d SECTION_MASK + va mod SECTION_SIZE, Z.land d 0xFFFFF) else None)
    else translate m l1 va.
Proof. intros Hf. unfold translate, entry. rewrite Hf. by destruct (_ && _). Qed.

Section Loops.
Context `{Profile}.

(** Everything but memory. *)
Definition same_regs (s s' : arm) : Prop :=
  KERNEL_L1_TABLE_PHYS s' = KERNEL_L1_TABLE_PHYS s /\ ttbr0 s' = ttbr0 s /\ dacr s' = dacr s.

Lemma round_up_ok size : 0 <= size -> size + SECTION_SIZE < 2 ^ 32 ->
  exists n, round_up size = Ret (n * SECTION_SIZE) /\ 0 <= n < 4096 /\
    size <= n * SECTION_SIZE < size + SECTION_SIZE.
Proof using.
  unfold SECTION_SIZE. intros Hs Hlim. exists ((size + 0xFFFFF) / 0x100000).
  pose proof (Z.div_mod (size + 0xFFFFF) 0x100000). pose proof (Z.mod_pos_bound (size + 0xFFFFF) 0x100000).
  assert ((size + 0xFFFFF) / 0x100000 < 4096) by (apply Z.div_lt_upper_bound; lia).
  assert (0 <= (size + 0xFFFFF) / 0x100000) by (apply Z.div_pos; lia).
  split; [|lia]. unfold round_up, SECTION_SIZE. rewrite add_ok by (unfold fits, usize_bits; lia).
  cbn [mbind outcome_bind]. rewrite sub_ok by (unfold fits, usize_bits; lia). cbn [mbind outcome_bind].
  change SECTION_MASK with (lnot 32 (2 ^ 20 - 1)). replace (size + 0x100000 - 1) with (size + 0xFFFFF) by lia.
  rewrite land_lnot_mask by (unfold fits; lia). f_equal. change (2 ^ 20) with 0x100000. lia.
Qed.

Lemma mask_section z : fits 32 z -> Z.land z SECTION_MASK = z / SECTION_SIZE * SECTION_SIZE.
Proof using.
  intros Hz. change SECTION_MASK with (lnot 32 (2 ^ 20 - 1)). rewrite land_lnot_mask by done.
  change (2 ^ 20) with SECTION_SIZE. unfold SECTION_SIZE. pose proof (Z.div_mod z 0x100000). lia.
Qed.

Lemma identity_loop_ok l1 mt d x : 0 <= section_attrs mt AP_PRIV_RW d x < 2 ^ 20 ->
  Z.land (section_attrs mt AP_PRIV_RW d x) 3 = 2 -> forall n fuel k end_ s,
  (n < fuel)%nat -> 0 <= k -> (k + Z.of_nat n) * SECTION_SIZE < 2 ^ 32 ->
  ((0 < n)%nat -> end_ = (k + Z.of_nat n) * SECTION_SIZE) -> (n = O -> end_ <= k * SECTION_SIZE) ->
  exists s', identity_loop fuel l1 (k * SECTION_SIZE) end_ mt d x s = Ret (tt, s') /\ same_regs s s' /\
    filled l1 (ram s) k (Z.of_nat n) (fun j => section_entry ((k + j) * SECTION_SIZE) mt AP_PRIV_RW d x) (ram s').
Proof using.
  intros Ha H2. unfold SECTION_SIZE. induction n as [|n IH]; intros fuel k end_ s Hf Hk Hlim He He0;
    (destruct fuel as [|fuel]; [lia|]); cbn [identity_loop].
  { exists s. rewrite (proj2 (Z.ltb_ge _ _)) by auto. split; [done|]. split; [done|]. by apply filled_none. }
  rewrite (proj2 (Z.ltb_lt _ _)) by (rewrite He by lia; lia). erewrite stbind_step by done.
  erewrite stbind_step by (rewrite add_ok by (unfold fits, usize_bits, SECTION_SIZE; lia); done).
  replace (k * 0x100000 + SECTION_SIZE) with ((k + 1) * 0x100000) by (unfold SECTION_SIZE; lia).
  edestruct (IH fuel (k + 1) end_) as (s' & E & Hr & Hfl); cycle 5.
  { exists s'. split; [exact E|]. split; [done|].
    replace (Z.of_nat (S n)) with (Z.of_nat n + 1) by lia. apply filled_cons; [lia| |].
    - apply section_entry_parts; [unfold fits; lia|done|done].
    - cbn [ram] in Hfl. rewrite l1_index_eq in Hfl. unfold SECTION_SIZE in Hfl.
      rewrite Z.div_mul, Z.add_0_r in * by lia. intros i. rewrite Hfl. destruct (_ && _); [|done].
      f_equal; lia. }
  all: lia.
Qed.

Lemma map_loop_ok l1 virt phys flags : let mt := mem_type_of flags in
  let ap := ap_of flags in let d := domain_of flags in let x := contains flags MF_EXEC in
  0 <= section_attrs mt ap d x < 2 ^ 20 -> Z.land (section_attrs mt ap d x) 3 = 2 ->
  fits 32 virt -> fits 32 phys -> forall n fuel o s, (n < fuel)%nat -> 0 <= o ->
  (o + Z.of_nat n) * SECTION_SIZE < 2 ^ 32 ->
  virt + (o + Z.of_nat n - 1) * SECTION_SIZE < 2 ^ 32 -> phys + (o + Z.of_nat n - 1) * SECTION_SIZE < 2 ^ 32 ->
  exists s', map_loop fuel l1 virt phys flags (o * SECTION_SIZE) ((o + Z.of_nat n) * SECTION_SIZE) s = Ret (tt, s') /\
    same_regs s s' /\ filled l1 (ram s) (virt / SECTION_SIZE + o) (Z.of_nat n)
      (fun j => section_entry (phys + (o + j) * SECTION_SIZE) mt ap d x) (ram s').
Proof using.
  intros mt ap d x Ha H2 Hv Hp. unfold SECTION_SIZE, fits in *.
  induction n as [|n IH]; intros fuel o s Hf Ho Hlim Hlv Hlp; (destruct fuel as [|fuel]; [lia|]); cbn [map_loop].
  { exists s. rewrite (proj2 (Z.ltb_ge _ _)) by lia. split; [done|]. split; [done|]. by apply filled_none. }
  rewrite (proj2 (Z.ltb_lt _ _)) by lia.
  do 2 erewrite stbind_step by (rewrite add_ok by (unfold fits, usize_bits; lia); done).
  erewrite stbind_step by done.
  erewrite stbind_step by (rewrite add_ok by (unfold fits, usize_bits, SECTION_SIZE; lia); done).
  replace (o * 0x100000 + SECTION_SIZE) with ((o + 1) * 0x100000) by (unfold SECTION_SIZE; lia).
  replace (o + Z.of_nat (S n)) with (o + 1 + Z.of_nat n) by lia.
  edestruct (IH fuel (o + 1)) as (s' & E & Hr & Hfl); cycle 5.
  { exists s'. split; [exact E|]. split; [done|].
    replace (Z.of_nat (S n)) with (Z.of_nat n + 1) by lia. apply filled_cons; [lia| |].
    - apply section_entry_parts; [unfold fits; lia|done|done].
    - cbn [ram] in Hfl. rewrite l1_index_eq in Hfl. unfold SECTION_SIZE in Hfl.
      rewrite Z.div_add, Z.add_0_r in * by lia. intros i.
      replace (virt / 0x100000 + o + 1) with (virt / 0x100000 + (o + 1)) by lia. rewrite Hfl.
      destruct (_ && _); [|done]. f_equal. lia. }
  all: lia.
Qed.

Lemma unmap_loop_ok l1 virt : fits 32 virt -> forall n fuel o s, (n < fuel)%nat -> 0 <= o ->
  (o + Z.of_nat n) * SECTION_SIZE < 2 ^ 32 -> virt + (o + Z.of_nat n - 1) * SECTION_SIZE < 2 ^ 32 ->
  exists s', unmap_loop fuel l1 virt (o * SECTION_SIZE) ((o + Z.of_nat n) * SECTION_SIZE) s = Ret (tt, s') /\
    same_regs s s' /\ filled l1 (ram s) (virt / SECTION_SIZE + o) (Z.of_nat n) (fun _ => 0) (ram s').
Proof using.
  intros Hv. unfold SECTION_SIZE, fits in *.
  induction n as [|n IH]; intros fuel o s Hf Ho Hlim Hlv; (destruct fuel as [|fuel]; [lia|]); cbn [unmap_loop].
  { exists s. rewrite (proj2 (Z.ltb_ge _ _)) by lia. split; [done|]. split; [done|]. by apply filled_none. }
  rewrite (proj2 (Z.ltb_lt _ _)) by lia.
  erewrite stbind_step by (rewrite add_ok by (unfold fits, usize_bits; lia); done).
  do 2 erewrite stbind_step by done.
  erewrite stbind_step by (rewrite add_ok by (unfold fits, usize_bits, SECTION_SIZE; lia); done).
  replace (o * 0x100000 + SECTION_SIZE) with ((o + 1) * 0x100000) by (unfold SECTION_SIZE; lia).
  replace (o + Z.of_nat (S n)) with (o + 1 + Z.of_nat n) by lia.
  edestruct (IH fuel (o + 1)) as (s' & E & Hr & Hfl); cycle 4.
  { exists s'. split; [exact E|]. split; [done|].
    replace (Z.of_nat (S n)) with (Z.of_nat n + 1) by lia. apply filled_cons; [lia|unfold fits; lia|].
    cbn [ram] in Hfl. rewrite l1_index_eq in Hfl. unfold SECTION_SIZE in Hfl.
    rewrite Z.div_add in * by lia. intros i.
    replace (virt / 0x100000 + o + 1) with (virt / 0x100000 + (o + 1)) by lia. by rewrite Hfl. }
  all: lia.
Qed.

Lemma identity_translate l1 m k n mt d x m' va : 0 <= section_attrs mt AP_PRIV_RW d x < 2 ^ 20 ->
  Z.land (section_attrs mt AP_PRIV_RW d x) 3 = 2 -> 0 <= k -> (k + n) * SECTION_SIZE < 2 ^ 32 -> 0 <= va ->
  filled l1 m k n (fun j => section_entry ((k + j) * SECTION_SIZE) mt AP_PRIV_RW d x) m' ->
  translate m' l1 va = if (k <=? va / SECTION_SIZE) && (va / SECTION_SIZE <? k + n)
    then Some (va, section_attrs mt AP_PRIV_RW d x) else translate m l1 va.
Proof using.
  intros Ha H2 Hk Hlim Hva Hf. rewrite (translate_filled _ _ _ _ _ _ va Hf). unfold SECTION_SIZE in *.
  destruct (Z.leb_spec k (va / 0x100000)), (Z.ltb_spec (va / 0x100000) (k + n)); cbn [andb]; try done.
  replace (k + (va / 0x100000 - k)) with (va / 0x100000) by lia.
  destruct (section_entry_parts (va / 0x100000 * 0x100000) mt AP_PRIV_RW d x) as (_ & -> & Em & ->);
    [unfold fits; lia|done|done|].
  cbn zeta. rewrite Em. unfold SECTION_SIZE. rewrite Z.mod_mul by lia.
  pose proof (Z.div_mod va 0x100000). do 2 f_equal. lia.
Qed.

Lemma section_in_range base size n va : base <= va < base + size ->
  base + size <= n * SECTION_SIZE -> 0 <= base ->
  (base / SECTION_SIZE <=? va / SECTION_SIZE) && (va / SECTION_SIZE <? n) = true.
Proof using.
  unfold SECTION_SIZE. intros Hva Hn Hb. apply andb_true_iff. split.
  - apply Z.leb_le, Z.div_le_mono; lia.
  - apply Z.ltb_lt, Z.div_lt_upper_bound; lia.
Qed.

Lemma identity_map_ok l1 base size mt d x : 0 <= section_attrs mt AP_PRIV_RW d x < 2 ^ 20 ->
  Z.land (section_attrs mt AP_PRIV_RW d x) 3 = 2 -> fits 32 base -> 0 <= size ->
  base + size + SECTION_SIZE < 2 ^ 32 -> forall s,
  exists n s', identity_map l1 base size mt d x s = Ret (tt, s') /\
    base + size <= n * SECTION_SIZE < base + size + SECTION_SIZE /\
    forall va, 0 <= va -> translate (ram s') l1 va =
      if (base / SECTION_SIZE <=? va / SECTION_SIZE) && (va / SECTION_SIZE <? n)
      then Some (va, section_attrs mt AP_PRIV_RW d x) else translate (ram s) l1 va.
Proof using.
  intros Ha H2 Hb Hs Hlim s. unfold fits in Hb.
  destruct (round_up_ok (base + size)) as (n & En & Hn & Hsz); [lia|lia|].
  set (k := base / SECTION_SIZE). assert (Hk : 0 <= k) by (unfold k, SECTION_SIZE; apply Z.div_pos; lia).
  assert (Hkb : k * SECTION_SIZE <= base < (k + 1) * SECTION_SIZE).
  { unfold k, SECTION_SIZE. pose proof (Z.div_mod base 0x100000). pose proof (Z.mod_pos_bound base 0x100000). lia. }
  destruct (identity_loop_ok l1 mt d x Ha H2 (Z.to_nat (n - k)) section_fuel k (n * SECTION_SIZE) s)
    as (s' & E & _ & Hf); try (unfold section_fuel, SECTION_SIZE in *; lia).
  exists n, s'. split; [|split; [done|]].
  - unfold identity_map. rewrite mask_section by done. fold k.
    erewrite stbind_step by (rewrite add_ok by (unfold fits, usize_bits, SECTION_SIZE in *; lia); done).
    by erewrite stbind_step by (by rewrite En).
  - intros va Hva. rewrite (identity_translate l1 (ram s) k (Z.of_nat (Z.to_nat (n - k))) mt d x (ram s') va Ha H2 Hk)
      by (done || (unfold SECTION_SIZE in *; lia)).
    by replace (va / SECTION_SIZE <? k + Z.of_nat (Z.to_nat (n - k))) with (va / SECTION_SIZE <? n)
      by (unfold SECTION_SIZE in *; destruct (Z.ltb_spec (va / 0x100000) n),
            (Z.ltb_spec (va / 0x100000) (k + Z.of_nat (Z.to_nat (n - k)))); try done; lia).
Qed.

(** The section of the vectors, mapped to itself. *)
Lemma vector_translate m l1 vectors va : fits 32 vectors -> 0 <= va -> vectors + SECTION_SIZE < 2 ^ 32 ->
  translate (store32 m (l1 + 4 * l1_index (Z.land vectors SECTION_MASK))
    (section_entry (Z.land vectors SECTION_MASK) MEM_NORMAL_WRITEBACK AP_PRIV_RW DOMAIN_KERNEL true)) l1 va =
  if va / SECTION_SIZE =? vectors / SECTION_SIZE
  then Some (va, section_attrs MEM_NORMAL_WRITEBACK AP_PRIV_RW DOMAIN_KERNEL true) else translate m l1 va.
Proof using.
  intros Hv Hva Hlim. rewrite mask_section, l1_index_eq by done. unfold SECTION_SIZE, fits in *. rewrite Z.div_mul by lia.
  set (k := vectors / 0x100000). assert (Hk : 0 <= k) by (apply Z.div_pos; lia).
  assert (k * 0x100000 <= vectors) by (unfold k; pose proof (Z.div_mod vectors 0x100000);
    pose proof (Z.mod_pos_bound vectors 0x100000); lia).
  set (e := fun j => section_entry ((k + j) * SECTION_SIZE) MEM_NORMAL_WRITEBACK AP_PRIV_RW DOMAIN_KERNEL true).
  assert (E0 : section_entry (k * 0x100000) MEM_NORMAL_WRITEBACK AP_PRIV_RW DOMAIN_KERNEL true = e 0)
    by (unfold e; by rewrite Z.add_0_r).
  assert (Hf : filled l1 m k 1 e (store32 m (l1 + 4 * k) (e 0))).
  { apply (filled_cons l1 m _ k 0); [lia| |by apply filled_none]. rewrite <- E0.
    apply section_entry_parts; [unfold fits; lia|vm_compute; split; congruence|done]. }
  rewrite E0, (identity_translate l1 m k 1 MEM_NORMAL_WRITEBACK DOMAIN_KERNEL true _ va) by
    (assumption || (unfold SECTION_SIZE; lia) || reflexivity || (vm_compute; split; congruence)).
  unfold SECTION_SIZE. destruct (Z.leb_spec k (va / 0x100000)), (Z.ltb_spec (va / 0x100000) (k + 1)),
      (Z.eqb_spec (va / 0x100000) k); try done; lia.
Qed.

Lemma map_attrs_ok flags :
  0 <= section_attrs (mem_type_of flags) (ap_of flags) (domain_of flags) (contains flags MF_EXEC) < 2 ^ 20 /\
  Z.land (section_attrs (mem_type_of flags) (ap_of flags) (domain_of flags) (contains flags MF_EXEC)) 3 = 2.
Proof using.
  unfold mem_type_of, ap_of, domain_of.
  destruct (contains flags MF_USER), (contains flags MF_WRITE), (contains flags MF_DEVICE),
    (contains flags MF_CACHED), (contains flags MF_EXEC); vm_compute; repeat split; congruence.
Qed.
End Loops.

(** ** Theorems *)

Section Claims.
Context `{Profile}.

(** [map_region] writes one section descriptor per MiB of the size rounded
    up, starting at the section of [virt]: those sections translate to
    consecutive sections from the section of [phys] with the access the flags
    ask for, every other address translates as before. *)
Theorem arm_map_region_correct s virt phys size flags : fits 32 virt -> fits 32 phys -> 0 <= size ->
  virt + size < 2 ^ 32 -> phys + size < 2 ^ 32 -> size + SECTION_SIZE < 2 ^ 32 ->
  exists n s', map_region virt phys size flags s = Ret (tt, s') /\
    size <= n * SECTION_SIZE < size + SECTION_SIZE /\
    forall va, sees s' va =
      if (virt / SECTION_SIZE <=? va / SECTION_SIZE) && (va / SECTION_SIZE <? virt / SECTION_SIZE + n)
      then Some ((phys / SECTION_SIZE + (va / SECTION_SIZE - virt / SECTION_SIZE)) * SECTION_SIZE + va mod SECTION_SIZE,
        requested flags)
      else sees s va.
Proof using.
  intros Hv Hp Hs Hvs Hps Hlim. destruct (round_up_ok size Hs Hlim) as (n & Er & Hn & Hsz).
  destruct (map_attrs_ok flags) as [Ha H2].
  destruct (map_loop_ok (KERNEL_L1_TABLE_PHYS s) virt phys flags Ha H2 Hv Hp (Z.to_nat n) section_fuel 0 s)
    as (s' & E & Hr & Hf); rewrite ?Z.add_0_l, ?Z2Nat.id in * by lia; unfold section_fuel, SECTION_SIZE in *; try lia.
  eexists n, _. split; [|split; [done|]].
  - unfold map_region. erewrite stbind_step by done. erewrite stbind_step by (by rewrite Er).
    rewrite Z.mul_0_l in E. by erewrite stbind_step by exact E.
  - intros va. unfold sees. cbn [ram KERNEL_L1_TABLE_PHYS tlb]. rewrite (proj1 Hr).
    rewrite (translate_filled _ _ _ _ _ _ va Hf), Z.add_0_r. unfold SECTION_SIZE.
    destruct (Z.leb_spec (virt / 0x100000) (va / 0x100000)), (Z.ltb_spec (va / 0x100000) (virt / 0x100000 + n));
      cbn [andb]; try done. rewrite <- decode_section_attrs.
    set (j := va / 0x100000 - virt / 0x100000). rewrite Z.add_0_l.
    destruct (section_entry_parts (phys + j * 0x100000) (mem_type_of flags) (ap_of flags) (domain_of flags)
      (contains flags MF_EXEC)) as (_ & -> & Em & ->); [unfold fits in *; lia|done|done|].
    cbn zeta. rewrite Em. unfold SECTION_SIZE. rewrite Z.mod_add by lia.
    pose proof (Z.div_mod phys 0x100000). do 2 f_equal. lia.
Qed.

(** [unmap_region] removes the sections [map_region] of the same address
    and size would write, and no other. *)
Theorem arm_unmap_region_correct s virt size : fits 32 virt -> 0 <= size ->
  virt + size < 2 ^ 32 -> size + SECTION_SIZE < 2 ^ 32 ->
  exists n s', unmap_region virt size s = Ret (tt, s') /\ size <= n * SECTION_SIZE < size + SECTION_SIZE /\
    forall va, translate (ram s') (KERNEL_L1_TABLE_PHYS s) va =
      if (virt / SECTION_SIZE <=? va / SECTION_SIZE) && (va / SECTION_SIZE <? virt / SECTION_SIZE + n)
      then None else translate (ram s) (KERNEL_L1_TABLE_PHYS s) va.
Proof using.
  intros Hv Hs Hvs Hlim. destruct (round_up_ok size Hs Hlim) as (n & Er & Hn & Hsz).
  destruct (unmap_loop_ok (KERNEL_L1_TABLE_PHYS s) virt Hv (Z.to_nat n) section_fuel 0 s)
    as (s' & E & Hr & Hf); rewrite ?Z.add_0_l, ?Z2Nat.id in * by lia; unfold section_fuel, SECTION_SIZE in *; try lia.
  exists n, s'. split; [|split; [done|]].
  - unfold unmap_region. erewrite stbind_step by done. erewrite stbind_step by (by rewrite Er).
    rewrite Z.mul_0_l in E. exact E.
  - intros va. rewrite (translate_filled _ _ _ _ _ _ va Hf), Z.add_0_r. done.
Qed.

(** with a start that is not section-aligned the rounded size can stop
    short of the end: the last bytes of the region asked for stay unmapped
    if they were. *)
Theorem arm_map_region_misses_tail s virt phys size flags : fits 32 virt -> fits 32 phys -> 0 < size ->
  virt + size < 2 ^ 32 -> phys + size < 2 ^ 32 -> size + SECTION_SIZE < 2 ^ 32 -> (SECTION_SIZE | size) ->
  ~ (SECTION_SIZE | virt) ->
  let last := virt + size - 1 in translate (ram s) (KERNEL_L1_TABLE_PHYS s) last = None ->
  exists s', map_region virt phys size flags s = Ret (tt, s') /\
    translate (ram s') (KERNEL_L1_TABLE_PHYS s) last = None.
Proof using.
  intros Hv Hp Hs Hvs Hps Hlim [c Hc] Hnd last Hnone.
  destruct (round_up_ok size ltac:(lia) Hlim) as (n & Er & Hn & Hsz).
  destruct (map_attrs_ok flags) as [Ha H2].
  destruct (map_loop_ok (KERNEL_L1_TABLE_PHYS s) virt phys flags Ha H2 Hv Hp (Z.to_nat n) section_fuel 0 s)
    as (s' & E & Hr & Hf); rewrite ?Z.add_0_l, ?Z2Nat.id in * by lia; unfold section_fuel, SECTION_SIZE in *; try lia.
  eexists. split.
  - unfold map_region. erewrite stbind_step by done. erewrite stbind_step by (by rewrite Er).
    rewrite Z.mul_0_l in E. by erewrite stbind_step by exact E.
  - cbn [ram tlb]. rewrite (translate_filled _ _ _ _ _ _ last Hf), Z.add_0_r. unfold SECTION_SIZE.
    assert (last / 0x100000 >= virt / 0x100000 + n).
    { assert (n = c) as -> by lia. assert (virt mod 0x100000 <> 0).
      { intros ?. apply Hnd. apply Z.mod_divide; lia. }
      pose proof (Z.div_mod virt 0x100000). pose proof (Z.mod_pos_bound virt 0x100000).
      apply Z.le_ge, Z.div_le_lower_bound; unfold last; lia. }
    rewrite (proj2 (Z.ltb_ge (last / _) _)) by lia. by rewrite andb_false_r.
Qed.

(** C37: [init] makes every RAM address reach itself, as normal memory of
    domain 0, unless a peripheral shares its section; every peripheral
    address has an identity device mapping in domain 2, which the value
    written to DACR leaves closed, so no access to it succeeds. *)
Theorem arm_init_peripherals_closed s mm vectors l1 : fits 32 (ram_start mm) -> fits 32 (peripheral_base mm) ->
  fits 32 vectors -> vectors + SECTION_SIZE < 2 ^ 32 -> 0 <= ram_size mm -> 0 <= peripheral_size mm ->
  ram_start mm + ram_size mm + SECTION_SIZE < 2 ^ 32 ->
  peripheral_base mm + peripheral_size mm + SECTION_SIZE < 2 ^ 32 ->
  exists s', init mm vectors l1 s = Ret (tt, s') /\
    (forall va, ram_start mm <= va < ram_start mm + ram_size mm ->
       va < peripheral_base mm / SECTION_SIZE * SECTION_SIZE \/
       peripheral_base mm + peripheral_size mm + SECTION_SIZE <= va -> accessible s' l1 va = Some va) /\
    (forall va, peripheral_base mm <= va < peripheral_base mm + peripheral_size mm ->
       translate (ram s') l1 va = Some (va, section_attrs MEM_DEVICE AP_PRIV_RW DOMAIN_HW false) /\
       accessible s' l1 va = None).
Proof using.
  intros Hr Hp Hv Hvl Hrs Hps Hrl Hpl. unfold init.
  destruct (identity_map_ok l1 (ram_start mm) (ram_size mm) MEM_NORMAL_WRITEBACK DOMAIN_KERNEL true
    ltac:(vm_compute; split; congruence) eq_refl Hr Hrs Hrl s) as (nr & s1 & E1 & Hnr & T1).
  erewrite stbind_step by exact E1. erewrite stbind_step by done. set (s2 := mkArm _ _ _ _ _ _).
  destruct (identity_map_ok l1 (peripheral_base mm) (peripheral_size mm) MEM_DEVICE DOMAIN_HW false
    ltac:(vm_compute; split; congruence) eq_refl Hp Hps Hpl s2) as (np & s3 & E3 & Hnp & T3).
  erewrite stbind_step by exact E3. eexists. split; [done|]. set (s4 := mkArm _ _ _ _ _ _).
  assert (Hacc : forall v, accessible s4 l1 v = match translate (ram s3) l1 v with
    | Some (pa, a) => if domain_open 1 (domain_field a) then Some pa else None | None => None end) by done.
  split; intros va Hva; [intros Hout|].
  - rewrite Hacc, T3 by (unfold fits in *; lia). unfold fits, SECTION_SIZE in *.
    replace (_ && _) with false.
    2: { symmetry. apply andb_false_iff. pose proof (Z.div_mod va 0x100000). pose proof (Z.mod_pos_bound va 0x100000).
         destruct Hout; [left; apply Z.leb_gt|right; apply Z.ltb_ge]; lia. }
    cbn [ram s2]. rewrite vector_translate by (unfold fits, SECTION_SIZE in *; lia || done).
    destruct (_ =? _); [done|]. rewrite T1 by lia.
    by rewrite (section_in_range (ram_start mm) (ram_size mm)) by (unfold SECTION_SIZE; lia).
  - rewrite Hacc, !T3 by (unfold fits in *; lia).
    by rewrite (section_in_range (peripheral_base mm) (peripheral_size mm)) by (unfold fits in *; lia).
Qed.
End Claims.

(** ** Witnesses *)

Section Witnesses.
#[local] Instance debug_profile : Profile := Build_Profile true.

Definition demo_arm : arm := mkArm (fun _ => 0) 0x4000 0 0 0 [].
Definition demo_map : MemoryMap := mkMap 0 0x20000000 0x20000000 0x1000000.

Lemma arm_map_region_correct_witness : exists n s',
  map_region 0x40000000 0x20000000 5000 18 demo_arm = Ret (tt, s') /\
  5000 <= n * SECTION_SIZE < 5000 + SECTION_SIZE /\
  forall va, sees s' va =
    if (0x40000000 / SECTION_SIZE <=? va / SECTION_SIZE) && (va / SECTION_SIZE <? 0x40000000 / SECTION_SIZE + n)
    then Some ((0x20000000 / SECTION_SIZE + (va / SECTION_SIZE - 0x40000000 / SECTION_SIZE)) * SECTION_SIZE
                 + va mod SECTION_SIZE, mkAccess true false false false DeviceMemory DOMAIN_KERNEL)
    else sees demo_arm va.
Proof using. apply (arm_map_region_correct demo_arm); unfold fits, SECTION_SIZE; lia. Defined.

Lemma arm_unmap_region_correct_witness : exists n s',
  unmap_region 0x40000000 5000 demo_arm = Ret (tt, s') /\ 5000 <= n * SECTION_SIZE < 5000 + SECTION_SIZE /\
  forall va, translate (ram s') 0x4000 va =
    if (0x40000000 / SECTION_SIZE <=? va / SECTION_SIZE) && (va / SECTION_SIZE <? 0x40000000 / SECTION_SIZE + n)
    then None else translate (ram demo_arm) 0x4000 va.
Proof using. apply (arm_unmap_region_correct demo_arm); unfold fits, SECTION_SIZE; lia. Defined.

Lemma arm_map_region_misses_tail_witness : exists s',
  map_region 0x40080000 0x20080000 0x100000 18 demo_arm = Ret (tt, s') /\
  translate (ram s') 0x4000 (0x40080000 + 0x100000 - 1) = None.
Proof using.
  apply (arm_map_region_misses_tail demo_arm); try (unfold fits, SECTION_SIZE; lia); [by exists 1| |reflexivity].
  intros [q Hq]. unfold SECTION_SIZE in Hq. lia.
Defined.

Lemma arm_init_peripherals_closed_witness : exists s', init demo_map 0x8000 0x4000 demo_arm = Ret (tt, s') /\
  (forall va, 0 <= va < 0 + 0x20000000 ->
     va < 0x20000000 / SECTION_SIZE * SECTION_SIZE \/ 0x20000000 + 0x1000000 + SECTION_SIZE <= va ->
     accessible s' 0x4000 va = Some va) /\
  (forall va, 0x20000000 <= va < 0x20000000 + 0x1000000 ->
     translate (ram s') 0x4000 va = Some (va, section_attrs MEM_DEVICE AP_PRIV_RW DOMAIN_HW false) /\
     accessible s' 0x4000 va = None).
Proof using.
  apply (arm_init_peripherals_closed demo_arm demo_map); cbn; unfold fits, SECTION_SIZE; lia.
Defined.
End Witnesses.
