(* ===== verification/Sched.v ===== *)
(** * The scheduler (kernel/src/process/sched/scheduler.rs)

    Four run queues of process identifiers: a strict-priority realtime queue
    and three fair-share queues served from a cycle counter.  A [VecDeque] is a
    list whose head is the front. *)
From S2P Require Import Prelude.

(** ** Operations *)

Definition HIGH_QUANTA : Z := 3.
Definition MID_QUANTA : Z := 2.
Definition LOW_QUANTA : Z := 1.

Definition Pid : Type := Z.

Record SchedulerInner := mkSched {
  realtime_queue : list Pid;
  high_queue : list Pid;
  mid_queue : list Pid;
  low_queue : list Pid;
  schedule_cycle : Z;
  time_slice : Z;
}.

Inductive fair_queue := High | Mid | Low.

Definition queue_of (q : fair_queue) (s : SchedulerInner) : list Pid :=
  match q with High => high_queue s | Mid => mid_queue s | Low => low_queue s end.

Definition set_queue (q : fair_queue) (l : list Pid) (s : SchedulerInner) : SchedulerInner :=
  match q with
  | High => mkSched (realtime_queue s) l (mid_queue s) (low_queue s) (schedule_cycle s) (time_slice s)
  | Mid => mkSched (realtime_queue s) (high_queue s) l (low_queue s) (schedule_cycle s) (time_slice s)
  | Low => mkSched (realtime_queue s) (high_queue s) (mid_queue s) l (schedule_cycle s) (time_slice s)
  end.

Definition set_realtime (l : list Pid) (s : SchedulerInner) : SchedulerInner :=
  mkSched l (high_queue s) (mid_queue s) (low_queue s) (schedule_cycle s) (time_slice s).

Definition set_cycle (c : Z) (s : SchedulerInner) : SchedulerInner :=
  mkSched (realtime_queue s) (high_queue s) (mid_queue s) (low_queue s) c (time_slice s).

Definition pop_front (l : list Pid) : option Pid * list Pid :=
  match l with [] => (None, []) | a :: l => (Some a, l) end.

(** The chain of comparisons that picks a fair-share queue. *)
Definition pick (step : Z) : fair_queue :=
  if step <? HIGH_QUANTA then High
  else if step <? MID_QUANTA then Mid
  else Low.

Definition fallback (s : SchedulerInner) : option Pid := None.

Definition schedule `{Profile} : st SchedulerInner (option Pid) :=
  s ← get;
  match pop_front (realtime_queue s) with
  | (Some pid, l) => _ ← put (set_realtime l s); mret (Some pid)
  | (None, _) =>
      let step := schedule_cycle s mod (HIGH_QUANTA + MID_QUANTA + LOW_QUANTA) in
      let queue := pick step in
      cycle ← lift (add usize_bits (schedule_cycle s) 1);
      let s := set_cycle cycle s in
      let '(front, l) := pop_front (queue_of queue s) in
      _ ← put (set_queue queue l s);
      mret (match front with Some pid => Some pid | None => fallback s end)
  end.

(** [n] calls in a row and the processes they pick. *)
Fixpoint schedule_n `{Profile} (n : nat) : st SchedulerInner (list (option Pid)) :=
  match n with
  | O => mret []
  | S n => r ← schedule; rs ← schedule_n n; mret (r :: rs)
  end.

(** ** Lemmas *)

Section Sched.
Context `{Profile}.

Lemma pick_never_mid step : pick step <> Mid.
Proof using.
  unfold pick, HIGH_QUANTA, MID_QUANTA. destruct (Z.ltb_spec step 3); [done|].
  destruct (Z.ltb_spec step 2); [lia|done].
Qed.

Lemma schedule_fair s : realtime_queue s = [] -> fits 32 (schedule_cycle s + 1) ->
  let q := pick (schedule_cycle s mod 6) in
  schedule s = Ret (head (queue_of q s),
    set_queue q (tail (queue_of q s)) (set_cycle (schedule_cycle s + 1) s)).
Proof using.
  intros Hr Hc q. unfold schedule. erewrite stbind_step by done. rewrite Hr. cbn [pop_front].
  erewrite stbind_step by (by rewrite add_ok).
  change (HIGH_QUANTA + MID_QUANTA + LOW_QUANTA) with 6. fold q.
  replace (queue_of q (set_cycle (schedule_cycle s + 1) s)) with (queue_of q s) by (by destruct q).
  by destruct (queue_of q s).
Qed.

Lemma schedule_keeps_mid s r s' : schedule s = Ret (r, s') -> mid_queue s' = mid_queue s.
Proof using.
  unfold schedule. intros E. apply stbind_Ret in E as (s0 & s1 & [= <- <-] & E).
  destruct (pop_front (realtime_queue s)) as [[pid|] l].
  { apply stbind_Ret in E as ([] & s2 & [= <-] & [= <- <-]). done. }
  apply stbind_Ret in E as (c & s2 & [_ ->]%lift_Ret & E).
  pose proof (pick_never_mid (schedule_cycle s mod (HIGH_QUANTA + MID_QUANTA + LOW_QUANTA))) as Hn.
  destruct (pick _); [|done|]; destruct (pop_front _) as [f l'];
    apply stbind_Ret in E as ([] & s3 & [= <-] & [= <- <-]); done.
Qed.

Lemma schedule_n_keeps_mid n : forall s rs s', schedule_n n s = Ret (rs, s') ->
  mid_queue s' = mid_queue s.
Proof using.
  induction n as [|n IH]; intros s rs s'; [by intros [= <- <-]|].
  intros (r & s1 & E & (rs' & s2 & E2 & [= <- <-])%stbind_Ret)%stbind_Ret.
  apply IH in E2. apply schedule_keeps_mid in E. congruence.
Qed.

Lemma schedule_n_S n s r s1 rs s2 : schedule s = Ret (r, s1) -> schedule_n n s1 = Ret (rs, s2) ->
  schedule_n (S n) s = Ret (r :: rs, s2).
Proof using. intros E1 E2. cbn. erewrite stbind_step by exact E1. by erewrite stbind_step by exact E2. Qed.
End Sched.

(** ** Theorems *)

Section Claims.
Context `{Profile}.

(** while a realtime process waits it is picked, in arrival order, before
    any other and without advancing the fair-share cycle. *)
Theorem schedule_realtime_first s pids rest : realtime_queue s = pids ++ rest ->
  schedule_n (length pids) s = Ret (map Some pids, set_realtime rest s).
Proof using.
  revert s. induction pids as [|pid pids IH]; intros s Hr.
  { simpl in *. rewrite <- Hr. by destruct s. }
  cbn [length schedule_n map]. erewrite stbind_step.
  2: { unfold schedule. erewrite stbind_step by done. rewrite Hr. done. }
  erewrite stbind_step by (by apply IH). done.
Qed.

(** with no realtime process, six calls from the start of a cycle serve
    the high queue three times and then the low queue three times: the mid
    queue has no share, and a step whose queue is empty picks nobody. *)
Theorem schedule_cycle_of_six s h0 h1 h2 hs l0 l1 l2 ls : realtime_queue s = [] ->
  schedule_cycle s mod 6 = 0 -> 0 <= schedule_cycle s -> schedule_cycle s + 6 < 2 ^ 32 ->
  high_queue s = h0 :: h1 :: h2 :: hs -> low_queue s = l0 :: l1 :: l2 :: ls ->
  schedule_n 6 s = Ret ([Some h0; Some h1; Some h2; Some l0; Some l1; Some l2],
    mkSched [] hs (mid_queue s) ls (schedule_cycle s + 6) (time_slice s)).
Proof using.
  intros Hr Hm H0 H6 Hh Hl. destruct s as [r h m l c t].
  cbn [realtime_queue high_queue mid_queue low_queue schedule_cycle time_slice] in *. subst.
  assert (Hk : forall k, 0 <= k < 6 -> (c + k) mod 6 = k).
  { intros k Hk. rewrite <- Zplus_mod_idemp_l, Hm. apply Z.mod_small. lia. }
  assert (Hstep : forall k h m l, 0 <= k < 6 ->
    schedule (mkSched [] h m l (c + k) t) =
    let q := pick k in let s := mkSched [] h m l (c + k) t in
    Ret (head (queue_of q s), set_queue q (tail (queue_of q s)) (set_cycle (c + (k + 1)) s))).
  { intros k h m' l Hk'. rewrite schedule_fair by (done || (unfold fits; cbn; lia)). cbn [schedule_cycle].
    rewrite Hk by done. by replace (c + k + 1) with (c + (k + 1)) by lia. }
  replace c with (c + 0) at 1 by lia.
  eapply schedule_n_S; [apply (Hstep 0); lia|]. eapply schedule_n_S; [apply (Hstep 1); lia|].
  eapply schedule_n_S; [apply (Hstep 2); lia|]. eapply schedule_n_S; [apply (Hstep 3); lia|].
  eapply schedule_n_S; [apply (Hstep 4); lia|]. eapply schedule_n_S; [apply (Hstep 5); lia|]. done.
Qed.

(** no sequence of calls ever takes a process from the mid queue. *)
Theorem schedule_starves_mid n s rs s' : schedule_n n s = Ret (rs, s') ->
  mid_queue s' = mid_queue s.
Proof using. apply schedule_n_keeps_mid. Qed.
End Claims.

(** ** Witnesses *)

Section Witnesses.
#[local] Instance debug_profile : Profile := Build_Profile true.

Definition demo_sched : SchedulerInner := mkSched [9] [1; 2; 3] [7; 8] [4; 5; 6] 0 10.

Lemma schedule_realtime_first_witness : schedule_n 1 demo_sched = Ret ([Some 9], set_realtime [] demo_sched).
Proof using. by apply (schedule_realtime_first demo_sched [9] []). Defined.

Lemma schedule_cycle_of_six_witness :
  schedule_n 6 (set_realtime [] demo_sched) =
    Ret ([Some 1; Some 2; Some 3; Some 4; Some 5; Some 6], mkSched [] [] [7; 8] [] 6 10).
Proof using. apply (schedule_cycle_of_six (set_realtime [] demo_sched)); (done || (cbn; lia)). Defined.

Lemma schedule_starves_mid_witness : exists rs s', schedule_n 20 demo_sched = Ret (rs, s') /\
  mid_queue s' = [7; 8].
Proof using.
  eexists _, _. split; [vm_compute; reflexivity|].
  eapply (schedule_starves_mid 20 demo_sched). vm_compute. reflexivity.
Defined.
End Witnesses.
