(* ===== verification/Lock.v ===== *)
(** * The interrupt-safe mutex (common/src/sync/irq_mutex.rs)

    [IrqMutex] saves and masks the CPU's interrupt flag, then takes a
    [spin::Mutex]; its guard releases the lock and restores the flag on drop.
    [spin] is an external crate: it enters as the class [SpinMutex] with the
    documented behaviour of its operations.  The [IrqControl] implementations
    (kernel/src/arch/{x86,arm}/interrupt/mod.rs) are the same on both targets:
    the saved state says whether interrupts were on, and [restore] turns them
    back on only in that case. *)
From S2P Require Import Prelude.

(** ** The lock of the [spin] crate *)

Class SpinMutex (L : Type) := {
  spin_try_lock : L -> option L;
  spin_unlock : L -> L;
  is_locked : L -> bool;
}.

Class SpinMutexLaws (L : Type) `{SpinMutex L} := {
  try_lock_free l : is_locked l = false ->
    exists l', spin_try_lock l = Some l' /\ is_locked l' = true;
  try_lock_held l : is_locked l = true -> spin_try_lock l = None;
  unlock_frees l : is_locked (spin_unlock l) = false;
}.

(** The flag the crate documents. *)
#[export] Instance flag_mutex : SpinMutex bool := {
  spin_try_lock l := if l then None else Some true;
  spin_unlock _ := false;
  is_locked l := l;
}.

#[export] Instance flag_mutex_laws : SpinMutexLaws bool.
Proof. split; [intros []; naive_solver|intros []; naive_solver|done]. Qed.

(** ** Operations *)

Section Operations.
Context {L : Type} `{SpinMutex L}.

(** The CPU's interrupt flag and the lock. *)
Record lock_state := mkLock { irq_on : bool; inner : L }.

Definition save_and_disable : st lock_state bool := fun s =>
  Ret (irq_on s, mkLock false (inner s)).

Definition restore (state : bool) : st lock_state unit := fun s =>
  Ret (tt, if state then mkLock true (inner s) else s).

(** [spin::Mutex::lock]: try until it succeeds. *)
Fixpoint spin_lock (fuel : nat) : st lock_state unit := fun s =>
  match fuel with
  | O => OutOfFuel
  | S fuel =>
      match spin_try_lock (inner s) with
      | Some l => Ret (tt, mkLock (irq_on s) l)
      | None => spin_lock fuel s
      end
  end.

(** [IrqMutex::lock]; the guard is the saved interrupt state. *)
Definition lock (fuel : nat) : st lock_state bool :=
  irq_state ← save_and_disable;
  _ ← spin_lock fuel;
  mret irq_state.

(** [IrqMutex::try_lock]. *)
Definition try_lock : st lock_state (option bool) :=
  irq_state ← save_and_disable;
  s ← get;
  match spin_try_lock (inner s) with
  | Some l => _ ← put (mkLock (irq_on s) l); mret (Some irq_state)
  | None => _ ← restore irq_state; mret None
  end.

Inductive action := DropGuard | RestoreIrq (state : bool).

Definition run_action (a : action) : st lock_state unit := fun s =>
  match a with
  | DropGuard => Ret (tt, mkLock (irq_on s) (spin_unlock (inner s)))
  | RestoreIrq state => restore state s
  end.

(** Dropping an [IrqMutexGuard]: the body of [drop] drops [self.guard] in
    place and restores the interrupts, and the fields of the struct, [guard]
    among them, are dropped when the body returns. *)
Definition guard_drop_actions (irq_state : bool) : list action :=
  [DropGuard; RestoreIrq irq_state; DropGuard].

Fixpoint run_actions (l : list action) : st lock_state unit :=
  match l with
  | [] => mret tt
  | a :: l => _ ← run_action a; run_actions l
  end.

Definition guard_drop (irq_state : bool) : st lock_state unit :=
  run_actions (guard_drop_actions irq_state).

(** *** Two contexts sharing the lock

    They share the interrupt flag too, and either may step while the other is
    inside, whatever the flag: on one processor that needs interrupts turned on
    again while a guard is held. *)

(** A context is outside, inside with a guard, or part way through a drop. *)
Inductive context := Outside | Inside (irq_state : bool) | Dropping (todo : list action).

Record world := mkWorld { lk : lock_state; ctx0 : context; ctx1 : context }.

Definition ctx_of (w : world) (i : bool) : context := if i then ctx1 w else ctx0 w.
Definition set_ctx (w : world) (i : bool) (s : lock_state) (c : context) : world :=
  if i then mkWorld s (ctx0 w) c else mkWorld s c (ctx1 w).

(** One atomic step of context [i]. *)
Inductive world_step (i : bool) : world -> world -> Prop :=
  | enter w irq s : ctx_of w i = Outside -> try_lock (lk w) = Ret (Some irq, s) ->
      world_step i w (set_ctx w i s (Inside irq))
  | leave w irq : ctx_of w i = Inside irq ->
      world_step i w (set_ctx w i (lk w) (Dropping (guard_drop_actions irq)))
  | drop_step w a todo s : ctx_of w i = Dropping (a :: todo) ->
      run_action a (lk w) = Ret (tt, s) -> world_step i w (set_ctx w i s (Dropping todo))
  | drop_done w : ctx_of w i = Dropping [] -> world_step i w (set_ctx w i (lk w) Outside).

Definition world_any (w w' : world) : Prop := exists i, world_step i w w'.

Definition initial (l : L) : world := mkWorld (mkLock true l) Outside Outside.
End Operations.
Arguments lock_state : clear implicits.
Arguments world : clear implicits.

(** ** Lemmas *)

Section Laws.
Context {L : Type} `{SpinMutexLaws L}.

Lemma try_lock_ok s : is_locked (inner s) = false ->
  exists l, is_locked l = true /\ try_lock s = Ret (Some (irq_on s), mkLock false l).
Proof using All.
  intros Hf. destruct (try_lock_free _ Hf) as (l & E & Hl). exists l. split; [done|].
  unfold try_lock. erewrite stbind_step by done. erewrite stbind_step by done. cbn. by rewrite E.
Qed.

Lemma guard_drop_eq (irq_state : bool) s : guard_drop irq_state s =
  Ret (tt, mkLock (irq_state || irq_on s) (spin_unlock (spin_unlock (inner s)))).
Proof using All. by destruct irq_state. Qed.

Lemma spin_lock_held fuel s : is_locked (inner s) = true -> spin_lock fuel s = OutOfFuel.
Proof using All.
  intros Hh. induction fuel as [|fuel IH]; [done|]. cbn. by rewrite (try_lock_held _ Hh).
Qed.

Lemma world_step_any i w w' : world_step i w w' -> world_any w w'.
Proof using. by exists i. Qed.

(** The three steps of an uninterrupted drop. *)
Lemma enter_free w i : ctx_of w i = Outside -> is_locked (inner (lk w)) = false ->
  exists l, is_locked l = true /\
    world_any w (set_ctx w i (mkLock false l) (Inside (irq_on (lk w)))).
Proof using All.
  intros Hc Hf. destruct (try_lock_ok _ Hf) as (l & Hl & E). exists l. split; [done|].
  eapply world_step_any. by apply (enter i w (irq_on (lk w)) (mkLock false l)).
Qed.
End Laws.

(** ** Theorems *)

Section Claims.
Context {L : Type} `{SpinMutexLaws L}.

(** C34: on a free lock, [lock] and [try_lock] succeed with interrupts masked,
    and dropping the guard frees the lock and restores the interrupt flag of
    before; on a held lock [try_lock] fails and leaves the flag as it was,
    and [lock] spins for ever: the mutex is not reentrant. *)
Theorem irq_mutex_correct s :
  (is_locked (inner s) = false -> exists g s1 s2,
     lock 1 s = Ret (g, s1) /\ try_lock s = Ret (Some g, s1) /\ irq_on s1 = false /\
     is_locked (inner s1) = true /\ guard_drop g s1 = Ret (tt, s2) /\
     irq_on s2 = irq_on s /\ is_locked (inner s2) = false) /\
  (is_locked (inner s) = true ->
     try_lock s = Ret (None, s) /\ forall fuel, lock fuel s = OutOfFuel).
Proof using All.
  split; intros Hs.
  - destruct (try_lock_ok s Hs) as (l & Hl & E). destruct (try_lock_free _ Hs) as (l' & E' & _).
    exists (irq_on s), (mkLock false l). eexists. split; [|split; [done|split; [done|split; [done|]]]].
    + unfold try_lock in E. unfold lock. unfold mbind, st_bind in *. cbn in *. rewrite E' in *.
      cbn in *. by injection E as ->.
    + rewrite guard_drop_eq. split; [done|]. cbn. rewrite orb_false_r. split; [done|]. apply unlock_frees.
  - split.
    + unfold try_lock. unfold mbind, st_bind. cbn. rewrite (try_lock_held _ Hs). cbn.
      destruct s as [[] l]; done.
    + intros fuel. unfold lock. unfold mbind, st_bind. cbn. by rewrite spin_lock_held.
Qed.

(** C35: dropping a guard releases the lock twice, with the interrupts restored
    in between: from a free lock two contexts reach their critical sections
    at the same time. *)
Theorem irq_guard_double_release l : is_locked l = false ->
  exists w irq0 irq1, rtc world_any (initial l) w /\ ctx0 w = Inside irq0 /\ ctx1 w = Inside irq1.
Proof using All.
  intros Hl. unfold initial.
  destruct (enter_free (mkWorld (mkLock true l) Outside Outside) false) as (l1 & H1 & S1); [done|done|].
  set (u := spin_unlock l1). assert (Hu : is_locked u = false) by apply unlock_frees.
  destruct (enter_free (mkWorld (mkLock true u) (Dropping [DropGuard]) Outside) true) as (l2 & H2 & S2);
    [done|done|].
  set (v := spin_unlock l2). assert (Hv : is_locked v = false) by apply unlock_frees.
  destruct (enter_free (mkWorld (mkLock false v) Outside (Inside true)) false) as (l3 & H3 & S3);
    [done|done|].
  cbn in S1, S2, S3. exists (mkWorld (mkLock false l3) (Inside false) (Inside true)), false, true.
  split; [|done].
  eapply rtc_l; [exact S1|]. eapply rtc_l; [eapply (world_step_any false), leave; reflexivity|].
  eapply rtc_l; [eapply (world_step_any false), drop_step; reflexivity|].
  eapply rtc_l; [eapply (world_step_any false), drop_step; reflexivity|].
  eapply rtc_l; [exact S2|]. eapply rtc_l; [eapply (world_step_any false), drop_step; reflexivity|].
  eapply rtc_l; [eapply (world_step_any false), drop_done; reflexivity|].
  apply rtc_once. exact S3.
Qed.
End Claims.

(** ** Witnesses *)

Lemma irq_mutex_correct_witness : exists g s1 s2,
  lock 1 (mkLock true false) = Ret (g, s1) /\ try_lock (mkLock true false) = Ret (Some g, s1) /\
  irq_on s1 = false /\ is_locked (inner s1) = true /\ guard_drop g s1 = Ret (tt, s2) /\
  irq_on s2 = irq_on (mkLock true false) /\ is_locked (inner s2) = false.
Proof. by apply (irq_mutex_correct (mkLock true false)). Defined.

Lemma irq_guard_double_release_witness : exists (w : world bool) irq0 irq1,
  rtc world_any (initial false) w /\ ctx0 w = Inside irq0 /\ ctx1 w = Inside irq1.
Proof. by apply irq_guard_double_release. Defined.
