(* ===== verification/Cpu.v ===== *)
(** * The processor: interrupt flag, cycle counter and contexts

    [IrqControl] (common/src/sync/irq.rs) and its two implementations
    (kernel/src/arch/{arm,x86}/interrupt/mod.rs) over the status registers,
    x86's [delay_cycles] (kernel/src/arch/x86/time.rs), and the register
    contexts (kernel/src/arch/arm/context/mod.rs).  The instructions in the
    assembly blocks ([mrs], [cpsid], [cpsie], [pushf], [cli], [sti]) are the
    register updates the processors' manuals give. *)
From S2P Require Import Prelude Lock.

(** ** The interface *)

Class IrqControl (S : Type) := {
  ic_save_and_disable : st S bool;
  ic_restore : bool -> st S unit;
  ic_disable : st S unit;
  ic_enable : st S unit;
}.

(** What its users rely on: a flag that the operations change, and nothing
    else ([rest]). *)
Class IrqControlLaws (S : Type) `{IrqControl S} := {
  irq_flag : S -> bool;
  rest : S -> Z;
  save_law s : exists s', ic_save_and_disable s = Ret (irq_flag s, s') /\ irq_flag s' = false /\ rest s' = rest s;
  restore_law b s : exists s', ic_restore b s = Ret (tt, s') /\ irq_flag s' = (b || irq_flag s) /\ rest s' = rest s;
  disable_law s : exists s', ic_disable s = Ret (tt, s') /\ irq_flag s' = false /\ rest s' = rest s;
  enable_law s : exists s', ic_enable s = Ret (tt, s') /\ irq_flag s' = true /\ rest s' = rest s;
}.

(** ** ARM: the I bit of CPSR masks interrupts *)

Record arm_cpu := mkArmCpu { cpsr : Z }.

Definition CPSR_I_BIT : Z := Z.shiftl 1 7.

Definition cpsid_i : st arm_cpu unit := modify (fun c => mkArmCpu (Z.lor (cpsr c) CPSR_I_BIT)).
Definition cpsie_i : st arm_cpu unit := modify (fun c => mkArmCpu (Z.land (cpsr c) (lnot 32 CPSR_I_BIT))).

Definition arm_save_and_disable : st arm_cpu bool :=
  cpsr ← gets cpsr;
  _ ← cpsid_i;
  mret (Z.land cpsr CPSR_I_BIT =? 0).

Definition arm_restore (state : bool) : st arm_cpu unit := if state then cpsie_i else mret tt.

#[export] Instance arm_irq : IrqControl arm_cpu := {
  ic_save_and_disable := arm_save_and_disable; ic_restore := arm_restore;
  ic_disable := cpsid_i; ic_enable := cpsie_i;
}.

(** ** x86: IF lets interrupts in *)

Record x86_cpu := mkX86Cpu { eflags : Z }.

Definition IF_BIT : Z := Z.shiftl 1 9.

Definition cli : st x86_cpu unit := modify (fun c => mkX86Cpu (Z.land (eflags c) (lnot 32 IF_BIT))).
Definition sti : st x86_cpu unit := modify (fun c => mkX86Cpu (Z.lor (eflags c) IF_BIT)).

(** [pushf] and [pop] of a 16-bit register give the low half of the flags. *)
Definition x86_save_and_disable : st x86_cpu bool :=
  flags ← gets eflags;
  let state := wrap 16 flags in
  _ ← cli;
  mret (negb (Z.land state IF_BIT =? 0)).

Definition x86_restore (state : bool) : st x86_cpu unit := if state then sti else mret tt.

#[export] Instance x86_irq : IrqControl x86_cpu := {
  ic_save_and_disable := x86_save_and_disable; ic_restore := x86_restore;
  ic_disable := cli; ic_enable := sti;
}.

(** ** Critical sections *)

Section Sections.
Context {S : Type} `{IrqControl S}.

(** [let state = save_and_disable(); body; restore(state)]. *)
Definition without_interrupts {A} (body : st S A) : st S A :=
  state ← ic_save_and_disable;
  a ← body;
  _ ← ic_restore state;
  mret a.
End Sections.

(** ** x86's cycle counter *)

Class CycleCounter (C : Type) := { rdtsc : st C Z }.

Section Delay.
Context `{Profile} {C : Type} `{CycleCounter C}.

(** [while rdtsc() - start < cycles]. *)
Fixpoint delay_loop (fuel : nat) (start cycles : Z) : st C unit :=
  match fuel with
  | O => out_of_fuel
  | S fuel =>
      now ← rdtsc;
      passed ← lift (sub 64 now start);
      if passed <? cycles then delay_loop fuel start cycles else mret tt
  end.

Definition delay_cycles (fuel : nat) (cycles : Z) : st C unit :=
  start ← rdtsc;
  delay_loop fuel start cycles.
End Delay.

(** ** ARM's register context *)

Record Context_ := mkContext {
  r0 : Z; r1 : Z; r2 : Z; r3 : Z; r4 : Z; r5 : Z; r6 : Z; r7 : Z; r8 : Z; r9 : Z; r10 : Z; r11 : Z; r12 : Z;
  sp : Z; lr : Z; pc : Z; context_cpsr : Z;
}.

Definition context_new : Context_ := mkContext 0 0 0 0 0 0 0 0 0 0 0 0 0 0 0 0 0x10.

(** The mode field of a status word, and whether it is an unprivileged mode. *)
Definition mode_of (psr : Z) : Z := Z.land psr 0x1f.
Definition MODE_USER : Z := 0x10.

(** The other bits of a status word. *)
Definition other_bits (k v : Z) : Z := Z.land v (lnot 32 (Z.shiftl 1 k)).

(** ** Lemmas *)

Lemma flag_fits k : 0 <= k < 32 -> fits 32 (Z.shiftl 1 k).
Proof.
  intros Hk. rewrite Z.shiftl_1_l. split; [apply Z.pow_nonneg; lia|]. apply Z.pow_lt_mono_r; lia.
Qed.

Lemma flag_set v k : 0 <= k < 32 -> Z.testbit (Z.lor v (Z.shiftl 1 k)) k = true /\ other_bits k (Z.lor v (Z.shiftl 1 k)) = other_bits k v.
Proof.
  intros Hk. pose proof (flag_fits k Hk). unfold other_bits. split.
  - rewrite Z.lor_spec, Z.shiftl_1_l, Z.pow2_bits_true by lia. apply orb_true_r.
  - apply Z.bits_inj'. intros i Hi. rewrite !Z.land_spec, Z.lor_spec, lnot_testbit by done.
    destruct (Z.testbit (Z.shiftl 1 k) i); cbn [negb]; rewrite ?andb_false_r, ?orb_false_r; done.
Qed.

Lemma flag_clear v k : 0 <= k < 32 -> Z.testbit (Z.land v (lnot 32 (Z.shiftl 1 k))) k = false /\
  other_bits k (Z.land v (lnot 32 (Z.shiftl 1 k))) = other_bits k v.
Proof.
  intros Hk. pose proof (flag_fits k Hk). unfold other_bits. split.
  - rewrite Z.land_spec, lnot_testbit by (done || lia). rewrite Z.shiftl_1_l, Z.pow2_bits_true by lia.
    cbn [negb]. by rewrite !andb_false_r.
  - by rewrite <- Z.land_assoc, Z.land_diag.
Qed.

Lemma flag_test v k : 0 <= k -> (Z.land v (Z.shiftl 1 k) =? 0) = negb (Z.testbit v k).
Proof. intros Hk. rewrite Z.shiftl_1_l. by apply land_bit. Qed.

(** ** The implementations keep the interface's promises *)

#[export] Instance arm_irq_laws : IrqControlLaws arm_cpu.
Proof.
  refine {| irq_flag := fun c => negb (Z.testbit (cpsr c) 7); rest := fun c => other_bits 7 (cpsr c) |}.
  - intros [v]. destruct (flag_set v 7 ltac:(lia)) as [Hb Ho]. exists (mkArmCpu (Z.lor v CPSR_I_BIT)).
    split; [|split; [by apply negb_false_iff|exact Ho]].
    change (ic_save_and_disable (mkArmCpu v))
      with (Ret (Z.land v (Z.shiftl 1 7) =? 0, mkArmCpu (Z.lor v CPSR_I_BIT)) : outcome (bool * arm_cpu)).
    by rewrite flag_test by lia.
  - intros [] [v]; [|by exists (mkArmCpu v)]. destruct (flag_clear v 7 ltac:(lia)) as [Hb Ho].
    exists (mkArmCpu (Z.land v (lnot 32 CPSR_I_BIT))). split; [done|]. split; [by apply negb_true_iff|exact Ho].
  - intros [v]. destruct (flag_set v 7 ltac:(lia)) as [Hb Ho]. exists (mkArmCpu (Z.lor v CPSR_I_BIT)).
    split; [done|]. split; [by apply negb_false_iff|exact Ho].
  - intros [v]. destruct (flag_clear v 7 ltac:(lia)) as [Hb Ho]. exists (mkArmCpu (Z.land v (lnot 32 CPSR_I_BIT))).
    split; [done|]. split; [by apply negb_true_iff|exact Ho].
Defined.

#[export] Instance x86_irq_laws : IrqControlLaws x86_cpu.
Proof.
  refine {| irq_flag := fun c => Z.testbit (eflags c) 9; rest := fun c => other_bits 9 (eflags c) |}.
  - intros [v]. destruct (flag_clear v 9 ltac:(lia)) as [Hb Ho]. exists (mkX86Cpu (Z.land v (lnot 32 IF_BIT))).
    split; [|split; [exact Hb|exact Ho]].
    change (ic_save_and_disable (mkX86Cpu v)) with
      (Ret (negb (Z.land (wrap 16 v) (Z.shiftl 1 9) =? 0), mkX86Cpu (Z.land v (lnot 32 IF_BIT))) : outcome (bool * x86_cpu)).
    rewrite flag_test by lia. unfold wrap. rewrite Z.mod_pow2_bits_low by lia.
    by rewrite negb_involutive.
  - intros [] [v]; [|by exists (mkX86Cpu v)]. destruct (flag_set v 9 ltac:(lia)) as [Hb Ho].
    exists (mkX86Cpu (Z.lor v IF_BIT)). split; [done|]. by split.
  - intros [v]. destruct (flag_clear v 9 ltac:(lia)) as [Hb Ho]. exists (mkX86Cpu (Z.land v (lnot 32 IF_BIT))). split; [done|]. by split.
  - intros [v]. destruct (flag_set v 9 ltac:(lia)) as [Hb Ho]. exists (mkX86Cpu (Z.lor v IF_BIT)). split; [done|]. by split.
Defined.

(** ** Theorems *)

Section Claims.
Context {S : Type} `{IrqControlLaws S}.

(** A critical section over either processor runs its body with interrupts
    off and gives the flag back as it was, also inside another section, and no
    other bit of the status word changes. *)
Theorem critical_section {A} (body : st S A) s a :
  (forall s1, irq_flag s1 = false -> rest s1 = rest s -> exists s2,
     body s1 = Ret (a, s2) /\ irq_flag s2 = false /\ rest s2 = rest s1) ->
  exists s', without_interrupts body s = Ret (a, s') /\ irq_flag s' = irq_flag s /\ rest s' = rest s.
Proof.
  intros Hbody. destruct (save_law s) as (s1 & E1 & F1 & R1). destruct (Hbody s1 F1 R1) as (s2 & E2 & F2 & R2).
  destruct (restore_law (irq_flag s) s2) as (s3 & E3 & F3 & R3). exists s3. split_and!; [|by rewrite F3, F2, orb_false_r|congruence].
  unfold without_interrupts. erewrite stbind_step by exact E1. erewrite stbind_step by exact E2. by erewrite stbind_step by exact E3.
Qed.

(** The flag the mutex saves and restores is the processor's. *)
Theorem lock_flag_is_cpu_flag {L : Type} (l : L) s : exists s1,
  ic_save_and_disable s = Ret (irq_flag s, s1) /\
  save_and_disable (mkLock (irq_flag s) l) = Ret (irq_flag s, mkLock (irq_flag s1) l) /\
  forall b, exists s2, ic_restore b s1 = Ret (tt, s2) /\
    restore b (mkLock (irq_flag s1) l) = Ret (tt, mkLock (irq_flag s2) l).
Proof.
  destruct (save_law s) as (s1 & E1 & F1 & _). exists s1. split; [exact E1|]. split; [by rewrite F1|].
  intros b. destruct (restore_law b s1) as (s2 & E2 & F2 & _). exists s2. split; [exact E2|].
  rewrite F2, F1, orb_false_r. by destruct b.
Qed.
End Claims.

(** A counter that goes on with every reading, by at most [max_step]. *)
Class CounterLaws (C : Type) `{CycleCounter C} := {
  count : C -> Z;
  max_step : Z;
  count_nonneg c : 0 <= count c;
  rdtsc_law c : exists c', rdtsc c = Ret (wrap 64 (count c), c') /\ count c < count c' <= count c + max_step;
}.

#[export] Instance tick_counter : CycleCounter N := { rdtsc n := Ret (wrap 64 (Z.of_N n), (n + 1)%N) }.
#[export] Instance tick_laws : CounterLaws N.
Proof.
  refine {| count := Z.of_N; max_step := 1 |}; [lia|]. intros n. exists (n + 1)%N. split; [done|lia].
Defined.

Lemma delay_loop_ok `{Profile} `{CounterLaws C} cycles start : 0 <= cycles -> 0 <= start ->
  start + cycles + max_step < 2 ^ 64 -> forall fuel c, start <= count c <= start + cycles + max_step ->
  start + cycles - count c < Z.of_nat fuel -> 0 < Z.of_nat fuel ->
  exists c', delay_loop fuel start cycles c = Ret (tt, c') /\ start + cycles < count c'.
Proof.
  intros Hc Hs H64. induction fuel as [|fuel IH]; intros c Hb Hf Hf0; cbn [delay_loop]; [lia|].
  destruct (rdtsc_law c) as (c1 & E1 & Hstep). erewrite stbind_step by exact E1.
  replace (wrap 64 (count c)) with (count c) by (symmetry; apply Z.mod_small; lia).
  erewrite stbind_step by (by rewrite sub_ok by (unfold fits in *; lia)).
  destruct (Z.ltb_spec (count c - start) cycles); [apply IH; lia|]. exists c1. split; [done|lia].
Qed.

(** A delay ends, after at least the cycles asked for, when the counter does
    not wrap around on the way. *)
Theorem delay_cycles_waits `{Profile} `{CounterLaws C} cycles c fuel : 0 <= cycles < Z.of_nat fuel ->
  count c + cycles + max_step < 2 ^ 64 -> exists c',
  delay_cycles fuel cycles c = Ret (tt, c') /\ count c + cycles < count c'.
Proof.
  intros Hc H64. destruct (rdtsc_law c) as (c1 & E1 & Hstep). pose proof (count_nonneg c).
  destruct (delay_loop_ok cycles (count c)) with (fuel := fuel) (c := c1) as (c2 & E2 & Hcount); try lia.
  exists c2. split; [|lia]. unfold delay_cycles. erewrite stbind_step by exact E1.
  by replace (wrap 64 (count c)) with (count c) by (symmetry; apply Z.mod_small; lia).
Qed.

(** A new context starts in user mode with interrupts on. *)
Theorem context_new_unprivileged : mode_of (context_cpsr context_new) = MODE_USER /\
  irq_flag (mkArmCpu (context_cpsr context_new)) = true.
Proof. split; reflexivity. Qed.

(** ** Witnesses *)

Lemma critical_section_witness : exists s',
  without_interrupts (mret 7) (mkX86Cpu 0x246) = Ret (7, s') /\ irq_flag s' = true.
Proof.
  destruct (critical_section (mret 7) (mkX86Cpu 0x246) 7) as (s' & E & F & _).
  - intros s1 F1 R1. exists s1. by repeat split.
  - exists s'. split; [exact E|]. by rewrite F.
Defined.

Lemma delay_cycles_waits_witness : exists c',
  delay_cycles (H := Build_Profile true) 101 100 (5%N) = Ret (tt, c') /\ count 5%N + 100 < count c'.
Proof. apply (delay_cycles_waits (H := Build_Profile true) (C := N) 100 5%N 101); [lia|by vm_compute]. Defined.
