(* ===== verification/ArmEntry.v ===== *)
(** * Exception entry and context switches on ARM

    The interrupt handler of kernel/src/arch/arm/exception/entry.S, with the
    trap frame of exception/trap.rs it builds on the stack, and
    kernel/src/arch/arm/context/switch.S on the [Context] of context/mod.rs,
    instruction by instruction on the registers they use.  The kernel runs in
    system mode; interrupt mode has a stack pointer, a link register and a
    saved status of its own.  The Rust code that the handler calls is an
    argument. *)
From S2P Require Import Prelude Memory Cpu.

(** ** The processor *)

(** The registers r0 to r12, the banks, the program counter (the address of
    the next instruction) and the status register. *)
Record arm := mkArm {
  gpr : list Z;
  sp_sys : Z; lr_sys : Z;
  sp_irq : Z; lr_irq : Z; spsr_irq : Z;
  pc : Z; psr : Z;
  ram : mem;
}.

Definition MODE_IRQ : Z := 0x12.
Definition in_irq_mode (c : arm) : bool := mode_of (psr c) =? MODE_IRQ.

(** The link register and the stack pointer of the current mode. *)
Definition link (c : arm) : Z := if in_irq_mode c then lr_irq c else lr_sys c.
Definition stack (c : arm) : Z := if in_irq_mode c then sp_irq c else sp_sys c.

(** Consecutive words. *)
Fixpoint store_words (m : mem) (a : Z) (l : list Z) : mem :=
  match l with [] => m | v :: l => store_words (store32 m a v) (a + 4) l end.
Fixpoint load_words (m : mem) (a : Z) (n : nat) : list Z :=
  match n with O => [] | S n => load32 m a :: load_words m (a + 4) n end.

(** The processor takes an interrupt: the return address plus 4 in the link
    register, interrupts masked. *)
Definition take_irq (c : arm) : arm :=
  mkArm (gpr c) (sp_sys c) (lr_sys c) (sp_irq c) (wrap 32 (pc c + 4)) (psr c) (pc c)
    (Z.lor (Z.lor (Z.land (psr c) (lnot 32 0x1f)) MODE_IRQ) CPSR_I_BIT) (ram c).

(** ** [irq_handler] *)

(** [sub lr, lr, #4] to [mov r0, sp]. *)
Definition irq_prologue (c : arm) : arm :=
  let lr := wrap 32 (lr_irq c - 4) in
  let sp1 := sp_irq c - 56 in
  let m1 := store_words (ram c) sp1 (gpr c ++ [lr]) in
  let sp2 := sp1 - 4 in
  let m2 := store32 m1 sp2 (spsr_irq c) in
  mkArm (<[0%nat := sp2]> (gpr c)) (sp_sys c) (lr_sys c) sp2 lr (spsr_irq c) (pc c) (Z.lor (psr c) CPSR_I_BIT) m2.

(** [pop {r0}] to [subs pc, lr, #0]. *)
Definition irq_epilogue (c : arm) : arm :=
  let spsr := load32 (ram c) (sp_irq c) in
  let sp1 := sp_irq c + 4 in
  let words := load_words (ram c) sp1 14 in
  let lr := words !!! 13%nat in
  mkArm (take 13 words) (sp_sys c) (lr_sys c) (sp1 + 56) lr spsr lr spsr (ram c).

(** An interrupt from its arrival to its return; [rust] is the call of
    [irq_entry_rust]. *)
Definition irq_handler (rust : arm -> option arm) (c : arm) : option arm :=
  irq_epilogue <$> rust (irq_prologue (take_irq c)).

(** [svc_handler] and the other handlers branch to themselves. *)
Definition svc_handler (c : arm) : arm := c.

(** [TrapFrame], field by field. *)
Record TrapFrame := mkFrame { spsr : Z; regs : list Z; return_address : Z }.
Definition frame_at (m : mem) (a : Z) : TrapFrame :=
  mkFrame (load32 m a) (load_words m (a + 4) 13) (load32 m (a + 56)).

(** ** [context_switch] *)

(** [stmia r0!, {r4-r11, sp, lr}], [ldmia r1!, {r4-r11, sp, lr}], [bx lr]. *)
Definition switched (c : arm) : list Z := take 8 (drop 4 (gpr c)) ++ [stack c; link c].

Definition context_switch (c : arm) : arm :=
  let old := gpr c !!! 0%nat in
  let new := gpr c !!! 1%nat in
  let m := store_words (ram c) old (switched c) in
  let words := load_words m new 10 in
  let gpr' := [old + 40; new + 40] ++ take 2 (drop 2 (gpr c)) ++ take 8 words ++ drop 12 (gpr c) in
  let sp := words !!! 8%nat in
  let lr := words !!! 9%nat in
  if in_irq_mode c then mkArm gpr' (sp_sys c) (lr_sys c) sp lr (spsr_irq c) lr (psr c) m
  else mkArm gpr' sp lr (sp_irq c) (lr_irq c) (spsr_irq c) lr (psr c) m.

(** [Context] in memory, in the order of its fields. *)
Definition context_words (k : Context_) : list Z :=
  [r0 k; r1 k; r2 k; r3 k; r4 k; r5 k; r6 k; r7 k; r8 k; r9 k; r10 k; r11 k; r12 k; Cpu.sp k; Cpu.lr k; Cpu.pc k; context_cpsr k].

(** ** Lemmas *)

Record arm_ok (c : arm) : Prop := {
  ok_gpr : length (gpr c) = 13%nat /\ Forall (fits 32) (gpr c);
  ok_pc : fits 32 (pc c);
  ok_psr : fits 32 (psr c);
}.

Lemma load_words_length m n : forall a, length (load_words m a n) = n.
Proof. induction n as [|n IH]; intros a; cbn; [done|]. by rewrite IH. Qed.

Lemma load_words_same m m' n : forall a, (forall x, a <= x < a + 4 * Z.of_nat n -> m' x = m x) ->
  load_words m' a n = load_words m a n.
Proof.
  induction n as [|n IH]; intros a Hs; [done|]. cbn [load_words]. f_equal.
  - unfold load32. by rewrite !Hs by lia.
  - apply IH. intros x Hx. apply Hs. lia.
Qed.

Lemma store_words_outside l : forall m a x, x < a \/ a + 4 * Z.of_nat (length l) <= x -> store_words m a l x = m x.
Proof.
  induction l as [|v l IH]; intros m a x Hx; [done|]. cbn [store_words length] in *. rewrite IH by lia.
  apply store32_same_outside. unfold in_block. lia.
Qed.

Lemma load_store_words l : forall m a, Forall (fits 32) l -> load_words (store_words m a l) a (length l) = l.
Proof.
  induction l as [|v l IH]; intros m a Hl; [done|]. apply Forall_cons in Hl as [Hv Hl].
  cbn [store_words length load_words]. f_equal; [|by apply IH].
  unfold load32. rewrite !store_words_outside by lia. by apply load32_store32_eq.
Qed.

Lemma load_words_app m n1 n2 : forall a, load_words m a (n1 + n2) = load_words m a n1 ++ load_words m (a + 4 * Z.of_nat n1) n2.
Proof.
  induction n1 as [|n1 IH]; intros a; cbn [Nat.add load_words app]; [f_equal; lia|]. rewrite IH.
  do 3 f_equal. lia.
Qed.

Lemma load_words_lookup m n : forall a i, (i < n)%nat -> load_words m a n !!! i = load32 m (a + 4 * Z.of_nat i).
Proof.
  induction n as [|n IH]; intros a i Hi; [lia|]. destruct i as [|i]; cbn [load_words].
  - by rewrite Z.mul_0_r, Z.add_0_r.
  - change ((load32 m a :: load_words m (a + 4) n) !!! S i) with (load_words m (a + 4) n !!! i). rewrite IH by lia. f_equal. lia.
Qed.

(** What the compiled [irq_entry_rust] keeps: the stack pointer it was called
    with and the frame above it; it runs in interrupt mode and cannot reach the
    other bank. *)
Definition keeps_frame (c1 c2 : arm) : Prop :=
  sp_irq c2 = sp_irq c1 /\ sp_sys c2 = sp_sys c1 /\ lr_sys c2 = lr_sys c1 /\
  forall x, in_block (sp_irq c1) 60 x -> ram c2 x = ram c1 x.

Section Handler.
Context (c : arm) (Hc : arm_ok c).

Let entered : arm := irq_prologue (take_irq c).

Lemma entry_link : lr_irq entered = pc c.
Proof using Hc.
  pose proof (ok_pc c Hc) as Hp. unfold entered, irq_prologue, take_irq, fits in *. cbn [lr_irq]. unfold wrap.
  rewrite Zminus_mod_idemp_l. replace (pc c + 4 - 4) with (pc c) by lia. by apply Z.mod_small.
Qed.

(** The words on the stack: the status, the registers, the return address. *)
Lemma entry_words : load32 (ram entered) (sp_irq entered) = psr c /\
  load_words (ram entered) (sp_irq entered + 4) 14 = gpr c ++ [pc c].
Proof using Hc.
  destruct (ok_gpr c Hc) as [Hl Hf]. pose proof (ok_psr c Hc). pose proof (ok_pc c Hc). pose proof entry_link as El.
  unfold entered, irq_prologue in *. cbn [ram sp_irq lr_irq take_irq] in *. split.
  - by apply load32_store32_eq.
  - cbn [gpr take_irq]. rewrite El. set (a := sp_irq c - 56). replace (a - 4 + 4) with a by lia.
    erewrite load_words_same.
    2: { intros x Hx. apply store32_same_outside. unfold in_block. lia. }
    replace 14%nat with (length (gpr c ++ [pc c])) by (rewrite length_app, Hl; done).
    apply load_store_words. apply Forall_app. split; [done|by constructor].
Qed.

Lemma entry_mode : in_irq_mode entered = true.
Proof using.
  unfold in_irq_mode, entered, irq_prologue, take_irq, mode_of. cbn [psr]. apply Z.eqb_eq.
  rewrite !Z.land_lor_distr_l, <- Z.land_assoc. change (Z.land (lnot 32 0x1f) 0x1f) with 0. by rewrite Z.land_0_r.
Qed.

Lemma irq_handler_ok rust c2 : rust entered = Some c2 -> keeps_frame entered c2 ->
  irq_handler rust c = Some (mkArm (gpr c) (sp_sys c) (lr_sys c) (sp_irq c) (pc c) (psr c) (pc c) (psr c) (ram c2)).
Proof using Hc.
  intros E (Hsp & Hs & Hls & Hm). destruct entry_words as [Ew1 Ew2]. destruct (ok_gpr c Hc) as [Hl _].
  unfold irq_handler. fold entered. rewrite E. cbn [fmap option_fmap option_map]. f_equal. unfold irq_epilogue.
  rewrite Hsp, Hs, Hls.
  assert (E1 : load32 (ram c2) (sp_irq entered) = psr c).
  { rewrite <- Ew1. unfold load32. by rewrite !Hm by (unfold in_block; lia). }
  assert (E2 : load_words (ram c2) (sp_irq entered + 4) 14 = gpr c ++ [pc c]).
  { rewrite <- Ew2. apply load_words_same. intros x Hx. apply Hm. unfold in_block. lia. }
  rewrite E1, E2. rewrite take_app_length' by done.
  replace ((gpr c ++ [pc c]) !!! 13%nat) with (pc c) by (rewrite <- Hl, lookup_total_app_r, Nat.sub_diag by lia; done).
  f_equal; unfold entered, irq_prologue, take_irq; cbn; lia.
Qed.
End Handler.

(** ** Theorems *)

(** C14: An interrupt of the kernel's own code is transparent: [irq_entry_rust] is
    called with a pointer to a [TrapFrame] of the interrupted status,
    registers and address, with interrupts masked, and when it returns the
    code goes on where it was, with every register it can see. *)
Theorem irq_transparent c rust c2 : arm_ok c -> in_irq_mode c = false ->
  let entered := irq_prologue (take_irq c) in
  rust entered = Some c2 -> keeps_frame entered c2 ->
  gpr entered !!! 0%nat = stack entered /\ Z.testbit (psr entered) 7 = true /\
  frame_at (ram entered) (stack entered) = mkFrame (psr c) (gpr c) (pc c) /\
  exists c', irq_handler rust c = Some c' /\ gpr c' = gpr c /\ pc c' = pc c /\ psr c' = psr c /\
    stack c' = stack c /\ link c' = link c /\ sp_irq c' = sp_irq c.
Proof.
  intros Hc Hmode entered E Hk. destruct (entry_words c Hc) as [Ew1 Ew2]. fold entered in Ew1, Ew2.
  destruct (ok_gpr c Hc) as [Hl Hf]. pose proof (irq_handler_ok c Hc rust c2 E Hk) as Eh.
  assert (Hirq : in_irq_mode entered = true) by apply entry_mode.
  assert (Hst : stack entered = sp_irq entered) by (unfold stack; by rewrite Hirq).
  rewrite Hst. split; [|split; [|split]].
  - unfold entered, irq_prologue. cbn [gpr sp_irq take_irq]. apply list_lookup_total_insert_eq. cbn. rewrite Hl. lia.
  - unfold entered, irq_prologue. cbn [psr take_irq]. rewrite Z.lor_spec. by rewrite orb_true_r.
  - unfold frame_at. rewrite Ew1. change 14%nat with (13 + 1)%nat in Ew2. rewrite load_words_app in Ew2.
    apply app_inj_1 in Ew2 as [E1 E2]; [|by rewrite load_words_length, Hl]. rewrite E1. f_equal.
    apply (f_equal (fun l => l !!! 0%nat)) in E2. rewrite load_words_lookup in E2 by lia.
    change ([pc c] !!! 0%nat) with (pc c) in E2. rewrite <- E2. f_equal. lia.
  - eexists. split; [exact Eh|]. cbn. unfold stack, link, in_irq_mode. cbn [psr]. fold (in_irq_mode c). by rewrite Hmode.
Qed.

(** A nested interrupt is not: code that runs in interrupt mode, as every
    handler does while [dispatch] lets interrupts in, finds its own address in
    the link register afterwards, whatever return address it kept there. *)
Theorem nested_irq_clobbers_link c rust c2 : arm_ok c -> in_irq_mode c = true ->
  let entered := irq_prologue (take_irq c) in
  rust entered = Some c2 -> keeps_frame entered c2 ->
  exists c', irq_handler rust c = Some c' /\ gpr c' = gpr c /\ pc c' = pc c /\ psr c' = psr c /\ stack c' = stack c /\
    link c' = pc c.
Proof.
  intros Hc Hmode entered E Hk. eexists. split; [exact (irq_handler_ok c Hc rust c2 E Hk)|].
  unfold stack, link, in_irq_mode in *. cbn. by rewrite Hmode.
Qed.

(** ** Theorems on [context_switch] *)

Section Switch.
Context (c : arm) (Hl : length (gpr c) = 13%nat).

(** The words the switch takes for the new context. *)
Definition loaded : list Z := load_words (store_words (ram c) (gpr c !!! 0%nat) (switched c)) (gpr c !!! 1%nat) 10.

Lemma switched_length : length (switched c) = 10%nat.
Proof using Hl. unfold switched. by rewrite length_app, length_take, length_drop, Hl. Qed.

Lemma context_switch_ram : ram (context_switch c) = store_words (ram c) (gpr c !!! 0%nat) (switched c).
Proof using. unfold context_switch. by destruct (in_irq_mode c). Qed.

(** Afterwards the words are the saved registers, and the last is the place
    where execution goes on. *)
Lemma context_switch_loads : switched (context_switch c) = loaded /\ pc (context_switch c) = loaded !!! 9%nat /\
  stack (context_switch c) = loaded !!! 8%nat.
Proof using Hl.
  assert (Hw : length loaded = 10%nat) by apply load_words_length.
  assert (E : forall g, drop 4 ([gpr c !!! 0%nat + 40; g] ++ take 2 (drop 2 (gpr c)) ++ take 8 loaded ++ drop 12 (gpr c)) =
    take 8 loaded ++ drop 12 (gpr c)).
  { intros g. rewrite app_assoc. apply drop_app_length'. rewrite length_app, length_take, length_drop, Hl. done. }
  assert (Es : take 8 loaded ++ [loaded !!! 8%nat; loaded !!! 9%nat] = loaded).
  { destruct loaded as [|w0 [|w1 [|w2 [|w3 [|w4 [|w5 [|w6 [|w7 [|w8 [|w9 [|]]]]]]]]]]]; try discriminate Hw. done. }
  unfold context_switch. fold loaded. unfold switched, stack, link, in_irq_mode.
  destruct (mode_of (psr c) =? MODE_IRQ) eqn:Em; cbn [gpr psr pc sp_irq sp_sys lr_irq lr_sys]; rewrite Em; (split; [|by split]);
    rewrite E, take_app_length' by (rewrite length_take, Hw; done); exact Es.
Qed.
End Switch.

(** The contexts that [context_switch] saves are those it restores: after a
    switch away, a later switch back to the same place in memory gives the old
    r4 to r11, stack pointer and return address, and goes on at the latter. *)
Theorem context_switch_returns c d : arm_ok c -> fits 32 (link c) -> fits 32 (stack c) -> length (gpr d) = 13%nat ->
  gpr d !!! 1%nat = gpr c !!! 0%nat ->
  (forall x, in_block (gpr c !!! 0%nat) 40 x -> ram d x = ram (context_switch c) x) ->
  (gpr d !!! 0%nat + 40 <= gpr c !!! 0%nat \/ gpr c !!! 0%nat + 40 <= gpr d !!! 0%nat) ->
  switched (context_switch d) = switched c /\ pc (context_switch d) = link c.
Proof.
  intros Hc Hlr Hsp Hd Ep Hm Hov. destruct (ok_gpr c Hc) as [Hl Hf].
  assert (Hs : Forall (fits 32) (switched c)).
  { apply Forall_app. split; [by apply Forall_take, Forall_drop|]. constructor; [done|]. constructor; [done|constructor]. }
  assert (E : loaded d = switched c).
  { unfold loaded. rewrite Ep. rewrite (load_words_same (ram d)).
    2: { intros x Hx. apply store_words_outside. rewrite switched_length by done. lia. }
    rewrite (load_words_same (ram (context_switch c))) by (intros x Hx; apply Hm; unfold in_block; lia).
    rewrite context_switch_ram, <- (switched_length c Hl). by apply load_store_words. }
  destruct (context_switch_loads d Hd) as (E1 & E2 & _). rewrite E in E1, E2. split; [exact E1|]. rewrite E2.
  unfold switched. rewrite lookup_total_app_r by (rewrite length_take, length_drop, Hl; lia).
  by rewrite length_take, length_drop, Hl.
Qed.

(** The words are not those of [Context], whose first field is r0: a switch to
    a [Context] takes r8 for the stack pointer and r9 for the place to go on,
    and never looks at its sp, lr, pc and cpsr.  One made by [Context::new]
    goes on at address 0 with the stack pointer 0. *)
Theorem context_switch_misreads c k : length (gpr c) = 13%nat ->
  (gpr c !!! 0%nat + 40 <= gpr c !!! 1%nat \/ gpr c !!! 1%nat + 68 <= gpr c !!! 0%nat) ->
  load_words (ram c) (gpr c !!! 1%nat) 17 = context_words k ->
  let e := context_switch c in
  switched e = [r0 k; r1 k; r2 k; r3 k; r4 k; r5 k; r6 k; r7 k; r8 k; r9 k] /\ pc e = r9 k /\
  (k = context_new -> pc e = 0 /\ stack e = 0).
Proof.
  intros Hl Hov Hk e. destruct (context_switch_loads c Hl) as (E1 & E2 & E3). fold e in E1, E2, E3.
  assert (E : loaded c = [r0 k; r1 k; r2 k; r3 k; r4 k; r5 k; r6 k; r7 k; r8 k; r9 k]).
  { unfold loaded. rewrite (load_words_same (ram c)).
    2: { intros x Hx. apply store_words_outside. rewrite switched_length by done. lia. }
    change 17%nat with (10 + 7)%nat in Hk. rewrite load_words_app in Hk.
    change (context_words k) with ([r0 k; r1 k; r2 k; r3 k; r4 k; r5 k; r6 k; r7 k; r8 k; r9 k] ++ drop 10 (context_words k)) in Hk.
    by apply app_inj_1 in Hk as [-> _]; [|rewrite load_words_length]. }
  rewrite E in E1, E2, E3. split; [exact E1|]. split; [exact E2|]. intros ->. by split.
Qed.

(** ** Witnesses *)

(** The kernel at 0x8000 in system mode with interrupts on, and a handler in
    interrupt mode. *)
Definition demo_arm (psr : Z) : arm :=
  mkArm (map Z.of_nat (seq 100 13)) 0x20000 0x8100 0x30000 0x9000 0 0x8000 psr (fun _ => 0).

Lemma demo_arm_ok psr : fits 32 psr -> arm_ok (demo_arm psr).
Proof.
  intros Hp. split; [|by vm_compute|done]. split; [done|]. cbn. repeat (constructor; [by vm_compute|]). constructor.
Qed.

Lemma keeps_frame_refl c : keeps_frame c c.
Proof. by repeat split. Qed.

Lemma irq_transparent_witness : exists c', irq_handler Some (demo_arm 0x1f) = Some c' /\ pc c' = 0x8000 /\
  link c' = 0x8100.
Proof.
  destruct (irq_transparent (demo_arm 0x1f) Some (irq_prologue (take_irq (demo_arm 0x1f)))
    (demo_arm_ok 0x1f ltac:(by vm_compute)) eq_refl eq_refl (keeps_frame_refl _)) as (_ & _ & _ & c' & E & _ & Ep & _ & _ & El & _).
  exists c'. split; [exact E|]. split; [exact Ep|exact El].
Defined.

Lemma nested_irq_clobbers_link_witness : exists c', irq_handler Some (demo_arm 0x12) = Some c' /\
  link (demo_arm 0x12) = 0x9000 /\ link c' = 0x8000.
Proof.
  destruct (nested_irq_clobbers_link (demo_arm 0x12) Some (irq_prologue (take_irq (demo_arm 0x12)))
    (demo_arm_ok 0x12 ltac:(by vm_compute)) eq_refl eq_refl (keeps_frame_refl _)) as (c' & E & _ & _ & _ & _ & El).
  exists c'. split; [exact E|]. split; [reflexivity|exact El].
Defined.

(** A switch from one context at 4096 to another at 8192 and back. *)
Definition demo_switch (old new : Z) (m : mem) : arm :=
  mkArm ([old; new] ++ map Z.of_nat (seq 102 11)) 0x20000 0x8100 0x30000 0x9000 0 0x8000 0x1f m.

Lemma context_switch_returns_witness : let c := demo_switch 4096 8192 (fun _ => 0) in
  let d := demo_switch 8192 4096 (ram (context_switch c)) in
  switched (context_switch d) = switched c /\ pc (context_switch d) = 0x8100.
Proof.
  apply (context_switch_returns (demo_switch 4096 8192 (fun _ => 0))); [|by vm_compute|by vm_compute|done|done| |].
  - split; [|by vm_compute..]. split; [done|]. cbn. repeat (constructor; [by vm_compute|]). constructor.
  - intros x _. reflexivity.
  - cbn. lia.
Defined.

Lemma context_switch_misreads_witness :
  pc (context_switch (demo_switch 4096 8192 (store_words (fun _ => 0) 8192 (context_words context_new)))) = 0.
Proof.
  destruct (context_switch_misreads (demo_switch 4096 8192 (store_words (fun _ => 0) 8192 (context_words context_new)))
    context_new) as (_ & _ & Hn); [done|cbn; lia|by vm_compute|]. by apply Hn.
Defined.
