(* ===== verification/Irq.v ===== *)
(** * Interrupts

    The HAL trait of interrupt controllers (drivers/src/hal/interrupt.rs), its
    BCM2835 implementation (drivers/src/peripheral/bcm2835/intc.rs), the
    handler table (kernel/src/irq/handlers.rs), the dispatcher
    (kernel/src/irq/dispatch.rs), which is written against the trait, and the
    entry points of kernel/src/arch/arm/exception/trap.rs. *)
From S2P Require Import Prelude Mmio Lock.

(** ** The HAL interface *)

Inductive InterruptError :=
  InvalidIrq | AlreadyEnabled | AlreadyDisabled | IrqHardware | Unsupported | IrqOther.

(** [DynInterruptController]: errors already converted.  The controllers keep
    the provided [clear]. *)
Class InterruptController (C : Type) := {
  ic_enable : Z -> st C (result unit InterruptError);
  ic_disable : Z -> st C (result unit InterruptError);
  ic_is_pending : Z -> st C (result bool InterruptError);
  ic_next_pending : st C (option Z);
  ic_clear : Z -> st C (result unit InterruptError);
}.

(** ** The BCM2835 controller *)

Module Bcm2835.
Definition INT_CONTROLLER_BASE : Z := 0x2000b000.

Definition irq_basic_pend : Z := INT_CONTROLLER_BASE + 0x200.
Definition irq_1_pend : Z := INT_CONTROLLER_BASE + 0x204.
Definition irq_2_pend : Z := INT_CONTROLLER_BASE + 0x208.
Definition enable_irqs_1 : Z := INT_CONTROLLER_BASE + 0x210.
Definition enable_irqs_2 : Z := INT_CONTROLLER_BASE + 0x214.
Definition enable_basic_irqs : Z := INT_CONTROLLER_BASE + 0x218.
Definition disable_irqs_1 : Z := INT_CONTROLLER_BASE + 0x21c.
Definition disable_irqs_2 : Z := INT_CONTROLLER_BASE + 0x220.
Definition disable_basic_irqs : Z := INT_CONTROLLER_BASE + 0x224.

Inductive IrqLine := Irq1 (bit : Z) | Irq2 (bit : Z) | Basic (bit : Z).

Definition split (irq : Z) : IrqLine :=
  if irq <=? 31 then Irq1 irq
  else if irq <=? 63 then Irq2 (irq - 32)
  else Basic (irq - 64).

Inductive Bcm2835IntcError := IntcInvalidIrq | IntcHardware.

Definition into_error (e : Bcm2835IntcError) : InterruptError :=
  match e with IntcInvalidIrq => InvalidIrq | IntcHardware => IrqHardware end.

Definition validate_irq (irq : Z) : result unit Bcm2835IntcError :=
  if irq >=? 80 then Err IntcInvalidIrq else Ok tt.

Section Driver.
Context `{Profile} {D : Type} `{Mmio D}.

Definition pending_irq : st D (option Z) :=
  irq1 ← read_volatile irq_1_pend;
  if negb (irq1 =? 0) then mret (Some (trailing_zeros irq1))
  else
    irq2 ← read_volatile irq_2_pend;
    if negb (irq2 =? 0) then mret (Some (32 + trailing_zeros irq2))
    else
      basic ← read_volatile irq_basic_pend;
      if negb (basic =? 0) then mret (Some (64 + trailing_zeros basic))
      else mret None.

Definition enable_irq (irq : Z) : st D unit :=
  match split irq with
  | Irq1 bit => v ← lift (shl 32 1 bit); write_volatile enable_irqs_1 v
  | Irq2 bit => v ← lift (shl 32 1 bit); write_volatile enable_irqs_2 v
  | Basic bit => v ← lift (shl 32 1 bit); write_volatile enable_basic_irqs v
  end.

Definition disable_irq (irq : Z) : st D unit :=
  match split irq with
  | Irq1 bit => v ← lift (shl 32 1 bit); write_volatile disable_irqs_1 v
  | Irq2 bit => v ← lift (shl 32 1 bit); write_volatile disable_irqs_2 v
  | Basic bit => v ← lift (shl 32 1 bit); write_volatile disable_basic_irqs v
  end.

Definition enable (irq : Z) : st D (result unit Bcm2835IntcError) :=
  let? _ := mret (validate_irq irq) in
  _ ← enable_irq irq; mret (Ok tt).

Definition disable (irq : Z) : st D (result unit Bcm2835IntcError) :=
  let? _ := mret (validate_irq irq) in
  _ ← disable_irq irq; mret (Ok tt).

Definition is_pending (irq : Z) : st D (result bool Bcm2835IntcError) :=
  let? _ := mret (validate_irq irq) in mret (Ok false).
End Driver.

#[export] Instance controller `{Profile, Mmio D} : InterruptController D := {
  ic_enable irq := st_map_err into_error (enable irq);
  ic_disable irq := st_map_err into_error (disable irq);
  ic_is_pending irq := st_map_err into_error (is_pending irq);
  ic_next_pending := pending_irq;
  ic_clear _ := mret (Ok tt);
}.

(** What the data sheet says: writing a bank's enable (disable) register sets
    (clears) the lines whose bits are one and no other; reading a pending
    register returns the pending lines of the bank and changes nothing. *)
Definition enable_addr (bank : Z) : Z := enable_irqs_1 + 4 * bank.
Definition disable_addr (bank : Z) : Z := disable_irqs_1 + 4 * bank.
Definition pend_addr (bank : Z) : Z :=
  if bank =? 0 then irq_1_pend else if bank =? 1 then irq_2_pend else irq_basic_pend.

Class IntcHw (D : Type) `{Mmio D} := {
  line_enabled : D -> Z -> bool;
  pending : D -> Z -> Z;
  pending_fits s bank : fits 32 (pending s bank);
  enable_law s bank v n : 0 <= bank <= 2 -> 0 <= n < 96 ->
    line_enabled (write32 (enable_addr bank) v s) n =
      line_enabled s n || ((n / 32 =? bank) && Z.testbit v (n mod 32));
  disable_law s bank v n : 0 <= bank <= 2 -> 0 <= n < 96 ->
    line_enabled (write32 (disable_addr bank) v s) n =
      line_enabled s n && negb ((n / 32 =? bank) && Z.testbit v (n mod 32));
  pend_law s bank : 0 <= bank <= 2 -> read32 (pend_addr bank) s = (pending s bank, s);
}.
End Bcm2835.

(** ** Handlers and dispatch *)

Definition MAX_IRQS : Z := 128.

Section Dispatch.
Context `{Profile} {C : Type} `{InterruptController C} {TrapFrame : Type}.

(** The interrupt flag with the [spin::Mutex] of the controller, the controller
    if one is registered, and [IRQ_HANDLERS], a table of function pointers.
    The locks of the device manager and of the handlers are in [Locks]. *)
Record irq_state := mkIrq {
  cpu : lock_state bool;
  ctl : option C;
  IRQ_HANDLERS : list (option Z);
}.

(** What runs at a function pointer, and the log line of a line without
    handler. *)
Context (call : Z -> TrapFrame -> st irq_state TrapFrame) (log_unhandled : Z -> st irq_state unit).

Definition register (irq handler : Z) : st irq_state unit := fun s =>
  t ← index_set (IRQ_HANDLERS s) irq (Some handler);
  Ret (tt, mkIrq (cpu s) (ctl s) t).

Definition get_handler (irq : Z) : st irq_state (option Z) := fun s =>
  h ← index (IRQ_HANDLERS s) irq; Ret (h, s).

Definition on_cpu {A} (f : st (lock_state bool) A) : st irq_state A := fun s =>
  match f (cpu s) with
  | Ret (a, c) => Ret (a, mkIrq c (ctl s) (IRQ_HANDLERS s))
  | Panic => Panic
  | OutOfFuel => OutOfFuel
  end.

Definition on_ctl {A} (f : st C A) : st irq_state A := fun s =>
  match ctl s with
  | None => Panic
  | Some c =>
      match f c with
      | Ret (a, c) => Ret (a, mkIrq (cpu s) (Some c) (IRQ_HANDLERS s))
      | Panic => Panic
      | OutOfFuel => OutOfFuel
      end
  end.

(** [irqctl.lock().f()]: a plain spin lock, which leaves the interrupt flag
    alone; the temporary guard is dropped after the call. *)
Definition with_lock {A} (fuel : nat) (f : st C A) : st irq_state A :=
  _ ← on_cpu (spin_lock fuel);
  a ← on_ctl f;
  _ ← on_cpu (modify (fun l => mkLock (irq_on l) (spin_unlock (inner l))));
  mret a.

Definition irq_enable : st irq_state unit :=
  on_cpu (modify (fun l => mkLock true (inner l))).
Definition irq_disable : st irq_state unit :=
  on_cpu (modify (fun l => mkLock false (inner l))).

Definition dispatch (fuel : nat) (irq : Z) (tf : TrapFrame) : st irq_state TrapFrame :=
  _ ← on_ctl (mret tt);                 (* [irq_controller().expect(..)] *)
  _ ← with_lock fuel (ic_disable irq);
  _ ← irq_enable;
  handler ← get_handler irq;
  tf ← (match handler with Some h => call h tf | None => _ ← log_unhandled irq; mret tf end);
  _ ← irq_disable;
  _ ← with_lock fuel (ic_enable irq);
  mret tf.

Definition dispatch_next (fuel : nat) (tf : TrapFrame) : st irq_state (bool * TrapFrame) :=
  next ← with_lock fuel ic_next_pending;
  match next with
  | Some irq => tf ← dispatch fuel irq tf; mret (true, tf)
  | None => mret (false, tf)
  end.

(** [while dispatch_next(tf) {}]. *)
Fixpoint dispatch_all (rounds fuel : nat) (tf : TrapFrame) : st irq_state TrapFrame :=
  match rounds with
  | O => out_of_fuel
  | S rounds =>
      '(more, tf) ← dispatch_next fuel tf;
      if (more : bool) then dispatch_all rounds fuel tf else mret tf
  end.

(** [irq_entry_rust] (kernel/src/arch/arm/exception/trap.rs), which the entry
    stub of [ArmEntry] calls; the function it asks for the line is declared
    nowhere. *)
Definition irq_entry_rust (next_pending_irq : st irq_state (option Z)) (fuel : nat) (tf : TrapFrame) : st irq_state TrapFrame :=
  next ← next_pending_irq;
  match next with Some irq => dispatch fuel irq tf | None => mret tf end.

(** [syscall::dispatch] (kernel/src/syscall/dispatch.rs) is empty, and
    [svc_entry_rust] calls it. *)
Definition syscall_dispatch (tf : TrapFrame) : st irq_state unit := mret tt.
Definition svc_entry_rust (tf : TrapFrame) : st irq_state TrapFrame := _ ← syscall_dispatch tf; mret tf.
End Dispatch.
Arguments irq_state : clear implicits.

(** ** Lemmas *)

Section Lines.
Context `{Profile} {D : Type} `{Bcm2835.IntcHw D}.
Import Bcm2835.

(** Line [n] is asserted. *)
Definition pend_bit (s : D) (n : Z) : bool := Z.testbit (pending s (n / 32)) (n mod 32).

Lemma shl_bit b (s : D) : 0 <= b < 32 -> lift (shl 32 1 b) s = Ret (2 ^ b, s).
Proof using.
  intros Hb. rewrite shl_ok; [by rewrite Z.mul_1_l|done|].
  rewrite Z.mul_1_l. split; [apply Z.pow_nonneg; lia|apply Z.pow_lt_mono_r; lia].
Qed.

(** The bank and bit a line number splits into. *)
Lemma split_cases irq : 0 <= irq < 96 -> exists bank bit,
  0 <= bank <= 2 /\ 0 <= bit < 32 /\ irq = 32 * bank + bit /\
  split irq = (if bank =? 0 then Irq1 bit else if bank =? 1 then Irq2 bit else Basic bit).
Proof using.
  intros Hi. unfold split. destruct (Z.leb_spec irq 31); [|destruct (Z.leb_spec irq 63)].
  - exists 0, irq. repeat split; lia || done.
  - exists 1, (irq - 32). repeat split; lia || done.
  - exists 2, (irq - 64). repeat split; lia || done.
Qed.

Lemma one_line bank bit n : 0 <= bit < 32 -> 0 <= n ->
  (n / 32 =? bank) && Z.testbit (2 ^ bit) (n mod 32) = (n =? 32 * bank + bit).
Proof using.
  intros Hb Hn. rewrite Z.pow2_bits_eqb by lia. pose proof (Z.div_mod n 32). pose proof (Z.mod_pos_bound n 32).
  destruct (Z.eqb_spec (n / 32) bank), (Z.eqb_spec bit (n mod 32)), (Z.eqb_spec n (32 * bank + bit));
    simpl; (done || lia).
Qed.

Lemma enable_irq_ok irq s : 0 <= irq < 96 -> exists s', enable_irq irq s = Ret (tt, s') /\
  forall n, 0 <= n < 96 -> line_enabled s' n = line_enabled s n || (n =? irq).
Proof using.
  intros Hi. destruct (split_cases irq Hi) as (bank & bit & Hbank & Hbit & -> & E).
  exists (write32 (enable_addr bank) (2 ^ bit) s). split.
  - unfold enable_irq. rewrite E. assert (bank = 0 \/ bank = 1 \/ bank = 2) as [->|[->| ->]] by lia;
      cbn; by erewrite stbind_step by (by apply shl_bit).
  - intros n Hn. by rewrite enable_law, one_line by lia.
Qed.

Lemma disable_irq_ok irq s : 0 <= irq < 96 -> exists s', disable_irq irq s = Ret (tt, s') /\
  forall n, 0 <= n < 96 -> line_enabled s' n = line_enabled s n && negb (n =? irq).
Proof using.
  intros Hi. destruct (split_cases irq Hi) as (bank & bit & Hbank & Hbit & -> & E).
  exists (write32 (disable_addr bank) (2 ^ bit) s). split.
  - unfold disable_irq. rewrite E. assert (bank = 0 \/ bank = 1 \/ bank = 2) as [->|[->| ->]] by lia;
      cbn; by erewrite stbind_step by (by apply shl_bit).
  - intros n Hn. by rewrite disable_law, one_line by lia.
Qed.

Lemma ic_enable_ok irq s : 0 <= irq < 80 -> exists s', ic_enable irq s = Ret (Ok tt, s') /\
  forall n, 0 <= n < 96 -> line_enabled s' n = line_enabled s n || (n =? irq).
Proof using.
  intros Hi. destruct (enable_irq_ok irq s) as (s' & E & Hs); [lia|]. exists s'. split; [|done].
  cbn. unfold st_map_err, enable, try_bind, validate_irq. destruct (Z.geb_spec irq 80); [lia|].
  cbn. unfold mbind, st_bind. by rewrite E.
Qed.

Lemma ic_disable_ok irq s : 0 <= irq < 80 -> exists s', ic_disable irq s = Ret (Ok tt, s') /\
  forall n, 0 <= n < 96 -> line_enabled s' n = line_enabled s n && negb (n =? irq).
Proof using.
  intros Hi. destruct (disable_irq_ok irq s) as (s' & E & Hs); [lia|]. exists s'. split; [|done].
  cbn. unfold st_map_err, disable, try_bind, validate_irq. destruct (Z.geb_spec irq 80); [lia|].
  cbn. unfold mbind, st_bind. by rewrite E.
Qed.

Lemma ic_invalid irq s : 80 <= irq ->
  ic_enable irq s = Ret (Err InvalidIrq, s) /\ ic_disable irq s = Ret (Err InvalidIrq, s).
Proof using.
  intros Hi. cbn. unfold st_map_err, enable, disable, try_bind, validate_irq.
  destruct (Z.geb_spec irq 80); [done|lia].
Qed.

(** A bank whose word is zero has no asserted line. *)
Lemma bank_empty s bank n : pending s bank = 0 -> n / 32 = bank -> pend_bit s n = false.
Proof using. unfold pend_bit. intros E ->. by rewrite E, Z.bits_0. Qed.

Lemma bank_first s bank : 0 <= bank -> pending s bank <> 0 ->
  let n := 32 * bank + trailing_zeros (pending s bank) in
  32 * bank <= n < 32 * bank + 32 /\ pend_bit s n = true /\
  forall j, 32 * bank <= j < n -> pend_bit s j = false.
Proof using.
  intros Hb Hne n. destruct (trailing_zeros_spec _ (pending_fits s bank) Hne) as (H2 & H3 & H4).
  assert (Hdm : forall j, 32 * bank <= j < 32 * bank + 32 -> j / 32 = bank /\ j mod 32 = j - 32 * bank).
  { intros j Hj. pose proof (Z.div_mod j 32). pose proof (Z.mod_pos_bound j 32). lia. }
  unfold pend_bit. split; [lia|]. split.
  - destruct (Hdm n) as [-> ->]; [lia|]. unfold n.
    by replace (32 * bank + _ - 32 * bank) with (trailing_zeros (pending s bank)) by lia.
  - intros j Hj. destruct (Hdm j) as [-> ->]; [lia|]. apply H4. lia.
Qed.

Lemma pending_irq_ok s : exists r, pending_irq s = Ret (r, s) /\
  match r with
  | Some n => 0 <= n < 96 /\ pend_bit s n = true /\ forall j, 0 <= j < n -> pend_bit s j = false
  | None => forall j, 0 <= j < 96 -> pend_bit s j = false
  end.
Proof using.
  assert (Hrd : forall bank, 0 <= bank <= 2 -> read_volatile (pend_addr bank) s = Ret (pending s bank, s)).
  { intros bank Hb. unfold read_volatile. by rewrite pend_law. }
  pose proof (bank_empty s) as He. pose proof (bank_first s) as Hf.
  assert (Hdiv : forall j b, 32 * b <= j < 32 * b + 32 -> j / 32 = b).
  { intros j b Hj. pose proof (Z.div_mod j 32). pose proof (Z.mod_pos_bound j 32). lia. }
  unfold pending_irq. erewrite stbind_step by (apply (Hrd 0); lia).
  destruct (Z.eqb_spec (pending s 0) 0) as [E0|N0]; cbn [negb].
  2: { destruct (Hf 0) as (? & ? & Hj); [lia|done|]. eexists. split; [done|]. cbn in *. split; [lia|done]. }
  erewrite stbind_step by (apply (Hrd 1); lia).
  destruct (Z.eqb_spec (pending s 1) 0) as [E1|N1]; cbn [negb].
  2: { destruct (Hf 1) as (? & ? & Hj); [lia|done|]. eexists. split; [done|]. split; [lia|]. split; [done|].
       intros j Hlt. destruct (Z.lt_ge_cases j 32); [apply (He 0); [done|apply Hdiv; lia]|apply Hj; lia]. }
  erewrite stbind_step by (apply (Hrd 2); lia).
  destruct (Z.eqb_spec (pending s 2) 0) as [E2|N2]; cbn [negb].
  - eexists. split; [done|]. intros j Hj. destruct (Z.lt_ge_cases j 32); [apply (He 0); [done|apply Hdiv; lia]|].
    destruct (Z.lt_ge_cases j 64); [apply (He 1)|apply (He 2)]; done || (apply Hdiv; lia).
  - destruct (Hf 2) as (? & ? & Hj); [lia|done|]. eexists. split; [done|]. split; [lia|]. split; [done|].
    intros j Hlt. destruct (Z.lt_ge_cases j 32); [apply (He 0); [done|apply Hdiv; lia]|].
    destruct (Z.lt_ge_cases j 64); [apply (He 1); [done|apply Hdiv; lia]|apply Hj; lia].
Qed.

(** Calling the controller under its lock leaves the interrupt flag alone. *)
Lemma with_lock_ok {A} (f : st D A) on c t a c' : f c = Ret (a, c') ->
  with_lock 1 f (mkIrq (mkLock on false) (Some c) t) = Ret (a, mkIrq (mkLock on false) (Some c') t).
Proof using.
  intros E. unfold with_lock. erewrite stbind_step by reflexivity.
  erewrite stbind_step by (unfold on_ctl; cbn [ctl]; rewrite E; reflexivity).
  by destruct on.
Qed.
End Lines.

(** ** Theorems *)

Section Claims.
Context `{Profile} {D : Type} `{Bcm2835.IntcHw D}.
Import Bcm2835.

(** the BCM2835 controller enables or disables exactly the line asked
    for, on every line below 80; higher numbers are [InvalidIrq] and do not
    reach the hardware. *)
Theorem intc_one_line irq s : 0 <= irq ->
  (irq < 80 -> exists s1 s2,
     st_map_err into_error (enable irq) s = Ret (Ok tt, s1) /\
     st_map_err into_error (disable irq) s = Ret (Ok tt, s2) /\
     forall n, 0 <= n < 96 -> line_enabled s1 n = line_enabled s n || (n =? irq) /\
       line_enabled s2 n = line_enabled s n && negb (n =? irq)) /\
  (80 <= irq -> st_map_err into_error (enable irq) s = Ret (Err InvalidIrq, s) /\
     st_map_err into_error (disable irq) s = Ret (Err InvalidIrq, s)).
Proof using.
  intros Hi. split; [|apply ic_invalid]. intros Hlt.
  destruct (ic_enable_ok irq s) as (s1 & E1 & H2); [lia|].
  destruct (ic_disable_ok irq s) as (s2 & E2 & H3); [lia|]. exists s1, s2. auto.
Qed.

(** [next_pending] returns the least asserted line of the three banks,
    and [None] exactly when no line is asserted. *)
Theorem intc_next_pending s : exists r, ic_next_pending s = Ret (r, s) /\
  match r with
  | Some n => 0 <= n < 96 /\ pend_bit s n = true /\ forall j, 0 <= j < n -> pend_bit s j = false
  | None => forall j, 0 <= j < 96 -> pend_bit s j = false
  end.
Proof using. apply pending_irq_ok. Qed.

(** [dispatch] runs the registered handler once, with its line masked and
    CPU interrupts on, and ends with CPU interrupts off, the controller's
    lock free and the line enabled, whatever the handler did to it. *)
Theorem dispatch_masks_line {TrapFrame : Type} (call : Z -> TrapFrame -> st (irq_state D) TrapFrame)
    (log_unhandled : Z -> st (irq_state D) unit) on c t irq h tf tf' c2 t2 on2 : 0 <= irq < 80 -> t !! Z.to_nat irq = Some (Some h) ->
  (forall c1, line_enabled c1 irq = false ->
     call h tf (mkIrq (mkLock true false) (Some c1) t) = Ret (tf', mkIrq (mkLock on2 false) (Some c2) t2)) ->
  exists c3, dispatch call log_unhandled 1 irq tf (mkIrq (mkLock on false) (Some c) t) =
      Ret (tf', mkIrq (mkLock false false) (Some c3) t2) /\
    line_enabled c3 irq = true /\
    forall n, 0 <= n < 96 -> n <> irq -> line_enabled c3 n = line_enabled c2 n.
Proof using.
  intros Hi Ht Hcall. destruct (ic_disable_ok irq c) as (c1 & E1 & H2); [lia|].
  destruct (ic_enable_ok irq c2) as (c3 & E3 & H4); [lia|]. exists c3. split; [|split].
  - unfold dispatch. erewrite stbind_step by done. erewrite stbind_step by (by apply with_lock_ok).
    erewrite stbind_step by done. erewrite stbind_step.
    2: { unfold get_handler. cbn [IRQ_HANDLERS]. rewrite (index_ok _ _ _ (proj1 Hi) Ht). done. }
    erewrite stbind_step.
    2: { apply Hcall. rewrite H2, Z.eqb_refl by lia. apply andb_false_r. }
    erewrite stbind_step by done. by erewrite stbind_step by (by apply with_lock_ok).
  - rewrite H4, Z.eqb_refl by lia. apply orb_true_r.
  - intros n Hn Hne. rewrite H4 by done. rewrite (proj2 (Z.eqb_neq _ _)) by done. apply orb_false_r.
Qed.
End Claims.

(** ** A concrete controller *)

(** Three words of enabled lines, then three of pending lines. *)
Record IntcSim := mkSim { en0 : Z; en1 : Z; en2 : Z; pd0 : Z; pd1 : Z; pd2 : Z }.

Definition sim_enabled (s : IntcSim) (n : Z) : bool :=
  Z.testbit (if n / 32 =? 0 then en0 s else if n / 32 =? 1 then en1 s else en2 s) (n mod 32).

#[export] Instance sim_mmio : Mmio IntcSim := {
  read32 a s := ((if a =? Bcm2835.irq_1_pend then wrap 32 (pd0 s)
                  else if a =? Bcm2835.irq_2_pend then wrap 32 (pd1 s) else wrap 32 (pd2 s)), s);
  write32 a v s :=
    if a =? Bcm2835.enable_addr 0 then mkSim (Z.lor (en0 s) v) (en1 s) (en2 s) (pd0 s) (pd1 s) (pd2 s)
    else if a =? Bcm2835.enable_addr 1 then mkSim (en0 s) (Z.lor (en1 s) v) (en2 s) (pd0 s) (pd1 s) (pd2 s)
    else if a =? Bcm2835.enable_addr 2 then mkSim (en0 s) (en1 s) (Z.lor (en2 s) v) (pd0 s) (pd1 s) (pd2 s)
    else if a =? Bcm2835.disable_addr 0 then mkSim (Z.ldiff (en0 s) v) (en1 s) (en2 s) (pd0 s) (pd1 s) (pd2 s)
    else if a =? Bcm2835.disable_addr 1 then mkSim (en0 s) (Z.ldiff (en1 s) v) (en2 s) (pd0 s) (pd1 s) (pd2 s)
    else mkSim (en0 s) (en1 s) (Z.ldiff (en2 s) v) (pd0 s) (pd1 s) (pd2 s);
}.

Lemma sim_write bank v s : 0 <= bank <= 2 ->
  (let e := write32 (Bcm2835.enable_addr bank) v s in
   en0 e = (if bank =? 0 then Z.lor (en0 s) v else en0 s) /\
   en1 e = (if bank =? 1 then Z.lor (en1 s) v else en1 s) /\
   en2 e = (if bank =? 2 then Z.lor (en2 s) v else en2 s)) /\
  (let d := write32 (Bcm2835.disable_addr bank) v s in
   en0 d = (if bank =? 0 then Z.ldiff (en0 s) v else en0 s) /\
   en1 d = (if bank =? 1 then Z.ldiff (en1 s) v else en1 s) /\
   en2 d = (if bank =? 2 then Z.ldiff (en2 s) v else en2 s)).
Proof. intros Hb. assert (bank = 0 \/ bank = 1 \/ bank = 2) as [->|[->| ->]] by lia; done. Qed.

#[export] Instance sim_hw : Bcm2835.IntcHw IntcSim.
Proof.
  refine {| Bcm2835.line_enabled := sim_enabled;
    Bcm2835.pending s bank := wrap 32 (if bank =? 0 then pd0 s else if bank =? 1 then pd1 s else pd2 s) |}.
  - intros s bank. apply Z.mod_pos_bound. lia.
  - intros s bank v n Hb Hn. destruct (sim_write bank v s Hb) as [(E0 & E1 & E2) _]. unfold sim_enabled.
    rewrite E0, E1, E2. assert (0 <= n / 32 <= 2) as Hq by (pose proof (Z.div_mod n 32); pose proof (Z.mod_pos_bound n 32); lia).
    assert (n / 32 = 0 \/ n / 32 = 1 \/ n / 32 = 2) as [->|[->| ->]] by lia;
      assert (bank = 0 \/ bank = 1 \/ bank = 2) as [->|[->| ->]] by lia; cbn;
      rewrite ?Z.lor_spec, ?orb_false_r; done.
  - intros s bank v n Hb Hn. destruct (sim_write bank v s Hb) as [_ (E0 & E1 & E2)]. unfold sim_enabled.
    rewrite E0, E1, E2. assert (0 <= n / 32 <= 2) as Hq by (pose proof (Z.div_mod n 32); pose proof (Z.mod_pos_bound n 32); lia).
    assert (n / 32 = 0 \/ n / 32 = 1 \/ n / 32 = 2) as [->|[->| ->]] by lia;
      assert (bank = 0 \/ bank = 1 \/ bank = 2) as [->|[->| ->]] by lia; cbn;
      rewrite ?Z.ldiff_spec, ?andb_true_r; done.
  - intros s bank Hb. assert (bank = 0 \/ bank = 1 \/ bank = 2) as [->|[->| ->]] by lia; done.
Defined.

(** ** Witnesses *)

Section Witnesses.
#[local] Instance debug_profile : Profile := Build_Profile true.
Import Bcm2835.

Definition demo_intc : IntcSim := mkSim 0 0 0 0 4 1.

Lemma intc_one_line_witness :
  (57 < 80 -> exists s1 s2, st_map_err into_error (enable 57) demo_intc = Ret (Ok tt, s1) /\
     st_map_err into_error (disable 57) demo_intc = Ret (Ok tt, s2) /\
     forall n, 0 <= n < 96 -> line_enabled s1 n = line_enabled demo_intc n || (n =? 57) /\
       line_enabled s2 n = line_enabled demo_intc n && negb (n =? 57)) /\
  (80 <= 57 -> st_map_err into_error (enable 57) demo_intc = Ret (Err InvalidIrq, demo_intc) /\
     st_map_err into_error (disable 57) demo_intc = Ret (Err InvalidIrq, demo_intc)).
Proof using. apply intc_one_line. lia. Defined.

Definition demo_call (h : Z) (tf : nat) : st (irq_state IntcSim) nat := fun s =>
  Ret (S tf, mkIrq (mkLock true false) (Some demo_intc) (IRQ_HANDLERS s)).

Lemma dispatch_masks_line_witness : exists c3,
  dispatch demo_call (fun _ => mret tt) 1 1 O (mkIrq (mkLock false false) (Some demo_intc) [None; Some 4096]) =
    Ret (1%nat, mkIrq (mkLock false false) (Some c3) [None; Some 4096]) /\
  line_enabled c3 1 = true /\ forall n, 0 <= n < 96 -> n <> 1 -> line_enabled c3 n = line_enabled demo_intc n.
Proof using.
  by apply (dispatch_masks_line demo_call (fun _ => mret tt) false demo_intc [None; Some 4096] 1 4096 O 1%nat demo_intc _ true);
    [lia|..].
Defined.
End Witnesses.
