(* ===== verification/BTree.v ===== *)
(** * [BTreeMap<String, V>]

    The ordered maps of the device manager and of the device file system, as
    association lists kept in strictly increasing order of their keys (Rust
    compares strings by bytes, [String.compare] by characters of one byte). *)
From Stdlib Require Import Sorting.Sorted.
From S2P Require Import Prelude.

(** ** Definitions *)

Definition btree (V : Type) : Type := list (string * V).

Definition str_lt (a b : string) : Prop := String.compare a b = Lt.

Section Operations.
Context {V : Type}.

Fixpoint bt_insert (k : string) (v : V) (t : btree V) : btree V :=
  match t with
  | [] => [(k, v)]
  | (k', v') :: t' =>
      match String.compare k k' with
      | Lt => (k, v) :: t
      | Eq => (k, v) :: t'
      | Gt => (k', v') :: bt_insert k v t'
      end
  end.

Fixpoint bt_get (k : string) (t : btree V) : option V :=
  match t with
  | [] => None
  | (k', v) :: t => if String.eqb k k' then Some v else bt_get k t
  end.

Definition bt_keys (t : btree V) : list string := map fst t.
Definition bt_values (t : btree V) : list V := map snd t.

Definition bt_sorted (t : btree V) : Prop := Sorted str_lt (bt_keys t).
End Operations.

(** ** Lemmas *)

Section Lemmas.
Context {V : Type}.

Lemma str_compare_refl a : String.compare a a = Eq.
Proof. pose proof (String.compare_antisym a a) as E. by destruct (String.compare a a). Qed.

Lemma str_lt_irrefl a : ~ str_lt a a.
Proof. unfold str_lt. by rewrite str_compare_refl. Qed.

Lemma compare_gt a b : String.compare a b = Gt -> str_lt b a.
Proof. unfold str_lt. rewrite String.compare_antisym. by destruct (String.compare b a). Qed.

Lemma bt_get_insert_eq k (v : V) t : bt_get k (bt_insert k v t) = Some v.
Proof.
  induction t as [|[k' v'] t IH]; cbn; [by rewrite String.eqb_refl|].
  destruct (String.compare k k') eqn:E; cbn; rewrite ?String.eqb_refl; try done.
  destruct (String.eqb_spec k k') as [->|]; [|done].
  by rewrite str_compare_refl in E.
Qed.

Lemma bt_get_insert_ne k k' (v : V) t : k <> k' -> bt_get k (bt_insert k' v t) = bt_get k t.
Proof.
  intros Hne. induction t as [|[k1 v1] t IH]; cbn.
  { by rewrite (proj2 (String.eqb_neq k k')). }
  destruct (String.compare k' k1) eqn:E; cbn.
  - apply String.compare_eq_iff in E as <-. by rewrite (proj2 (String.eqb_neq k k')).
  - by rewrite (proj2 (String.eqb_neq k k')).
  - by rewrite IH.
Qed.

Lemma bt_insert_sorted k (v : V) t : bt_sorted t -> bt_sorted (bt_insert k v t).
Proof.
  unfold bt_sorted. induction t as [|[k' v'] t IH]; cbn; intros Hs; [by repeat constructor|].
  apply Sorted_inv in Hs as [Hs Hh]. destruct (String.compare k k') eqn:E; cbn.
  - apply String.compare_eq_iff in E as <-. by constructor.
  - constructor; [by constructor|by constructor].
  - constructor; [by apply IH|]. destruct t as [|[k1 v1] t]; cbn; [constructor; by apply compare_gt|].
    apply HdRel_inv in Hh.
    destruct (String.compare k k1); cbn; constructor; try done; by apply compare_gt.
Qed.

Lemma bt_get_in k (v : V) t : bt_get k t = Some v -> (k, v) ∈ t.
Proof.
  induction t as [|[k' v'] t IH]; cbn; [done|].
  destruct (String.eqb_spec k k') as [->|]; [intros [= ->]; apply list_elem_of_here|].
  intros ?. apply list_elem_of_further. auto.
Qed.

Lemma bt_get_keys k (t : btree V) : k ∈ bt_keys t <-> exists v, bt_get k t = Some v.
Proof.
  induction t as [|[k' v'] t IH]; cbn; [set_solver|].
  destruct (String.eqb_spec k k') as [->|Hne]; [split; [by eexists|intros; apply list_elem_of_here]|].
  unfold bt_keys in *. rewrite <- IH, elem_of_cons. naive_solver.
Qed.
End Lemmas.
