(* ===== verification/Devices.v ===== *)
(** * The device manager (drivers/src/device_manager.rs)

    A registry of devices by name.  A device is a tagged reference-counted
    handle; what is behind a handle is left abstract here ([H]), since the
    manager only stores and hands out handles. *)
From S2P Require Import Prelude BTree.

(** ** Data *)

Inductive kind := Serial | Block | FrameBuffer | Timer | InterruptController.

#[export] Instance kind_eq_dec : EqDecision kind.
Proof. solve_decision. Defined.

Section Manager.
Context {H : Type}.      (* [Arc<..>] handles *)

Record Device := mkDevice { dkind : kind; handle : H }.

(** [DeviceManager::devices] and the static [SYS_TIMER_CHANNEL]. *)
Record DeviceManager := mkManager {
  devices : btree Device;
  SYS_TIMER_CHANNEL : option Z;
}.

Definition new : DeviceManager := mkManager [] None.

Definition register (name : string) (device : Device) (dm : DeviceManager) : DeviceManager :=
  mkManager (bt_insert name device (devices dm)) (SYS_TIMER_CHANNEL dm).

Definition get (dm : DeviceManager) (name : string) : option Device := bt_get name (devices dm).

Definition list_names (dm : DeviceManager) : list string := bt_keys (devices dm).

(** The accessors [serial], [block], [framebuffer], [timer] and
    [interrupt_controller] differ in the variant they match. *)
Definition typed (k : kind) (dm : DeviceManager) (name : string) : option H :=
  d ← get dm name;
  if decide (dkind d = k) then Some (handle d) else None.

Definition serial := typed Serial.
Definition block := typed Block.
Definition framebuffer := typed FrameBuffer.
Definition timer := typed Timer.
Definition interrupt_controller := typed InterruptController.

(** [for (_name, device) in &self.devices]: the first device of a kind. *)
Fixpoint first_of (k : kind) (t : btree Device) : option H :=
  match t with
  | [] => None
  | (_, d) :: t => if decide (dkind d = k) then Some (handle d) else first_of k t
  end.

Definition or_else {A} (o : option A) (k : option A) : option A :=
  match o with Some a => Some a | None => k end.

Definition serial_console (dm : DeviceManager) : option H :=
  match serial dm "console" with
  | Some console => Some console
  | None =>
      match serial dm "serial0" with
      | Some serial0 => Some serial0
      | None => first_of Serial (devices dm)
      end
  end.

Definition system_timer (dm : DeviceManager) : option H :=
  or_else (timer dm "system_timer") (or_else (timer dm "timer") (first_of Timer (devices dm))).

Definition irq_controller (dm : DeviceManager) : option H :=
  or_else (interrupt_controller dm "intc")
    (or_else (interrupt_controller dm "pic")
      (or_else (interrupt_controller dm "gic") (first_of InterruptController (devices dm)))).

Definition sys_timer_channel (dm : DeviceManager) : option Z := SYS_TIMER_CHANNEL dm.

Definition reg_result : Type := result DeviceManager string.

Definition register_serial (name : string) (h : H) (dm : DeviceManager) : reg_result :=
  Ok (register name (mkDevice Serial h) dm).
Definition register_block (name : string) (h : H) (dm : DeviceManager) : reg_result :=
  Ok (register name (mkDevice Block h) dm).
Definition register_framebuffer (name : string) (h : H) (dm : DeviceManager) : reg_result :=
  Ok (register name (mkDevice FrameBuffer h) dm).

(** The channel cell can be set once. *)
Definition register_timer (name : string) (h : H) (sys_channel : option Z) (dm : DeviceManager) : reg_result :=
  match sys_channel with
  | Some channel =>
      match SYS_TIMER_CHANNEL dm with
      | Some _ => Err "System timer channel already set"%string
      | None => Ok (register name (mkDevice Timer h) (mkManager (devices dm) (Some channel)))
      end
  | None => Ok (register name (mkDevice Timer h) dm)
  end.

Definition register_interrupt_controller (name : string) (h : H) (dm : DeviceManager) : reg_result :=
  Ok (register name (mkDevice InterruptController h) dm).

Definition count_of (k : kind) (dm : DeviceManager) : nat :=
  length (filter (fun d => dkind d = k) (bt_values (devices dm))).
Definition count_serial := count_of Serial.
Definition count_block := count_of Block.
Definition count_timer := count_of Timer.
Definition is_empty (dm : DeviceManager) : bool :=
  match devices dm with [] => true | _ => false end.
Definition count (dm : DeviceManager) : nat := length (devices dm).
Definition serial_devices (dm : DeviceManager) : list H :=
  omap (fun d => if decide (dkind d = Serial) then Some (handle d) else None) (bt_values (devices dm)).
End Manager.
Arguments Device : clear implicits.
Arguments DeviceManager : clear implicits.

(** ** Lemmas *)

Section Lemmas.
Context {H : Type}.

Lemma typed_register_eq k name (d : Device H) dm :
  typed k (register name d dm) name = if decide (dkind d = k) then Some (handle d) else None.
Proof. unfold typed, get, register. cbn [devices]. by rewrite bt_get_insert_eq. Qed.

Lemma typed_register_ne k name name' (d : Device H) dm : name <> name' ->
  typed k (register name' d dm) name = typed k dm name.
Proof. intros Hne. unfold typed, get, register. cbn [devices]. by rewrite bt_get_insert_ne. Qed.

(** The first device of a kind exists when some device has the kind, and no
    device before it in key order does. *)
Lemma first_of_spec k (t : btree (Device H)) : match first_of k t with
  | Some h => exists t1 name d t2, t = t1 ++ (name, d) :: t2 /\ handle d = h /\ dkind d = k /\
      Forall (fun e => dkind e.2 <> k) t1
  | None => Forall (fun e => dkind e.2 <> k) t
  end.
Proof.
  induction t as [|[n d] t IH]; cbn [first_of]; [constructor|].
  destruct (decide (dkind d = k)) as [E|E].
  - exists [], n, d, t. auto.
  - destruct (first_of k t); [|by constructor].
    destruct IH as (t1 & n' & d' & t2 & -> & ? & ? & ?). exists ((n, d) :: t1), n', d', t2.
    do 3 (split; [done|]). by constructor.
Qed.
End Lemmas.

(** ** Theorems *)

Section Claims.
Context {H : Type}.

(** a name looked up under a kind gives the handle registered last under
    that name if it has that kind and nothing otherwise; other names are
    unaffected and the registry stays ordered by name. *)
Theorem device_registry_correct k name name' (d : Device H) dm : bt_sorted (devices dm) ->
  typed k (register name' d dm) name =
    (if decide (name = name') then (if decide (dkind d = k) then Some (handle d) else None)
     else typed k dm name) /\
  bt_sorted (devices (register name' d dm)).
Proof.
  intros Hs. split; [|by apply bt_insert_sorted]. destruct (decide (name = name')) as [->|Hne].
  - apply typed_register_eq.
  - by apply typed_register_ne.
Qed.

(** the console is the device named "console", else the one named
    "serial0", else the serial device whose name comes first; there is none
    only when no serial device is registered. *)
Theorem serial_console_choice (dm : DeviceManager H) :
  match serial_console dm with
  | Some h =>
      serial dm "console" = Some h \/
      (serial dm "console" = None /\ serial dm "serial0" = Some h) \/
      (serial dm "console" = None /\ serial dm "serial0" = None /\
       exists t1 name d t2, devices dm = t1 ++ (name, d) :: t2 /\ handle d = h /\ dkind d = Serial /\
         Forall (fun e => dkind e.2 <> Serial) t1)
  | None => Forall (fun e => dkind e.2 <> Serial) (devices dm)
  end.
Proof.
  unfold serial_console. destruct (serial dm "console") eqn:E1; [by left|].
  destruct (serial dm "serial0") eqn:E2; [right; by left|].
  pose proof (first_of_spec Serial (devices dm)) as Hf.
  destruct (first_of Serial (devices dm)); [|done]. right. by right.
Qed.
End Claims.

(** ** Witnesses *)

Lemma device_registry_correct_witness :
  typed Serial (register "uart0" (mkDevice Serial 7) new) "uart0" = Some 7 /\
  bt_sorted (devices (register "uart0" (mkDevice Serial 7) new)).
Proof.
  apply (device_registry_correct Serial "uart0" "uart0" (mkDevice Serial 7) new). constructor.
Defined.
