(* ===== verification/Timer.v ===== *)
(** * Timers

    The timer traits (drivers/src/hal/timer.rs), the BCM2835 system timer
    (drivers/src/peripheral/bcm2835/timer.rs), the i8254 interval timer
    (drivers/src/peripheral/x86/i8254_pit.rs) and the timer interrupt handler
    of the kernel (kernel/src/irq/handlers.rs). *)
From S2P Require Import Prelude Mmio BTree Devices.

(** ** The HAL *)

Inductive TimerMode := OneShot | Periodic.

Inductive TimerError :=
  InvalidHandle | IntervalOutOfRange | NotRunning | AlreadyRunning | Hardware | Unsupported | OtherError.

Class Timer (S T Handle E : Type) := {
  start : T -> Handle -> Z -> st S (result unit E);
  stop : T -> Handle -> st S (result unit E);
  clear_interrupt : T -> Handle -> st S (result unit E);
  is_pending : T -> Handle -> st S (result bool E);
  handle_of_usize : Z -> Handle;
  timer_error : E -> TimerError;
}.

Class CountingTimer (S T : Type) := { now_us : T -> st S Z }.

Section Delay.
Context `{Profile} {S T : Type} `{CountingTimer S T}.

(** The loop of [delay_us]. *)
Fixpoint delay_loop (fuel : nat) (t : T) (begin duration : Z) : st S unit :=
  match fuel with
  | O => out_of_fuel
  | Datatypes.S fuel =>
      n ← now_us t;
      if wrapping_sub 64 n begin <? duration then delay_loop fuel t begin duration else mret tt
  end.

Definition delay_us (fuel : nat) (t : T) (us : Z) : st S unit :=
  begin ← now_us t; delay_loop fuel t begin us.

(** [us.saturating_mul(1000)]. *)
Definition delay_ms (fuel : nat) (t : T) (ms : Z) : st S unit :=
  delay_us fuel t (Z.min (2 ^ 32 - 1) (ms * 1000)).
End Delay.

(** [DynTimer]: the handle is a [usize] and errors are converted. *)
Section Dyn.
Context {S T Handle E : Type} `{Timer S T Handle E}.

Definition dyn_start (t : T) (handle interval_us : Z) : st S (result unit TimerError) :=
  st_map_err timer_error (start t (handle_of_usize handle) interval_us).
Definition dyn_stop (t : T) (handle : Z) : st S (result unit TimerError) :=
  st_map_err timer_error (stop t (handle_of_usize handle)).
Definition dyn_clear_interrupt (t : T) (handle : Z) : st S (result unit TimerError) :=
  st_map_err timer_error (clear_interrupt t (handle_of_usize handle)).
Definition dyn_is_pending (t : T) (handle : Z) : st S (result bool TimerError) :=
  st_map_err timer_error (is_pending t (handle_of_usize handle)).
End Dyn.

(** ** The interrupt handler *)

Section Handler.
Context {S T Handle E : Type} `{Timer S T Handle E}.
(** [None] stands for a device other than a timer, which [system_timer] never
    returns; writing to the console is the business of its driver. *)
Context {D : Type} (as_timer : D -> option T) (console_write : D -> list Z -> st S unit).

Definition tick_message : list Z := [84; 105; 109; 101; 114; 32; 105; 110; 116; 101; 114; 114; 117; 112; 116; 10].

(** [Option::expect] and [Result::expect]. *)
Definition expect_some {A} (o : option A) : st S A := match o with Some a => mret a | None => panic end.
Definition expect_ok {A F} (m : st S (result A F)) : st S A :=
  r ← m; match r with Ok a => mret a | Err _ => panic end.

Definition timer_handler (dm : DeviceManager D) : st S unit :=
  channel ← expect_some (sys_timer_channel dm);
  sys_timer ← expect_some (system_timer dm);
  timer ← expect_some (as_timer sys_timer);
  _ ← expect_ok (dyn_stop timer channel);
  _ ← expect_ok (dyn_clear_interrupt timer channel);
  console ← expect_some (serial_console dm);
  _ ← console_write console tick_message;
  expect_ok (dyn_start timer channel 1000000).
End Handler.

(** ** The BCM2835 system timer *)

Module Bcm2835.

Definition TIMER_BASE : Z := 0x20003000.
Definition CS : Z := TIMER_BASE.
Definition CLO : Z := TIMER_BASE + 4.
Definition CHI : Z := TIMER_BASE + 8.

Inductive Channel := Channel0 | Channel1 | Channel2 | Channel3.

Definition irq_number (c : Channel) : Z :=
  match c with Channel0 => 0 | Channel1 => 1 | Channel2 => 2 | Channel3 => 3 end.
Definition bitmask (c : Channel) : Z := Z.shiftl 1 (irq_number c).

Definition channel_of (value : Z) : Channel :=
  match value with 1 => Channel1 | 2 => Channel2 | 3 => Channel3 | _ => Channel0 end.

Inductive TimerErr := InvalidChannel | InvalidBaseAddress | IntervalTooLarge | CounterOverflow.

Definition into_error (e : TimerErr) : TimerError :=
  match e with
  | InvalidChannel => InvalidHandle
  | IntervalTooLarge => IntervalOutOfRange
  | CounterOverflow | InvalidBaseAddress => Hardware
  end.

Definition compare_reg (c : Channel) : Z := TIMER_BASE + 12 + 4 * irq_number c.

Section Driver.
Context {D : Type} `{Mmio D}.

Definition read_counter : st D Z :=
  hi1 ← read_volatile CHI;
  lo ← read_volatile CLO;
  hi2 ← read_volatile CHI;
  '(hi, lo) ← (if negb (hi1 =? hi2) then lo ← read_volatile CLO; mret (hi2, lo) else mret (hi1, lo));
  mret (Z.lor (Z.shiftl hi 32) lo).

Definition start_timer (c : Channel) (interval_us : Z) : st D unit :=
  clo ← read_volatile CLO;
  _ ← write_volatile CS (bitmask c);
  write_volatile (compare_reg c) (wrapping_add 32 clo interval_us).

Definition clear (c : Channel) : st D unit := write_volatile CS (bitmask c).

Definition pending (c : Channel) : st D bool :=
  cs ← read_volatile CS; mret (negb (Z.land cs (bitmask c) =? 0)).

(** [Bcm2835Timer] has no fields. *)
Inductive Bcm2835Timer := TheTimer.

Definition new (base : Z) : result Bcm2835Timer TimerErr :=
  if negb (base =? TIMER_BASE) then Err InvalidBaseAddress else Ok TheTimer.

#[global] Instance bcm_timer : Timer D Bcm2835Timer Channel TimerErr := {
  start _ handle interval_us := _ ← start_timer handle interval_us; mret (Ok tt);
  stop _ handle := _ ← clear handle; mret (Ok tt);
  clear_interrupt _ handle := _ ← clear handle; mret (Ok tt);
  is_pending _ handle := b ← pending handle; mret (Ok b);
  handle_of_usize := channel_of;
  timer_error := into_error;
}.

#[global] Instance bcm_counting : CountingTimer D Bcm2835Timer := { now_us _ := read_counter }.
End Driver.
End Bcm2835.

(** ** The i8254 interval timer *)

Module I8254.

Definition PIT_MODE_CMD : Z := 0x43.
Definition PIT_FREQUENCY_HZ : Z := 1193182.
Definition ACCESS_LOHI : Z := 48.
Definition MODE_RATE : Z := 4.
Definition MODE_ONESHOT : Z := 2.

Inductive PitChannel := Pit0 | Pit1 | Pit2.

Definition channel_code (c : PitChannel) : Z := match c with Pit0 => 0 | Pit1 => 1 | Pit2 => 2 end.
Definition channel_of (n : Z) : PitChannel := match n with 1 => Pit1 | 2 => Pit2 | _ => Pit0 end.

Inductive I8254PITError := PitInvalidHandle | HardwareAccessError.

Definition into_error (e : I8254PITError) : TimerError :=
  match e with PitInvalidHandle => InvalidHandle | HardwareAccessError => Hardware end.

Record I8254PIT := mkPit { elapsed_us : Z }.
Definition new : I8254PIT := mkPit 0.

Definition data_port (c : PitChannel) : Z := match c with Pit0 => 0x40 | Pit1 => 0x41 | Pit2 => 0x42 end.

Definition us_to_divisor (interval_us : Z) : Z :=
  let ticks := interval_us * PIT_FREQUENCY_HZ / 1000000 in Z.min 65535 (Z.max 1 ticks).

Section Driver.
Context `{Profile} {D : Type} `{PortIo D}.

Definition program (c : PitChannel) (mode_bits divisor : Z) : st D unit :=
  let sel := Z.shiftl (channel_code c) 6 in
  let cmd := Z.lor (Z.lor sel ACCESS_LOHI) mode_bits in
  _ ← outb PIT_MODE_CMD cmd;
  _ ← outb (data_port c) (Z.land divisor 0xff);
  outb (data_port c) (wrap 8 (Z.shiftr divisor 8)).

Definition read_count (c : PitChannel) : st D Z :=
  let sel := Z.shiftl (channel_code c) 6 in
  _ ← outb PIT_MODE_CMD sel;
  lo ← inb (data_port c);
  hi ← inb (data_port c);
  mret (Z.lor lo (wrap 16 (Z.shiftl hi 8))).

#[global] Instance pit_timer : Timer D I8254PIT PitChannel I8254PITError := {
  start _ handle interval_us :=
    let divisor := us_to_divisor interval_us in
    _ ← program handle MODE_ONESHOT divisor; mret (Ok tt);
  stop _ _ := _ ← program Pit0 MODE_ONESHOT 0; mret (Ok tt);
  clear_interrupt _ _ := mret (Ok tt);
  is_pending _ handle :=
    let sel := Z.lor 0xe0 (Z.shiftl 1 (channel_code handle + 1)) in
    _ ← outb PIT_MODE_CMD sel;
    status ← inb (data_port handle);
    mret (Ok (negb (Z.land status 0x80 =? 0)));
  handle_of_usize := channel_of;
  timer_error := into_error;
}.

Definition start_periodic (handle : PitChannel) (interval_us : Z) : st D (result unit I8254PITError) :=
  let divisor := us_to_divisor interval_us in
  _ ← program handle MODE_RATE divisor; mret (Ok tt).

#[global] Instance pit_counting : CountingTimer D I8254PIT := {
  now_us t :=
    count ← read_count Pit0;
    let ticks_elapsed := saturating_sub 65535 count in
    us ← lift (mul 64 ticks_elapsed 1000000);
    lift (add 64 (elapsed_us t) (us / PIT_FREQUENCY_HZ));
}.
End Driver.
End I8254.

(** ** The system timer's hardware *)

(** What the drivers rely on: a 64-bit counter that never goes back and
    advances by less than 2^30 between accesses, compare registers that keep
    what is written, and match flags cleared by writing ones. *)
Class SysTimer (D : Type) `{Mmio D} := {
  counter : D -> Z;
  compare : D -> Bcm2835.Channel -> Z;
  matched : D -> Bcm2835.Channel -> bool;
  counter_range d : 0 <= counter d < 2 ^ 64;
  read_clo d : exists d', read32 Bcm2835.CLO d = (counter d mod 2 ^ 32, d') /\
    counter d <= counter d' < counter d + 2 ^ 30 /\ forall c, compare d' c = compare d c;
  read_chi d : exists d', read32 Bcm2835.CHI d = (counter d / 2 ^ 32, d') /\
    counter d <= counter d' < counter d + 2 ^ 30 /\ forall c, compare d' c = compare d c;
  write_cs v d : let d' := write32 Bcm2835.CS v d in
    counter d <= counter d' < counter d + 2 ^ 30 /\ (forall c, compare d' c = compare d c) /\
    forall c, matched d' c = matched d c && negb (Z.testbit v (Bcm2835.irq_number c));
  write_compare c v d : let d' := write32 (Bcm2835.compare_reg c) v d in
    counter d <= counter d' < counter d + 2 ^ 30 /\
    (forall c', compare d' c' = if decide (Bcm2835.irq_number c' = Bcm2835.irq_number c) then v else compare d c') /\
    forall c', Bcm2835.irq_number c' <> Bcm2835.irq_number c -> matched d' c' = matched d c';
}.

(** ** Lemmas *)

Section SystemTimer.
Context {D : Type} `{SysTimer D}.

Lemma join_words hi lo : 0 <= lo < 2 ^ 32 -> 0 <= hi -> Z.lor (Z.shiftl hi 32) lo = hi * 2 ^ 32 + lo.
Proof. intros Hl Hh. rewrite Z.shiftl_mul_pow2 by lia. apply (lor_low _ _ 32); [lia|by exists hi|done]. Qed.

Lemma same_high a b c : a <= b <= c -> a / 2 ^ 32 = c / 2 ^ 32 -> b / 2 ^ 32 = a / 2 ^ 32.
Proof. intros Hab E. pose proof (Z.div_le_mono a b (2 ^ 32)). pose proof (Z.div_le_mono b c (2 ^ 32)). lia. Qed.

Lemma next_high a b c : a <= b <= c -> c < a + 2 ^ 32 -> a / 2 ^ 32 <> b / 2 ^ 32 -> c / 2 ^ 32 = b / 2 ^ 32.
Proof.
  intros Hab Hc Hne. pose proof (Z.div_le_mono a b (2 ^ 32)). pose proof (Z.div_le_mono b c (2 ^ 32)).
  pose proof (Z.div_mod a (2 ^ 32)). pose proof (Z.div_mod c (2 ^ 32)).
  pose proof (Z.mod_pos_bound a (2 ^ 32)). pose proof (Z.mod_pos_bound c (2 ^ 32)). nia.
Qed.

Lemma read_counter_ok d : exists v d', Bcm2835.read_counter d = Ret (v, d') /\ counter d <= v <= counter d' /\
  counter d' < counter d + 2 ^ 32 /\ forall c, compare d' c = compare d c.
Proof.
  destruct (read_chi d) as (d1 & E1 & T1 & C1). destruct (read_clo d1) as (d2 & E2 & T2 & C2).
  destruct (read_chi d2) as (d3 & E3 & T3 & C3). destruct (read_clo d3) as (d4 & E4 & T4 & C4).
  pose proof (counter_range d). pose proof (counter_range d1). pose proof (counter_range d2). pose proof (counter_range d3).
  pose proof (Z.mod_pos_bound (counter d1) (2 ^ 32)). pose proof (Z.mod_pos_bound (counter d3) (2 ^ 32)).
  assert (Hdm : forall x, x / 2 ^ 32 * 2 ^ 32 + x mod 2 ^ 32 = x) by (intros; pose proof (Z.div_mod x (2 ^ 32)); lia).
  unfold Bcm2835.read_counter, read_volatile. erewrite stbind_step by (by rewrite E1).
  erewrite stbind_step by (by rewrite E2). erewrite stbind_step by (by rewrite E3). cbv beta.
  destruct (Z.eqb_spec (counter d / 2 ^ 32) (counter d2 / 2 ^ 32)) as [Eh|Eh]; cbn [negb].
  - erewrite stbind_step by done. cbv beta iota. rewrite join_words by (try lia; apply Z.div_pos; lia).
    exists (counter d1), d3. split; [|split; [lia|split; [lia|congruence]]]. unfold mret, st_ret. do 2 f_equal.
    rewrite <- (same_high (counter d) (counter d1) (counter d2)) by (done || lia). apply Hdm.
  - erewrite stbind_step by (erewrite stbind_step by (by rewrite E4); done). cbv beta iota.
    rewrite join_words by (try lia; apply Z.div_pos; lia).
    exists (counter d3), d4. split; [|split; [lia|split; [lia|congruence]]]. unfold mret, st_ret. do 2 f_equal.
    rewrite <- (next_high (counter d) (counter d2) (counter d3)) by (done || lia). apply Hdm.
Qed.

Lemma start_ok c interval d : exists d' t, Bcm2835.start_timer c interval d = Ret (tt, d') /\
  counter d <= t <= counter d' /\ compare d' c = (t + interval) mod 2 ^ 32 /\
  forall c', Bcm2835.irq_number c' <> Bcm2835.irq_number c -> compare d' c' = compare d c'.
Proof.
  destruct (read_clo d) as (d1 & E1 & T1 & C1). unfold Bcm2835.start_timer, read_volatile.
  erewrite stbind_step by (by rewrite E1). cbv beta. erewrite stbind_step by done.
  set (d2 := write32 Bcm2835.CS (Bcm2835.bitmask c) d1). destruct (write_cs (Bcm2835.bitmask c) d1) as (T2 & C2 & _). fold d2 in T2, C2.
  set (v := wrapping_add 32 (counter d mod 2 ^ 32) interval).
  destruct (write_compare c v d2) as (T3 & C3 & _).
  eexists _, (counter d). split; [done|]. fold d2 v. split; [lia|]. split.
  - rewrite C3, decide_True by done. unfold v, wrapping_add, wrap. by rewrite Zplus_mod_idemp_l.
  - intros c' Hc'. rewrite C3, decide_False by done. by rewrite C2, C1.
Qed.

Lemma timer_clear_ok c d : exists d', Bcm2835.clear c d = Ret (tt, d') /\ matched d' c = false /\
  counter d <= counter d' /\ forall c', compare d' c' = compare d c'.
Proof.
  destruct (write_cs (Bcm2835.bitmask c) d) as (T & C & M). eexists. split; [done|]. split; [|split; [lia|exact C]].
  rewrite M. replace (Z.testbit (Bcm2835.bitmask c) (Bcm2835.irq_number c)) with true by (by destruct c).
  apply andb_false_r.
Qed.
End SystemTimer.

Lemma pit_now_ok `{Profile} {D : Type} `{PortIo D} (s : D) : (forall p x, fits 8 (in8 p x).1) ->
  exists t s', now_us I8254.new s = Ret (t, s') /\ 0 <= t <= 54924.
Proof.
  intros Hin. set (s1 := out8 I8254.PIT_MODE_CMD (Z.shiftl (I8254.channel_code I8254.Pit0) 6) s).
  destruct (in8 (I8254.data_port I8254.Pit0) s1) as [lo s2] eqn:E1.
  destruct (in8 (I8254.data_port I8254.Pit0) s2) as [hi s3] eqn:E2.
  pose proof (Hin (I8254.data_port I8254.Pit0) s1) as H1. rewrite E1 in H1. cbn [fst] in H1.
  set (count := Z.lor lo (wrap 16 (Z.shiftl hi 8))).
  assert (Hc : 0 <= count).
  { apply Z.lor_nonneg. split; [unfold fits in H1; lia|apply Z.mod_pos_bound; lia]. }
  assert (Hq : 0 <= saturating_sub 65535 count * 1000000 / I8254.PIT_FREQUENCY_HZ <= 54924).
  { unfold saturating_sub, I8254.PIT_FREQUENCY_HZ. split; [apply Z.div_pos; lia|].
    apply Z.lt_succ_r, Z.div_lt_upper_bound; lia. }
  exists (saturating_sub 65535 count * 1000000 / I8254.PIT_FREQUENCY_HZ), s3. split; [|done].
  assert (Er : I8254.read_count I8254.Pit0 s = Ret (count, s3)).
  { unfold I8254.read_count, mbind, st_bind, outb, inb. fold s1. by rewrite E1, E2. }
  cbn [now_us I8254.pit_counting]. erewrite stbind_step by exact Er. cbv beta zeta. clearbody count.
  erewrite stbind_step by (rewrite mul_ok by (unfold fits, saturating_sub; lia); done).
  rewrite add_ok; [done|]. unfold fits. cbn [I8254.elapsed_us I8254.new]. lia.
Qed.

(** ** Theorems *)

(** reading the two halves of the system timer's counter is consistent: even
    when the high word changes between the reads, the value returned is one
    the counter had, or passed, between the first and the last read. *)
Theorem bcm_counter_consistent `{SysTimer D} d : exists v d',
  Bcm2835.read_counter d = Ret (v, d') /\ counter d <= v <= counter d' /\ counter d' < counter d + 2 ^ 32.
Proof. destruct (read_counter_ok d) as (v & d' & E & Hv & Ht & _). by exists v, d'. Qed.

(** with a system timer channel, timer and console registered, the timer
    interrupt handler clears the channel's match before it writes to the
    console and rearms the channel to fire a second after a time during the
    handler, leaving the other channels alone; without one of them it panics. *)
Theorem timer_handler_rearms `{SysTimer D} {T : Type} (as_timer : T -> option Bcm2835.Bcm2835Timer)
    (console_write : T -> list Z -> st D unit) (dm : DeviceManager T) d :
  (forall ch h c, sys_timer_channel dm = Some ch -> system_timer dm = Some h ->
     as_timer h = Some Bcm2835.TheTimer -> serial_console dm = Some c ->
     (forall x, exists x', console_write c tick_message x = Ret (tt, x') /\ counter x <= counter x' /\
        forall k, compare x' k = compare x k) ->
     exists d1 d2 d3 t, matched d1 (Bcm2835.channel_of ch) = false /\ counter d <= counter d1 /\
       console_write c tick_message d1 = Ret (tt, d2) /\
       timer_handler as_timer console_write dm d = Ret (tt, d3) /\ counter d <= t <= counter d3 /\
       compare d3 (Bcm2835.channel_of ch) = (t + 1000000) mod 2 ^ 32 /\
       forall k, Bcm2835.irq_number k <> Bcm2835.irq_number (Bcm2835.channel_of ch) -> compare d3 k = compare d k) /\
  (sys_timer_channel dm = None \/ system_timer dm = None -> timer_handler as_timer console_write dm d = Panic).
Proof.
  split.
  - intros ch h c Ech Eh Et Ec Hw. set (k0 := Bcm2835.channel_of ch).
    destruct (timer_clear_ok k0 d) as (da & Ea & Ma & Ta & Ca). destruct (timer_clear_ok k0 da) as (d1 & E1 & M1 & T1 & C1).
    destruct (Hw d1) as (d2 & E2 & T2 & C2). destruct (start_ok k0 1000000 d2) as (d3 & t & E3 & T3 & C3 & O3).
    exists d1, d2, d3, t. split_and!; try done; try lia.
    + unfold timer_handler. rewrite Ech, Eh, Ec. cbn [expect_some]. do 2 erewrite stbind_step by done.
      rewrite Et. erewrite stbind_step by done.
      assert (Hst : forall x y, Bcm2835.clear k0 x = Ret (tt, y) ->
        expect_ok (dyn_stop Bcm2835.TheTimer ch) x = Ret (tt, y) /\
        expect_ok (dyn_clear_interrupt Bcm2835.TheTimer ch) x = Ret (tt, y)).
      { intros x y E. unfold expect_ok, dyn_stop, dyn_clear_interrupt, st_map_err. cbn [stop clear_interrupt handle_of_usize Bcm2835.bcm_timer].
        fold k0. unfold mbind, st_bind. by rewrite E. }
      erewrite stbind_step by apply (proj1 (Hst _ _ Ea)). erewrite stbind_step by apply (proj2 (Hst _ _ E1)).
      erewrite stbind_step by done. erewrite stbind_step by exact E2.
      unfold expect_ok, dyn_start, st_map_err. cbn [start handle_of_usize Bcm2835.bcm_timer]. fold k0.
      unfold mbind, st_bind. by rewrite E3.
    + intros k Hk. by rewrite O3, C2, C1, Ca.
  - intros [E|E]; unfold timer_handler; rewrite E; [reflexivity|].
    destruct (sys_timer_channel dm); reflexivity.
Qed.

Section Pit.
Context `{Profile}.

(** the interval timer is programmed with both bytes of the interval's tick
    count clamped to 1..65535: every interval from 54 926 microseconds on runs as the
    longest count of 65535 ticks, without an error, and its microsecond clock
    never passes 54 924, whatever the counter reads. *)
Theorem pit_interval_saturates c us (d : RegFile) : 0 <= us < 2 ^ 32 ->
  exists lo hi, start I8254.new c us d = Ret (Ok tt,
    mkRegs (<[I8254.data_port c := hi]> (<[I8254.data_port c := lo]> (<[I8254.PIT_MODE_CMD := Z.lor (Z.lor (Z.shiftl (I8254.channel_code c) 6) 48) 2]> (regs d))))
      ((I8254.data_port c, hi) :: (I8254.data_port c, lo) :: (I8254.PIT_MODE_CMD, Z.lor (Z.lor (Z.shiftl (I8254.channel_code c) 6) 48) 2) :: writes d)) /\
    lo + 256 * hi = Z.min 65535 (Z.max 1 (us * 1193182 / 1000000)) /\ fits 8 lo /\ fits 8 hi /\
    (54926 <= us -> lo + 256 * hi = 65535) /\
    (forall `{PortIo D} (s : D), (forall p x, fits 8 (in8 p x).1) -> exists t s', now_us I8254.new s = Ret (t, s') /\ 0 <= t <= 54924).
Proof.
  intros Hus. set (v := I8254.us_to_divisor us).
  assert (Hv : 1 <= v <= 65535) by (unfold v, I8254.us_to_divisor; lia).
  exists (v mod 256), (v / 256). assert (Hd : 0 <= v / 256 < 256) by (split; [apply Z.div_pos; lia|apply Z.div_lt_upper_bound; lia]).
  split; [|split_and!].
  - cbn [start I8254.pit_timer]. fold v. erewrite stbind_step by done.
    unfold mret, st_ret. cbn [regs writes].
    replace (Z.land v 0xff) with (v mod 256) by (symmetry; apply (land_mask v 8); lia).
    rewrite Z.shiftr_div_pow2 by lia. change (2 ^ 8) with 256. unfold wrap. by rewrite (Z.mod_small (v / 256)) by lia.
  - pose proof (Z.div_mod v 256). unfold v, I8254.us_to_divisor, I8254.PIT_FREQUENCY_HZ in *. lia.
  - apply Z.mod_pos_bound. lia.
  - unfold fits. lia.
  - intros Hlong. pose proof (Z.div_mod v 256). assert (65536 <= us * 1193182 / 1000000) by (apply Z.div_le_lower_bound; lia).
    unfold v, I8254.us_to_divisor, I8254.PIT_FREQUENCY_HZ in *. lia.
  - intros D HD s Hin. by apply pit_now_ok.
Qed.
End Pit.

(** ** A timer *)

(** A counter that advances by one with every access. *)
Record Sim := mkSim { ticks : Z; compares : Bcm2835.Channel -> Z; matches : Bcm2835.Channel -> bool }.

Definition sim_counter (d : Sim) : Z := Z.max 0 (Z.min (2 ^ 64 - 1) (ticks d)).

Definition channel_at (a : Z) : option Z :=
  let o := a - (Bcm2835.TIMER_BASE + 12) in if (0 <=? o) && (o <? 16) then Some (o / 4) else None.

#[export] Instance sim_mmio : Mmio Sim := {
  read32 a d :=
    (if a =? Bcm2835.CLO then sim_counter d mod 2 ^ 32 else if a =? Bcm2835.CHI then sim_counter d / 2 ^ 32 else 0,
     mkSim (ticks d + 1) (compares d) (matches d));
  write32 a v d :=
    if a =? Bcm2835.CS then
      mkSim (ticks d + 1) (compares d) (fun c => matches d c && negb (Z.testbit v (Bcm2835.irq_number c)))
    else match channel_at a with
         | Some n => mkSim (ticks d + 1) (fun c => if Bcm2835.irq_number c =? n then v else compares d c) (matches d)
         | None => d
         end;
}.

#[export] Program Instance sim_timer : SysTimer Sim := {
  counter := sim_counter; compare := compares; matched := matches;
}.
Next Obligation. intros d. unfold sim_counter. lia. Qed.
Next Obligation. intros d. eexists. split; [done|]. split; [unfold sim_counter; cbn; lia|done]. Qed.
Next Obligation. intros d. eexists. split; [done|]. split; [unfold sim_counter; cbn; lia|done]. Qed.
Next Obligation. intros v d d'. split; [unfold d', sim_counter; cbn; lia|done]. Qed.
Next Obligation.
  intros c v d d'. assert (d' = mkSim (ticks d + 1) (fun k => if Bcm2835.irq_number k =? Bcm2835.irq_number c then v else compares d k)
    (matches d)) as -> by (by destruct c). split; [unfold sim_counter; cbn; lia|]. split; [|done].
  intros k. cbn. destruct (Z.eqb_spec (Bcm2835.irq_number k) (Bcm2835.irq_number c)); [by rewrite decide_True|by rewrite decide_False].
Qed.

(** ** Witnesses *)

#[local] Instance debug_profile : Profile := Build_Profile true.

(** Two reads straddling a carry into the high word. *)
Definition demo_timer : Sim := mkSim (2 ^ 32 - 2) (fun _ => 0) (fun _ => true).

Lemma bcm_counter_consistent_witness : exists v d',
  Bcm2835.read_counter demo_timer = Ret (v, d') /\ 2 ^ 32 - 2 <= v <= counter d'.
Proof.
  destruct (bcm_counter_consistent demo_timer) as (v & d' & E & Hv & _). exists v, d'. split; [exact E|exact Hv].
Defined.

Definition demo_manager : DeviceManager bool :=
  mkManager [("serial0"%string, mkDevice Serial false); ("timer"%string, mkDevice Devices.Timer true)] (Some 1).

Definition demo_as_timer (b : bool) : option Bcm2835.Bcm2835Timer := if b then Some Bcm2835.TheTimer else None.

Lemma timer_handler_rearms_witness : exists d3 t,
  timer_handler demo_as_timer (fun _ _ => mret tt) demo_manager demo_timer = Ret (tt, d3) /\
  compare d3 Bcm2835.Channel1 = (t + 1000000) mod 2 ^ 32.
Proof.
  destruct (timer_handler_rearms demo_as_timer (fun _ _ => mret tt) demo_manager demo_timer) as [Hok _].
  destruct (Hok 1 true false) as (d1 & d2 & d3 & t & _ & _ & _ & E & _ & Ec & _); try reflexivity.
  - intros x. exists x. split; [reflexivity|]. split; [lia|reflexivity].
  - exists d3, t. split; [exact E|exact Ec].
Defined.

Lemma pit_interval_saturates_witness : exists lo hi d', start I8254.new I8254.Pit0 1000000 (mkRegs ∅ []) = Ret (Ok tt, d') /\
  lo + 256 * hi = 65535.
Proof.
  destruct (pit_interval_saturates I8254.Pit0 1000000 (mkRegs ∅ [])) as (lo & hi & E & _ & _ & _ & Hs & _); [lia|].
  exists lo, hi. eexists. split; [exact E|]. apply Hs. lia.
Defined.
