(* ===== verification/BlockDev.v ===== *)
(** * Block devices (drivers/src/hal/block_device.rs)

    The HAL trait of block devices as a class, its error type, the device
    descriptions, and the parsers of the CID and CSD registers of SD cards.
    The traits without an implementation in the repository (erase and trim,
    partitions, caches) are left out. *)
From S2P Require Import Prelude.

(** ** Slices of buffers *)

(** [&l[a..b]] panics unless [a <= b <= l.len()]. *)
Definition slice {A} (l : list A) (a b : Z) : outcome (list A) :=
  if (0 <=? a) && (a <=? b) && (b <=? Z.of_nat (length l))
  then Ret (take (Z.to_nat (b - a)) (drop (Z.to_nat a) l)) else Panic.

(** [l[a..a + data.len()].copy_from_slice(data)]. *)
Definition splice {A} (l : list A) (a : Z) (data : list A) : outcome (list A) :=
  if (0 <=? a) && (a + Z.of_nat (length data) <=? Z.of_nat (length l))
  then Ret (take (Z.to_nat a) l ++ data ++ drop (Z.to_nat a + length data) l) else Panic.

Definition le16 (l : list Z) (i : Z) : outcome Z :=
  b0 ← index l i; b1 ← index l (i + 1); Ret (u16_of_le b0 b1).

Definition le32 (l : list Z) (i : Z) : outcome Z :=
  b0 ← index l i; b1 ← index l (i + 1); b2 ← index l (i + 2); b3 ← index l (i + 3);
  Ret (u32_of_le b0 b1 b2 b3).

Definition zeros (n : Z) : list Z := replicate (Z.to_nat n) 0.

(** ** Data *)

Record BlockDeviceInfo := mkInfo {
  block_size : Z; info_block_count : Z; info_capacity : Z; is_read_only : bool; is_removable : bool;
}.

Section Info.
Context `{Profile}.

Definition info_new (block_count : Z) : outcome BlockDeviceInfo :=
  c ← mul 64 block_count 512; Ret (mkInfo 512 block_count c false false).

(** The product is of [usize], whatever the number of blocks. *)
Definition with_block_size (block_size block_count : Z) : outcome BlockDeviceInfo :=
  c ← mul usize_bits (wrap usize_bits block_count) block_size;
  Ret (mkInfo block_size block_count c false false).

Definition read_only (i : BlockDeviceInfo) : BlockDeviceInfo :=
  mkInfo (block_size i) (info_block_count i) (info_capacity i) true (is_removable i).
Definition removable (i : BlockDeviceInfo) : BlockDeviceInfo :=
  mkInfo (block_size i) (info_block_count i) (info_capacity i) (is_read_only i) true.
End Info.

Inductive BlockDeviceError :=
  NotReady | InvalidAddress | BdReadError | BdWriteError | WriteProtected | InvalidBuffer | BdTimeout
  | DataError | DeviceRemoved | BdIoError | UnsupportedDevice | BdOther.

(** [DynBlockDevice]: a block at an address, into or out of a buffer. *)
Class BlockDevice (W : Type) := {
  bd_info : st W BlockDeviceInfo;
  read_block : Z -> list Z -> st W (list Z * result unit BlockDeviceError);
  write_block : Z -> list Z -> st W (result unit BlockDeviceError);
  bd_is_ready : st W bool;
}.

Record DeviceStatus := mkStatus {
  healthy : bool; read_errors : Z; write_errors : Z; temperature : option Z; wear_level : option Z;
}.
Definition status_default : DeviceStatus := mkStatus true 0 0 None None.

Inductive CardType := CardUnknown | SDv1 | SDv2 | MMC.

(** ** SD card registers *)

Record Cid := mkCid {
  manufacturer_id : Z; oem_id : list Z; product_name : list Z; product_revision : Z * Z;
  serial_number : Z; manufacturing_date : Z * Z;
}.

Inductive CsdVersion := V1_0 | V2_0 | V3_0.
Inductive CsdParseError := UnknownVersion | InvalidData.

Record Csd := mkCsd {
  version : CsdVersion; capacity : Z; max_transfer_rate : Z; read_block_len : Z;
  write_block_len : Z; card_command_classes : Z;
}.

Definition csd_default : Csd := mkCsd V1_0 0 0 0 0 0.
Definition cid_default : Cid := mkCid 0 [0; 0] [0; 0; 0; 0; 0] (0, 0) 0 (0, 0).

(** [raw] is an array of 16 bytes, so every access is in range. *)
Definition byte (raw : list Z) (i : nat) : Z := raw !!! i.

Section Parse.
Context `{Profile}.

Definition parse_mdt (byte13 byte14 : Z) : outcome (Z * Z) :=
  let mdt := u16_of_le byte14 byte13 in
  year ← add 16 2000 (Z.land (Z.shiftr mdt 4) 0xff);
  Ret (year, Z.land mdt 0x0f).

Definition cid_parse (raw : list Z) : outcome Cid :=
  mdt ← parse_mdt (byte raw 13) (byte raw 14);
  Ret (mkCid (byte raw 0) [byte raw 1; byte raw 2]
         [byte raw 3; byte raw 4; byte raw 5; byte raw 6; byte raw 7]
         (Z.shiftr (byte raw 8) 4, Z.land (byte raw 8) 0x0f)
         (u32_of_be (byte raw 9) (byte raw 10) (byte raw 11) (byte raw 12))
         mdt).

Definition time_value (nibble : Z) : Z :=
  nth (Z.to_nat nibble) [0; 10; 12; 13; 15; 20; 25; 30; 35; 40; 45; 50; 55; 60; 70; 80] 0.

Definition rate_unit (u : Z) : Z :=
  if u =? 0 then 100 else if u =? 1 then 1000 else if u =? 2 then 10000 else if u =? 3 then 100000 else 0.

Definition parse_tran_speed (b : Z) : outcome Z :=
  mul 32 (time_value (Z.land b 0x0f)) (rate_unit (Z.shiftr b 3)).

Definition parse_ccc (raw : list Z) : Z := u16_of_le (byte raw 5) (Z.land (byte raw 4) 0x0f).

Definition parse_v2 (raw : list Z) (v : CsdVersion) : outcome (result Csd CsdParseError) :=
  let c_size := u32_of_be 0 (Z.land (byte raw 7) 0x3f) (byte raw 8) (byte raw 9) in
  n ← add 32 c_size 1;
  c ← mul 64 n 512; c ← mul 64 c 1024;
  rate ← parse_tran_speed (byte raw 3);
  Ret (Ok (mkCsd v c rate 512 512 (parse_ccc raw))).

(** Version 3 is parsed like version 2, by a function of its own. *)
Definition parse_v3 (raw : list Z) (v : CsdVersion) : outcome (result Csd CsdParseError) :=
  let c_size := u32_of_be 0 (Z.land (byte raw 7) 0x3f) (byte raw 8) (byte raw 9) in
  n ← add 32 c_size 1;
  c ← mul 64 n 512; c ← mul 64 c 1024;
  rate ← parse_tran_speed (byte raw 3);
  Ret (Ok (mkCsd v c rate 512 512 (parse_ccc raw))).

Definition parse_v1 (raw : list Z) (v : CsdVersion) : outcome (result Csd CsdParseError) :=
  let read_bl_len := Z.land (byte raw 10) 0x0f in
  let c_size_24bit := u32_of_be 0 (byte raw 7) (byte raw 8) (byte raw 9) in
  let c_size := Z.land (Z.shiftr c_size_24bit 2) 0xfff in
  let mult_bytes := u16_of_le (byte raw 6) (byte raw 5) in
  let c_size_mult := Z.land (Z.shiftr mult_bytes 7) 0x07 in
  sh ← add 32 c_size_mult 2;
  mult ← shl 32 1 sh;
  block_len ← shl 16 1 read_bl_len;
  n ← add 32 c_size 1;
  c ← mul 64 n mult; c ← mul 64 c block_len;
  rate ← parse_tran_speed (byte raw 3);
  Ret (Ok (mkCsd v c rate block_len block_len (parse_ccc raw))).

Definition csd_parse (raw : list Z) : outcome (result Csd CsdParseError) :=
  let v := Z.shiftr (byte raw 0) 6 in
  if v =? 0 then parse_v1 raw V1_0
  else if v =? 1 then parse_v2 raw V2_0
  else if v =? 2 then parse_v3 raw V3_0
  else Ret (Err UnknownVersion).
End Parse.

Definition capacity_mb (c : Csd) : Z := capacity c / (1024 * 1024).
Definition capacity_gb (c : Csd) : Z := capacity c / (1024 * 1024 * 1024).
Definition block_count (c : Csd) : Z := capacity c / 512.

(** ** Lemmas *)

Section Lemmas.
Context `{Profile}.

Definition bytes16 (raw : list Z) : Prop := length raw = 16%nat /\ Forall (fits 8) raw.

Lemma byte_fits raw i : bytes16 raw -> fits 8 (byte raw i).
Proof using.
  intros [Hl Hf]. unfold byte. destruct (decide (i < 16)%nat).
  - eapply Forall_lookup_total_1; [done|lia].
  - rewrite list_lookup_total_alt, lookup_ge_None_2 by lia. unfold fits. cbn. lia.
Qed.

Lemma land_low_fits a n : 0 <= n -> 0 <= Z.land a (2 ^ n - 1) < 2 ^ n.
Proof using. intros. rewrite land_mask by done. apply Z.mod_pos_bound. lia. Qed.

Lemma tran_speed_ok b : fits 8 b -> exists r, parse_tran_speed b = Ret r /\ 0 <= r <= 8000000.
Proof using All.
  intros Hb. unfold parse_tran_speed.
  assert (Ht : 0 <= time_value (Z.land b 0x0f) <= 80).
  { pose proof (land_low_fits b 4). unfold time_value.
    assert (Hf : Forall (fun x => 0 <= x <= 80) [0; 10; 12; 13; 15; 20; 25; 30; 35; 40; 45; 50; 55; 60; 70; 80])
      by (repeat constructor; lia).
    destruct (nth_in_or_default (Z.to_nat (Z.land b 0x0f)) [0; 10; 12; 13; 15; 20; 25; 30; 35; 40; 45; 50; 55; 60; 70; 80] 0)
      as [Hi| ->]; [|lia]. rewrite List.Forall_forall in Hf. by apply Hf. }
  assert (Hu : 0 <= rate_unit (Z.shiftr b 3) <= 100000).
  { unfold rate_unit. repeat (destruct (Z.eqb _ _); try lia). }
  rewrite mul_ok by (unfold fits; nia). eexists. split; [done|]. nia.
Qed.

(** Shifting a one within the width. *)
Lemma shl_one w n : 0 <= n < w -> shl w 1 n = Ret (2 ^ n).
Proof using.
  intros Hn. rewrite shl_ok, Z.mul_1_l; [done|done|]. rewrite Z.mul_1_l.
  split; [apply Z.pow_nonneg; lia|apply Z.pow_lt_mono_r; lia].
Qed.

Lemma parse_v2_ok raw v : bytes16 raw ->
  let n := byte raw 7 mod 64 * 65536 + byte raw 8 * 256 + byte raw 9 + 1 in
  exists c, parse_v2 raw v = Ret (Ok c) /\ version c = v /\ capacity c = n * 524288 /\ 1 <= n <= 2 ^ 22.
Proof using All.
  intros Hr n. pose proof (byte_fits raw 7 Hr) as H7. pose proof (byte_fits raw 8 Hr) as H8.
  pose proof (byte_fits raw 9 Hr) as H9. unfold fits in H7, H8, H9.
  destruct (tran_speed_ok (byte raw 3) (byte_fits raw 3 Hr)) as (r & Er & _).
  assert (E : u32_of_be 0 (Z.land (byte raw 7) 0x3f) (byte raw 8) (byte raw 9) = n - 1).
  { unfold u32_of_be, u32_of_le. replace (Z.land (byte raw 7) 0x3f) with (byte raw 7 mod 64)
      by (symmetry; apply (land_mask _ 6); lia). unfold n. lia. }
  pose proof (Z.mod_pos_bound (byte raw 7) 64). assert (1 <= n <= 2 ^ 22) by (unfold n; lia).
  unfold parse_v2. rewrite E. rewrite add_ok by (unfold fits; lia). cbn [mbind outcome_bind].
  rewrite mul_ok by (unfold fits; lia). cbn [mbind outcome_bind].
  rewrite mul_ok by (unfold fits; lia). cbn [mbind outcome_bind]. rewrite Er.
  eexists. split; [done|]. cbn [version capacity]. split; [done|]. lia.
Qed.

Lemma parse_v1_ok raw v : bytes16 raw -> exists c, parse_v1 raw v = Ret (Ok c) /\ version c = v /\
  read_block_len c = 2 ^ (byte raw 10 mod 16) /\ 1 <= capacity c <= 2 ^ 36.
Proof using All.
  intros Hr. destruct (tran_speed_ok (byte raw 3) (byte_fits raw 3 Hr)) as (r & Er & _). unfold parse_v1.
  set (cs := Z.land (Z.shiftr (u32_of_be 0 _ _ _) 2) 0xfff). set (cm := Z.land (Z.shiftr _ 7) 0x07).
  set (bl := Z.land (byte raw 10) 0x0f).
  assert (0 <= cs < 2 ^ 12) by (apply (land_low_fits _ 12); lia).
  assert (0 <= cm < 2 ^ 3) by (apply (land_low_fits _ 3); lia).
  assert (Hbl : 0 <= bl < 2 ^ 4) by (apply (land_low_fits _ 4); lia).
  assert (1 <= 2 ^ (cm + 2) <= 2 ^ 9).
  { split; [apply (Z.pow_le_mono_r 2 0); lia|apply Z.pow_le_mono_r; lia]. }
  assert (1 <= 2 ^ bl <= 2 ^ 15).
  { split; [apply (Z.pow_le_mono_r 2 0); lia|apply Z.pow_le_mono_r; lia]. }
  assert (1 <= (cs + 1) * 2 ^ (cm + 2) <= 2 ^ 21) by nia.
  assert (1 <= (cs + 1) * 2 ^ (cm + 2) * 2 ^ bl <= 2 ^ 36) by nia.
  rewrite (add_ok 32 cm 2) by (unfold fits; lia). cbn [mbind outcome_bind].
  rewrite (shl_one 32 (cm + 2)) by lia. cbn [mbind outcome_bind].
  rewrite (shl_one 16 bl) by lia. cbn [mbind outcome_bind].
  rewrite (add_ok 32 cs 1) by (unfold fits; lia). cbn [mbind outcome_bind].
  rewrite mul_ok by (unfold fits; lia). cbn [mbind outcome_bind].
  rewrite mul_ok by (unfold fits; lia). cbn [mbind outcome_bind]. rewrite Er.
  eexists. split; [done|]. cbn [version read_block_len capacity]. split; [done|]. split; [|done].
  unfold bl. by rewrite (land_mask _ 4) by lia.
Qed.
End Lemmas.

(** ** Theorems *)

Section Claims.
Context `{Profile}.

(** parsing the CSD register of a card never panics: versions 2 and 3
    give the capacity of the standard, one more than the 22-bit size field in
    units of 512 KiB, and a whole number of blocks; version 1 gives at most
    64 GiB; the fourth version is unknown. *)
Theorem csd_parse_total raw : bytes16 raw ->
  let n := byte raw 7 mod 64 * 65536 + byte raw 8 * 256 + byte raw 9 + 1 in
  let v := byte raw 0 / 64 in
  (v = 0 -> exists c, csd_parse raw = Ret (Ok c) /\ version c = V1_0 /\
     read_block_len c = 2 ^ (byte raw 10 mod 16) /\ 1 <= capacity c <= 2 ^ 36) /\
  (v = 1 \/ v = 2 -> exists c, csd_parse raw = Ret (Ok c) /\
     version c = (if v =? 1 then V2_0 else V3_0) /\ capacity c = n * 524288 /\
     block_count c = n * 1024 /\ 1 <= n <= 2 ^ 22) /\
  (v = 3 -> csd_parse raw = Ret (Err UnknownVersion)) /\ 0 <= v <= 3.
Proof using All.
  intros Hr n v. pose proof (byte_fits raw 0 Hr) as H0. unfold fits in H0.
  assert (E : Z.shiftr (byte raw 0) 6 = v) by (by rewrite Z.shiftr_div_pow2 by lia).
  assert (0 <= v <= 3).
  { unfold v. split; [apply Z.div_pos; lia|]. pose proof (Z.div_lt_upper_bound (byte raw 0) 64 4). lia. }
  unfold csd_parse. rewrite E. split_and!; try lia.
  - intros ->. apply parse_v1_ok, Hr.
  - intros Hv. destruct (parse_v2_ok raw (if v =? 1 then V2_0 else V3_0) Hr) as (c & Ec & Hver & Hc & Hn).
    exists c. fold n in Hc, Hn. rewrite Hver, Hc. unfold block_count. rewrite Hc.
    replace (n * 524288 / 512) with (n * 1024).
    2: { replace (n * 524288) with (n * 1024 * 512) by lia. by rewrite Z.div_mul. }
    by destruct Hv as [-> | ->].
  - by intros ->.
Qed.
End Claims.

(** ** Witnesses *)

#[local] Instance debug_profile : Profile := Build_Profile true.

(** A 16 GB card. *)
Definition demo_csd : list Z := [64; 14; 0; 50; 91; 89; 0; 0; 115; 167; 127; 128; 10; 64; 0; 1].

Lemma csd_parse_total_witness : exists c, csd_parse demo_csd = Ret (Ok c) /\ version c = V2_0 /\
  capacity c = 15523119104 /\ block_count c = 30318592 /\ 1 <= 29608 <= 2 ^ 22.
Proof.
  assert (Hb : bytes16 demo_csd) by (split; [done|repeat constructor; discriminate]).
  apply (proj1 (proj2 (csd_parse_total demo_csd Hb))). by left.
Defined.
