(* ===== verification/Emmc.v ===== *)
(** * The SD card controller (drivers/src/peripheral/bcm2835/emmc.rs)

    The EMMC driver over a device [D] of registers: sending commands, setting
    up a card, and reading and writing blocks.  Every loop of the driver is
    bounded by a constant, so no operation takes fuel.  Busy waiting has no
    effect here but its checked multiplications. *)
From S2P Require Import Prelude Mmio BlockDev.

(** ** Registers, commands, errors *)

Definition EMMC_BASE : Z := 0x20300000.
Definition REG_ARG2 : Z := 0x00.
Definition REG_BLKSIZECNT : Z := 0x04.
Definition REG_ARG1 : Z := 0x08.
Definition REG_CMDTM : Z := 0x0c.
Definition REG_RESP0 : Z := 0x10.
Definition REG_RESP1 : Z := 0x14.
Definition REG_RESP2 : Z := 0x18.
Definition REG_RESP3 : Z := 0x1c.
Definition REG_DATA : Z := 0x20.
Definition REG_STATUS : Z := 0x24.
Definition REG_CONTROL1 : Z := 0x2c.
Definition REG_INTERRUPT : Z := 0x30.
Definition REG_IRPT_MASK : Z := 0x34.

Definition STATUS_CMD_INHIBIT : Z := 2 ^ 0.
Definition STATUS_DAT_INHIBIT : Z := 2 ^ 1.
Definition STATUS_CARD_INSERTED : Z := 2 ^ 16.
Definition STATUS_CARD_STATE_STABLE : Z := 2 ^ 17.

Definition INT_CMD_DONE : Z := 2 ^ 0.
Definition INT_DATA_DONE : Z := 2 ^ 1.
Definition INT_WRITE_READY : Z := 2 ^ 4.
Definition INT_READ_READY : Z := 2 ^ 5.
Definition INT_ERROR : Z := 2 ^ 15.
Definition INT_TIMEOUT : Z := 2 ^ 16.
Definition INT_CRC : Z := 2 ^ 17.
Definition INT_INDEX : Z := 2 ^ 19.
Definition INT_DATA_TIMEOUT : Z := 2 ^ 20.
Definition INT_DATA_CRC : Z := 2 ^ 21.

Definition CMD_RESPONSE_NONE : Z := 0.
Definition CMD_RESPONSE_136 : Z := 2 ^ 16.
Definition CMD_RESPONSE_48 : Z := 2 ^ 17.
Definition CMD_CRCCHK_EN : Z := 2 ^ 19.
Definition CMD_IXCHK_EN : Z := 2 ^ 20.
Definition CMD_ISDATA : Z := 2 ^ 21.
Definition TM_DAT_DIR_READ : Z := 2 ^ 4.
Definition CMD_INDEX_SHIFT : Z := 24.

Definition CLK_INTLEN : Z := 2 ^ 0.
Definition CLK_STABLE : Z := 2 ^ 1.
Definition CLK_EN : Z := 2 ^ 2.
Definition CLK_GENSEL : Z := 2 ^ 5.
Definition SRST_HC : Z := 2 ^ 24.

Definition BLOCK_SIZE : Z := 512.

Inductive EmmcError :=
  NoCard | UnsupportedCard | InitFailed | CommandError | Timeout | BufferTooSmall
  | ReadError | WriteError | CrcError | HardwareError.

(** [impl From<EmmcError> for BlockDeviceError]. *)
Definition to_block_device_error (e : EmmcError) : BlockDeviceError :=
  match e with
  | NoCard => DeviceRemoved
  | UnsupportedCard => UnsupportedDevice
  | InitFailed => NotReady
  | Timeout => BdTimeout
  | BufferTooSmall => InvalidBuffer
  | ReadError => BdReadError
  | WriteError => BdWriteError
  | CrcError => DataError
  | CommandError => BdIoError
  | HardwareError => BdIoError
  end.

(** [impl From<CsdParseError> for EmmcError]. *)
Definition from_csd_error (e : CsdParseError) : EmmcError := UnsupportedCard.

Record Emmc := mkEmmc { base : Z; cid : Cid; csd : Csd; rca : Z; card_type : CardType }.

Definition new (b : Z) : result Emmc EmmcError :=
  if negb (b =? EMMC_BASE) then Err HardwareError
  else Ok (mkEmmc EMMC_BASE cid_default csd_default 0 CardUnknown).

(** [u128::to_be_bytes]. *)
Definition be_bytes128 (v : Z) : list Z := (fun i => (v / 2 ^ (8 * i)) mod 256) <$> reverse (seqZ 0 16).

Definition flag (v f : Z) : bool := negb (Z.land v f =? 0).

(** ** Operations *)

Section Driver.
Context `{Profile} {D : Type} `{Mmio D}.

(** The bounds of the polling loops. *)
Definition timeout : nat := Z.to_nat 100000.
Definition short_timeout : nat := Z.to_nat 10000.

Section Device.
Context (e : Emmc).

Definition read_reg (offset : Z) : st D Z := a ← lift (add usize_bits (base e) offset); read_volatile a.
Definition write_reg (offset value : Z) : st D unit := a ← lift (add usize_bits (base e) offset); write_volatile a value.

Definition delay_us (us : Z) : st D unit := _ ← lift (mul 32 us 50); mret tt.
Definition delay_ms (ms : Z) : st D unit := us ← lift (mul 32 ms 1000); delay_us us.

Fixpoint wait_cmd_loop (n : nat) : st D (result unit EmmcError) :=
  match n with
  | O => mret (Err Timeout)
  | S n =>
      interrupt ← read_reg REG_INTERRUPT;
      if flag interrupt INT_ERROR then
        if flag interrupt INT_TIMEOUT then _ ← write_reg REG_INTERRUPT INT_TIMEOUT; mret (Err Timeout)
        else if flag interrupt INT_CRC then _ ← write_reg REG_INTERRUPT INT_CRC; mret (Err CrcError)
        else
          _ ← (if flag interrupt INT_INDEX then write_reg REG_INTERRUPT INT_INDEX else mret tt);
          _ ← write_reg REG_INTERRUPT INT_ERROR; mret (Err CommandError)
      else if flag interrupt INT_CMD_DONE then _ ← write_reg REG_INTERRUPT INT_CMD_DONE; mret (Ok tt)
      else _ ← delay_us 10; wait_cmd_loop n
  end.
Definition wait_cmd_done : st D (result unit EmmcError) := wait_cmd_loop timeout.

(** [for _ in 0..n] until the bit of the status is clear; then, or after [n]
    rounds, the code goes on. *)
Fixpoint wait_clear (n : nat) (bit us : Z) : st D unit :=
  match n with
  | O => mret tt
  | S n => status ← read_reg REG_STATUS; if negb (flag status bit) then mret tt else _ ← delay_us us; wait_clear n bit us
  end.

Definition send_cmd (cmd_index arg flags : Z) : st D (result unit EmmcError) :=
  _ ← wait_clear timeout STATUS_CMD_INHIBIT 1;
  _ ← write_reg REG_INTERRUPT 0xffffffff;
  _ ← write_reg REG_ARG2 (wrap 32 (Z.shiftr arg 32));
  _ ← write_reg REG_ARG1 (wrap 32 arg);
  idx ← lift (shl 32 cmd_index CMD_INDEX_SHIFT);
  _ ← write_reg REG_CMDTM (Z.lor idx flags);
  wait_cmd_done.

Definition get_response (index : Z) : st D Z :=
  if index =? 0 then read_reg REG_RESP0
  else if index =? 1 then read_reg REG_RESP1
  else if index =? 2 then read_reg REG_RESP2
  else if index =? 3 then read_reg REG_RESP3
  else mret 0.

(** The four words of a long response as one number, big-endian. *)
Definition long_response : st D (list Z) :=
  r0 ← get_response 0; r1 ← get_response 1; r2 ← get_response 2; r3 ← get_response 3;
  mret (be_bytes128 (Z.lor (Z.lor (Z.lor r0 (Z.shiftl r1 32)) (Z.shiftl r2 64)) (Z.shiftl r3 96))).

Definition R48 : Z := Z.lor (Z.lor CMD_RESPONSE_48 CMD_CRCCHK_EN) CMD_IXCHK_EN.

(** The loop of [init_sd_v2] and [init_sd_v1], [n] tries. *)
Fixpoint init_sd_loop (n : nat) (acmd41_arg : Z) : st D (result unit EmmcError) :=
  match n with
  | O => out_of_fuel
  | S n =>
      let? _ := send_cmd 55 0 R48 in
      let? _ := send_cmd 41 acmd41_arg CMD_RESPONSE_48 in
      resp ← get_response 0;
      if flag resp 0x80000000 then mret (Ok tt)
      else
        match n with
        | O => mret (Err InitFailed)
        | S _ => _ ← delay_ms 10; init_sd_loop n acmd41_arg
        end
  end.
Definition init_sd_v2 : st D (result unit EmmcError) := init_sd_loop 1000 0x40300000.
Definition init_sd_v1 : st D (result unit EmmcError) := init_sd_loop 1000 0x00300000.

Fixpoint init_mmc_loop (n : nat) : st D (result unit EmmcError) :=
  match n with
  | O => out_of_fuel
  | S n =>
      let? _ := send_cmd 1 0x80ff8000 CMD_RESPONSE_48 in
      resp ← get_response 0;
      if flag resp 0x80000000 then mret (Ok tt)
      else match n with O => mret (Err InitFailed) | S _ => _ ← delay_ms 10; init_mmc_loop n end
  end.
Definition init_mmc : st D (result unit EmmcError) := init_mmc_loop 1000.

Fixpoint reset_loop (n : nat) : st D (result unit EmmcError) :=
  match n with
  | O => mret (Err Timeout)
  | S n =>
      ctrl1 ← read_reg REG_CONTROL1;
      if negb (flag ctrl1 SRST_HC) then _ ← delay_us 100; mret (Ok tt)
      else _ ← delay_us 10; reset_loop n
  end.

Definition reset : st D (result unit EmmcError) :=
  ctrl1 ← read_reg REG_CONTROL1;
  _ ← write_reg REG_CONTROL1 (Z.lor ctrl1 SRST_HC);
  reset_loop short_timeout.

Definition BASE_CLOCK : Z := 250000000.

Definition clock_divisor (freq : Z) : outcome Z :=
  f2 ← mul 32 2 freq;
  divisor ← udiv BASE_CLOCK f2;
  r ← urem BASE_CLOCK f2;
  divisor ← (if negb (r =? 0) then add 32 divisor 1 else Ret divisor);
  Ret (Z.min (Z.max divisor 1) 1023).

(** The last value of the register read. *)
Fixpoint wait_stable (n : nat) (ctrl1 : Z) : st D Z :=
  match n with
  | O => mret ctrl1
  | S n => c ← read_reg REG_CONTROL1; if flag c CLK_STABLE then mret c else _ ← delay_us 10; wait_stable n c
  end.

Definition set_clock (freq : Z) : st D (result unit EmmcError) :=
  c ← read_reg REG_CONTROL1;
  _ ← write_reg REG_CONTROL1 (Z.land c (lnot 32 CLK_EN));
  _ ← delay_us 10;
  divisor ← lift (clock_divisor freq);
  let divisor_ms := Z.shiftl (Z.land (Z.shiftr divisor 2) 0xff) 8 in
  let divisor_ls := Z.shiftl (Z.land divisor 0x3) 6 in
  c ← read_reg REG_CONTROL1;
  let c := Z.land c (lnot 32 (Z.shiftl 0xff 8)) in
  let c := Z.land c (lnot 32 (Z.shiftl 0x3 6)) in
  let c := Z.lor c (Z.lor (Z.lor (Z.lor divisor_ms divisor_ls) CLK_GENSEL) CLK_INTLEN) in
  _ ← write_reg REG_CONTROL1 c;
  _ ← delay_us 10;
  c ← wait_stable short_timeout c;
  if negb (flag c CLK_STABLE) then mret (Err Timeout)
  else
    _ ← delay_us 10;
    _ ← write_reg REG_CONTROL1 (Z.lor c CLK_EN);
    _ ← delay_us 10;
    mret (Ok tt).

Fixpoint wait_ready_loop (n : nat) : st D (result unit EmmcError) :=
  match n with
  | O => mret (Err Timeout)
  | S n =>
      interrupt ← read_reg REG_INTERRUPT;
      if flag interrupt INT_ERROR then
        if flag interrupt INT_DATA_TIMEOUT then _ ← write_reg REG_INTERRUPT INT_DATA_TIMEOUT; mret (Err Timeout)
        else if flag interrupt INT_DATA_CRC then _ ← write_reg REG_INTERRUPT INT_DATA_CRC; mret (Err CrcError)
        else _ ← write_reg REG_INTERRUPT INT_ERROR; mret (Err ReadError)
      else if flag interrupt INT_READ_READY then _ ← write_reg REG_INTERRUPT INT_READ_READY; mret (Ok tt)
      else _ ← delay_us 10; wait_ready_loop n
  end.
Definition wait_data_ready : st D (result unit EmmcError) := wait_ready_loop timeout.

(** The loops of [wait_write_ready] and [wait_data_done]. *)
Fixpoint wait_int_loop (n : nat) (bit : Z) : st D (result unit EmmcError) :=
  match n with
  | O => mret (Err Timeout)
  | S n =>
      interrupt ← read_reg REG_INTERRUPT;
      if flag interrupt INT_ERROR then _ ← write_reg REG_INTERRUPT INT_ERROR; mret (Err WriteError)
      else if flag interrupt bit then _ ← write_reg REG_INTERRUPT bit; mret (Ok tt)
      else _ ← delay_us 10; wait_int_loop n bit
  end.
Definition wait_write_ready : st D (result unit EmmcError) := wait_int_loop timeout INT_WRITE_READY.
Definition wait_data_done : st D (result unit EmmcError) := wait_int_loop timeout INT_DATA_DONE.

(** The argument of a transfer: old cards count bytes, newer ones blocks. *)
Definition transfer_address (lba : Z) : outcome Z :=
  match version (csd e) with V1_0 => mul 64 lba BLOCK_SIZE | V2_0 | V3_0 => Ret lba end.

(** [n] words of the data register as bytes, then [n] words of bytes to it. *)
Fixpoint read_words (n : nat) : st D (list Z) :=
  match n with
  | O => mret []
  | S n => word ← read_reg REG_DATA; rest ← read_words n; mret (le_bytes32 word ++ rest)
  end.

Fixpoint write_words (n : nat) (bytes : list Z) : st D unit :=
  match n with
  | O => mret tt
  | S n =>
      _ ← write_reg REG_DATA (u32_of_le (bytes !!! 0%nat) (bytes !!! 1%nat) (bytes !!! 2%nat) (bytes !!! 3%nat));
      write_words n (drop 4 bytes)
  end.

(** The buffer afterwards comes with the result. *)
Definition read_block_internal (lba : Z) (buf : list Z) : st D (list Z * result unit EmmcError) :=
  if Z.of_nat (length buf) <? BLOCK_SIZE then mret (buf, Err BufferTooSmall)
  else
    _ ← wait_clear timeout STATUS_DAT_INHIBIT 10;
    _ ← write_reg REG_BLKSIZECNT (Z.lor (Z.shiftl 1 16) BLOCK_SIZE);
    _ ← write_reg REG_INTERRUPT 0xffffffff;
    address ← lift (transfer_address lba);
    r ← send_cmd 17 address (Z.lor (Z.lor R48 CMD_ISDATA) TM_DAT_DIR_READ);
    match r with
    | Err err => mret (buf, Err err)
    | Ok _ =>
        r ← wait_data_ready;
        match r with
        | Err err => mret (buf, Err err)
        | Ok _ =>
            data ← read_words 128;
            r ← wait_data_done;
            mret (data ++ drop (Z.to_nat BLOCK_SIZE) buf, r)
        end
    end.

Definition write_block_internal (lba : Z) (buf : list Z) : st D (result unit EmmcError) :=
  if Z.of_nat (length buf) <? BLOCK_SIZE then mret (Err BufferTooSmall)
  else
    _ ← wait_clear timeout STATUS_DAT_INHIBIT 10;
    _ ← write_reg REG_BLKSIZECNT (Z.lor (Z.shiftl 1 16) BLOCK_SIZE);
    _ ← write_reg REG_INTERRUPT 0xffffffff;
    address ← lift (transfer_address lba);
    let? _ := send_cmd 24 address (Z.lor R48 CMD_ISDATA) in
    let? _ := wait_write_ready in
    _ ← write_words 128 (take (Z.to_nat BLOCK_SIZE) buf);
    wait_data_done.

(** ** [impl BlockDevice for Emmc] *)

Definition info : outcome BlockDeviceInfo := i ← info_new (block_count (csd e)); Ret (removable i).

Definition is_ready : st D bool :=
  status ← read_reg REG_STATUS;
  mret (flag status STATUS_CARD_INSERTED && flag status STATUS_CARD_STATE_STABLE).

Definition too_small (bufs : list (list Z)) : bool := existsb (fun b => Z.of_nat (length b) <? BLOCK_SIZE) bufs.

Fixpoint read_each (start i : Z) (bufs : list (list Z)) : st D (list (list Z) * result unit EmmcError) :=
  match bufs with
  | [] => mret ([], Ok tt)
  | buf :: rest =>
      b ← lift (add 64 start i);
      '(buf, r) ← read_block_internal (wrap 32 b) buf;
      match r with
      | Err err => mret (buf :: rest, Err err)
      | Ok _ => '(rest, r) ← read_each start (i + 1) rest; mret (buf :: rest, r)
      end
  end.

Definition read_blocks (start : Z) (bufs : list (list Z)) : st D (list (list Z) * result unit EmmcError) :=
  if too_small bufs then mret (bufs, Err BufferTooSmall)
  else
    last ← lift (add 64 start (Z.of_nat (length bufs)));
    if block_count (csd e) <? last then mret (bufs, Err ReadError)
    else
      ready ← is_ready;
      if negb ready then mret (bufs, Err NoCard) else read_each start 0 bufs.

Fixpoint write_each (start i : Z) (bufs : list (list Z)) : st D (result unit EmmcError) :=
  match bufs with
  | [] => mret (Ok tt)
  | buf :: rest =>
      b ← lift (add 64 start i);
      let? _ := write_block_internal (wrap 32 b) buf in
      write_each start (i + 1) rest
  end.

Definition write_blocks (start : Z) (bufs : list (list Z)) : st D (result unit EmmcError) :=
  if too_small bufs then mret (Err BufferTooSmall)
  else
    last ← lift (add 64 start (Z.of_nat (length bufs)));
    if block_count (csd e) <? last then mret (Err WriteError)
    else
      ready ← is_ready;
      if negb ready then mret (Err NoCard) else write_each start 0 bufs.

Definition flush : st D (result unit EmmcError) := mret (Ok tt).
End Device.

(** ** Setting up the card *)

(** An operation of the device under the driver's own state. *)
Definition dev {A} (m : Emmc -> st D A) : st (Emmc * D) A := fun '(e, d) =>
  match m e d with Ret (a, d') => Ret (a, (e, d')) | Panic => Panic | OutOfFuel => OutOfFuel end.
Definition update (f : Emmc -> Emmc) : st (Emmc * D) unit := modify (fun '(e, d) => (f e, d)).

Definition set_card_type (t : CardType) : st (Emmc * D) unit := update (fun e => mkEmmc (base e) (cid e) (csd e) (rca e) t).
Definition set_cid (c : Cid) : st (Emmc * D) unit := update (fun e => mkEmmc (base e) c (csd e) (rca e) (card_type e)).
Definition set_csd (c : Csd) : st (Emmc * D) unit := update (fun e => mkEmmc (base e) (cid e) c (rca e) (card_type e)).
Definition set_rca (v : Z) : st (Emmc * D) unit := update (fun e => mkEmmc (base e) (cid e) (csd e) v (card_type e)).

(** Which kind of card answers, and waiting until it is ready. *)
Definition detect_card : st (Emmc * D) (result unit EmmcError) :=
  r ← dev (fun e => send_cmd e 8 0x1aa R48);
  match r with
  | Ok _ =>
      resp ← dev (fun e => get_response e 0);
      if Z.land resp 0xfff =? 0x1aa then _ ← set_card_type SDv2; dev init_sd_v2
      else _ ← set_card_type SDv1; dev init_sd_v1
  | Err _ =>
      _ ← set_card_type SDv1;
      r ← dev init_sd_v1;
      match r with
      | Ok _ => mret (Ok tt)
      | Err _ => _ ← set_card_type MMC; dev init_mmc
      end
  end.

(** CMD2, CMD3 and CMD9: the card's identity, address and data. *)
Definition identify_card : st (Emmc * D) (result unit EmmcError) :=
  let? _ := dev (fun e => send_cmd e 2 0 (Z.lor CMD_RESPONSE_136 CMD_CRCCHK_EN)) in
  raw ← dev long_response;
  c ← lift (cid_parse raw);
  _ ← set_cid c;
  let? _ := dev (fun e => send_cmd e 3 0 R48) in
  resp ← dev (fun e => get_response e 0);
  _ ← set_rca (Z.shiftr resp 16);
  let? _ := dev (fun e d => (a ← lift (shl 32 (rca e) 16); send_cmd e 9 a (Z.lor CMD_RESPONSE_136 CMD_CRCCHK_EN)) d) in
  raw ← dev long_response;
  r ← lift (csd_parse raw);
  match r with
  | Err err => mret (Err (from_csd_error err))
  | Ok c => _ ← set_csd c; mret (Ok tt)
  end.

Definition init : st (Emmc * D) (result unit EmmcError) :=
  status ← dev (fun e => read_reg e REG_STATUS);
  if negb (flag status STATUS_CARD_INSERTED) then mret (Err NoCard)
  else
    let? _ := dev reset in
    let? _ := dev (fun e => set_clock e 400000) in
    _ ← dev (fun e => write_reg e REG_IRPT_MASK 0xffffffff);
    let? _ := dev (fun e => send_cmd e 0 0 CMD_RESPONSE_NONE) in
    _ ← dev (fun e => delay_ms 10);
    let? _ := detect_card in
    let? _ := identify_card in
    let? _ := dev (fun e d => (a ← lift (shl 32 (rca e) 16); send_cmd e 7 a R48) d) in
    let? _ := dev (fun e => send_cmd e 16 BLOCK_SIZE R48) in
    dev (fun e => set_clock e 25000000).

(** The blanket [impl DynBlockDevice], single blocks included. *)
#[export] Instance emmc_block_device : BlockDevice (Emmc * D) := {
  bd_info := fun '(e, d) => match info e with Ret i => Ret (i, (e, d)) | Panic => Panic | OutOfFuel => OutOfFuel end;
  read_block lba buf :=
    '(bufs, r) ← dev (fun e => read_blocks e lba [buf]);
    mret (default buf (head bufs), map_err to_block_device_error r);
  write_block lba buf := st_map_err to_block_device_error (dev (fun e => write_blocks e lba [buf]));
  bd_is_ready := dev is_ready;
}.
End Driver.

(** ** Totality

    [runs P m Q]: from every state with [P] the program returns, neither
    panicking nor running out of fuel, with a result in [Q] and a state in
    [P]. *)
Definition runs {S A} (P : S -> Prop) (m : st S A) (Q : A -> Prop) : Prop :=
  forall s, P s -> exists a s', m s = Ret (a, s') /\ Q a /\ P s'.

Definition any {A} (a : A) : Prop := True.

Create HintDb runs.

Section Runs.
Context {S : Type} (P : S -> Prop).

Lemma runs_ret {A} (a : A) (Q : A -> Prop) : Q a -> runs P (mret a) Q.
Proof. intros Ha s Hs. by exists a, s. Qed.

Lemma runs_bind {A B} (m : st S A) (k : A -> st S B) Q R :
  runs P m Q -> (forall a, Q a -> runs P (k a) R) -> runs P (m ≫= k) R.
Proof.
  intros Hm Hk s Hs. destruct (Hm s Hs) as (a & s' & E & Ha & Hs'). erewrite stbind_step by exact E. by apply Hk.
Qed.

Lemma runs_try {A B E} (m : st S (result A E)) (k : A -> st S (result B E)) :
  runs P m any -> (forall a, runs P (k a) any) -> runs P (try_bind m k) any.
Proof.
  intros Hm Hk s Hs. destruct (Hm s Hs) as (r & s' & E' & _ & Hs'). unfold try_bind. rewrite E'.
  destruct r as [a|e]; [by apply Hk|by exists (Err e), s'].
Qed.

Lemma runs_lift {A} (m : outcome A) (Q : A -> Prop) : (exists a, m = Ret a /\ Q a) -> runs P (lift m) Q.
Proof. intros (a & -> & Ha) s Hs. by exists a, s. Qed.

Lemma runs_any {A} (m : st S A) Q : runs P m Q -> runs P m any.
Proof. intros Hm s Hs. destruct (Hm s Hs) as (a & s' & E & _ & Hs'). by exists a, s'. Qed.
End Runs.

Lemma timeout_large : (3 < timeout)%nat.
Proof. unfold timeout. lia. Qed.

#[local] Opaque timeout short_timeout.

(** Sequencing, choices and results, leaving the calls to the hints. *)
Ltac runs := repeat first
  [ progress intros
  | solve [eauto with runs]
  | match goal with
    | |- any _ => exact I
    | |- runs _ (mret _) _ => apply runs_ret
    | |- runs _ (_ ≫= _) _ => apply (runs_bind _ _ _ any)
    | |- runs _ (try_bind _ _) _ => apply runs_try
    | |- runs _ (if ?b then _ else _) _ => destruct b
    | |- runs _ (match ?x with _ => _ end) _ => destruct x
    end ].

Section Total.
Context `{Profile} {D : Type} `{Mmio D} (e : Emmc) (He : base e = EMMC_BASE).

Notation total m := (runs (fun _ : D => True) m any).

Lemma read_reg_runs off : 0 <= off < 256 -> total (read_reg e off).
Proof using He.
  intros Ho. apply (runs_bind _ _ _ any).
  - apply runs_lift. rewrite He, add_ok by (unfold fits, usize_bits, EMMC_BASE; lia). by eexists.
  - intros a _ d _. unfold read_volatile. destruct (read32 a d) as [v d']. by exists v, d'.
Qed.

Lemma write_reg_runs off v : 0 <= off < 256 -> total (write_reg e off v).
Proof using He.
  intros Ho. apply (runs_bind _ _ _ any).
  - apply runs_lift. rewrite He, add_ok by (unfold fits, usize_bits, EMMC_BASE; lia). by eexists.
  - intros a _ d _. by exists tt, (write32 a v d).
Qed.

Lemma delay_us_runs us : 0 <= us < 2 ^ 20 -> total (delay_us (D := D) us).
Proof using.
  intros Hus. apply (runs_bind _ _ _ any); [|intros; by apply runs_ret].
  apply runs_lift. rewrite mul_ok by (unfold fits; lia). by eexists.
Qed.

Lemma delay_ms_runs ms : 0 <= ms < 2 ^ 10 -> total (delay_ms (D := D) ms).
Proof using.
  intros Hms. apply (runs_bind _ _ _ (fun us => us = ms * 1000)).
  - apply runs_lift. rewrite mul_ok by (unfold fits; lia). by eexists.
  - intros us ->. apply delay_us_runs. lia.
Qed.

#[local] Hint Extern 1 (runs _ (read_reg _ _) _) => apply read_reg_runs; by vm_compute : runs.
#[local] Hint Extern 1 (runs _ (write_reg _ _ _) _) => apply write_reg_runs; by vm_compute : runs.
#[local] Hint Extern 1 (runs _ (delay_us _) _) => apply delay_us_runs; lia : runs.
#[local] Hint Extern 1 (runs _ (delay_ms _) _) => apply delay_ms_runs; lia : runs.

Lemma wait_cmd_runs n : total (wait_cmd_loop e n).
Proof using He. induction n; cbn [wait_cmd_loop]; runs. Qed.

Lemma wait_clear_runs n bit us : 0 <= us < 2 ^ 20 -> total (wait_clear e n bit us).
Proof using He. intros Hus. induction n; cbn [wait_clear]; runs. Qed.

Lemma wait_ready_runs n : total (wait_ready_loop e n).
Proof using He. induction n; cbn [wait_ready_loop]; runs. Qed.

Lemma wait_int_runs n bit : total (wait_int_loop e n bit).
Proof using He. induction n; cbn [wait_int_loop]; runs. Qed.

Lemma wait_stable_runs n : forall c, total (wait_stable e n c).
Proof using He. induction n; cbn [wait_stable]; runs. Qed.

Lemma reset_loop_runs n : total (reset_loop e n).
Proof using He. induction n; cbn [reset_loop]; runs. Qed.

Lemma send_cmd_runs idx arg flags : 0 <= idx < 64 -> total (send_cmd e idx arg flags).
Proof using He.
  intros Hi. unfold send_cmd. apply (runs_bind _ _ _ any); [by apply wait_clear_runs|]. runs.
  - apply runs_lift. unfold shl, CMD_INDEX_SHIFT. eexists. split; [done|exact I].
  - apply wait_cmd_runs.
Qed.
#[local] Hint Extern 1 (runs _ (send_cmd _ _ _ _) _) => apply send_cmd_runs; by vm_compute : runs.

Lemma get_response_runs i : total (get_response e i).
Proof using He. unfold get_response. runs. Qed.
#[local] Hint Resolve get_response_runs : runs.

Lemma init_sd_runs n arg : total (init_sd_loop e (S n) arg).
Proof using He. induction n as [|n IH]; cbn [init_sd_loop]; runs; exact IH. Qed.

Lemma init_mmc_runs n : total (init_mmc_loop e (S n)).
Proof using He. induction n as [|n IH]; cbn [init_mmc_loop]; runs; exact IH. Qed.

Lemma clock_divisor_ok freq : 1000 <= freq < 2 ^ 30 -> exists d, clock_divisor freq = Ret d /\ 1 <= d <= 1023.
Proof using.
  intros Hf. unfold clock_divisor. rewrite mul_ok by (unfold fits; lia). cbn [mbind outcome_bind].
  rewrite udiv_ok, urem_ok by lia. cbn [mbind outcome_bind].
  assert (0 <= BASE_CLOCK / (2 * freq) < 2 ^ 30).
  { unfold BASE_CLOCK. split; [apply Z.div_pos; lia|]. apply Z.div_lt_upper_bound; lia. }
  destruct (negb _); cbn [mbind outcome_bind]; [rewrite add_ok by (unfold fits; lia)|]; cbn [mbind outcome_bind];
    eexists; (split; [done|lia]).
Qed.

Lemma set_clock_runs freq : 1000 <= freq < 2 ^ 30 -> total (set_clock e freq).
Proof using He.
  intros Hf. unfold set_clock. runs.
  - apply runs_lift. destruct (clock_divisor_ok freq Hf) as (d & E & _). rewrite E. by eexists.
  - apply wait_stable_runs.
Qed.

Lemma read_words_runs n : total (read_words e n).
Proof using He. induction n; cbn [read_words]; runs. Qed.

Lemma write_words_runs n : forall bytes, total (write_words e n bytes).
Proof using He. induction n; cbn [write_words]; runs. Qed.

Lemma transfer_address_ok lba : fits 32 lba -> exists a, transfer_address e lba = Ret a /\ any a.
Proof using.
  intros Hl. unfold transfer_address. destruct (version (csd e)); [|by eexists|by eexists].
  rewrite mul_ok by (unfold fits, BLOCK_SIZE in *; lia). by eexists.
Qed.

Lemma read_block_runs lba buf : fits 32 lba -> total (read_block_internal e lba buf).
Proof using He.
  intros Hl. unfold read_block_internal. runs;
    try (apply runs_lift, transfer_address_ok, Hl); try (by apply wait_clear_runs);
    first [apply wait_ready_runs|apply read_words_runs|apply wait_int_runs].
Qed.

Lemma write_block_runs lba buf : fits 32 lba -> total (write_block_internal e lba buf).
Proof using He.
  intros Hl. unfold write_block_internal. runs;
    try (apply runs_lift, transfer_address_ok, Hl); try (by apply wait_clear_runs);
    first [apply write_words_runs|apply wait_int_runs].
Qed.

Lemma wrap_fits w z : 0 <= w -> fits w (wrap w z).
Proof using. intros Hw. apply Z.mod_pos_bound. lia. Qed.

Lemma is_ready_runs : total (is_ready e).
Proof using He. unfold is_ready. runs. Qed.

Lemma read_each_runs start bufs : forall i, 0 <= start -> 0 <= i -> start + i + Z.of_nat (length bufs) < 2 ^ 64 ->
  total (read_each e start i bufs).
Proof using He.
  induction bufs as [|b bufs IH]; intros i Hs Hi Hb; cbn [read_each length] in *; runs.
  - apply runs_lift. rewrite add_ok by (unfold fits; lia). by eexists.
  - apply read_block_runs, wrap_fits. lia.
  - apply IH; lia.
Qed.

Lemma write_each_runs start bufs : forall i, 0 <= start -> 0 <= i -> start + i + Z.of_nat (length bufs) < 2 ^ 64 ->
  total (write_each e start i bufs).
Proof using He.
  induction bufs as [|b bufs IH]; intros i Hs Hi Hb; cbn [write_each length] in *; runs.
  - apply runs_lift. rewrite add_ok by (unfold fits; lia). by eexists.
  - apply write_block_runs, wrap_fits. lia.
  - apply IH; lia.
Qed.

Lemma read_blocks_runs start bufs : 0 <= start -> start + Z.of_nat (length bufs) < 2 ^ 64 -> total (read_blocks e start bufs).
Proof using He.
  intros Hs Hb. unfold read_blocks. runs.
  - apply runs_lift. rewrite add_ok by (unfold fits; lia). by eexists.
  - apply is_ready_runs.
  - apply read_each_runs; lia.
Qed.

Lemma write_blocks_runs start bufs : 0 <= start -> start + Z.of_nat (length bufs) < 2 ^ 64 -> total (write_blocks e start bufs).
Proof using He.
  intros Hs Hb. unfold write_blocks. runs.
  - apply runs_lift. rewrite add_ok by (unfold fits; lia). by eexists.
  - apply is_ready_runs.
  - apply write_each_runs; lia.
Qed.
End Total.

(** *** Setting up *)

Lemma be_bytes16 v : bytes16 (be_bytes128 v).
Proof.
  split; [done|]. unfold be_bytes128. apply Forall_fmap, Forall_forall. intros i _. apply Z.mod_pos_bound. lia.
Qed.

Section Setup.
Context `{Profile} {D : Type} `{Mmio D}.

(** The driver is at the controller's address, and its card's capacity is one
    that a register can give: no larger than 2 TiB. *)
Definition capacity_ok (c : Csd) : Prop := 0 <= capacity c <= 2 ^ 41.
Definition emmc_wf (e : Emmc) : Prop := base e = EMMC_BASE /\ capacity_ok (csd e).
Definition wf (s : Emmc * D) : Prop := emmc_wf s.1.

Notation total m := (runs wf m any).

Lemma dev_runs {A} (m : Emmc -> st D A) Q : (forall e, base e = EMMC_BASE -> runs (fun _ => True) (m e) Q) ->
  runs wf (dev m) Q.
Proof using.
  intros Hm [e d] He. destruct (Hm e (proj1 He) d I) as (a & d' & E & Ha & _). unfold dev. rewrite E. by exists a, (e, d').
Qed.

Lemma dev_total {A} (m : Emmc -> st D A) : (forall e, base e = EMMC_BASE -> runs (fun _ => True) (m e) any) -> total (dev m).
Proof using. apply dev_runs. Qed.

Lemma update_runs f : (forall e, emmc_wf e -> emmc_wf (f e)) -> total (update f).
Proof using. intros Hf [e d] He. exists tt, (f e, d). split; [done|]. split; [exact I|]. by apply Hf. Qed.

#[local] Hint Extern 1 (runs _ (set_card_type _) _) => by apply update_runs : runs.
#[local] Hint Extern 1 (runs _ (set_cid _) _) => by apply update_runs : runs.
#[local] Hint Extern 1 (runs _ (set_rca _) _) => by apply update_runs : runs.

Ltac device := let e := fresh "e" in let He := fresh "He" in apply dev_total; intros e He;
  lazymatch goal with
  | |- runs _ (send_cmd _ _ _ _) _ => apply send_cmd_runs; [assumption|by vm_compute]
  | |- runs _ (get_response _ _) _ => by apply get_response_runs
  | |- runs _ (init_sd_v2 _) _ => exact (init_sd_runs e He 999 _)
  | |- runs _ (init_sd_v1 _) _ => exact (init_sd_runs e He 999 _)
  | |- runs _ (init_mmc _) _ => exact (init_mmc_runs e He 999)
  | |- runs _ (set_clock _ _) _ => apply set_clock_runs; [assumption|lia]
  end.

Lemma long_response_runs e : base e = EMMC_BASE -> runs (fun _ : D => True) (long_response e) bytes16.
Proof using.
  intros He. unfold long_response. do 4 (apply (runs_bind _ _ _ any); [by apply get_response_runs|intros ? _]).
  apply runs_ret, be_bytes16.
Qed.

Lemma rca_cmd_runs idx flags : 0 <= idx < 64 ->
  total (dev (fun e (d : D) => (a ← lift (shl 32 (rca e) 16); send_cmd e idx a flags) d)).
Proof using.
  intros Hi. apply dev_total. intros e He. apply (runs_bind _ _ _ any); [|intros a _; by apply send_cmd_runs].
  apply runs_lift. by eexists.
Qed.

Lemma detect_card_runs : total detect_card.
Proof using. unfold detect_card. runs; device. Qed.

Lemma cid_parse_ok raw : exists c, cid_parse raw = Ret c /\ any c.
Proof using.
  unfold cid_parse, parse_mdt. assert (forall x, 0 <= Z.land x 0xff < 256) as Hx by (intros; apply (land_low_fits _ 8); lia).
  rewrite add_ok; [by eexists|]. pose proof (Hx (Z.shiftr (u16_of_le (byte raw 14) (byte raw 13)) 4)). unfold fits. lia.
Qed.

Lemma csd_parse_ok raw : bytes16 raw -> exists r, csd_parse raw = Ret r /\
  match r with Ok c => capacity_ok c | Err _ => True end.
Proof using.
  intros Hr. unfold csd_parse. repeat case_match; try (by eexists).
  - destruct (parse_v1_ok raw V1_0 Hr) as (c & E & _ & _ & Hc). rewrite E. eexists. split; [done|]. unfold capacity_ok. lia.
  - destruct (parse_v2_ok raw V2_0 Hr) as (c & E & _ & Hc & Hn). rewrite E. eexists. split; [done|]. unfold capacity_ok. lia.
  - change (parse_v3 raw V3_0) with (parse_v2 raw V3_0). destruct (parse_v2_ok raw V3_0 Hr) as (c & E & _ & Hc & Hn). rewrite E. eexists. split; [done|]. unfold capacity_ok. lia.
Qed.

Lemma identify_card_runs : total identify_card.
Proof using.
  unfold identify_card. apply runs_try; [device|intros _].
  apply (runs_bind _ _ _ any); [eapply runs_any, dev_runs, long_response_runs|intros raw _].
  apply (runs_bind _ _ _ any); [apply runs_lift, cid_parse_ok|intros c _].
  apply (runs_bind _ _ _ any); [by apply update_runs|intros _ _].
  apply runs_try; [device|intros _]. apply (runs_bind _ _ _ any); [device|intros resp _].
  apply (runs_bind _ _ _ any); [by apply update_runs|intros _ _].
  apply runs_try; [by apply rca_cmd_runs|intros _].
  apply (runs_bind _ _ _ bytes16); [apply dev_runs, long_response_runs|intros raw' Hraw].
  eapply runs_bind; [apply runs_lift, csd_parse_ok, Hraw|intros [c'|err] Hc; [|by apply runs_ret]].
  apply (runs_bind _ _ _ any); [|intros _ _; by apply runs_ret]. apply update_runs. intros e [Hb _]. by split.
Qed.

Lemma init_runs : total init.
Proof using.
  unfold init. apply (runs_bind _ _ _ any); [apply dev_total; intros e He; by apply read_reg_runs|intros status _].
  destruct (negb _); [by apply runs_ret|].
  apply runs_try; [|intros _].
  { apply dev_total. intros e He. unfold reset. apply (runs_bind _ _ _ any); [by apply read_reg_runs|intros c _].
    apply (runs_bind _ _ _ any); [by apply write_reg_runs|intros _ _]. by apply reset_loop_runs. }
  apply runs_try; [device|intros _].
  apply (runs_bind _ _ _ any); [apply dev_total; intros e He; by apply write_reg_runs|intros _ _].
  apply runs_try; [device|intros _].
  apply (runs_bind _ _ _ any); [apply dev_total; intros e He; apply delay_ms_runs; lia|intros _ _].
  apply runs_try; [apply detect_card_runs|intros _]. apply runs_try; [apply identify_card_runs|intros _].
  apply runs_try; [by apply rca_cmd_runs|intros _]. apply runs_try; [device|intros _]. device.
Qed.
End Setup.

(** ** The controller and its card

    What the driver relies on: a command is done, and a block is ready, after
    finitely many polls of the interrupt register; acknowledging an interrupt
    goes to the next stage; the words of a block pass through the data
    register.  The device says how long each wait is. *)

Inductive Stage :=
  | Idle
  | Running (n : nat) (next : Stage)   (* a command, done after [n] polls *)
  | Filling (n : nat) (a : Z)          (* block [a] is being fetched *)
  | Reading (ws : list Z)              (* the words still to be read *)
  | Opening (n : nat) (a : Z)          (* waiting for room for block [a] *)
  | Writing (a : Z) (ws : list Z)      (* the words written so far *)
  | Finishing (n : nat).

Record Card := mkCard { blocks : Z -> list Z; arg1 : Z; stage : Stage }.

Definition interrupts (s : Stage) : Z :=
  match s with
  | Running 0 _ => INT_CMD_DONE
  | Filling 0 _ => INT_READ_READY
  | Opening 0 _ => INT_WRITE_READY
  | Finishing 0 => INT_DATA_DONE
  | _ => 0
  end.

Definition tick (s : Stage) : Stage :=
  match s with
  | Running (S n) k => Running n k
  | Filling (S n) a => Filling n a
  | Opening (S n) a => Opening n a
  | Finishing (S n) => Finishing n
  | _ => s
  end.

(** Writing the interrupt register clears the bits written. *)
Definition acknowledge (c : Card) (v : Z) : Stage :=
  if flag v (interrupts (stage c)) then
    match stage c with
    | Running 0 k => k
    | Filling 0 a => Reading (blocks c a)
    | Opening 0 a => Writing a []
    | Finishing 0 => Idle
    | s => s
    end
  else stage c.

(** The stage after a command is done. *)
Definition command (idx a : Z) (m : nat) : Stage :=
  if idx =? 17 then Filling m a else if idx =? 24 then Opening m a else Idle.

Definition store_block (bl : Z -> list Z) (a : Z) (ws : list Z) : Z -> list Z := fun x => if x =? a then ws else bl x.

(** [n] and [m] are waits the device chooses. *)
Definition after_read (c : Card) (off : Z) (n : nat) : Card :=
  if off =? REG_INTERRUPT then mkCard (blocks c) (arg1 c) (tick (stage c))
  else if off =? REG_DATA then
    match stage c with
    | Reading [_] => mkCard (blocks c) (arg1 c) (Finishing n)
    | Reading (_ :: ws) => mkCard (blocks c) (arg1 c) (Reading ws)
    | _ => c
    end
  else c.

Definition after_write (c : Card) (off v : Z) (n m : nat) : Card :=
  if off =? REG_INTERRUPT then mkCard (blocks c) (arg1 c) (acknowledge c v)
  else if off =? REG_ARG1 then mkCard (blocks c) v (stage c)
  else if off =? REG_CMDTM then
    match stage c with
    | Idle => mkCard (blocks c) (arg1 c) (Running n (command (v / 2 ^ 24) (arg1 c) m))
    | _ => c
    end
  else if off =? REG_DATA then
    match stage c with
    | Writing a ws =>
        if (length ws =? 127)%nat then mkCard (store_block (blocks c) a (ws ++ [v])) (arg1 c) (Finishing n)
        else mkCard (blocks c) (arg1 c) (Writing a (ws ++ [v]))
    | _ => c
    end
  else c.

Definition value_ok (c : Card) (off v : Z) : Prop :=
  (off = REG_INTERRUPT -> v = interrupts (stage c)) /\
  (off = REG_DATA -> match stage c with Reading (w :: _) => v = w | _ => True end) /\
  (off = REG_STATUS -> stage c = Idle -> flag v STATUS_CMD_INHIBIT = false /\ flag v STATUS_DAT_INHIBIT = false /\
     flag v STATUS_CARD_INSERTED = true /\ flag v STATUS_CARD_STATE_STABLE = true).

Class Controller (D : Type) `{Mmio D} := {
  card : D -> Card;
  read_card d off : value_ok (card d) off (read32 (EMMC_BASE + off) d).1 /\
    exists n, (n < timeout)%nat /\ card (read32 (EMMC_BASE + off) d).2 = after_read (card d) off n;
  write_card d off v : exists n m, (n < timeout)%nat /\ (m < timeout)%nat /\
    card (write32 (EMMC_BASE + off) v d) = after_write (card d) off v n m;
}.

(** [triple P m Q]: from a state in [P] the program returns with [Q]. *)
Definition triple {S A} (P : S -> Prop) (m : st S A) (Q : A -> S -> Prop) : Prop :=
  forall s, P s -> exists a s', m s = Ret (a, s') /\ Q a s'.

Lemma triple_bind {S A B} (m : st S A) (k : A -> st S B) P Q R :
  triple P m Q -> (forall a, triple (Q a) (k a) R) -> triple P (m ≫= k) R.
Proof.
  intros Hm Hk s Hs. destruct (Hm s Hs) as (a & s' & E & Ha). erewrite stbind_step by exact E. by apply Hk.
Qed.

(** A step with one result. *)
Lemma triple_step {S A B} (m : st S A) (k : A -> st S B) (P Q : S -> Prop) R a :
  triple P m (fun r s => r = a /\ Q s) -> triple Q (k a) R -> triple P (m ≫= k) R.
Proof. intros Hm Hk. eapply triple_bind; [exact Hm|]. intros r s [-> Hs]. by apply Hk. Qed.

Lemma triple_lift {S A B} (m : outcome A) (k : A -> st S B) (P : S -> Prop) R a :
  m = Ret a -> triple P (k a) R -> triple P (lift m ≫= k) R.
Proof. intros -> Hk s Hs. erewrite stbind_step by done. by apply Hk. Qed.

Lemma triple_ret {S A} (a : A) (P : S -> Prop) Q : (forall s, P s -> Q a s) -> triple P (mret a) Q.
Proof. intros Hq s Hs. exists a, s. split; [done|]. by apply Hq. Qed.

Section Transfer.
Context `{Profile} {D : Type} `{Controller D} (e : Emmc) (He : base e = EMMC_BASE).

Definition at_card (c : Card) : D -> Prop := fun d => card d = c.

Lemma read_reg_triple c off : 0 <= off < 256 -> triple (at_card c) (read_reg e off)
  (fun v d => value_ok c off v /\ exists n, (n < timeout)%nat /\ card d = after_read c off n).
Proof using He.
  intros Ho d Hd. exists (read32 (EMMC_BASE + off) d).1, (read32 (EMMC_BASE + off) d).2.
  destruct (read_card d off) as [Hv Hn]. rewrite Hd in Hv, Hn. split; [|done].
  unfold read_reg. erewrite stbind_step by (rewrite He, add_ok by (unfold fits, usize_bits, EMMC_BASE; lia); done).
  unfold read_volatile. by rewrite <- surjective_pairing.
Qed.

Lemma write_reg_triple c off v : 0 <= off < 256 -> triple (at_card c) (write_reg e off v)
  (fun _ d => exists n m, (n < timeout)%nat /\ (m < timeout)%nat /\ card d = after_write c off v n m).
Proof using He.
  intros Ho d Hd. exists tt, (write32 (EMMC_BASE + off) v d). split; [|rewrite <- Hd; apply write_card].
  unfold write_reg. by erewrite stbind_step by (rewrite He, add_ok by (unfold fits, usize_bits, EMMC_BASE; lia); done).
Qed.

(** A write that only one card results from. *)
Lemma write_step {B} c c' off v (k : unit -> st D B) R : 0 <= off < 256 ->
  (forall n m, after_write c off v n m = c') -> triple (at_card c') (k tt) R ->
  triple (at_card c) (write_reg e off v ≫= k) R.
Proof using He.
  intros Ho Hc Hk. eapply triple_bind; [by apply write_reg_triple|]. intros [] d (n & m & _ & _ & Hd). apply Hk.
  by rewrite Hc in Hd.
Qed.

Lemma delay_step {B} us c (k : unit -> st D B) R : 0 <= us < 2 ^ 20 -> triple (at_card c) (k tt) R ->
  triple (at_card c) (delay_us us ≫= k) R.
Proof using.
  intros Hus Hk d Hd. unfold delay_us. erewrite stbind_step; [by apply Hk|].
  by erewrite stbind_step by (by rewrite mul_ok by (unfold fits; lia)).
Qed.

(** A poll of the interrupt register. *)
Lemma poll_step {B} bl a1 s (k : Z -> st D B) R : triple (at_card (mkCard bl a1 (tick s))) (k (interrupts s)) R ->
  triple (at_card (mkCard bl a1 s)) (read_reg e REG_INTERRUPT ≫= k) R.
Proof using He.
  intros Hk. eapply triple_bind; [by apply read_reg_triple|]. intros v d ((Hv & _) & n & _ & Hd).
  rewrite (Hv eq_refl). by apply Hk.
Qed.

Lemma status_step {B} c (k : Z -> st D B) R : (forall v, value_ok c REG_STATUS v -> triple (at_card c) (k v) R) ->
  triple (at_card c) (read_reg e REG_STATUS ≫= k) R.
Proof using He.
  intros Hk. eapply triple_bind; [by apply read_reg_triple|]. intros v d (Hv & n & _ & Hd). by apply (Hk v Hv).
Qed.

Lemma wait_clear_step {B} bl a1 n bit us (k : unit -> st D B) R : bit = STATUS_CMD_INHIBIT \/ bit = STATUS_DAT_INHIBIT ->
  triple (at_card (mkCard bl a1 Idle)) (k tt) R -> triple (at_card (mkCard bl a1 Idle)) (wait_clear e n bit us ≫= k) R.
Proof using He.
  intros Hbit Hk. destruct n as [|n]; [exact Hk|]. cbn [wait_clear].
  apply (triple_bind _ _ _ (fun _ => at_card (mkCard bl a1 Idle))); [|intros []; exact Hk].
  apply status_step. intros v (_ & _ & Hv). destruct (Hv eq_refl eq_refl) as (Hc & Hd & _).
  destruct Hbit as [->| ->]; rewrite ?Hc, ?Hd; by apply triple_ret.
Qed.

Lemma wait_cmd_triple bl a1 k n : forall N, (n < N)%nat ->
  triple (at_card (mkCard bl a1 (Running n k))) (wait_cmd_loop e N) (fun r d => r = Ok tt /\ at_card (mkCard bl a1 k) d).
Proof using He.
  induction n as [|n IH]; intros [|N] Hn; try lia; cbn [wait_cmd_loop]; apply poll_step; cbn [interrupts tick].
  - change (flag INT_CMD_DONE INT_ERROR) with false. change (flag INT_CMD_DONE INT_CMD_DONE) with true. cbv iota.
    apply (write_step _ (mkCard bl a1 k)); [done|by intros|]. by apply triple_ret.
  - change (flag 0 INT_ERROR) with false. change (flag 0 INT_CMD_DONE) with false. cbv iota.
    apply delay_step; [lia|]. apply IH. lia.
Qed.

Lemma wait_ready_triple bl a1 a n : forall N, (n < N)%nat ->
  triple (at_card (mkCard bl a1 (Filling n a))) (wait_ready_loop e N)
    (fun r d => r = Ok tt /\ at_card (mkCard bl a1 (Reading (bl a))) d).
Proof using He.
  induction n as [|n IH]; intros [|N] Hn; try lia; cbn [wait_ready_loop]; apply poll_step; cbn [interrupts tick].
  - change (flag INT_READ_READY INT_ERROR) with false. change (flag INT_READ_READY INT_READ_READY) with true. cbv iota.
    apply (write_step _ (mkCard bl a1 (Reading (bl a)))); [done|by intros|]. by apply triple_ret.
  - change (flag 0 INT_ERROR) with false. change (flag 0 INT_READ_READY) with false. cbv iota.
    apply delay_step; [lia|]. apply IH. lia.
Qed.

(** The two waits that share a loop. *)
Definition waits (bit : Z) (s : nat -> Stage) (s' : Stage) : Prop :=
  bit = INT_WRITE_READY /\ (exists a, s = (fun n => Opening n a) /\ s' = Writing a []) \/
  bit = INT_DATA_DONE /\ s = Finishing /\ s' = Idle.

Lemma wait_int_triple bl a1 bit s s' n : waits bit s s' -> forall N, (n < N)%nat ->
  triple (at_card (mkCard bl a1 (s n))) (wait_int_loop e N bit) (fun r d => r = Ok tt /\ at_card (mkCard bl a1 s') d).
Proof using He.
  intros Hw. assert (interrupts (s 0%nat) = bit /\ (forall n, interrupts (s (S n)) = 0 /\ tick (s (S n)) = s n) /\
    flag bit INT_ERROR = false /\ flag bit bit = true /\
    forall n m, after_write (mkCard bl a1 (tick (s 0%nat))) REG_INTERRUPT bit n m = mkCard bl a1 s') as (E0 & ES & Ef & Eb & Ew).
  { destruct Hw as [(-> & a & -> & ->)|(-> & -> & ->)]; by repeat split. }
  clear Hw. induction n as [|n IH]; intros [|N] Hn; try lia; cbn [wait_int_loop]; apply poll_step.
  - rewrite E0, Ef, Eb. apply (write_step _ (mkCard bl a1 s')); [done|exact Ew|by apply triple_ret].
  - destruct (ES n) as [-> ->]. change (flag 0 INT_ERROR) with false. change (flag 0 bit) with false. cbv iota.
    apply delay_step; [lia|]. apply IH. lia.
Qed.

(** A command leaves the controller at the stage it leads to. *)
Lemma send_cmd_triple bl a1 idx arg flags : 0 <= idx < 64 -> Z.lor (idx * 2 ^ 24) flags / 2 ^ 24 = idx ->
  triple (at_card (mkCard bl a1 Idle)) (send_cmd e idx arg flags)
    (fun r d => r = Ok tt /\ exists m, (m < timeout)%nat /\ at_card (mkCard bl (wrap 32 arg) (command idx (wrap 32 arg) m)) d).
Proof using He.
  intros Hi Hidx. unfold send_cmd. apply wait_clear_step; [by left|].
  do 2 (apply (write_step _ (mkCard bl a1 Idle)); [done|by intros|]).
  apply (write_step _ (mkCard bl (wrap 32 arg) Idle)); [done|by intros|].
  apply (triple_lift _ _ _ _ (idx * 2 ^ 24)); [apply shl_ok; unfold fits, CMD_INDEX_SHIFT; lia|].
  eapply triple_bind; [by apply write_reg_triple|]. intros [] d (n & m & Hn & Hm & Hd).
  unfold after_write in Hd. cbn [stage blocks arg1] in Hd. rewrite Hidx in Hd.
  destruct (wait_cmd_triple bl (wrap 32 arg) (command idx (wrap 32 arg) m) n timeout Hn d Hd) as (r & d' & E & -> & Hd').
  exists (Ok tt), d'. split; [exact E|]. split; [done|]. by exists m.
Qed.

Lemma read_words_triple bl a1 : forall ws, ws <> [] -> triple (at_card (mkCard bl a1 (Reading ws))) (read_words e (length ws))
  (fun bs d => bs = flat_map le_bytes32 ws /\ exists n, (n < timeout)%nat /\ at_card (mkCard bl a1 (Finishing n)) d).
Proof using He.
  induction ws as [|w ws IH]; intros Hne; [done|]. cbn [length read_words].
  eapply triple_bind; [by apply read_reg_triple|]. intros v d ((_ & Hv & _) & n & Hn & Hd). cbn in Hv. rewrite (Hv eq_refl).
  destruct ws as [|w' ws].
  - exists (le_bytes32 w ++ []), d. split; [done|]. cbn [flat_map]. split; [done|]. by exists n.
  - destruct (IH ltac:(done) d Hd) as (bs & d' & E & -> & Hfin). exists (le_bytes32 w ++ flat_map le_bytes32 (w' :: ws)), d'.
    split; [|by split]. by erewrite stbind_step by exact E.
Qed.

(** The words of a buffer of bytes. *)
Fixpoint words_of (n : nat) (bytes : list Z) : list Z :=
  match n with
  | O => []
  | S n => u32_of_le (bytes !!! 0%nat) (bytes !!! 1%nat) (bytes !!! 2%nat) (bytes !!! 3%nat) :: words_of n (drop 4 bytes)
  end.

Lemma write_words_triple bl a1 a n : forall ws bytes, (length ws + S n)%nat = 128%nat ->
  triple (at_card (mkCard bl a1 (Writing a ws))) (write_words e (S n) bytes)
    (fun _ d => exists m, (m < timeout)%nat /\ at_card (mkCard (store_block bl a (ws ++ words_of (S n) bytes)) a1 (Finishing m)) d).
Proof using He.
  induction n as [|n IH]; intros ws bytes Hl; cbn [write_words words_of];
    (eapply triple_bind; [by apply write_reg_triple|]); intros [] d (m & m' & Hm & _ & Hd);
    unfold after_write in Hd; cbn [stage blocks arg1] in Hd; change (REG_DATA =? REG_INTERRUPT) with false in Hd;
    change (REG_DATA =? REG_ARG1) with false in Hd; change (REG_DATA =? REG_CMDTM) with false in Hd;
    change (REG_DATA =? REG_DATA) with true in Hd; cbv iota in Hd.
  - rewrite (proj2 (Nat.eqb_eq _ _)) in Hd by lia. exists tt, d. split; [done|]. by exists m.
  - rewrite (proj2 (Nat.eqb_neq _ _)) in Hd by lia.
    destruct (IH (ws ++ [u32_of_le (bytes !!! 0%nat) (bytes !!! 1%nat) (bytes !!! 2%nat) (bytes !!! 3%nat)]) (drop 4 bytes)
      ltac:(rewrite length_app; cbn; lia) d Hd) as ([] & d' & E & m2 & Hm2 & Hd').
    exists tt, d'. split; [exact E|]. exists m2. split; [done|]. rewrite <- app_assoc in Hd'. exact Hd'.
Qed.

(** Where the controller looks for a block. *)
Definition card_address (lba : Z) : Z := match version (csd e) with V1_0 => lba * 512 | V2_0 | V3_0 => lba end.

Lemma transfer_address_fits lba : 0 <= lba -> fits 32 (card_address lba) ->
  transfer_address e lba = Ret (card_address lba) /\ wrap 32 (card_address lba) = card_address lba.
Proof using.
  intros Hl Hf. split; [|by apply Z.mod_small]. unfold transfer_address, card_address in *.
  destruct (version (csd e)); [|done|done]. apply mul_ok. unfold fits, BLOCK_SIZE in *. lia.
Qed.

Lemma read_block_triple bl a1 lba buf : 0 <= lba -> fits 32 (card_address lba) -> 512 <= Z.of_nat (length buf) ->
  length (bl (card_address lba)) = 128%nat ->
  triple (at_card (mkCard bl a1 Idle)) (read_block_internal e lba buf)
    (fun r d => r = (flat_map le_bytes32 (bl (card_address lba)) ++ drop 512 buf, Ok tt) /\
       at_card (mkCard bl (card_address lba) Idle) d).
Proof using He.
  intros Hl Hf Hb Hlen. destruct (transfer_address_fits lba Hl Hf) as [Ea Ew]. unfold read_block_internal.
  rewrite (proj2 (Z.ltb_ge _ _)) by (unfold BLOCK_SIZE; lia). apply wait_clear_step; [by right|].
  do 2 (apply (write_step _ (mkCard bl a1 Idle)); [done|by intros|]). eapply triple_lift; [exact Ea|].
  eapply triple_bind; [by apply send_cmd_triple|]. intros r d (-> & m & Hm & Hd). rewrite Ew in Hd.
  destruct (wait_ready_triple bl (card_address lba) (card_address lba) m timeout Hm d Hd) as (r & d1 & E1 & -> & Hd1).
  erewrite stbind_step by exact E1. cbv iota beta.
  destruct (read_words_triple bl (card_address lba) (bl (card_address lba)) ltac:(intros Hnil; by rewrite Hnil in Hlen) d1 Hd1) as (bs & d2 & E2 & -> & n & Hn & Hd2).
  rewrite Hlen in E2. erewrite stbind_step by exact E2. cbv beta.
  destruct (wait_int_triple bl (card_address lba) INT_DATA_DONE Finishing Idle n ltac:(by right) timeout Hn d2 Hd2)
    as (r & d3 & E3 & -> & Hd3).
  erewrite stbind_step by exact E3. eexists _, d3. by split.
Qed.

Lemma write_block_triple bl a1 lba buf : 0 <= lba -> fits 32 (card_address lba) -> 512 <= Z.of_nat (length buf) ->
  triple (at_card (mkCard bl a1 Idle)) (write_block_internal e lba buf)
    (fun r d => r = Ok tt /\ at_card (mkCard (store_block bl (card_address lba) (words_of 128 (take 512 buf))) (card_address lba) Idle) d).
Proof using He.
  intros Hl Hf Hb. destruct (transfer_address_fits lba Hl Hf) as [Ea Ew]. unfold write_block_internal.
  rewrite (proj2 (Z.ltb_ge _ _)) by (unfold BLOCK_SIZE; lia). apply wait_clear_step; [by right|].
  do 2 (apply (write_step _ (mkCard bl a1 Idle)); [done|by intros|]). eapply triple_lift; [exact Ea|].
  intros d0 Hd0. destruct (send_cmd_triple bl a1 24 (card_address lba) (Z.lor R48 CMD_ISDATA) ltac:(lia) eq_refl d0 Hd0)
    as (r0 & d & E0 & -> & m & Hm & Hd).
  erewrite try_step by exact E0. cbv beta. rewrite Ew in Hd.
  destruct (wait_int_triple bl (card_address lba) INT_WRITE_READY (fun n => Opening n (card_address lba)) (Writing (card_address lba) [])
    m ltac:(left; eauto) timeout Hm d Hd) as (r & d1 & E1 & -> & Hd1).
  erewrite try_step by exact E1. cbv beta.
  destruct (write_words_triple bl (card_address lba) (card_address lba) 127 [] (take 512 buf) eq_refl d1 Hd1) as ([] & d2 & E2 & n & Hn & Hd2).
  change (Z.to_nat BLOCK_SIZE) with 512%nat. erewrite stbind_step by exact E2. cbn [app] in Hd2.
  exact (wait_int_triple _ (card_address lba) INT_DATA_DONE Finishing Idle n ltac:(by right) timeout Hn d2 Hd2).
Qed.
End Transfer.

(** ** The card as a disk *)

Section Disk.
Context `{Profile} {D : Type} `{Controller D} (e : Emmc) (He : base e = EMMC_BASE).

(** The bytes of a block. *)
Definition sector (bl : Z -> list Z) (lba : Z) : list Z := flat_map le_bytes32 (bl (card_address e lba)).

(** The card has the blocks its register says, at 32-bit addresses. *)
Definition has_blocks (bl : Z -> list Z) : Prop := forall lba, 0 <= lba < block_count (csd e) ->
  fits 32 (card_address e lba) /\ length (bl (card_address e lba)) = 128%nat.

(** A card that waits for a command. *)
Definition idle (d : D) : Prop := stage (card d) = Idle /\ has_blocks (blocks (card d)).

Definition large (buf : list Z) : Prop := 512 <= Z.of_nat (length buf).

(** What the driver makes of the buffers and of the blocks. *)
Fixpoint filled (bl : Z -> list Z) (lba : Z) (bufs : list (list Z)) : list (list Z) :=
  match bufs with
  | [] => []
  | buf :: rest => (sector bl lba ++ drop 512 buf) :: filled bl (lba + 1) rest
  end.

Fixpoint stored (bl : Z -> list Z) (lba : Z) (bufs : list (list Z)) : Z -> list Z :=
  match bufs with
  | [] => bl
  | buf :: rest => stored (store_block bl (card_address e lba) (words_of 128 (take 512 buf))) (lba + 1) rest
  end.

Lemma address_range lba : 0 <= lba -> fits 32 (card_address e lba) -> fits 32 lba.
Proof using. unfold card_address, fits. destruct (version (csd e)); lia. Qed.

Lemma address_inj a b : card_address e a = card_address e b -> a = b.
Proof using. unfold card_address. destruct (version (csd e)); lia. Qed.

Lemma length_words_of n : forall l, length (words_of n l) = n.
Proof using. induction n as [|n IH]; intros l; [done|]. cbn [words_of length]. by rewrite IH. Qed.

Lemma has_blocks_store bl a ws : has_blocks bl -> length ws = 128%nat -> has_blocks (store_block bl a ws).
Proof using.
  intros Hb Hw lba Hl. destruct (Hb lba Hl) as [Hf Hlen]. split; [done|]. unfold store_block.
  by destruct (Z.eqb_spec (card_address e lba) a) as [_|_].
Qed.

Lemma has_blocks_stored bufs : forall bl lba, has_blocks bl -> has_blocks (stored bl lba bufs).
Proof using.
  induction bufs as [|b bufs IH]; intros bl lba Hbl; [done|]. apply IH, has_blocks_store; [done|apply length_words_of].
Qed.

Lemma read_each_triple bl start bufs : forall a1 i, 0 <= start -> 0 <= i -> Forall large bufs -> has_blocks bl ->
  start + i + Z.of_nat (length bufs) <= block_count (csd e) ->
  triple (at_card (mkCard bl a1 Idle)) (read_each e start i bufs)
    (fun r d => r = (filled bl (start + i) bufs, Ok tt) /\ exists a, at_card (mkCard bl a Idle) d).
Proof using He.
  induction bufs as [|buf rest IH]; intros a1 i Hs Hi Hb Hbl Hc; cbn [read_each filled length] in *.
  { apply triple_ret. intros d Hd. split; [done|]. by exists a1. }
  inversion Hb as [|? ? Hbuf Hrest]; subst. destruct (Hbl (start + i)) as [Hf Hlen]; [lia|].
  pose proof (address_range (start + i) ltac:(lia) Hf) as Hr.
  apply (triple_lift _ _ _ _ (start + i)); [apply add_ok; unfold fits in *; lia|].
  replace (wrap 32 (start + i)) with (start + i) by (symmetry; by apply Z.mod_small).
  intros d0 Hd0. destruct (read_block_triple e He bl a1 (start + i) buf ltac:(lia) Hf Hbuf Hlen d0 Hd0) as (r & d1 & E1 & -> & Hd1).
  erewrite stbind_step by exact E1. cbv beta iota.
  destruct (IH (card_address e (start + i)) (i + 1) Hs ltac:(lia) Hrest Hbl ltac:(lia) d1 Hd1) as (r & d2 & E2 & -> & Hd2).
  erewrite stbind_step by exact E2. cbv beta iota. eexists _, d2. split; [done|]. split; [|done].
  by rewrite <- Z.add_assoc.
Qed.

Lemma write_each_triple start bufs : forall bl a1 i, 0 <= start -> 0 <= i -> Forall large bufs -> has_blocks bl ->
  start + i + Z.of_nat (length bufs) <= block_count (csd e) ->
  triple (at_card (mkCard bl a1 Idle)) (write_each e start i bufs)
    (fun r d => r = Ok tt /\ exists a, at_card (mkCard (stored bl (start + i) bufs) a Idle) d).
Proof using He.
  induction bufs as [|buf rest IH]; intros bl a1 i Hs Hi Hb Hbl Hc; cbn [write_each stored length] in *.
  { apply triple_ret. intros d Hd. split; [done|]. by exists a1. }
  inversion Hb as [|? ? Hbuf Hrest]; subst. destruct (Hbl (start + i)) as [Hf Hlen]; [lia|].
  pose proof (address_range (start + i) ltac:(lia) Hf) as Hr.
  apply (triple_lift _ _ _ _ (start + i)); [apply add_ok; unfold fits in *; lia|].
  replace (wrap 32 (start + i)) with (start + i) by (symmetry; by apply Z.mod_small).
  intros d0 Hd0. destruct (write_block_triple e He bl a1 (start + i) buf ltac:(lia) Hf Hbuf d0 Hd0) as (r & d1 & E1 & -> & Hd1).
  erewrite try_step by exact E1. cbv beta. rewrite <- Z.add_assoc.
  apply (IH _ (card_address e (start + i)) (i + 1) Hs ltac:(lia) Hrest); [|lia|exact Hd1].
  apply has_blocks_store; [done|]. apply length_words_of.
Qed.

Lemma not_small bufs : Forall large bufs -> too_small bufs = false.
Proof using.
  induction 1 as [|b bufs Hb _ IH]; [done|]. cbn [too_small existsb]. rewrite (proj2 (Z.ltb_ge _ _)) by (unfold BLOCK_SIZE, large in *; lia).
  exact IH.
Qed.

Lemma is_ready_triple bl a1 : triple (at_card (mkCard bl a1 Idle)) (is_ready e) (fun r d => r = true /\ at_card (mkCard bl a1 Idle) d).
Proof using He.
  unfold is_ready. apply (status_step e He). intros v (_ & _ & Hv). destruct (Hv eq_refl eq_refl) as (_ & _ & -> & ->).
  by apply triple_ret.
Qed.

(** The checks before a transfer pass. *)
Lemma transfer_checks {A} start (bufs : list (list Z)) bl a1 (bad : EmmcError) (fail : EmmcError -> A) (k : st D A) R :
  0 <= start -> Forall large bufs -> start + Z.of_nat (length bufs) <= block_count (csd e) ->
  0 <= block_count (csd e) < 2 ^ 64 -> triple (at_card (mkCard bl a1 Idle)) k R ->
  triple (at_card (mkCard bl a1 Idle))
    (if too_small bufs then mret (fail BufferTooSmall)
     else
       last ← lift (add 64 start (Z.of_nat (length bufs)));
       if block_count (csd e) <? last then mret (fail bad)
       else ready ← is_ready e; if negb ready then mret (fail NoCard) else k) R.
Proof using He.
  intros Hs Hb Hc Hn Hk. rewrite not_small by done.
  apply (triple_lift _ _ _ _ (start + Z.of_nat (length bufs))); [apply add_ok; unfold fits; lia|].
  rewrite (proj2 (Z.ltb_ge _ _)) by lia. eapply triple_step; [apply is_ready_triple|]. exact Hk.
Qed.

(** *** Bytes and words *)

Lemma u32_bytes b0 b1 b2 b3 : fits 8 b0 -> fits 8 b1 -> fits 8 b2 -> fits 8 b3 ->
  le_bytes32 (u32_of_le b0 b1 b2 b3) = [b0; b1; b2; b3].
Proof using.
  unfold fits, le_bytes32, u32_of_le. intros ? ? ? ?.
  assert ((b0 + 256 * b1 + 65536 * b2 + 16777216 * b3) / 256 = b1 + 256 * b2 + 65536 * b3) as E1
    by (symmetry; apply Z.div_unique with b0; lia).
  assert ((b0 + 256 * b1 + 65536 * b2 + 16777216 * b3) / 65536 = b2 + 256 * b3) as E2
    by (symmetry; apply Z.div_unique with (b0 + 256 * b1); lia).
  assert ((b0 + 256 * b1 + 65536 * b2 + 16777216 * b3) / 16777216 = b3) as E3
    by (symmetry; apply Z.div_unique with (b0 + 256 * b1 + 65536 * b2); lia).
  rewrite E1, E2, E3. f_equal; [symmetry; apply Z.mod_unique with (b1 + 256 * b2 + 65536 * b3); lia|].
  f_equal; [symmetry; apply Z.mod_unique with (b2 + 256 * b3); lia|].
  f_equal; [symmetry; apply Z.mod_unique with b3; lia|]. f_equal. by apply Z.mod_small.
Qed.

Lemma bytes_words n : forall l, length l = (4 * n)%nat -> Forall (fits 8) l -> flat_map le_bytes32 (words_of n l) = l.
Proof using.
  induction n as [|n IH]; intros l Hl Hf; [by destruct l|].
  destruct l as [|b0 [|b1 [|b2 [|b3 l]]]]; cbn [length] in Hl; try lia. cbn [words_of flat_map].
  change ((b0 :: b1 :: b2 :: b3 :: l) !!! 0%nat) with b0. change ((b0 :: b1 :: b2 :: b3 :: l) !!! 1%nat) with b1.
  change ((b0 :: b1 :: b2 :: b3 :: l) !!! 2%nat) with b2. change ((b0 :: b1 :: b2 :: b3 :: l) !!! 3%nat) with b3.
  change (drop 4 (b0 :: b1 :: b2 :: b3 :: l)) with l.
  do 4 match goal with Hx : Forall _ (_ :: _) |- _ => inversion Hx; subst; clear Hx end.
  rewrite u32_bytes by done. by rewrite IH by (done || lia).
Qed.

(** Blocks written, then read. *)
Lemma sector_stored bufs : forall bl lba x, Forall large bufs -> Forall (Forall (fits 8)) bufs ->
  sector (stored bl lba bufs) x =
  if decide (lba <= x < lba + Z.of_nat (length bufs)) then take 512 (bufs !!! Z.to_nat (x - lba)) else sector bl x.
Proof using.
  induction bufs as [|buf rest IH]; intros bl lba x Hb H8; cbn [stored length].
  { by rewrite decide_False by lia. }
  inversion Hb as [|? ? Hbuf Hrest]; subst. inversion H8 as [|? ? H8b H8r]; subst. rewrite IH by done.
  destruct (decide (x = lba)) as [->|Hne].
  - rewrite decide_False, decide_True by lia. rewrite Z.sub_diag. change ((buf :: rest) !!! Z.to_nat 0) with buf.
    unfold sector, store_block. rewrite Z.eqb_refl. apply bytes_words.
    + unfold large in Hbuf. rewrite length_take. lia.
    + by apply Forall_take.
  - assert (card_address e x <> card_address e lba) as Ha by (intros E; by apply Hne, address_inj).
    destruct (decide (lba + 1 <= x < lba + 1 + Z.of_nat (length rest))).
    + rewrite decide_True by lia. by replace (Z.to_nat (x - lba)) with (S (Z.to_nat (x - (lba + 1)))) by lia.
    + rewrite decide_False by lia. unfold sector, store_block. by rewrite (proj2 (Z.eqb_neq _ _)).
Qed.

(** *** Transfers of whole ranges *)

Lemma idle_at_card d : idle d -> at_card (mkCard (blocks (card d)) (arg1 (card d)) Idle) d.
Proof using. intros [Hi _]. unfold at_card. rewrite <- Hi. by destruct (card d). Qed.

Lemma read_blocks_ok start bufs d : idle d -> 0 <= start ->
  start + Z.of_nat (length bufs) <= block_count (csd e) < 2 ^ 64 -> Forall large bufs ->
  exists d', read_blocks e start bufs d = Ret ((filled (blocks (card d)) start bufs, Ok tt), d') /\
    idle d' /\ blocks (card d') = blocks (card d).
Proof using He.
  intros Hd Hs Hc Hb. destruct (Hd) as [Hi Hbl]. set (bl := blocks (card d)) in *.
  destruct (transfer_checks start bufs bl (arg1 (card d)) ReadError (fun err => (bufs, Err err)) (read_each e start 0 bufs)
    _ Hs Hb ltac:(lia) ltac:(lia) (read_each_triple bl start bufs (arg1 (card d)) 0 Hs ltac:(lia) Hb Hbl ltac:(lia)) d
    (idle_at_card d Hd)) as (r & d' & E & -> & a & Hd').
  rewrite Z.add_0_r in E. exists d'. split; [exact E|]. unfold idle. by rewrite Hd'.
Qed.

Lemma write_blocks_ok start bufs d : idle d -> 0 <= start ->
  start + Z.of_nat (length bufs) <= block_count (csd e) < 2 ^ 64 -> Forall large bufs ->
  exists d', write_blocks e start bufs d = Ret (Ok tt, d') /\
    idle d' /\ blocks (card d') = stored (blocks (card d)) start bufs.
Proof using He.
  intros Hd Hs Hc Hb. destruct (Hd) as [Hi Hbl]. set (bl := blocks (card d)) in *.
  destruct (transfer_checks start bufs bl (arg1 (card d)) WriteError Err (write_each e start 0 bufs)
    _ Hs Hb ltac:(lia) ltac:(lia) (write_each_triple start bufs bl (arg1 (card d)) 0 Hs ltac:(lia) Hb Hbl ltac:(lia)) d
    (idle_at_card d Hd)) as (r & d' & E & -> & a & Hd').
  rewrite Z.add_0_r in Hd'. exists d'. split; [exact E|]. unfold idle. rewrite Hd'. split; [split; [done|]|done].
  by apply has_blocks_stored.
Qed.
End Disk.

(** ** Theorems *)

Section Claims.
Context `{Profile} {D : Type}.

(** C17: Whatever the registers of the device read as, in both build
    profiles, setting up the card and reading and writing blocks return a
    result: every wait of the driver is bounded and nothing in it panics, as
    long as the block numbers asked for are 64-bit integers. *)
Theorem emmc_total `{Mmio D} e (d : D) : emmc_wf e ->
  (exists r s, init (e, d) = Ret (r, s)) /\
  (forall start bufs, 0 <= start -> start + Z.of_nat (length bufs) < 2 ^ 64 ->
     (exists r d', read_blocks e start bufs d = Ret (r, d')) /\ (exists r d', write_blocks e start bufs d = Ret (r, d'))).
Proof.
  intros He. split.
  - destruct (init_runs (D := D) (e, d) He) as (r & s & E & _). by exists r, s.
  - destruct He as [He _]. intros start bufs Hs Hb. split.
    + destruct (read_blocks_runs e He start bufs Hs Hb d I) as (r & d' & E & _). by exists r, d'.
    + destruct (write_blocks_runs e He start bufs Hs Hb d I) as (r & d' & E & _). by exists r, d'.
Qed.

(** C15: The driver's record stays well formed: the constructor accepts the
    controller's address only and makes a record with a capacity of at most
    2 TiB, setting up the card keeps it so whatever the card answers and
    however it ends, and then describing the device does not overflow and
    every block number on the card survives the conversion to 32 bits. *)
Theorem emmc_well_formed `{Mmio D} :
  (forall b, new b = if b =? EMMC_BASE then Ok (mkEmmc EMMC_BASE cid_default csd_default 0 CardUnknown) else Err HardwareError) /\
  (forall b e, new b = Ok e -> emmc_wf e) /\
  (forall e (d : D) r e' d', emmc_wf e -> init (e, d) = Ret (r, (e', d')) -> emmc_wf e') /\
  (forall e, emmc_wf e ->
     info e = Ret (mkInfo 512 (block_count (csd e)) (block_count (csd e) * 512) false true) /\
     forall lba, 0 <= lba < block_count (csd e) -> wrap 32 lba = lba).
Proof.
  split; [|split; [|split]].
  - intros b. unfold new. by destruct (b =? EMMC_BASE).
  - intros b e. unfold new. destruct (negb _); [done|]. intros [= <-]. split; [done|]. unfold capacity_ok. cbn. lia.
  - intros e d r e' d' He E. destruct (init_runs (D := D) (e, d) He) as (r2 & s2 & E2 & _ & Hs2).
    rewrite E in E2. injection E2 as <- <-. exact Hs2.
  - intros e [_ [H1 H2]]. assert (0 <= block_count (csd e) <= 2 ^ 32) as Hc.
    { unfold block_count. split; [apply Z.div_pos; lia|]. apply Z.div_le_upper_bound; lia. }
    split; [|intros lba Hl; apply Z.mod_small; lia].
    unfold info, info_new. rewrite mul_ok by (unfold fits; lia). done.
Qed.

(** C38: The range check of a transfer: a short buffer and a range past the
    end of the card are refused before any register is touched; a range whose
    end is not a 64-bit number panics in a debug build, and wraps around in a
    release build, where the check lets it pass and blocks past the end of the
    card are read.  In particular a driver that has not been initialised
    refuses every block. *)
Theorem emmc_range_check `{Mmio D} e start bufs (d : D) : 0 <= start < 2 ^ 64 -> 0 <= block_count (csd e) ->
  Z.of_nat (length bufs) < 2 ^ 32 -> let last := start + Z.of_nat (length bufs) in
  (Exists (fun b => Z.of_nat (length b) < 512) bufs ->
     read_blocks e start bufs d = Ret ((bufs, Err BufferTooSmall), d) /\ write_blocks e start bufs d = Ret (Err BufferTooSmall, d)) /\
  (Forall large bufs -> block_count (csd e) < last < 2 ^ 64 ->
     read_blocks e start bufs d = Ret ((bufs, Err ReadError), d) /\ write_blocks e start bufs d = Ret (Err WriteError, d)) /\
  (Forall large bufs -> 2 ^ 64 <= last -> debug_assertions = true -> read_blocks e start bufs d = Panic) /\
  (Forall large bufs -> 2 ^ 64 <= last -> debug_assertions = false -> last - 2 ^ 64 <= block_count (csd e) ->
     read_blocks e start bufs d = (ready ← is_ready e; if negb ready then mret (bufs, Err NoCard) else read_each e start 0 bufs) d).
Proof.
  intros Hs Hc Hl last. unfold read_blocks, write_blocks. split_and!.
  - intros Hex. assert (too_small bufs = true) as ->; [|done]. apply existsb_exists. apply Exists_exists in Hex as (b & Hb & Hlb).
    exists b. split; [by apply list_elem_of_In|]. apply Z.ltb_lt. exact Hlb.
  - intros Hb Hlast. rewrite not_small by done. unfold mbind, st_bind, lift. rewrite add_ok by (unfold fits; fold last; lia).
    fold last. by rewrite (proj2 (Z.ltb_lt _ _)) by lia.
  - intros Hb Hlast Hd. rewrite not_small by done. unfold mbind, st_bind, lift, add, arith.
    fold last. rewrite (proj2 (Z.ltb_ge last _)) by lia. by rewrite andb_false_r, Hd.
  - intros Hb Hlast Hd Hw. rewrite not_small by done. unfold mbind at 1, st_bind at 1, lift, add, arith.
    fold last. rewrite (proj2 (Z.ltb_ge last _)) by lia. rewrite andb_false_r, Hd.
    replace (wrap 64 last) with (last - 2 ^ 64) by (unfold wrap; apply Z.mod_unique with 1; lia).
    by rewrite (proj2 (Z.ltb_ge _ _)) by lia.
Qed.

(** Over a controller that goes through its stages, reading blocks of
    the card fills the first 512 bytes of each buffer with the bytes of its
    block and leaves the rest of the buffer and the card's blocks alone. *)
Theorem emmc_read_blocks `{Controller D} e start bufs (d : D) : base e = EMMC_BASE -> idle e d ->
  0 <= start -> start + Z.of_nat (length bufs) <= block_count (csd e) < 2 ^ 64 -> Forall large bufs ->
  exists d', read_blocks e start bufs d = Ret ((filled e (blocks (card d)) start bufs, Ok tt), d') /\
    idle e d' /\ blocks (card d') = blocks (card d).
Proof. intros. by apply read_blocks_ok. Qed.

(** C16: Writing blocks and reading them back is a round trip: afterwards the
    blocks of the range hold the first 512 bytes of their buffers and every
    other block of the card holds what it did. *)
Theorem emmc_write_read `{Controller D} e start bufs (d : D) : base e = EMMC_BASE -> idle e d ->
  0 <= start -> start + Z.of_nat (length bufs) <= block_count (csd e) < 2 ^ 64 -> Forall large bufs ->
  Forall (Forall (fits 8)) bufs ->
  exists d', write_blocks e start bufs d = Ret (Ok tt, d') /\ idle e d' /\
    forall lba buf, 0 <= lba < block_count (csd e) -> large buf -> exists d'',
      read_blocks e lba [buf] d' = Ret (([(if decide (start <= lba < start + Z.of_nat (length bufs))
        then take 512 (bufs !!! Z.to_nat (lba - start)) else sector e (blocks (card d)) lba) ++ drop 512 buf], Ok tt), d'').
Proof.
  intros He Hd Hs Hc Hb H8. destruct (write_blocks_ok e He start bufs d Hd Hs Hc Hb) as (d' & E & Hd' & Hbl).
  exists d'. split; [exact E|]. split; [done|]. intros lba buf Hlba Hlarge.
  destruct (read_blocks_ok e He lba [buf] d' Hd' ltac:(lia) ltac:(cbn; lia) ltac:(by constructor)) as (d'' & E'' & _).
  exists d''. rewrite E'', Hbl. cbn [filled]. by rewrite sector_stored.
Qed.
End Claims.

(** ** A card *)

(** The controller itself as a device: three polls for a command or a block. *)
#[export] Instance sim_mmio : Mmio Card := {
  read32 a c :=
    let off := a - EMMC_BASE in
    (if off =? REG_INTERRUPT then interrupts (stage c)
     else if off =? REG_STATUS then STATUS_CARD_INSERTED + STATUS_CARD_STATE_STABLE
     else if off =? REG_DATA then match stage c with Reading (w :: _) => w | _ => 0 end
     else 0, after_read c off 3);
  write32 a v c := after_write c (a - EMMC_BASE) v 2 3;
}.

#[export] Program Instance sim_controller : Controller Card := { card c := c }.
Next Obligation.
  intros c off. cbn [read32 sim_mmio fst snd]. rewrite Z.add_simpl_l. split.
  - split_and!; intros ->; [done| |].
    + change (REG_DATA =? REG_INTERRUPT) with false. change (REG_DATA =? REG_STATUS) with false. by destruct (stage c) as [| | |[]| | |].
    + intros _. by vm_compute.
  - exists 3%nat. split; [apply timeout_large|done].
Qed.
Next Obligation.
  intros c off v. cbn [write32 sim_mmio]. rewrite Z.add_simpl_l. pose proof timeout_large.
  exists 2%nat, 3%nat. repeat split; lia.
Qed.

(** ** Witnesses *)

#[local] Instance debug_profile : Profile := Build_Profile true.

(** A card of 1024 blocks; block [b] holds the word [b] 128 times. *)
Definition demo_emmc : Emmc := mkEmmc EMMC_BASE cid_default (mkCsd V2_0 524288 0 512 512 0) 1 SDv2.
Definition demo_card : Card := mkCard (fun b => replicate 128 b) 0 Idle.

Lemma demo_idle : idle demo_emmc demo_card.
Proof.
  split; [done|]. change (has_blocks demo_emmc (fun b => replicate 128 b)). intros lba Hl.
  change (block_count (csd demo_emmc)) with 1024 in Hl. split; [|apply length_replicate].
  change (card_address demo_emmc lba) with lba. unfold fits. lia.
Qed.

Lemma large_zeros n : large (replicate 512 n).
Proof. unfold large. by rewrite length_replicate. Qed.

Lemma demo_emmc_wf : emmc_wf demo_emmc.
Proof. split; [done|]. split; by vm_compute. Qed.

Lemma emmc_total_witness : exists r s, init (demo_emmc, mkRegs ∅ []) = Ret (r, s).
Proof. apply (proj1 (emmc_total demo_emmc (mkRegs ∅ []) demo_emmc_wf)). Defined.

Lemma emmc_range_check_witness : read_blocks demo_emmc (2 ^ 64 - 1) [replicate 512 0] (mkRegs ∅ []) = Panic.
Proof.
  destruct (emmc_range_check demo_emmc (2 ^ 64 - 1) [replicate 512 0] (mkRegs ∅ [])) as (_ & _ & Hp & _);
    [lia|by vm_compute|done|]. apply Hp; [constructor; [apply large_zeros|constructor]|by vm_compute|done].
Defined.

Lemma emmc_read_blocks_witness : exists d',
  read_blocks demo_emmc 7 [replicate 512 0] demo_card = Ret ((filled demo_emmc (blocks demo_card) 7 [replicate 512 0], Ok tt), d').
Proof.
  destruct (emmc_read_blocks demo_emmc 7 [replicate 512 0] demo_card eq_refl demo_idle) as (d' & E & _);
    [lia|split; by vm_compute|constructor; [apply large_zeros|constructor]|]. exists d'. exact E.
Defined.

Lemma emmc_write_read_witness : exists d' d'', write_blocks demo_emmc 7 [replicate 512 9] demo_card = Ret (Ok tt, d') /\
  read_blocks demo_emmc 7 [replicate 512 0] d' = Ret (([replicate 512 9], Ok tt), d'').
Proof.
  destruct (emmc_write_read demo_emmc 7 [replicate 512 9] demo_card eq_refl demo_idle) as (d' & E & _ & Hr);
    [lia|split; by vm_compute|constructor; [apply large_zeros|constructor]|repeat constructor; by vm_compute|].
  destruct (Hr 7 (replicate 512 0) ltac:(split; by vm_compute) (large_zeros 0)) as (d'' & E'').
  exists d', d''. split; [exact E|]. rewrite E'', decide_True by (cbn [length]; lia). by vm_compute.
Defined.

Lemma emmc_well_formed_witness : emmc_wf (mkEmmc EMMC_BASE cid_default csd_default 0 CardUnknown).
Proof. apply (proj1 (proj2 (emmc_well_formed (D := RegFile))) EMMC_BASE). reflexivity. Defined.
