(* ===== verification/Platform.v ===== *)
(** * The platform tables (drivers/src/platform/{mod,builder}.rs)

    [PlatformBuilder] fills fixed-size tables of memory regions and devices
    during boot; [Platform] answers queries about them and registers the
    drivers of the devices found with the device manager. *)
From S2P Require Import Prelude BlockDev Emmc Timer BTree Devices.

(** ** Data *)

Inductive MemoryType := Available | Reserved | Mmio | Kernel | Framebuffer.

#[export] Instance memory_type_eq_dec : EqDecision MemoryType.
Proof. solve_decision. Defined.

Record MemoryRegion := mkRegion { base : Z; size : Z; mem_type : MemoryType }.

Record DeviceInfo := mkInfo {
  name : string; compatible : string; base_addr : Z; dsize : Z; irq : option Z;
}.

Inductive Architecture := X86 | X86_64 | Arm | AArch64.

Record MemoryMap := mkMemoryMap {
  ram_start : Z; ram_size : Z; peripheral_base : Z; peripheral_size : Z;
}.

Definition MAX_DEVICES : Z := 32.
Definition MAX_MEMORY_REGIONS : Z := 64.

(** The statics of the module. *)
Record platform := mkPlatform {
  MEMORY_REGIONS : list MemoryRegion;
  MEMORY_REGION_COUNT : Z;
  DEVICES : list (option DeviceInfo);
  DEVICE_COUNT : Z;
  CMDLINE : option string;
  PLATFORM_NAME : string;
  ARCH : Architecture;
  INITIALIZED : bool;
}.

Definition fresh : platform :=
  mkPlatform (replicate 64 (mkRegion 0 0 Reserved)) 0 (replicate 32 None) 0 None "Unknown" X86 false.

(** ** [PlatformBuilder] *)

Definition begin_ : st platform (result unit string) := fun p =>
  let p' := mkPlatform (MEMORY_REGIONS p) (MEMORY_REGION_COUNT p) (DEVICES p) (DEVICE_COUNT p)
              (CMDLINE p) (PLATFORM_NAME p) (ARCH p) true in
  Ret (if INITIALIZED p then Err "Platform already initialized"%string else Ok tt, p').

Definition set_arch (a : Architecture) : st platform unit := modify (fun p =>
  mkPlatform (MEMORY_REGIONS p) (MEMORY_REGION_COUNT p) (DEVICES p) (DEVICE_COUNT p)
    (CMDLINE p) (PLATFORM_NAME p) a (INITIALIZED p)).

Definition set_platform_name (n : string) : st platform unit := modify (fun p =>
  mkPlatform (MEMORY_REGIONS p) (MEMORY_REGION_COUNT p) (DEVICES p) (DEVICE_COUNT p)
    (CMDLINE p) n (ARCH p) (INITIALIZED p)).

Definition set_cmdline (c : string) : st platform unit := modify (fun p =>
  mkPlatform (MEMORY_REGIONS p) (MEMORY_REGION_COUNT p) (DEVICES p) (DEVICE_COUNT p)
    (Some c) (PLATFORM_NAME p) (ARCH p) (INITIALIZED p)).

Section Builder.
Context `{Profile}.

Definition add_device (device : DeviceInfo) : st platform unit :=
  p ← Prelude.get;
  if DEVICE_COUNT p <? MAX_DEVICES then
    d ← lift (index_set (DEVICES p) (DEVICE_COUNT p) (Some device));
    n ← lift (add usize_bits (DEVICE_COUNT p) 1);
    put (mkPlatform (MEMORY_REGIONS p) (MEMORY_REGION_COUNT p) d n
           (CMDLINE p) (PLATFORM_NAME p) (ARCH p) (INITIALIZED p))
  else mret tt.

Definition add_memory_region (region : MemoryRegion) : st platform unit :=
  p ← Prelude.get;
  if MEMORY_REGION_COUNT p <? MAX_MEMORY_REGIONS then
    r ← lift (index_set (MEMORY_REGIONS p) (MEMORY_REGION_COUNT p) region);
    n ← lift (add usize_bits (MEMORY_REGION_COUNT p) 1);
    put (mkPlatform r n (DEVICES p) (DEVICE_COUNT p)
           (CMDLINE p) (PLATFORM_NAME p) (ARCH p) (INITIALIZED p))
  else mret tt.

Definition add_mmio_region (base size : Z) : st platform unit :=
  add_memory_region (mkRegion base size Mmio).
Definition add_ram_region (base size : Z) : st platform unit :=
  add_memory_region (mkRegion base size Available).

(** ** [Platform] *)

Definition arch_name (p : platform) : string :=
  match ARCH p with X86 => "x86" | X86_64 => "x86_64" | Arm => "arm" | AArch64 => "aarch64" end.

(** [&MEMORY_REGIONS[..MEMORY_REGION_COUNT]]. *)
Definition memory_regions (p : platform) : list MemoryRegion :=
  take (Z.to_nat (MEMORY_REGION_COUNT p)) (MEMORY_REGIONS p).

Definition of_type (t : MemoryType) (l : list MemoryRegion) : list MemoryRegion :=
  filter (fun r => mem_type r = t) l.

(** [Iterator::sum] adds with the profile's overflow behaviour. *)
Fixpoint sum_from (acc : Z) (l : list Z) : outcome Z :=
  match l with
  | [] => Ret acc
  | x :: l => acc ← add usize_bits acc x; sum_from acc l
  end.

Definition total_ram (p : platform) : outcome Z :=
  sum_from 0 (map size (of_type Available (memory_regions p))).

(** [max_by_key(|r| r.size)]: the last of the largest. *)
Fixpoint max_by_size (best : option MemoryRegion) (l : list MemoryRegion) : option MemoryRegion :=
  match l with
  | [] => best
  | r :: l =>
      max_by_size (match best with
                   | None => Some r
                   | Some b => if size b <=? size r then Some r else Some b
                   end) l
  end.

Definition min_of (l : list Z) : option Z :=
  match l with [] => None | x :: l => Some (foldl Z.min x l) end.
Definition max_of (l : list Z) : option Z :=
  match l with [] => None | x :: l => Some (foldl Z.max x l) end.

(** [.map(|r| r.base + r.size)]. *)
Fixpoint ends_of (l : list MemoryRegion) : outcome (list Z) :=
  match l with
  | [] => Ret []
  | r :: l => e ← add usize_bits (base r) (size r); es ← ends_of l; Ret (e :: es)
  end.

Definition memory_map (p : platform) : outcome MemoryMap :=
  match max_by_size None (of_type Available (memory_regions p)) with
  | None => Panic
  | Some ram =>
      let mmio := of_type Mmio (memory_regions p) in
      let periph_base := min_of (map base mmio) in
      ends ← ends_of mmio;
      let periph_end := max_of ends in
      let '(pb, ps) :=
        match periph_base, periph_end with
        | Some b, Some e => (b, saturating_sub e b)
        | _, _ => (0, 0)
        end in
      Ret (mkMemoryMap (base ram) (size ram) pb ps)
  end.

Definition devices_of (p : platform) : list DeviceInfo :=
  omap id (take (Z.to_nat (DEVICE_COUNT p)) (DEVICES p)).

(** [str::contains]. *)
Fixpoint str_contains (needle s : string) : bool :=
  String.prefix needle s ||
  match s with EmptyString => false | String _ s => str_contains needle s end.

Definition find_device (p : platform) (name_or_compat : string) : option DeviceInfo :=
  head (filter (fun d => String.eqb (name d) name_or_compat || str_contains name_or_compat (compatible d) = true)
          (devices_of p)).

(** *** [Platform::init_devices]

    Handles record which driver sits at which address; the card driver is
    registered as its constructor leaves it.  A device of no known string is
    only logged, by [register_each] of [Init]. *)
Inductive driver := DPl011 (a : Z) | DUart16550 (a : Z) | DBcmTimer (a : Z) | DBcmIntc (a : Z) | DEmmc (e : Emmc.Emmc).

(** [{:?}] of the error of [Bcm2835Timer::new], and of [Emmc::new]. *)
Definition timer_error_name (e : Timer.Bcm2835.TimerErr) : string :=
  match e with
  | Timer.Bcm2835.InvalidChannel => "InvalidChannel"
  | Timer.Bcm2835.InvalidBaseAddress => "InvalidBaseAddress"
  | Timer.Bcm2835.IntervalTooLarge => "IntervalTooLarge"
  | Timer.Bcm2835.CounterOverflow => "CounterOverflow"
  end.

Definition emmc_error_name (e : EmmcError) : string :=
  match e with
  | NoCard => "NoCard"
  | UnsupportedCard => "UnsupportedCard"
  | InitFailed => "InitFailed"
  | CommandError => "CommandError"
  | Emmc.Timeout => "Timeout"
  | BufferTooSmall => "BufferTooSmall"
  | ReadError => "ReadError"
  | WriteError => "WriteError"
  | CrcError => "CrcError"
  | HardwareError => "HardwareError"
  end.

Definition one_of (s : string) (l : list string) : bool := existsb (String.eqb s) l.

Definition init_device (d : DeviceInfo) (dm : DeviceManager driver) : result (DeviceManager driver) string :=
  let c := compatible d in
  if one_of c ["arm,pl011"; "arm,primecell"]%string then register_serial (name d) (DPl011 (base_addr d)) dm
  else if one_of c ["16550a-uart"; "ns16550a"]%string then
    register_serial (name d) (DUart16550 (base_addr d)) dm
  else if one_of c ["brcm,bcm2835-system-timer"]%string then
    match Timer.Bcm2835.new (base_addr d) with
    | Ok _ => register_timer (name d) (DBcmTimer (base_addr d)) (Some 1) dm
    | Err e => Err ("Timer init failed: " ++ timer_error_name e)%string
    end
  else if one_of c ["arm,armv7-timer"; "arm,armv8-timer"; "i8254-pit"; "intel,8254"]%string then Ok dm
  else if one_of c ["brcm,bcm2835-armctrl-ic"; "brcm,bcm2836-armctrl-ic"]%string then
    register_interrupt_controller (name d) (DBcmIntc (base_addr d)) dm
  else if one_of c ["arm,gic-400"; "arm,cortex-a15-gic"; "arm,gic-v3"; "i8259-pic"; "intel,8259"]%string then Ok dm
  else if one_of c ["multiboot2-fb"; "simple-framebuffer"]%string then Ok dm
  else if one_of c ["brcm,bcm2835-sdhost"; "brcm,bcm2711-emmc2"]%string then
    match Emmc.new (base_addr d) with
    | Ok e => register_block (name d) (DEmmc e) dm
    | Err e => Err ("Emmc init failed: " ++ emmc_error_name e)%string
    end
  else Ok dm.

Fixpoint init_each (l : list DeviceInfo) (dm : DeviceManager driver) : result (DeviceManager driver) string :=
  match l with
  | [] => Ok dm
  | d :: l => match init_device d dm with Ok dm => init_each l dm | Err e => Err e end
  end.

Definition init_devices (p : platform) (dm : DeviceManager driver) : result (DeviceManager driver) string :=
  init_each (devices_of p) dm.
End Builder.

(** ** Lemmas *)

Section Lemmas.
Context `{Profile}.

(** The counts stay inside the tables. *)
Record tables_wf (p : platform) : Prop := {
  tw_regions : length (MEMORY_REGIONS p) = 64%nat;
  tw_devices : length (DEVICES p) = 32%nat;
  tw_rcount : 0 <= MEMORY_REGION_COUNT p <= 64;
  tw_dcount : 0 <= DEVICE_COUNT p <= 32;
  tw_some i : (i < Z.to_nat (DEVICE_COUNT p))%nat -> exists d, DEVICES p !! i = Some (Some d);
}.

Lemma fresh_wf : tables_wf fresh.
Proof using. split; cbn; try lia; done. Qed.

Lemma take_insert_S {A} (l : list A) n x : (n < length l)%nat -> take (S n) (<[n := x]> l) = take n l ++ [x].
Proof using.
  intros Hn. rewrite (take_S_r _ n x) by (by apply list_lookup_insert_eq). by rewrite take_insert_ge by lia.
Qed.

Lemma omap_id_app (l : list (option DeviceInfo)) d : omap id (l ++ [Some d]) = omap id l ++ [d].
Proof using. by rewrite omap_app. Qed.

Lemma add_device_ok p d : tables_wf p -> exists p', add_device d p = Ret (tt, p') /\ tables_wf p' /\
  memory_regions p' = memory_regions p /\
  devices_of p' = (if DEVICE_COUNT p <? 32 then devices_of p ++ [d] else devices_of p).
Proof using.
  intros Hwf. pose proof (tw_dcount _ Hwf). pose proof (tw_devices _ Hwf) as Hlen.
  unfold add_device. erewrite stbind_step by done. unfold MAX_DEVICES.
  destruct (Z.ltb_spec (DEVICE_COUNT p) 32) as [Hlt|Hge]; [|by exists p].
  erewrite stbind_step by (by rewrite index_set_ok by lia).
  erewrite stbind_step by (by rewrite add_ok by (unfold fits, usize_bits; lia)).
  eexists. split; [done|]. destruct Hwf as [H1 H2 H3 H4 H5]. split; [|split; [done|]].
  - split; cbn; rewrite ?length_insert; try done; [lia|]. intros i Hi.
    destruct (decide (i = Z.to_nat (DEVICE_COUNT p))) as [->|Hne].
    + exists d. apply list_lookup_insert_eq. lia.
    + rewrite list_lookup_insert_ne by done. apply H5. lia.
  - unfold devices_of. cbn [DEVICES DEVICE_COUNT].
    replace (Z.to_nat (DEVICE_COUNT p + 1)) with (S (Z.to_nat (DEVICE_COUNT p))) by lia.
    rewrite take_insert_S by lia. apply omap_id_app.
Qed.

Lemma add_memory_region_ok p r : tables_wf p -> exists p', add_memory_region r p = Ret (tt, p') /\ tables_wf p' /\
  devices_of p' = devices_of p /\
  memory_regions p' = (if MEMORY_REGION_COUNT p <? 64 then memory_regions p ++ [r] else memory_regions p).
Proof using.
  intros Hwf. pose proof (tw_rcount _ Hwf). pose proof (tw_regions _ Hwf) as Hlen.
  unfold add_memory_region. erewrite stbind_step by done. unfold MAX_MEMORY_REGIONS.
  destruct (Z.ltb_spec (MEMORY_REGION_COUNT p) 64) as [Hlt|Hge]; [|by exists p].
  erewrite stbind_step by (by rewrite index_set_ok by lia).
  erewrite stbind_step by (by rewrite add_ok by (unfold fits, usize_bits; lia)).
  eexists. split; [done|]. destruct Hwf as [H1 H2 H3 H4 H5]. split; [|split; [done|]].
  - split; cbn; rewrite ?length_insert; try done. lia.
  - unfold memory_regions. cbn [MEMORY_REGIONS MEMORY_REGION_COUNT].
    replace (Z.to_nat (MEMORY_REGION_COUNT p + 1)) with (S (Z.to_nat (MEMORY_REGION_COUNT p))) by lia.
    apply take_insert_S. lia.
Qed.

Lemma max_by_size_spec l : forall best, match max_by_size best l with
  | Some r => (r ∈ l \/ best = Some r) /\ (forall x, x ∈ l -> size x <= size r) /\
      (forall b, best = Some b -> size b <= size r)
  | None => l = [] /\ best = None
  end.
Proof using.
  induction l as [|a l IH]; intros best; cbn [max_by_size].
  { destruct best as [b|]; [|done]. split; [by right|]. split; [set_solver|]. intros ? [= ->]. lia. }
  specialize (IH (match best with None => Some a | Some b => if size b <=? size a then Some a else Some b end)).
  destruct (max_by_size _ l) as [r|].
  - destruct IH as (Hin & Hl & Hb). destruct best as [b|].
    + destruct (Z.leb_spec (size b) (size a)).
      * pose proof (Hb a eq_refl). split; [|split].
        -- destruct Hin as [?|[= ->]]; left; set_solver.
        -- intros x [->|?]%elem_of_cons; [done|by apply Hl].
        -- intros ? [= <-]. lia.
      * pose proof (Hb b eq_refl). split; [|split].
        -- destruct Hin as [?|[= ->]]; [left; set_solver|by right].
        -- intros x [->|?]%elem_of_cons; [lia|by apply Hl].
        -- intros ? [= <-]. done.
    + pose proof (Hb a eq_refl). split; [|split; [|done]].
      * destruct Hin as [?|[= ->]]; left; set_solver.
      * intros x [->|?]%elem_of_cons; [done|by apply Hl].
  - destruct IH as [_ Hn]. destruct best as [b|]; [|done]. by destruct (size b <=? size a).
Qed.

Lemma foldl_min_le l : forall a, foldl Z.min a l <= a /\ forall x, x ∈ l -> foldl Z.min a l <= x.
Proof using.
  induction l as [|y l IH]; intros a; cbn; [split; [lia|set_solver]|].
  destruct (IH (Z.min a y)) as [H1 H2]. split; [lia|]. intros x [->|?]%elem_of_cons; [lia|by apply H2].
Qed.

Lemma foldl_max_ge l : forall a, a <= foldl Z.max a l /\ forall x, x ∈ l -> x <= foldl Z.max a l.
Proof using.
  induction l as [|y l IH]; intros a; cbn; [split; [lia|set_solver]|].
  destruct (IH (Z.max a y)) as [H1 H2]. split; [lia|]. intros x [->|?]%elem_of_cons; [lia|by apply H2].
Qed.

Lemma ends_of_ok l : Forall (fun r => fits usize_bits (base r + size r)) l ->
  ends_of l = Ret (map (fun r => base r + size r) l).
Proof using.
  induction 1 as [|r l Hr Hl IH]; [done|]. cbn [ends_of map]. rewrite add_ok by done. cbn. by rewrite IH.
Qed.
End Lemmas.

(** ** Theorems *)

Section Claims.
Context `{Profile}.

(** the builder appends to its tables in order, never writes past their
    ends, drops what does not fit and never panics. *)
Theorem builder_bounded p d r : tables_wf p ->
  (exists p', add_device d p = Ret (tt, p') /\ tables_wf p' /\ memory_regions p' = memory_regions p /\
     devices_of p' = (if DEVICE_COUNT p <? 32 then devices_of p ++ [d] else devices_of p)) /\
  (exists p', add_memory_region r p = Ret (tt, p') /\ tables_wf p' /\ devices_of p' = devices_of p /\
     memory_regions p' = (if MEMORY_REGION_COUNT p <? 64 then memory_regions p ++ [r] else memory_regions p)).
Proof using. intros Hwf. split; [by apply add_device_ok|by apply add_memory_region_ok]. Qed.

(** [memory_map] reports a largest available region and a peripheral
    window that contains every MMIO region; it panics exactly when no region
    is available, provided no MMIO region passes the end of memory. *)
Theorem memory_map_correct p :
  Forall (fun r => fits usize_bits (base r + size r) /\ 0 <= size r) (of_type Mmio (memory_regions p)) ->
  match memory_map p with
  | Ret mm =>
      (exists r, r ∈ of_type Available (memory_regions p) /\ ram_start mm = base r /\ ram_size mm = size r) /\
      (forall r, r ∈ of_type Available (memory_regions p) -> size r <= ram_size mm) /\
      (forall r, r ∈ of_type Mmio (memory_regions p) ->
         peripheral_base mm <= base r /\ base r + size r <= peripheral_base mm + peripheral_size mm)
  | Panic => of_type Available (memory_regions p) = []
  | OutOfFuel => False
  end.
Proof using.
  intros Hm. unfold memory_map. pose proof (max_by_size_spec (of_type Available (memory_regions p)) None) as Hs.
  destruct (max_by_size None _) as [ram|]; [|apply Hs].
  destruct Hs as ([Hin|?] & Hmax & _); [|done].
  rewrite ends_of_ok by (eapply Forall_impl; [exact Hm|]; by intros ? [? _]). cbn [mbind outcome_bind].
  destruct (of_type Mmio (memory_regions p)) as [|m ms] eqn:Em; cbn [map min_of max_of].
  - split; [by exists ram|]. split; [done|]. set_solver.
  - split; [by exists ram|]. split; [done|]. intros r Hr. cbn [peripheral_base peripheral_size].
    destruct (foldl_min_le (map base ms) (base m)) as [H1 H2].
    destruct (foldl_max_ge (map (fun r => base r + size r) ms) (base m + size m)) as [H3 H4].
    assert (0 <= size m) by (by apply Forall_cons in Hm as [[_ ?] _]). unfold saturating_sub.
    apply elem_of_cons in Hr as [->|Hr]; [lia|].
    assert (forall f : MemoryRegion -> Z, f r ∈ map f ms) as Hmap.
    { intros f. by apply list_elem_of_In, in_map, list_elem_of_In. }
    specialize (H2 _ (Hmap base)). specialize (H4 _ (Hmap (fun r => base r + size r))). cbn beta in H4.
    assert (0 <= size r) by (by eapply Forall_forall in Hm as [_ ?]; [|by apply list_elem_of_further]).
    lia.
Qed.
End Claims.


(** ** Witnesses *)

#[local] Instance debug_profile : Profile := Build_Profile true.

Lemma builder_bounded_witness :
  (exists p', add_device (mkInfo "uart0" "arm,pl011" 0x20201000 4096 None) fresh = Ret (tt, p') /\ tables_wf p' /\
     memory_regions p' = [] /\ devices_of p' = [mkInfo "uart0" "arm,pl011" 0x20201000 4096 None]) /\
  (exists p', add_memory_region (mkRegion 0 0x1000 Available) fresh = Ret (tt, p') /\ tables_wf p' /\
     devices_of p' = [] /\ memory_regions p' = [mkRegion 0 0x1000 Available]).
Proof.
  apply (builder_bounded fresh (mkInfo "uart0" "arm,pl011" 0x20201000 4096 None) (mkRegion 0 0x1000 Available)).
  apply fresh_wf.
Defined.

(** RAM of 512 MiB and the peripherals of a Raspberry Pi. *)
Definition demo_platform : platform := mkPlatform
  ([mkRegion 0 0x20000000 Available; mkRegion 0x20000000 0x1000000 Mmio] ++ replicate 62 (mkRegion 0 0 Reserved)) 2
  (replicate 32 None) 0 None "Raspberry Pi" Arm true.

Lemma memory_map_correct_witness : match memory_map demo_platform with
  | Ret mm =>
      (exists r, r ∈ of_type Available (memory_regions demo_platform) /\ ram_start mm = base r /\ ram_size mm = size r) /\
      (forall r, r ∈ of_type Available (memory_regions demo_platform) -> size r <= ram_size mm) /\
      (forall r, r ∈ of_type Mmio (memory_regions demo_platform) ->
         peripheral_base mm <= base r /\ base r + size r <= peripheral_base mm + peripheral_size mm)
  | Panic => of_type Available (memory_regions demo_platform) = []
  | OutOfFuel => False
  end.
Proof.
  apply memory_map_correct.
  replace (of_type Mmio (memory_regions demo_platform)) with [mkRegion 0x20000000 0x1000000 Mmio] by reflexivity.
  repeat constructor; unfold fits, usize_bits; cbn; lia.
Defined.
