(* ===== verification/Fd.v ===== *)
(** * File descriptors (kernel/src/fs/{fd,file}.rs)

    A process's descriptor table over the [File] trait.  Files are
    reference-counted handles ([F]) to objects of a world ([W]) shared by every
    descriptor that holds the handle; the offset is the descriptor's own.  The
    table's heap allocations are assumed to succeed. *)
From Stdlib Require Import Ascii.
From S2P Require Import Prelude.

(** ** Data *)

Inductive FdError :=
  BadFd | TooManyFiles | IoError | InvalidSeek | NotSupported | PermissionDenied | Other (msg : string).

(** [FsError] (kernel/src/fs/mod.rs). *)
Inductive FsError :=
  FsNotFound | FsAlreadyExists | FsNotADirectory | FsIsADirectory | FsPermissionDenied
  | FsNotSupported | FsIoError | FsUnknown.

(** [impl From<FdError> for FsError]. *)
Definition fs_error_from (err : FdError) : FsError :=
  match err with
  | BadFd => FsNotFound
  | IoError => FsIoError
  | NotSupported => FsNotSupported
  | PermissionDenied => FsPermissionDenied
  | _ => FsUnknown
  end.

Inductive FileType := Regular | Directory | CharDevice | BlockDevice | Symlink | Pipe | Socket.

Definition is_regular (t : FileType) : bool := match t with Regular => true | _ => false end.
Definition is_dir (t : FileType) : bool := match t with Directory => true | _ => false end.
Definition is_device (t : FileType) : bool := match t with CharDevice | BlockDevice => true | _ => false end.
Definition is_char_device (t : FileType) : bool := match t with CharDevice => true | _ => false end.
Definition is_block_device (t : FileType) : bool := match t with BlockDevice => true | _ => false end.

(** The letter of a file type in a listing, and its name. *)
Definition to_char (t : FileType) : Ascii.ascii :=
  match t with
  | Regular => "-" | Directory => "d" | CharDevice => "c" | BlockDevice => "b"
  | Symlink => "l" | Pipe => "p" | Socket => "s"
  end%char.

Definition type_text (t : FileType) : string :=
  match t with
  | Regular => "regular file"
  | Directory => "directory"
  | CharDevice => "character device"
  | BlockDevice => "block device"
  | Symlink => "symbolic link"
  | Pipe => "named pipe"
  | Socket => "socket"
  end.

(** [Display] of an error. *)
Definition error_text (e : FdError) : string :=
  match e with
  | BadFd => "bad file descriptor"
  | TooManyFiles => "too many open files"
  | IoError => "I/O error"
  | InvalidSeek => "invalid seek"
  | NotSupported => "operation not supported"
  | PermissionDenied => "permission denied"
  | Other msg => "unknown error: " ++ msg
  end.

(** Descriptor numbers. *)
Definition STDIN : nat := 0.
Definition STDOUT : nat := 1.
Definition STDERR : nat := 2.
Definition is_standard (fd : nat) : bool := (fd =? STDIN)%nat || (fd =? STDOUT)%nat || (fd =? STDERR)%nat.

Record FileStat := mkStat { size : Z; file_type : FileType; name : string }.

Inductive SeekWhence := Start | Current | End_.

(** Bit flags. *)
Definition CLOEXEC : Z := 1.
Definition READ : Z := 1.
Definition WRITE : Z := 2.
Definition APPEND : Z := 4.
Definition RDONLY : Z := READ.
Definition WRONLY : Z := WRITE.
Definition RDWR : Z := Z.lor READ WRITE.
Definition APPEND_MODE : Z := Z.lor WRITE APPEND.

Definition contains (flags bits : Z) : bool := Z.land flags bits =? bits.

(** The [File] trait; [f_read] returns the buffer it has written to. *)
Class File (W F : Type) := {
  f_read : F -> list Z -> Z -> st W (list Z * result Z FdError);
  f_write : F -> list Z -> Z -> st W (result Z FdError);
  f_stat : F -> st W (result FileStat FdError);
}.

(** What a caller of a file relies on: counts are bounded by the buffer. *)
Class FileLaws (W F : Type) `{File W F} := {
  f_read_count f buf off w buf' n w' :
    f_read f buf off w = Ret ((buf', Ok n), w') -> 0 <= n <= Z.of_nat (length buf);
  f_write_count f buf off w n w' :
    f_write f buf off w = Ret (Ok n, w') -> 0 <= n <= Z.of_nat (length buf);
}.

(** The default [stat] of the trait. *)
Definition default_stat {W} : st W (result FileStat FdError) := mret (Err NotSupported).

Section Descriptor.
Context `{Profile} {W F : Type} `{File W F}.

Record FileDescriptor := mkFd { file : F; flags : Z; access : Z; offset : Z }.

Definition new (f : F) (fl a : Z) : FileDescriptor := mkFd f fl a 0.

Definition on_file {A} (m : st W A) : st (FileDescriptor * W) A := fun '(d, w) =>
  match m w with
  | Ret (a, w) => Ret (a, (d, w))
  | Panic => Panic
  | OutOfFuel => OutOfFuel
  end.

Definition set_offset (o : Z) : st (FileDescriptor * W) unit :=
  modify (fun '(d, w) => (mkFd (file d) (flags d) (access d) o, w)).

Definition read (buf : list Z) : st (FileDescriptor * W) (list Z * result Z FdError) :=
  d ← gets fst;
  if negb (contains (access d) READ) then mret (buf, Err PermissionDenied)
  else
    '(buf, r) ← on_file (f_read (file d) buf (offset d));
    match r with
    | Err e => mret (buf, Err e)
    | Ok n => o ← lift (add usize_bits (offset d) n); _ ← set_offset o; mret (buf, Ok n)
    end.

Definition write (buf : list Z) : st (FileDescriptor * W) (result Z FdError) :=
  d ← gets fst;
  if negb (contains (access d) WRITE) then mret (Err PermissionDenied)
  else
    let? _ :=
      (if contains (access d) APPEND then
         let? stat := on_file (f_stat (file d)) in _ ← set_offset (size stat); mret (Ok tt)
       else mret (Ok tt)) in
    o ← gets (fun s => offset s.1);
    let? n := on_file (f_write (file d) buf o) in
    o ← lift (add usize_bits o n);
    _ ← set_offset o; mret (Ok n).

Definition seek (whence : SeekWhence) (off : Z) : st (FileDescriptor * W) (result Z FdError) :=
  d ← gets fst;
  let? new_offset :=
    match whence with
    | Start => mret (Ok (Z.max off 0))
    | Current => z ← lift (sadd usize_bits (to_signed usize_bits (offset d)) off); mret (Ok (Z.max z 0))
    | End_ =>
        let? stat := on_file (f_stat (file d)) in
        z ← lift (sadd usize_bits (to_signed usize_bits (size stat)) off); mret (Ok (Z.max z 0))
    end in
  _ ← set_offset new_offset; mret (Ok new_offset).

Definition set_cloexec (enabled : bool) (d : FileDescriptor) : FileDescriptor :=
  mkFd (file d) (if enabled then Z.lor (flags d) CLOEXEC else Z.land (flags d) (lnot 32 CLOEXEC))
    (access d) (offset d).
End Descriptor.
Arguments FileDescriptor : clear implicits.

(** ** The table *)

Notation table F := (list (option (FileDescriptor F))).

Section Table.
Context {F : Type}.

(** [FileDescriptorTable::new]; [stdio] is the one [UartFile::new(0)] the
    three entries share. *)
Definition table_new (stdio : F) : table F :=
  [Some (new stdio 0 RDONLY); Some (new stdio 0 WRONLY); Some (new stdio 0 WRONLY)].

(** The loop of [alloc] over the slots. *)
Fixpoint first_free (t : table F) : option nat :=
  match t with
  | [] => None
  | None :: _ => Some O
  | Some _ :: t => S <$> first_free t
  end.

Definition alloc (f : F) (fl a : Z) : st (table F) (result nat FdError) := fun t =>
  match first_free t with
  | Some i => Ret (Ok i, <[i := Some (new f fl a)]> t)
  | None => Ret (Ok (length t), t ++ [Some (new f fl a)])
  end.

Definition fd_get (fd : nat) (t : table F) : result (FileDescriptor F) FdError :=
  ok_or (mjoin (t !! fd)) BadFd.

(** Writing back through the reference [get_mut] returns. *)
Definition fd_update (fd : nat) (d : FileDescriptor F) (t : table F) : table F := <[fd := Some d]> t.

Definition close (fd : nat) : st (table F) (result unit FdError) := fun t =>
  if (length t <=? fd)%nat then Ret (Err BadFd, t)
  else
    slot ← index t (Z.of_nat fd);
    match slot with
    | None => Ret (Err BadFd, t)
    | Some _ => t ← index_set t (Z.of_nat fd) None; Ret (Ok tt, t)
    end.

Definition dup (oldfd : nat) : st (table F) (result nat FdError) :=
  let? entry := gets (fd_get oldfd) in alloc (file entry) (flags entry) (access entry).

(** [while self.fds.len() <= newfd.0 { self.fds.push(None) }]. *)
Fixpoint push_until (fuel newfd : nat) : st (table F) unit := fun t =>
  if (length t <=? newfd)%nat then
    match fuel with
    | O => OutOfFuel
    | S fuel => push_until fuel newfd (t ++ [None])
    end
  else Ret (tt, t).

Definition dup2 (oldfd newfd : nat) : st (table F) (result nat FdError) :=
  if Nat.eqb oldfd newfd then mret (Ok newfd)
  else
    let? entry := gets (fd_get oldfd) in
    t ← Prelude.get;
    let? _ :=
      (if (newfd <? length t)%nat then
         slot ← lift (index t (Z.of_nat newfd));
         match slot with Some _ => close newfd | None => mret (Ok tt) end
       else mret (Ok tt)) in
    _ ← push_until (S newfd) newfd;
    t ← Prelude.get;
    t ← lift (index_set t (Z.of_nat newfd) (Some (new (file entry) (flags entry) (access entry))));
    _ ← put t;
    mret (Ok newfd).

Definition close_on_exec (t : table F) : table F :=
  map (fun slot => match slot with
    | Some d => if contains (flags d) CLOEXEC then None else Some d
    | None => None
    end) t.

Definition count (t : table F) : nat := length (filter (fun d => is_Some d) t).

(** ** Abstract specification

    A table is a partial map from descriptor numbers to descriptors. *)
Definition view (t : table F) (i : nat) : option (FileDescriptor F) := mjoin (t !! i).

Inductive op :=
  | Alloc (f : F) (fl a : Z)
  | Close (fd : nat)
  | Dup (oldfd : nat)
  | Dup2 (oldfd newfd : nat)
  | CloseOnExec.

Definition run_op (o : op) : st (table F) (result nat FdError) :=
  match o with
  | Alloc f fl a => alloc f fl a
  | Close fd => let? _ := close fd in mret (Ok fd)
  | Dup fd => dup fd
  | Dup2 old new => dup2 old new
  | CloseOnExec => _ ← modify close_on_exec; mret (Ok 0%nat)
  end.

(** [m'] is [m] with [i] bound to [v]. *)
Definition updated (m m' : nat -> option (FileDescriptor F)) (i : nat) (v : option (FileDescriptor F)) : Prop :=
  forall j, m' j = if decide (j = i) then v else m j.

Definition least_free (m : nat -> option (FileDescriptor F)) (n : nat) : Prop :=
  m n = None /\ forall j, (j < n)%nat -> is_Some (m j).

(** The descriptor a number names, for the operations that read one. *)
Definition reads (o : op) : option nat :=
  match o with
  | Close fd | Dup fd => Some fd
  | Dup2 old new => if Nat.eqb old new then None else Some old
  | _ => None
  end.

Inductive spec_step (m : nat -> option (FileDescriptor F)) :
    op -> result nat FdError -> (nat -> option (FileDescriptor F)) -> Prop :=
  | spec_alloc f fl a n m' : least_free m n -> updated m m' n (Some (new f fl a)) ->
      spec_step m (Alloc f fl a) (Ok n) m'
  | spec_bad o fd m' : reads o = Some fd -> m fd = None -> (forall j, m' j = m j) ->
      spec_step m o (Err BadFd) m'
  | spec_close fd d m' : m fd = Some d -> updated m m' fd None -> spec_step m (Close fd) (Ok fd) m'
  | spec_dup fd d n m' : m fd = Some d -> least_free m n ->
      updated m m' n (Some (new (file d) (flags d) (access d))) -> spec_step m (Dup fd) (Ok n) m'
  | spec_dup2_same fd m' : (forall j, m' j = m j) -> spec_step m (Dup2 fd fd) (Ok fd) m'
  | spec_dup2 old new_ d m' : old <> new_ -> m old = Some d ->
      updated m m' new_ (Some (new (file d) (flags d) (access d))) -> spec_step m (Dup2 old new_) (Ok new_) m'
  | spec_exec m' :
      (forall j, m' j = match m j with
         | Some d => if contains (flags d) CLOEXEC then None else Some d
         | None => None
         end) ->
      spec_step m CloseOnExec (Ok 0%nat) m'.
End Table.

(** ** Lemmas *)

(** No two file types share a letter. *)
Lemma to_char_inj t u : to_char t = to_char u -> t = u.
Proof. by destruct t, u. Qed.

Section TableLemmas.
Context {F : Type}.
Implicit Types t : table F.

Lemma view_insert t i v : (i < length t)%nat -> updated (view t) (view (<[i := v]> t)) i v.
Proof.
  intros Hi j. unfold view. destruct (decide (j = i)) as [->|Hne].
  - by rewrite list_lookup_insert_eq.
  - by rewrite list_lookup_insert_ne.
Qed.

Lemma view_out t i : (length t <= i)%nat -> view t i = None.
Proof. intros Hi. unfold view. by rewrite lookup_ge_None_2. Qed.

Lemma view_app t v : updated (view t) (view (t ++ [v])) (length t) v.
Proof.
  intros j. destruct (decide (j = length t)) as [->|Hne].
  - unfold view. by rewrite list_lookup_middle.
  - destruct (decide (j < length t)%nat) as [|Hge].
    + unfold view. by rewrite lookup_app_l.
    + rewrite !view_out; [done|lia|]. rewrite length_app. cbn. lia.
Qed.

Lemma first_free_spec t : match first_free t with
  | Some n => (n < length t)%nat /\ least_free (view t) n
  | None => least_free (view t) (length t)
  end.
Proof.
  unfold least_free. induction t as [|[d|] t IH]; cbn [first_free].
  - split; [done|]. cbn. intros. lia.
  - destruct (first_free t) as [n|]; cbn in *.
    + destruct IH as (Hlt & Hn & Hj). split; [lia|]. split; [done|]. intros [|j] Hl; cbn; [by eexists|apply (Hj j); lia].
    + destruct IH as (Hn & Hj). split; [done|]. intros [|j] Hl; cbn; [by eexists|apply (Hj j); lia].
  - cbn. split; [lia|]. split; [done|]. intros. lia.
Qed.

Lemma fd_alloc_ok f fl a t : exists n t', alloc f fl a t = Ret (Ok n, t') /\
  least_free (view t) n /\ updated (view t) (view t') n (Some (new f fl a)).
Proof.
  unfold alloc. pose proof (first_free_spec t) as Hf. destruct (first_free t) as [n|].
  - do 2 eexists. split; [done|]. split; [apply Hf|]. by apply view_insert, (proj1 Hf).
  - do 2 eexists. split; [done|]. split; [done|]. apply view_app.
Qed.

Lemma fd_get_ok fd t : fd_get fd t = match view t fd with Some d => Ok d | None => Err BadFd end.
Proof. done. Qed.

Lemma close_ok fd t : exists t', match view t fd with
  | Some _ => close fd t = Ret (Ok tt, t') /\ length t' = length t /\ updated (view t) (view t') fd None
  | None => close fd t = Ret (Err BadFd, t)
  end.
Proof.
  unfold close. destruct (Nat.leb_spec (length t) fd) as [Hle|Hlt].
  { exists t. by rewrite view_out. }
  destruct (lookup_lt_is_Some_2 t fd Hlt) as [slot E]. unfold view at 1. rewrite E. cbn [mjoin option_join].
  rewrite (index_nat t fd slot E). cbn [mbind outcome_bind].
  destruct slot as [d|]; [|by exists t]. exists (<[fd := None]> t).
  rewrite index_set_ok, Nat2Z.id by lia. split; [done|]. split; [apply length_insert|]. by apply view_insert.
Qed.

Lemma push_until_ok newfd : forall fuel t, (S newfd - length t <= fuel)%nat ->
  push_until fuel newfd t = Ret (tt, t ++ replicate (S newfd - length t) None).
Proof.
  induction fuel as [|fuel IH]; intros t Hf; cbn [push_until].
  - rewrite (proj2 (Nat.leb_gt _ _)) by lia. replace (S newfd - length t)%nat with O by lia.
    by rewrite app_nil_r.
  - destruct (Nat.leb_spec (length t) newfd).
    + rewrite IH by (rewrite length_app; cbn; lia). rewrite length_app. cbn [length].
      replace (S newfd - length t)%nat with (S (S newfd - (length t + 1)))%nat by lia.
      by rewrite <- app_assoc.
    + replace (S newfd - length t)%nat with O by lia. by rewrite app_nil_r.
Qed.

Lemma view_grow t n j : view (t ++ replicate n None) j = view t j.
Proof.
  unfold view. destruct (decide (j < length t)%nat); [by rewrite lookup_app_l|].
  rewrite lookup_app_r, (lookup_ge_None_2 t) by lia.
  destruct (replicate n None !! (j - length t)%nat) as [o|] eqn:E; [|done].
  by apply lookup_replicate in E as [-> _].
Qed.

(** The two halves of [dup2]: what it does to the slot of [newfd], then the
    growth and the final store. *)
Lemma dup2_clear newfd t : exists t', length t' = length t /\
  (forall j, j <> newfd -> view t' j = view t j) /\
  (if (newfd <? length t)%nat then
     slot ← lift (index t (Z.of_nat newfd));
     match slot with Some _ => close newfd | None => mret (Ok tt) end
   else mret (Ok tt)) t = Ret (Ok tt, t').
Proof.
  destruct (Nat.ltb_spec newfd (length t)) as [Hlt|]; [|by exists t].
  destruct (lookup_lt_is_Some_2 t newfd Hlt) as [slot E].
  erewrite stbind_step by (by rewrite (index_nat t newfd slot E)).
  destruct slot as [d|]; [|by exists t].
  destruct (close_ok newfd t) as [t' Hc]. unfold view at 1 in Hc. rewrite E in Hc. cbn in Hc.
  destruct Hc as (Ec & Hl & Hu). exists t'. split; [done|]. split; [|done].
  intros j Hj. rewrite Hu. by rewrite decide_False.
Qed.

Lemma dup2_ok old newfd d t : old <> newfd -> view t old = Some d -> exists t',
  dup2 old newfd t = Ret (Ok newfd, t') /\
  updated (view t) (view t') newfd (Some (new (file d) (flags d) (access d))).
Proof.
  intros Hne Hd. unfold dup2. rewrite (proj2 (Nat.eqb_neq _ _)) by done.
  erewrite try_step by (unfold gets; by rewrite fd_get_ok, Hd).
  erewrite stbind_step by done. destruct (dup2_clear newfd t) as (t1 & Hl & Hv & E).
  erewrite try_step by exact E. erewrite stbind_step by (apply push_until_ok; lia).
  erewrite stbind_step by done. set (t2 := t1 ++ _).
  assert (newfd < length t2)%nat by (unfold t2; rewrite length_app, length_replicate; lia).
  erewrite stbind_step by (by rewrite index_set_ok by lia).
  erewrite stbind_step by done. rewrite Nat2Z.id. eexists. split; [done|]. intros j.
  rewrite (view_insert t2 newfd) by done. destruct (decide (j = newfd)) as [|Hj]; [done|].
  unfold t2. by rewrite view_grow, Hv.
Qed.
End TableLemmas.

(** ** Theorems *)

Section Claims.
Context {F : Type}.

(** C19: the descriptor table implements a partial map from numbers to
    descriptors: every operation returns, [alloc] and [dup] bind the least
    free number, [dup2] exactly the number asked for, [close] and [exec]
    unbind, an operation on an unbound number reports [BadFd], and nothing
    else changes. *)
Theorem fd_table_refines (o : op (F := F)) (t : table F) : exists r t',
  run_op o t = Ret (r, t') /\ spec_step (view t) o r (view t').
Proof.
  destruct o as [f fl a|fd|fd|old newfd|]; cbn [run_op].
  - destruct (fd_alloc_ok f fl a t) as (n & t' & E & ? & ?). do 2 eexists. split; [exact E|]. by apply spec_alloc.
  - destruct (close_ok fd t) as [t' Hc]. destruct (view t fd) as [d|] eqn:Ed.
    + destruct Hc as (E & _ & Hu). do 2 eexists. split; [by erewrite try_step by exact E|].
      by apply (spec_close _ _ d).
    + do 2 eexists. split; [by erewrite try_err by exact Hc|]. by apply (spec_bad _ _ fd).
  - unfold dup. destruct (view t fd) as [d|] eqn:Ed.
    + destruct (fd_alloc_ok (file d) (flags d) (access d) t) as (n & t' & E & ? & ?). do 2 eexists. split.
      * erewrite try_step by (unfold gets; by rewrite fd_get_ok, Ed). exact E.
      * by apply (spec_dup _ _ d).
    + do 2 eexists. split; [erewrite try_err; [done|unfold gets; by rewrite fd_get_ok, Ed]|].
      by apply (spec_bad _ _ fd).
  - destruct (decide (old = newfd)) as [->|Hne].
    { do 2 eexists. split; [unfold dup2; by rewrite Nat.eqb_refl|]. by apply spec_dup2_same. }
    destruct (view t old) as [d|] eqn:Ed.
    + destruct (dup2_ok old newfd d t Hne Ed) as (t' & E & Hu). do 2 eexists. split; [exact E|].
      by apply (spec_dup2 _ _ _ d).
    + do 2 eexists. split.
      * unfold dup2. rewrite (proj2 (Nat.eqb_neq _ _)) by done.
        erewrite try_err; [done|unfold gets; by rewrite fd_get_ok, Ed].
      * apply (spec_bad _ _ old); cbn; [by rewrite (proj2 (Nat.eqb_neq _ _))|done|done].
  - do 2 eexists. split; [by erewrite stbind_step by done|]. apply spec_exec. intros j.
    unfold view, close_on_exec. rewrite list_lookup_fmap. by destruct (t !! j) as [[d|]|].
Qed.
End Claims.

Section IoClaims.
Context `{Profile} {W F : Type} `{FileLaws W F}.

(** Where a [write] starts: the end of the file in append mode. *)
Inductive write_position (d : FileDescriptor F) (w : W) : Z -> W -> Prop :=
  | at_offset : contains (access d) APPEND = false -> write_position d w (offset d) w
  | at_end s w' : contains (access d) APPEND = true -> f_stat (file d) w = Ret (Ok s, w') ->
      write_position d w (size s) w'.

(** What a [seek] is relative to. *)
Inductive seek_base (d : FileDescriptor F) (w : W) : SeekWhence -> Z -> W -> Prop :=
  | from_start : seek_base d w Start 0 w
  | from_current : seek_base d w Current (offset d) w
  | from_end s w' : f_stat (file d) w = Ret (Ok s, w') -> seek_base d w End_ (size s) w'.

(** a descriptor without the access bit refuses the call and touches
    neither the file nor the offset; otherwise the call happens at the offset
    (a write in append mode: at the end of the file), the offset moves by the
    count the file reports, and a failed read leaves it. *)
Theorem fd_io_offsets d (w : W) buf :
  (contains (access d) READ = false -> read buf (d, w) = Ret ((buf, Err PermissionDenied), (d, w))) /\
  (contains (access d) WRITE = false -> write buf (d, w) = Ret (Err PermissionDenied, (d, w))) /\
  (contains (access d) READ = true -> fits usize_bits (offset d + Z.of_nat (length buf)) -> 0 <= offset d ->
   forall buf' r w', f_read (file d) buf (offset d) w = Ret ((buf', r), w') ->
   read buf (d, w) = Ret ((buf', r),
     (mkFd (file d) (flags d) (access d) (match r with Ok n => offset d + n | Err _ => offset d end), w'))) /\
  (contains (access d) WRITE = true -> forall p w1, write_position d w p w1 ->
   fits usize_bits (p + Z.of_nat (length buf)) -> 0 <= p ->
   forall n w2, f_write (file d) buf p w1 = Ret (Ok n, w2) ->
   write buf (d, w) = Ret (Ok n, (mkFd (file d) (flags d) (access d) (p + n), w2))).
Proof.
  unfold fits. split_and!.
  - intros Ha. unfold read. erewrite stbind_step by done. cbn [fst]. by rewrite Ha.
  - intros Ha. unfold write. erewrite stbind_step by done. cbn [fst]. by rewrite Ha.
  - intros Ha Hf Ho buf' r w' E. unfold read. erewrite stbind_step by done. cbn [fst]. rewrite Ha. cbn [negb].
    erewrite stbind_step by (unfold on_file; by rewrite E). cbn beta iota. destruct r as [n|e]; [|by destruct d].
    pose proof (f_read_count _ _ _ _ _ _ _ E). by erewrite stbind_step by (by rewrite add_ok by (unfold fits; lia)).
  - intros Ha p w1 Hp Hf Hpos n w2 E. unfold write. erewrite stbind_step by done. cbn [fst]. rewrite Ha.
    cbn [negb]. pose proof (f_write_count _ _ _ _ _ _ E).
    assert (Hadd : add usize_bits p n = Ret (p + n)) by (apply add_ok; unfold fits; lia).
    destruct Hp as [Hap|s w1 Hap Es]; rewrite Hap.
    + erewrite try_step by done. erewrite stbind_step by done. cbn [fst].
      erewrite try_step by (unfold on_file; by rewrite E). by erewrite stbind_step by (by rewrite Hadd).
    + erewrite try_step; [|erewrite try_step by (unfold on_file; by rewrite Es); by erewrite stbind_step by done].
      erewrite stbind_step by done. cbn [fst offset]. erewrite try_step.
      2: { unfold on_file. cbn [file]. by rewrite E. }
      by erewrite stbind_step by (by rewrite Hadd).
Qed.

(** within the first 2 GiB a [seek] goes to the base plus the distance,
    cut off at zero; a descriptor whose offset is 2 GiB or more goes back to
    zero when asked to stay where it is. *)
Theorem fd_seek d (w : W) off :
  (forall whence b w', seek_base d w whence b w' -> 0 <= b < 2 ^ 31 -> sfits usize_bits (b + off) ->
     sfits usize_bits off ->
     seek whence off (d, w) =
       Ret (Ok (Z.max (b + off) 0), (mkFd (file d) (flags d) (access d) (Z.max (b + off) 0), w'))) /\
  (2 ^ 31 <= offset d < 2 ^ 32 ->
     seek Current 0 (d, w) = Ret (Ok 0, (mkFd (file d) (flags d) (access d) 0, w))).
Proof.
  split.
  - intros whence b w' Hb Hr Hs Ho. unfold seek. erewrite stbind_step by done. cbn [fst].
    assert (Hadd : sadd usize_bits (to_signed usize_bits b) off = Ret (b + off)).
    { rewrite to_signed_small by (unfold usize_bits in *; lia). by apply sadd_ok. }
    destruct Hb as [| |s w' Es].
    + by rewrite Z.add_0_l.
    + erewrite try_step; [|by erewrite stbind_step by (by rewrite Hadd)]. by erewrite stbind_step by done.
    + erewrite try_step.
      2: { erewrite try_step by (unfold on_file; by rewrite Es). by erewrite stbind_step by (by rewrite Hadd). }
      by erewrite stbind_step by done.
  - intros Hr. unfold seek. erewrite stbind_step by done. cbn [fst].
    assert (E : to_signed usize_bits (offset d) = offset d - 2 ^ 32).
    { unfold to_signed, usize_bits. rewrite Z.mod_small by lia. destruct (Z.ltb_spec (offset d) (2 ^ (32 - 1))); lia. }
    erewrite try_step.
    2: { erewrite stbind_step; [done|]. rewrite sadd_ok; [done|]. rewrite E. unfold sfits, usize_bits. lia. }
    rewrite E. replace (Z.max (offset d - 2 ^ 32 + 0) 0) with 0 by lia. by erewrite stbind_step by done.
Qed.
End IoClaims.

(** ** Witnesses *)

(** A file held in memory: one list of bytes shared by every handle. *)
#[local] Instance debug_profile : Profile := Build_Profile true.

#[local] Instance ram_file : File (list Z) unit := {
  f_read _ buf off := fun w =>
    let data := take (length buf) (drop (Z.to_nat off) w) in
    Ret ((data ++ drop (length data) buf, Ok (Z.of_nat (length data))), w);
  f_write _ buf off := fun w =>
    Ret (Ok (Z.of_nat (length buf)),
      take (Z.to_nat off) w ++ buf ++ drop (Z.to_nat off + length buf) w);
  f_stat _ := fun w => Ret (Ok (mkStat (Z.of_nat (length w)) Regular "ram"), w);
}.

#[local] Instance ram_file_laws : FileLaws (list Z) unit.
Proof.
  split.
  - intros [] buf off w buf' n w'. cbn. intros [= <- <- <-]. rewrite length_take. lia.
  - intros [] buf off w n w'. cbn. intros [= <- <-]. lia.
Qed.

Lemma fd_io_offsets_witness :
  read [0; 0] (mkFd tt 0 READ 1, [7; 8; 9; 10]) = Ret (([8; 9], Ok 2), (mkFd tt 0 READ 3, [7; 8; 9; 10])) /\
  write [1] (mkFd tt 0 APPEND_MODE 0, [7; 8]) = Ret (Ok 1, (mkFd tt 0 APPEND_MODE 3, [7; 8; 1])).
Proof.
  split.
  - apply (proj1 (proj2 (proj2 (fd_io_offsets (mkFd tt 0 READ 1) [7; 8; 9; 10] [0; 0])))); by vm_compute.
  - apply (proj2 (proj2 (proj2 (fd_io_offsets (mkFd tt 0 APPEND_MODE 0) [7; 8] [1]))) eq_refl 2 [7; 8]);
      [apply (at_end _ _ (mkStat 2 Regular "ram")); done|by vm_compute..].
Defined.

Lemma fd_seek_witness :
  seek End_ (-1) (mkFd tt 0 READ 0, [7; 8; 9]) = Ret (Ok 2, (mkFd tt 0 READ 2, [7; 8; 9])) /\
  seek Current 0 (mkFd tt 0 READ 0xc0000000, [7]) = Ret (Ok 0, (mkFd tt 0 READ 0, [7])).
Proof.
  split.
  - apply (proj1 (fd_seek (mkFd tt 0 READ 0) [7; 8; 9] (-1)) End_ 3 [7; 8; 9]); [|by vm_compute..].
    by apply (from_end _ _ (mkStat 3 Regular "ram")).
  - by apply (proj2 (fd_seek (mkFd tt 0 READ 0xc0000000) [7] 0)).
Defined.
