(* ===== verification/Serial.v ===== *)
(** * Serial ports

    The HAL trait of serial ports with its default methods and text output
    (drivers/src/hal/serial.rs) and its two drivers, the ARM PL011
    (drivers/src/peripheral/arm/pl011.rs) and the 16550 UART
    (drivers/src/peripheral/x86/uart16550.rs).  Loops that poll a status
    register take the number of polls as fuel. *)
From S2P Require Import Prelude Mmio.

(** ** The HAL *)

Inductive DataBits := Five | Six | Seven | Eight.
Inductive Parity := NoParity | Odd | Even.
Inductive StopBits := One | Two.

Record SerialConfig := mkConfig {
  baud_rate : Z; data_bits : DataBits; parity : Parity; stop_bits : StopBits;
}.

Definition new_8n1 (baud : Z) : SerialConfig := mkConfig baud Eight NoParity One.
Definition default_config : SerialConfig := new_8n1 115200.

Definition is_8n1 (c : SerialConfig) : bool :=
  match data_bits c, parity c, stop_bits c with Eight, NoParity, One => true | _, _, _ => false end.

Inductive SerialError :=
  SFraming | SParity | SOverrun | SBreak | SWouldBlock | SInvalidConfig | SOther.

(** [SerialPort] and [NonBlockingSerial], with the conversion of the error. *)
Class SerialPort (D E : Type) := {
  sp_configure : nat -> SerialConfig -> st D (result unit E);
  sp_write_byte : nat -> Z -> st D (result unit E);
  sp_read_byte : nat -> st D (result Z E);
  sp_flush : nat -> st D (result unit E);
  sp_is_busy : st D bool;
  sp_try_write_byte : Z -> st D (result unit E);
  sp_try_read_byte : st D (result Z E);
  sp_into : E -> SerialError;
}.

Section Defaults.
Context {D E : Type} `{SerialPort D E}.

(** The loop of the default [write]: the bytes in order, up to an error. *)
Fixpoint write_each (send : Z -> st D (result unit E)) (bytes : list Z) : st D (result unit E) :=
  match bytes with
  | [] => mret (Ok tt)
  | b :: bytes => let? _ := send b in write_each send bytes
  end.

Definition write (fuel : nat) (bytes : list Z) : st D (result Z E) :=
  let? _ := write_each (sp_write_byte fuel) bytes in mret (Ok (Z.of_nat (length bytes))).

Definition try_write (bytes : list Z) : st D (result Z E) :=
  let? _ := write_each sp_try_write_byte bytes in mret (Ok (Z.of_nat (length bytes))).

(** The loop of the default [read] fills the slots in order; what was read
    before an error stays in the buffer. *)
Fixpoint read_each (recv : st D (result Z E)) (buf : list Z) : st D (list Z * result unit E) :=
  match buf with
  | [] => mret ([], Ok tt)
  | b :: buf =>
      r ← recv;
      match r with
      | Err e => mret (b :: buf, Err e)
      | Ok v => '(buf, r) ← read_each recv buf; mret (v :: buf, r)
      end
  end.

Definition read (fuel : nat) (buf : list Z) : st D (list Z * result Z E) :=
  '(buf', r) ← read_each (sp_read_byte fuel) buf;
  mret (buf', match r with Ok _ => Ok (Z.of_nat (length buf)) | Err e => Err e end).

Definition try_read (buf : list Z) : st D (list Z * result Z E) :=
  '(buf', r) ← read_each sp_try_read_byte buf;
  mret (buf', match r with Ok _ => Ok (Z.of_nat (length buf)) | Err e => Err e end).

(** [DynSerialPort]: the same operations with [SerialError]. *)
Definition dyn_configure fuel c := st_map_err sp_into (sp_configure fuel c).
Definition dyn_write_byte fuel b := st_map_err sp_into (sp_write_byte fuel b).
Definition dyn_write fuel bytes := st_map_err sp_into (write fuel bytes).
Definition dyn_read_byte fuel := st_map_err sp_into (sp_read_byte fuel).
Definition dyn_flush fuel := st_map_err sp_into (sp_flush fuel).

Definition dyn_read fuel buf : st D (list Z * result Z SerialError) :=
  '(buf, r) ← read fuel buf; mret (buf, map_err sp_into r).

Definition dyn_is_busy : st D bool := sp_is_busy.

(** [DynNonBlockingSerial]. *)
Definition dyn_try_write_byte b := st_map_err sp_into (sp_try_write_byte b).
Definition dyn_try_read_byte := st_map_err sp_into sp_try_read_byte.
Definition dyn_try_write bytes := st_map_err sp_into (try_write bytes).
Definition dyn_try_read buf : st D (list Z * result Z SerialError) :=
  '(buf, r) ← try_read buf; mret (buf, map_err sp_into r).

(** The default [as_nonblocking], which no driver overrides. *)
Definition as_nonblocking : option unit := None.

(** [impl fmt::Write for dyn DynSerialPort]: a line feed is preceded by a
    carriage return.  The error of [fmt] carries no data. *)
Fixpoint write_str (fuel : nat) (s : list Z) : st D (result unit unit) :=
  match s with
  | [] => mret (Ok tt)
  | b :: s =>
      let? _ := (if b =? 10 then st_map_err (fun _ => tt) (dyn_write_byte fuel 13) else mret (Ok tt)) in
      let? _ := st_map_err (fun _ => tt) (dyn_write_byte fuel b) in
      write_str fuel s
  end.

(** [impl fmt::Write for SerialWriter<T>], over a port of a known type. *)
Fixpoint writer_write_str (fuel : nat) (s : list Z) : st D (result unit unit) :=
  match s with
  | [] => mret (Ok tt)
  | b :: s =>
      let? _ := (if b =? 10 then st_map_err (fun _ => tt) (sp_write_byte fuel 13) else mret (Ok tt)) in
      let? _ := st_map_err (fun _ => tt) (sp_write_byte fuel b) in
      writer_write_str fuel s
  end.
End Defaults.

(** [while test() {}]. *)
Fixpoint wait_while {D} (fuel : nat) (test : st D bool) : st D unit :=
  match fuel with
  | O => out_of_fuel
  | S fuel => b ← test; if (b : bool) then wait_while fuel test else mret tt
  end.

(** ** PL011 *)

Module Pl011.
Definition PL011_CLOCK_HZ : Z := 48000000.

Definition FR_OFFSET : Z := 0x18.
Definition IBRD_OFFSET : Z := 0x24.
Definition FBRD_OFFSET : Z := 0x28.
Definition LCRH_OFFSET : Z := 0x2c.
Definition CR_OFFSET : Z := 0x30.
Definition IMSC_OFFSET : Z := 0x38.
Definition ICR_OFFSET : Z := 0x44.

Definition FR_BUSY : Z := Z.shiftl 1 3.
Definition FR_RXFE : Z := Z.shiftl 1 4.
Definition FR_TXFF : Z := Z.shiftl 1 5.
Definition CR_UARTEN : Z := Z.shiftl 1 0.
Definition CR_TXE : Z := Z.shiftl 1 8.
Definition CR_RXE : Z := Z.shiftl 1 9.
Definition LCRH_WLEN_8 : Z := Z.shiftl 3 5.
Definition LCRH_FEN : Z := Z.shiftl 1 4.

Inductive PL011Error :=
  Framing | ParityError | Overrun | Break | WouldBlock | InvalidConfig | UnsupportedBaudRate | Timeout.

Definition into_error (e : PL011Error) : SerialError :=
  match e with
  | Framing => SFraming
  | ParityError => SParity
  | Overrun => SOverrun
  | Break => SBreak
  | WouldBlock => SWouldBlock
  | InvalidConfig => SInvalidConfig
  | UnsupportedBaudRate => SInvalidConfig
  | Timeout => SOther
  end.

(** The arithmetic is on 64 bits and cannot overflow; [as u32] truncates. *)
Definition calculate_divisors (baud : Z) : outcome (result (Z * Z) PL011Error) :=
  if baud =? 0 then Ret (Err InvalidConfig)
  else
    divisor ← udiv (wrap 64 (Z.shiftl PL011_CLOCK_HZ 6)) (16 * baud);
    let integer := wrap 32 (Z.shiftr divisor 6) in
    let fractional := wrap 32 (Z.land divisor 0x3f) in
    if (integer =? 0) || (0xffff <? integer) then Ret (Err UnsupportedBaudRate)
    else Ret (Ok (integer, fractional)).

Section Driver.
Context `{Profile} {D : Type} `{Mmio D} (base : Z).

Definition read_reg (offset : Z) : st D Z :=
  a ← lift (add usize_bits base offset); read_volatile a.
Definition write_reg (offset v : Z) : st D unit :=
  a ← lift (add usize_bits base offset); write_volatile a v.

(** [self.read_reg(FR_OFFSET) & bit != 0]. *)
Definition fr_bit (bit : Z) : st D bool :=
  v ← read_reg FR_OFFSET; mret (negb (Z.land v bit =? 0)).

Definition wait_idle (fuel : nat) : st D unit := wait_while fuel (fr_bit FR_BUSY).

Definition configure (fuel : nat) (config : SerialConfig) : st D (result unit PL011Error) :=
  if negb (is_8n1 config) then mret (Err InvalidConfig)
  else
    cr ← read_reg CR_OFFSET;
    _ ← write_reg CR_OFFSET (Z.land cr (lnot 32 CR_UARTEN));
    _ ← wait_idle fuel;
    lcrh ← read_reg LCRH_OFFSET;
    _ ← write_reg LCRH_OFFSET (Z.land lcrh (lnot 32 LCRH_FEN));
    let? d := lift (calculate_divisors (baud_rate config)) in
    _ ← write_reg IBRD_OFFSET d.1;
    _ ← write_reg FBRD_OFFSET d.2;
    _ ← write_reg LCRH_OFFSET (Z.lor LCRH_WLEN_8 LCRH_FEN);
    _ ← write_reg ICR_OFFSET 0x7ff;
    _ ← write_reg IMSC_OFFSET 0;
    _ ← write_reg CR_OFFSET (Z.lor (Z.lor CR_UARTEN CR_TXE) CR_RXE);
    mret (Ok tt).

Definition write_byte (fuel : nat) (byte : Z) : st D (result unit PL011Error) :=
  _ ← wait_while fuel (fr_bit FR_TXFF);
  _ ← write_reg 0 byte;
  mret (Ok tt).

Definition read_byte (fuel : nat) : st D (result Z PL011Error) :=
  _ ← wait_while fuel (fr_bit FR_RXFE);
  v ← read_reg 0;
  mret (Ok (Z.land v 0xff)).

Definition flush (fuel : nat) : st D (result unit PL011Error) :=
  _ ← wait_idle fuel; mret (Ok tt).

Definition is_busy : st D bool := fr_bit FR_BUSY.

Definition try_write_byte (byte : Z) : st D (result unit PL011Error) :=
  full ← fr_bit FR_TXFF;
  if (full : bool) then mret (Err WouldBlock) else _ ← write_reg 0 byte; mret (Ok tt).

Definition try_read_byte : st D (result Z PL011Error) :=
  empty ← fr_bit FR_RXFE;
  if (empty : bool) then mret (Err WouldBlock) else v ← read_reg 0; mret (Ok (Z.land v 0xff)).

Definition port : SerialPort D PL011Error := {|
  sp_configure := configure;
  sp_write_byte := write_byte;
  sp_read_byte := read_byte;
  sp_flush := flush;
  sp_is_busy := is_busy;
  sp_try_write_byte := try_write_byte;
  sp_try_read_byte := try_read_byte;
  sp_into := into_error;
|}.
End Driver.
End Pl011.

(** ** 16550 *)

Module Uart16550.
(** The [Io] abstraction: memory-mapped registers or I/O ports of one byte. *)
Class Io (D : Type) := {
  read8 : Z -> D -> Z * D;
  write8 : Z -> Z -> D -> D;
}.

Definition io_read8 `{Io D} (a : Z) : st D Z := fun s => Ret (read8 a s).
Definition io_write8 `{Io D} (a v : Z) : st D unit := fun s => Ret (tt, write8 a v s).

(** [Pio]: the port number is the address cut to 16 bits. *)
Definition Pio {D} `{PortIo D} : Io D := {|
  read8 addr := in8 (wrap 16 addr);
  write8 addr v := out8 (wrap 16 addr) v;
|}.

Definition UART_CLOCK_HZ : Z := 1843200.

Definition RBR : Z := 0.
Definition THR : Z := 0.
Definition DLL : Z := 0.
Definition DLM : Z := 1.
Definition IER : Z := 1.
Definition FCR : Z := 2.
Definition LCR : Z := 3.
Definition MCR : Z := 4.
Definition LSR : Z := 5.

Definition LCR_DLAB : Z := Z.shiftl 1 7.
Definition FCR_ENABLE : Z := Z.shiftl 1 0.
Definition FCR_CLEAR_RX : Z := Z.shiftl 1 1.
Definition FCR_CLEAR_TX : Z := Z.shiftl 1 2.
Definition MCR_DTR : Z := Z.shiftl 1 0.
Definition MCR_RTS : Z := Z.shiftl 1 1.
Definition MCR_OUT2 : Z := Z.shiftl 1 3.
Definition LSR_DR : Z := Z.shiftl 1 0.
Definition LSR_OE : Z := Z.shiftl 1 1.
Definition LSR_PE : Z := Z.shiftl 1 2.
Definition LSR_FE : Z := Z.shiftl 1 3.
Definition LSR_BI : Z := Z.shiftl 1 4.
Definition LSR_THRE : Z := Z.shiftl 1 5.
Definition LSR_TEMT : Z := Z.shiftl 1 6.

Inductive Uart16550Error := Framing | ParityError | Overrun | Break | WouldBlock | InvalidConfig.

Definition into_error (e : Uart16550Error) : SerialError :=
  match e with
  | Framing => SFraming
  | ParityError => SParity
  | Overrun => SOverrun
  | Break => SBreak
  | WouldBlock => SWouldBlock
  | InvalidConfig => SInvalidConfig
  end.

Definition has (v bit : Z) : bool := negb (Z.land v bit =? 0).

Definition check_errors (lsr : Z) : result unit Uart16550Error :=
  if has lsr LSR_OE then Err Overrun
  else if has lsr LSR_PE then Err ParityError
  else if has lsr LSR_FE then Err Framing
  else if has lsr LSR_BI then Err Break
  else Ok tt.

Section Driver.
Context `{Profile} {D : Type} `{Io D} (base : Z).

Definition read_reg (offset : Z) : st D Z :=
  a ← lift (add usize_bits base offset); io_read8 a.
Definition write_reg (offset v : Z) : st D unit :=
  a ← lift (add usize_bits base offset); io_write8 a v.

(** The divisor of [set_baud]; the product is of 32 bits. *)
Definition divisor (baud : Z) : outcome (result Z Uart16550Error) :=
  if baud =? 0 then Ret (Err InvalidConfig)
  else
    m ← mul 32 16 baud;
    d ← udiv UART_CLOCK_HZ m;
    if (d =? 0) || (0xffff <? d) then Ret (Err InvalidConfig) else Ret (Ok d).

Definition set_baud (baud : Z) : st D (result unit Uart16550Error) :=
  let? d := lift (divisor baud) in
  lcr ← read_reg LCR;
  _ ← write_reg LCR (Z.lor lcr LCR_DLAB);
  _ ← write_reg DLL (Z.land d 0xff);
  _ ← write_reg DLM (wrap 8 (Z.shiftr d 8));
  _ ← write_reg LCR (Z.land lcr (lnot 8 LCR_DLAB));
  mret (Ok tt).

Definition configure (config : SerialConfig) : st D (result unit Uart16550Error) :=
  if negb (is_8n1 config) then mret (Err InvalidConfig)
  else
    _ ← write_reg IER 0;
    _ ← write_reg LCR 3;
    let? _ := set_baud (baud_rate config) in
    _ ← write_reg FCR (Z.lor (Z.lor FCR_ENABLE FCR_CLEAR_RX) FCR_CLEAR_TX);
    _ ← write_reg MCR (Z.lor (Z.lor MCR_DTR MCR_RTS) MCR_OUT2);
    mret (Ok tt).

Definition lsr_clear (bit : Z) : st D bool := v ← read_reg LSR; mret (negb (has v bit)).

Definition write_byte (fuel : nat) (byte : Z) : st D (result unit Uart16550Error) :=
  _ ← wait_while fuel (lsr_clear LSR_THRE);
  _ ← write_reg THR byte;
  mret (Ok tt).

(** The status word that ends the wait is the one checked for errors. *)
Fixpoint read_byte (fuel : nat) : st D (result Z Uart16550Error) :=
  match fuel with
  | O => out_of_fuel
  | S fuel =>
      lsr ← read_reg LSR;
      if has lsr LSR_DR then
        let? _ := mret (check_errors lsr) in
        v ← read_reg RBR; mret (Ok v)
      else read_byte fuel
  end.

Definition flush (fuel : nat) : st D (result unit Uart16550Error) :=
  _ ← wait_while fuel (lsr_clear LSR_TEMT); mret (Ok tt).

Definition is_busy : st D bool := lsr_clear LSR_TEMT.

Definition try_write_byte (byte : Z) : st D (result unit Uart16550Error) :=
  full ← lsr_clear LSR_THRE;
  if (full : bool) then mret (Err WouldBlock) else _ ← write_reg THR byte; mret (Ok tt).

Definition try_read_byte : st D (result Z Uart16550Error) :=
  lsr ← read_reg LSR;
  if negb (has lsr LSR_DR) then mret (Err WouldBlock)
  else
    let? _ := mret (check_errors lsr) in
    v ← read_reg RBR; mret (Ok v).

Definition port : SerialPort D Uart16550Error := {|
  sp_configure _ := configure;
  sp_write_byte := write_byte;
  sp_read_byte := read_byte;
  sp_flush := flush;
  sp_is_busy := is_busy;
  sp_try_write_byte := try_write_byte;
  sp_try_read_byte := try_read_byte;
  sp_into := into_error;
|}.
End Driver.
End Uart16550.

(** ** The contract of a port

    [sent] is what has gone out on the wire.  A byte written within [enough]
    polls goes out after everything before it. *)
Class SerialLaws (D E : Type) (P : SerialPort D E) := {
  sent : D -> list Z;
  enough : nat;
  write_byte_sends s b : fits 8 b -> exists s',
    sp_write_byte enough b s = Ret (Ok tt, s') /\ sent s' = sent s ++ [b];
}.

(** What [write_str] puts on the wire. *)
Fixpoint crlf (s : list Z) : list Z :=
  match s with
  | [] => []
  | b :: s => (if b =? 10 then [13; b] else [b]) ++ crlf s
  end.

Section PortLemmas.
Context {D E : Type} (P : SerialPort D E) `{!SerialLaws D E P}.

Lemma write_each_sends bytes : forall s, Forall (fits 8) bytes -> exists s',
  write_each (sp_write_byte enough) bytes s = Ret (Ok tt, s') /\ sent s' = sent s ++ bytes.
Proof using All.
  induction bytes as [|b bytes IH]; intros s Hb; [exists s; by rewrite app_nil_r|].
  apply Forall_cons in Hb as [Hb Hbs]. destruct (write_byte_sends s b Hb) as (s1 & E1 & S1).
  destruct (IH s1 Hbs) as (s2 & E2 & S2). exists s2. cbn [write_each].
  erewrite try_step by exact E1. split; [exact E2|]. rewrite S2, S1, <- app_assoc. done.
Qed.

Lemma write_byte_any s b : fits 8 b -> exists s',
  st_map_err (fun _ => tt) (dyn_write_byte enough b) s = Ret (Ok tt, s') /\ sent s' = sent s ++ [b].
Proof using All.
  intros Hb. destruct (write_byte_sends s b Hb) as (s1 & E1 & S1). exists s1. split; [|done].
  unfold dyn_write_byte, st_map_err. by rewrite E1.
Qed.

Lemma write_str_sends text : forall s, Forall (fits 8) text -> exists s',
  write_str enough text s = Ret (Ok tt, s') /\ sent s' = sent s ++ crlf text.
Proof using All.
  induction text as [|b text IH]; intros s Hb; [exists s; by rewrite app_nil_r|].
  apply Forall_cons in Hb as [Hb Hbs]. cbn [write_str crlf].
  destruct (Z.eqb_spec b 10) as [->|].
  - destruct (write_byte_any s 13) as (s1 & E1 & S1); [unfold fits; lia|].
    destruct (write_byte_any s1 10 Hb) as (s2 & E2 & S2). destruct (IH s2 Hbs) as (s3 & E3 & S3).
    exists s3. erewrite try_step by exact E1. erewrite try_step by exact E2. split; [exact E3|].
    rewrite S3, S2, S1, <- !app_assoc. done.
  - destruct (write_byte_any s b Hb) as (s2 & E2 & S2). destruct (IH s2 Hbs) as (s3 & E3 & S3).
    exists s3. erewrite try_step by done. erewrite try_step by exact E2. split; [exact E3|].
    rewrite S3, S2, <- !app_assoc. done.
Qed.
End PortLemmas.

(** What the PL011 manual says of the transmitter at [base]: reading the flag
    register has no effect, its bit 5 tells whether the FIFO is full and a
    full FIFO has room again after [busy] polls, at most [patience]; a write
    to the data register with room in the FIFO sends the byte. *)
Class Pl011Hw (D : Type) (base : Z) `{Mmio D} := {
  wire : D -> list Z;
  busy : D -> nat;
  patience : nat;
  busy_bound s : (busy s <= patience)%nat;
  poll s : let '(v, s') := read32 (base + Pl011.FR_OFFSET) s in
    wire s' = wire s /\ busy s' = pred (busy s) /\ Z.testbit v 5 = negb (Nat.eqb (busy s) 0);
  data_write s b : busy s = O -> fits 8 b -> wire (write32 base b s) = wire s ++ [b];
}.

Section Pl011Lemmas.
Context `{Profile} {D : Type} (base : Z) `{Pl011Hw D base} (Hbase : fits usize_bits (base + 0x44)) (Hpos : 0 <= base).

Lemma fr_poll s : exists s', Pl011.fr_bit base Pl011.FR_TXFF s = Ret (negb (Nat.eqb (busy s) 0), s') /\
  wire s' = wire s /\ busy s' = pred (busy s).
Proof using All.
  unfold Pl011.fr_bit. pose proof (poll s) as Hp. destruct (read32 (base + Pl011.FR_OFFSET) s) as [v s'] eqn:E.
  destruct Hp as (Hw & Hb & Hv). exists s'. split; [|done].
  erewrite stbind_step.
  2: { unfold Pl011.read_reg. erewrite stbind_step.
       2: { rewrite add_ok; [done|]. unfold fits, Pl011.FR_OFFSET in *. lia. }
       unfold read_volatile. by rewrite E. }
  unfold Pl011.FR_TXFF. rewrite Z.shiftl_1_l, land_bit by lia. by rewrite negb_involutive, Hv.
Qed.

Lemma wait_room : forall fuel s, (busy s < fuel)%nat -> exists s',
  wait_while fuel (Pl011.fr_bit base Pl011.FR_TXFF) s = Ret (tt, s') /\ wire s' = wire s /\ busy s' = O.
Proof using All.
  induction fuel as [|fuel IH]; intros s Hf; [lia|]. cbn [wait_while].
  destruct (fr_poll s) as (s1 & E1 & W1 & B1). erewrite stbind_step by exact E1.
  destruct (Nat.eqb_spec (busy s) 0) as [E0|]; cbn [negb].
  - exists s1. split; [done|]. split; [done|]. rewrite B1, E0. done.
  - destruct (IH s1) as (s2 & E2 & W2 & B2); [lia|]. exists s2. rewrite W2. auto.
Qed.

(** The driver keeps the contract of the trait. *)
#[global] Instance pl011_laws : SerialLaws D Pl011.PL011Error (Pl011.port base).
Proof using All.
  refine {| sent := wire; enough := S patience |}.
  intros s b Hb. pose proof (busy_bound s). destruct (wait_room (S patience) s) as (s1 & E1 & W1 & B1); [lia|].
  exists (write32 base b s1). cbn. unfold Pl011.write_byte. erewrite stbind_step by exact E1.
  erewrite stbind_step.
  2: { unfold Pl011.write_reg. erewrite stbind_step.
       2: { rewrite add_ok; [done|]. unfold fits in *. lia. }
       rewrite Z.add_0_r. done. }
  split; [done|]. by rewrite data_write, W1.
Defined.
End Pl011Lemmas.

Lemma try_same {S A B E} (m m' : st S (result A E)) (k k' : A -> st S (result B E)) s :
  m s = m' s -> (forall a s, k a s = k' a s) -> try_bind m k s = try_bind m' k' s.
Proof. intros Em Ek. unfold try_bind. rewrite Em. by destruct (m' s) as [[[] ?]| |]. Qed.

(** Both writers of text send the same bytes and stop at the same error. *)
Lemma writers_agree {D E : Type} `{SerialPort D E} fuel text (d : D) :
  writer_write_str fuel text d = write_str fuel text d.
Proof.
  assert (Hb : forall b (d : D), st_map_err (fun _ => tt) (sp_write_byte fuel b) d =
    st_map_err (fun _ => tt) (dyn_write_byte fuel b) d).
  { intros b d'. unfold dyn_write_byte, st_map_err. by destruct (sp_write_byte fuel b d') as [[[] ?]| |]. }
  revert d. induction text as [|b text IH]; intros d; [done|]. cbn [writer_write_str write_str].
  apply try_same; [by destruct (b =? 10)|]. intros _ d1. by apply try_same.
Qed.

(** ** Theorems *)

Section Claims.
Context {D E : Type} (P : SerialPort D E) `{!SerialLaws D E P}.

(** a port that sends single bytes sends a buffer in order and reports
    its length, and sends text with a carriage return before every line
    feed, after everything sent before; the PL011 driver is such a port. *)
Theorem serial_text_crlf s bytes : Forall (fits 8) bytes -> exists s1 s2,
  write enough bytes s = Ret (Ok (Z.of_nat (length bytes)), s1) /\ sent s1 = sent s ++ bytes /\
  write_str enough bytes s = Ret (Ok tt, s2) /\ sent s2 = sent s ++ crlf bytes.
Proof using All.
  intros Hb. destruct (write_each_sends P bytes s Hb) as (s1 & E1 & S1).
  destruct (write_str_sends P bytes s Hb) as (s2 & E2 & S2). exists s1, s2.
  split; [|auto]. unfold write. by erewrite try_step by exact E1.
Qed.
End Claims.

Section BaudLemmas.
Context `{Profile}.

Lemma pl011_divisors baud : 0 < baud < 2 ^ 32 -> Pl011.calculate_divisors baud =
  Ret (if decide (46 <= baud <= 3000000) then Ok (192000000 / baud / 64, (192000000 / baud) mod 64)
       else Err Pl011.UnsupportedBaudRate).
Proof using All.
  intros Hb. unfold Pl011.calculate_divisors. rewrite (proj2 (Z.eqb_neq baud 0)) by lia.
  rewrite udiv_ok by lia. cbn [mbind outcome_bind].
  replace (wrap 64 (Z.shiftl Pl011.PL011_CLOCK_HZ 6)) with (16 * 192000000) by reflexivity.
  rewrite Z.div_mul_cancel_l by lia. set (q := 192000000 / baud).
  assert (Hq : q * baud <= 192000000 < (q + 1) * baud).
  { pose proof (Z.div_mod 192000000 baud). pose proof (Z.mod_pos_bound 192000000 baud). unfold q. lia. }
  assert (Hq0 : 0 <= q <= 192000000) by (split; [apply Z.div_pos; lia|nia]).
  replace (Z.land q 0x3f) with (q mod 64) by (symmetry; apply (land_mask q 6); lia).
  rewrite Z.shiftr_div_pow2 by lia. change (2 ^ 6) with 64. unfold wrap.
  pose proof (Z.div_mod q 64). pose proof (Z.mod_pos_bound q 64).
  rewrite !Z.mod_small by lia.
  destruct (Z.eqb_spec (q / 64) 0), (Z.ltb_spec 0xffff (q / 64)), (decide (46 <= baud <= 3000000)); cbn [orb];
    try done; exfalso; nia.
Qed.

Lemma uart_divisor baud : 0 < baud < 2 ^ 28 -> Uart16550.divisor baud =
  Ret (if decide (2 <= baud <= 115200) then Ok (115200 / baud) else Err Uart16550.InvalidConfig).
Proof using All.
  intros Hb. unfold Uart16550.divisor. rewrite (proj2 (Z.eqb_neq baud 0)) by lia.
  rewrite mul_ok by (unfold fits; lia). cbn [mbind outcome_bind]. rewrite udiv_ok by lia. cbn [mbind outcome_bind].
  change Uart16550.UART_CLOCK_HZ with (16 * 115200). rewrite Z.div_mul_cancel_l by lia. set (q := 115200 / baud).
  assert (Hq : q * baud <= 115200 < (q + 1) * baud).
  { pose proof (Z.div_mod 115200 baud). pose proof (Z.mod_pos_bound 115200 baud). unfold q. lia. }
  assert (0 <= q) by (apply Z.div_pos; lia).
  destruct (Z.eqb_spec q 0), (Z.ltb_spec 0xffff q), (decide (2 <= baud <= 115200)); cbn [orb];
    try done; exfalso; nia.
Qed.
End BaudLemmas.

Section BaudClaims.
Context `{Profile}.

(** the PL011 accepts exactly 46 to 3000000 baud, with the clock divisor
    rounded down to a 64th and both parts inside their registers; the 16550
    accepts exactly 2 to 115200 baud, and panics at 2^28 baud in both
    profiles, where sixteen times the rate overflows to zero. *)
Theorem baud_divisors baud :
  (0 < baud < 2 ^ 32 ->
   if decide (46 <= baud <= 3000000) then exists i f,
     Pl011.calculate_divisors baud = Ret (Ok (i, f)) /\ 1 <= i <= 0xffff /\ 0 <= f < 64 /\
     (64 * i + f) * baud <= 4 * Pl011.PL011_CLOCK_HZ < (64 * i + f + 1) * baud
   else Pl011.calculate_divisors baud = Ret (Err Pl011.UnsupportedBaudRate)) /\
  (0 < baud < 2 ^ 28 ->
   if decide (2 <= baud <= 115200) then exists d,
     Uart16550.divisor baud = Ret (Ok d) /\ 1 <= d <= 0xffff /\
     d * (16 * baud) <= Uart16550.UART_CLOCK_HZ < (d + 1) * (16 * baud)
   else Uart16550.divisor baud = Ret (Err Uart16550.InvalidConfig)) /\
  (baud = 2 ^ 28 -> Uart16550.divisor baud = Panic).
Proof using All.
  split_and!.
  - intros Hb. pose proof (pl011_divisors baud Hb) as E. destruct (decide (46 <= baud <= 3000000)); [|done].
    do 2 eexists. split; [exact E|]. set (q := 192000000 / baud).
    assert (Hq : q * baud <= 192000000 < (q + 1) * baud).
    { pose proof (Z.div_mod 192000000 baud). pose proof (Z.mod_pos_bound 192000000 baud). unfold q. lia. }
    assert (64 <= q < 4194304) by nia. pose proof (Z.div_mod q 64). pose proof (Z.mod_pos_bound q 64).
    change (4 * Pl011.PL011_CLOCK_HZ) with 192000000. replace (64 * (q / 64) + q mod 64) with q by lia. lia.
  - intros Hb. pose proof (uart_divisor baud Hb) as E. destruct (decide (2 <= baud <= 115200)); [|done].
    eexists. split; [exact E|]. set (q := 115200 / baud).
    assert (Hq : q * baud <= 115200 < (q + 1) * baud).
    { pose proof (Z.div_mod 115200 baud). pose proof (Z.mod_pos_bound 115200 baud). unfold q. lia. }
    change Uart16550.UART_CLOCK_HZ with (16 * 115200). split; nia.
  - intros ->. unfold Uart16550.divisor. cbn [Z.eqb]. unfold mul, arith. by destruct debug_assertions.
Qed.
End BaudClaims.

(** ** A simulated PL011 *)

(** After every byte the FIFO is full for two polls. *)
Record UartSim := mkUart { out_ : list Z; wait_ : nat }.

#[export] Instance uart_sim_mmio : Mmio UartSim := {
  read32 a s := (if Nat.eqb (wait_ s) 0 then 0 else Pl011.FR_TXFF, mkUart (out_ s) (pred (Nat.min 2 (wait_ s))));
  write32 a v s := if a =? 0x20201000 then mkUart (out_ s ++ [v]) 2 else s;
}.

#[export] Instance uart_sim_hw : Pl011Hw UartSim 0x20201000.
Proof.
  refine {| wire := out_; busy s := Nat.min 2 (wait_ s); patience := 2 |}.
  - intros [o w]. apply Nat.le_min_l.
  - intros [o [|[|[|w]]]]; by cbn.
  - intros [o w] b Hw Hb. done.
Defined.

(** ** Witnesses *)

#[local] Instance debug_profile : Profile := Build_Profile true.

(** "Hi" and a line feed. *)
Lemma serial_text_crlf_witness : exists s1 s2,
  write (H := Pl011.port 0x20201000) 3 [72; 105; 10] (mkUart [] 0) = Ret (Ok 3, s1) /\
  out_ s1 = [72; 105; 10] /\
  write_str (H := Pl011.port 0x20201000) 3 [72; 105; 10] (mkUart [] 0) = Ret (Ok tt, s2) /\
  out_ s2 = [72; 105; 13; 10].
Proof.
  pose (L := pl011_laws (D := UartSim) 0x20201000 ltac:(by vm_compute) ltac:(lia)).
  apply (@serial_text_crlf _ _ (Pl011.port 0x20201000) L (mkUart [] 0) [72; 105; 10]).
  repeat constructor; lia.
Defined.

Lemma baud_divisors_witness :
  (exists i f, Pl011.calculate_divisors 115200 = Ret (Ok (i, f)) /\ 1 <= i <= 0xffff /\ 0 <= f < 64 /\
     (64 * i + f) * 115200 <= 4 * Pl011.PL011_CLOCK_HZ < (64 * i + f + 1) * 115200) /\
  Uart16550.divisor (2 ^ 28) = Panic.
Proof.
  split; [apply (proj1 (baud_divisors 115200)); lia|by apply (proj2 (proj2 (baud_divisors (2 ^ 28))))].
Defined.
