(* ===== verification/Vfs.v ===== *)
(** * The virtual file system and the device files

    The mount table and its dispatch (kernel/src/fs/vfs.rs), the device file
    system (kernel/src/fs/dev/mod.rs) and the two device files
    (kernel/src/fs/dev/{uart_file,framebuffer_file}.rs), which find their
    device by name in the device manager at every call.  The spin locks around
    the mount table, the device table and the devices are taken and released
    within one call and are not part of the state. *)
From Stdlib Require Import Ascii.
From stdpp Require Import pretty.
From S2P Require Import Prelude Memory BTree Devices Serial Fd.

(** ** The [FileSystem] trait *)

Class FileSystem (W G F : Type) := {
  fs_open : G -> string -> st W (result F FsError);
  fs_create : G -> string -> st W (result F FsError);
  fs_delete : G -> string -> st W (result unit FsError);
  fs_stat : G -> string -> st W (result FileStat FsError);
  fs_ls : G -> string -> st W (result (list string) FsError);
  fs_mkdir : G -> string -> st W (result unit FsError);
  fs_rmdir : G -> string -> st W (result unit FsError);
}.

(** [str::strip_prefix] and [trim_start_matches('/')]. *)
Fixpoint strip_prefix (p s : string) : option string :=
  match p, s with
  | EmptyString, _ => Some s
  | String a p, String b s => if Ascii.eqb a b then strip_prefix p s else None
  | String _ _, EmptyString => None
  end.

Definition slash : ascii := "/"%char.

Fixpoint trim_start (s : string) : string :=
  match s with
  | String a s' => if Ascii.eqb a slash then trim_start s' else s
  | EmptyString => EmptyString
  end.

(** ** [VirtFS] *)

Section VirtFS.
Context {W G F : Type} `{FileSystem W G F}.

Record Mount := mkMount { prefix : string; fs : G }.

Definition init (rootfs : G) : list Mount := [mkMount "/" rootfs].

Definition mount_fs (p : string) (f : G) : st (list Mount) (result unit FsError) := fun mounts =>
  if existsb (fun m => String.eqb (prefix m) p) mounts then Ret (Err FsAlreadyExists, mounts)
  else Ret (Ok tt, mounts ++ [mkMount p f]).

(** [iter().position(..)]. *)
Fixpoint position (p : string) (mounts : list Mount) : option nat :=
  match mounts with
  | [] => None
  | m :: mounts => if String.eqb (prefix m) p then Some O else S <$> position p mounts
  end.

(** [Vec::remove]. *)
Definition remove {A} (i : nat) (l : list A) : list A := take i l ++ drop (S i) l.

Definition umount (p : string) : st (list Mount) (result unit FsError) := fun mounts =>
  match position p mounts with
  | None => Ret (Err FsNotFound, mounts)
  | Some i => Ret (Ok tt, remove i mounts)
  end.

(** One step of the search of [dispatch]. *)
Definition consider (path : string) (best : option (Mount * string)) (m : Mount) : option (Mount * string) :=
  match strip_prefix (prefix m) path with
  | None => best
  | Some rest =>
      let rest := default rest (strip_prefix "/" rest) in
      match best with
      | None => Some (m, rest)
      | Some (prev, _) =>
          if (String.length (prefix prev) <? String.length (prefix m))%nat then Some (m, rest) else best
      end
  end.

Definition best_mount (path : string) (mounts : list Mount) : option (Mount * string) :=
  foldl (consider path) None mounts.

Definition dispatch {T} (mounts : list Mount) (path : string)
    (f : Mount -> string -> st W (result T FsError)) : st W (result T FsError) :=
  match best_mount path mounts with
  | None => mret (Err FsNotFound)
  | Some (m, rest) => f m rest
  end.

Definition vfs_open ms path := dispatch ms path (fun m rest => fs_open (fs m) rest).
Definition vfs_create ms path := dispatch ms path (fun m rest => fs_create (fs m) rest).
Definition vfs_delete ms path := dispatch ms path (fun m rest => fs_delete (fs m) rest).
Definition vfs_ls ms path := dispatch ms path (fun m rest => fs_ls (fs m) rest).
Definition vfs_mkdir ms path := dispatch ms path (fun m rest => fs_mkdir (fs m) rest).
Definition vfs_rmdir ms path := dispatch ms path (fun m rest => fs_rmdir (fs m) rest).
Definition vfs_stat ms path := dispatch ms path (fun m rest => fs_stat (fs m) rest).
End VirtFS.
Arguments Mount : clear implicits.

(** ** [DevFs] *)

Section DevFs.
Context {W F : Type} `{File W F}.

Definition register_device (name : string) (device : F) (d : btree F) : btree F := bt_insert name device d.

Definition dev_open (d : btree F) (path : string) : st W (result F FsError) :=
  mret (ok_or (bt_get (trim_start path) d) FsNotFound).

Definition dev_denied {T} (path : string) : st W (result T FsError) := mret (Err FsPermissionDenied).

Definition dev_ls (d : btree F) (path : string) : st W (result (list string) FsError) :=
  if String.eqb path "/" || String.eqb path "" then mret (Ok (bt_keys d)) else mret (Err FsNotADirectory).

Definition dev_stat (d : btree F) (path : string) : st W (result FileStat FsError) :=
  match bt_get (trim_start path) d with
  | None => mret (Err FsNotFound)
  | Some device => st_map_err fs_error_from (f_stat device)
  end.

(** A device file system is named by a key of the world's tables. *)
Context {G : Type} (devices : G -> W -> btree F).

Definition on_devices {T} (g : G) (k : btree F -> st W (result T FsError)) : st W (result T FsError) :=
  fun w => k (devices g w) w.

Definition devfs : FileSystem W G F := {|
  fs_open g path := on_devices g (fun d => dev_open d path);
  fs_create _ := dev_denied;
  fs_delete _ := dev_denied;
  fs_stat g path := on_devices g (fun d => dev_stat d path);
  fs_ls g path := on_devices g (fun d => dev_ls d path);
  fs_mkdir _ := dev_denied;
  fs_rmdir _ := dev_denied;
|}.
End DevFs.

(** ** Device files *)

(** What the device files use of the world: the device manager, memory, and
    the devices behind its handles. *)
Class World (W D : Type) := {
  device_manager : W -> DeviceManager D;
  memory : W -> mem;
  set_memory : mem -> W -> W;
  ds_read : D -> list Z -> st W (list Z * result Z SerialError);
  ds_write : D -> list Z -> st W (result Z SerialError);
  ds_try_read : D -> option (list Z -> st W (list Z * result Z SerialError));
  fb_width : D -> W -> Z;
  fb_height : D -> W -> Z;
  fb_pitch : D -> W -> Z;
  fb_bytes_per_pixel : D -> W -> Z;
  fb_buffer_ptr : D -> W -> Z;
}.

Inductive dev_file :=
  | UartFile (index : Z)
  | FrameBufferFile (index width height pitch bpp : Z).

Definition device_name (f : dev_file) : string :=
  match f with
  | UartFile index => if index =? 0 then "console" else "uart" +:+ pretty (Z.to_N index)
  | FrameBufferFile index _ _ _ _ => "fb" +:+ pretty (Z.to_N index)
  end.

(** The bytes from an address on. *)
Fixpoint load_bytes (m : mem) (a : Z) (n : nat) : list Z :=
  match n with O => [] | S n => load8 m a :: load_bytes m (a + 1) n end.

Fixpoint store_bytes (m : mem) (a : Z) (l : list Z) : mem :=
  match l with [] => m | b :: l => store_bytes (store8 m a b) (a + 1) l end.

Section DevFiles.
Context `{Profile} {W D : Type} `{World W D}.

Definition uart_read (f : dev_file) (buf : list Z) : st W (list Z * result Z FdError) :=
  w ← Prelude.get;
  match serial (device_manager w) (device_name f) with
  | None => mret (buf, Err IoError)
  | Some h =>
      '(buf, r) ← (match ds_try_read h with Some try_read => try_read buf | None => ds_read h buf end);
      mret (buf, map_err (fun _ => IoError) r)
  end.

Definition uart_write (f : dev_file) (buf : list Z) : st W (result Z FdError) :=
  w ← Prelude.get;
  match serial (device_manager w) (device_name f) with
  | None => mret (Err IoError)
  | Some h =>
      let? _ := st_map_err (fun _ => IoError) (ds_write h buf) in
      mret (Ok (Z.of_nat (length buf)))
  end.

Definition no_such_device : FdError := Other "No such device".

Definition framebuffer_new (index : Z) : st W (result dev_file FdError) :=
  w ← Prelude.get;
  match framebuffer (device_manager w) ("fb" +:+ pretty (Z.to_N index)) with
  | None => mret (Err no_such_device)
  | Some fb => mret (Ok (FrameBufferFile index (fb_width fb w) (fb_height fb w) (fb_pitch fb w)
                           (fb_bytes_per_pixel fb w)))
  end.

(** [self.pitch * self.height]. *)
Definition fb_size (f : dev_file) : outcome Z :=
  match f with
  | FrameBufferFile _ _ height pitch _ => mul usize_bits pitch height
  | UartFile _ => Ret 0
  end.

Definition validate_offset (f : dev_file) (offset : Z) : outcome (result unit FdError) :=
  size ← fb_size f;
  Ret (if size <? offset then Err InvalidSeek else Ok tt).

Definition fb_read (f : dev_file) (buf : list Z) (offset : Z) : st W (list Z * result Z FdError) :=
  v ← lift (validate_offset f offset);
  match v with
  | Err e => mret (buf, Err e)
  | Ok _ =>
      w ← Prelude.get;
      match framebuffer (device_manager w) (device_name f) with
      | None => mret (buf, Err no_such_device)
      | Some fb =>
          size ← lift (fb_size f);
          let available := saturating_sub size offset in
          let to_read := Z.min (Z.of_nat (length buf)) available in
          if to_read =? 0 then mret (buf, Ok 0)
          else
            let src := fb_buffer_ptr fb w + offset in
            let data := load_bytes (memory w) src (Z.to_nat to_read) in
            mret (data ++ drop (length data) buf, Ok to_read)
      end
  end.

Definition fb_write (f : dev_file) (buf : list Z) (offset : Z) : st W (result Z FdError) :=
  let? _ := lift (validate_offset f offset) in
  w ← Prelude.get;
  match framebuffer (device_manager w) (device_name f) with
  | None => mret (Err no_such_device)
  | Some fb =>
      size ← lift (fb_size f);
      let available := saturating_sub size offset in
      let to_write := Z.min (Z.of_nat (length buf)) available in
      if to_write =? 0 then mret (Ok 0)
      else
        let dst := fb_buffer_ptr fb w + offset in
        _ ← put (set_memory (store_bytes (memory w) dst (take (Z.to_nat to_write) buf)) w);
        mret (Ok to_write)
  end.

#[export] Instance dev_file_file : File W dev_file := {
  f_read f buf offset := match f with UartFile _ => uart_read f buf | _ => fb_read f buf offset end;
  f_write f buf offset := match f with UartFile _ => uart_write f buf | _ => fb_write f buf offset end;
  f_stat f :=
    match f with
    | UartFile _ => mret (Ok (mkStat 0 CharDevice (device_name f)))
    | _ => size ← lift (fb_size f); mret (Ok (mkStat size CharDevice (device_name f)))
    end;
}.
End DevFiles.

(** The table of a new process: its three descriptors share the file of
    UART 0. *)
Definition stdio_table : table dev_file := table_new (UartFile 0).

(** ** Lemmas *)

Lemma strip_prefix_spec p : forall s, match strip_prefix p s with
  | Some rest => s = p +:+ rest
  | None => forall rest, s <> p +:+ rest
  end.
Proof.
  induction p as [|a p IH]; intros s; [done|]. destruct s as [|b s]; [done|]. cbn [strip_prefix].
  destruct (Ascii.eqb_spec a b) as [->|Hne].
  - specialize (IH s). destruct (strip_prefix p s) as [rest|]; [by rewrite IH|].
    intros rest [= E]. by apply (IH rest).
  - intros rest [= E _]. done.
Qed.

(** Prefixes of one path are determined by their length. *)
Lemma prefix_unique p1 : forall p2 r1 r2, p1 +:+ r1 = p2 +:+ r2 ->
  String.length p1 = String.length p2 -> p1 = p2.
Proof.
  induction p1 as [|a p1 IH]; intros [|b p2] r1 r2 E Hl; try done. cbn in *.
  injection E as -> E. f_equal. apply (IH p2 r1 r2); [done|]. lia.
Qed.

Section DispatchLemmas.
Context {G : Type}.
Implicit Types ms : list (Mount G).

Definition matches (path : string) (m : Mount G) : Prop := exists rest, path = prefix m +:+ rest.

(** The answer to the search over the mounts seen so far. *)
Definition best_of (path : string) (seen : list (Mount G)) (best : option (Mount G * string)) : Prop :=
  match best with
  | None => forall m, m ∈ seen -> ~ matches path m
  | Some (m, rest) => m ∈ seen /\
      (path = prefix m +:+ rest \/ path = prefix m +:+ "/" +:+ rest) /\
      forall m', m' ∈ seen -> matches path m' ->
        (String.length (prefix m') < String.length (prefix m))%nat \/ prefix m' = prefix m
  end.

Lemma consider_ok path seen best m : best_of path seen best ->
  best_of path (seen ++ [m]) (consider path best m).
Proof.
  intros Hb. unfold consider. pose proof (strip_prefix_spec (prefix m) path) as Hs.
  destruct (strip_prefix (prefix m) path) as [rest|].
  2: { destruct best as [[b r]|].
       - destruct Hb as (H1 & H2 & H3). split; [apply elem_of_app; by left|]. split; [done|].
         intros m' [Hm| ->%list_elem_of_singleton]%elem_of_app Hmt; [by apply H3|]. destruct Hmt as [r' ->].
         by destruct (Hs r').
       - intros m' [Hm| ->%list_elem_of_singleton]%elem_of_app [r' Hr]; [by apply (Hb m' Hm); exists r'|].
         by apply (Hs r'). }
  assert (Hrest : path = prefix m +:+ default rest (strip_prefix "/" rest) \/
                  path = prefix m +:+ "/" +:+ default rest (strip_prefix "/" rest)).
  { pose proof (strip_prefix_spec "/" rest) as Hr. destruct (strip_prefix "/" rest) as [r|]; cbn; [right|by left].
    by rewrite Hs, Hr. }
  assert (Hin : m ∈ seen ++ [m]) by (apply elem_of_app; right; by apply list_elem_of_singleton).
  destruct best as [[b r]|].
  - destruct Hb as (H1 & H2 & H3). destruct (Nat.ltb_spec (String.length (prefix b)) (String.length (prefix m))).
    + split; [done|]. split; [done|]. intros m' [Hm| ->%list_elem_of_singleton]%elem_of_app Hmt; [|by right].
      left. destruct (H3 m' Hm Hmt) as [| ->]; lia.
    + split; [apply elem_of_app; by left|]. split; [done|].
      intros m' [Hm| ->%list_elem_of_singleton]%elem_of_app Hmt; [by apply H3|].
      destruct (decide (String.length (prefix m) = String.length (prefix b))) as [Hl|]; [right|left; lia].
      destruct H2 as [E|E]; rewrite Hs in E; [by apply (prefix_unique _ _ _ _ E)|].
      by apply (prefix_unique _ _ _ _ E).
  - split; [done|]. split; [done|]. intros m' [Hm| ->%list_elem_of_singleton]%elem_of_app Hmt; [|by right].
    by destruct (Hb m' Hm).
Qed.

Lemma best_mount_ok path ms : best_of path ms (best_mount path ms).
Proof.
  unfold best_mount. assert (H : forall l seen best, best_of path seen best ->
    best_of path (seen ++ l) (foldl (consider path) best l)).
  { induction l as [|m l IH]; intros seen best Hb; cbn [foldl]; [by rewrite app_nil_r|].
    replace (seen ++ m :: l) with ((seen ++ [m]) ++ l) by (by rewrite <- app_assoc).
    by apply IH, consider_ok. }
  apply (H ms [] None). intros m Hm. by apply not_elem_of_nil in Hm.
Qed.

Lemma position_spec p ms : match position p ms with
  | Some i => exists m, ms !! i = Some m /\ prefix m = p
  | None => forall m, m ∈ ms -> prefix m <> p
  end.
Proof.
  induction ms as [|m ms IH]; cbn [position]; [intros m Hm; by apply not_elem_of_nil in Hm|].
  destruct (String.eqb_spec (prefix m) p) as [E|E]; [by exists m|].
  destruct (position p ms) as [i|]; [exact IH|]. intros m' [ ->|Hm]%elem_of_cons; auto.
Qed.

Lemma existsb_prefix p ms : existsb (fun m => String.eqb (prefix m) p) ms = true <-> p ∈ map prefix ms.
Proof.
  rewrite existsb_exists. split.
  - intros (m & Hin & E%String.eqb_eq). subst p. by apply list_elem_of_In, in_map.
  - intros (m & E & Hin)%list_elem_of_In%in_map_iff. exists m. split; [done|]. by apply String.eqb_eq.
Qed.
End DispatchLemmas.

Lemma load_bytes_length m n : forall a, length (load_bytes m a n) = n.
Proof. induction n as [|n IH]; intros a; cbn; [done|]. by rewrite IH. Qed.

Lemma load_bytes_lookup m n : forall a i, (i < n)%nat -> load_bytes m a n !! i = Some (m (a + Z.of_nat i)).
Proof.
  induction n as [|n IH]; intros a [|i] Hi; cbn; try lia; [unfold load8; by rewrite Z.add_0_r|].
  rewrite IH by lia. do 2 f_equal. lia.
Qed.

Lemma store_bytes_spec l : forall m a x, store_bytes m a l x =
  (if decide (a <= x < a + Z.of_nat (length l)) then default 0 (l !! Z.to_nat (x - a)) else m x).
Proof.
  induction l as [|b l IH]; intros m a x; cbn [store_bytes length].
  { destruct (decide _); [lia|done]. }
  rewrite IH. unfold store8. destruct (decide (a + 1 <= x < a + 1 + Z.of_nat (length l))).
  - rewrite decide_True by lia. replace (Z.to_nat (x - a)) with (S (Z.to_nat (x - (a + 1)))) by lia. done.
  - destruct (Z.eqb_spec x a) as [->|]; [|by rewrite decide_False by lia].
    rewrite decide_True by lia. by rewrite Z.sub_diag.
Qed.

(** ** Theorems *)

(** [dispatch] sends a path to a mount whose prefix begins the path and
    than which no other such mount has a longer one, with the rest of the path
    less one slash; it fails exactly when no mount's prefix begins the path.
    Component boundaries play no part: a mount at "/dev" also receives
    "/device". *)
Theorem vfs_dispatch_longest {W G T : Type} (mounts : list (Mount G)) path
    (f : Mount G -> string -> st W (result T FsError)) :
  (exists m rest, m ∈ mounts /\ dispatch mounts path f = f m rest /\
     (path = prefix m +:+ rest \/ path = prefix m +:+ "/" +:+ rest) /\
     forall m', m' ∈ mounts -> matches path m' ->
       (String.length (prefix m') < String.length (prefix m))%nat \/ prefix m' = prefix m) \/
  ((forall m, m ∈ mounts -> ~ matches path m) /\ dispatch mounts path f = mret (Err FsNotFound)).
Proof.
  unfold dispatch. pose proof (best_mount_ok path mounts) as Hb.
  destruct (best_mount path mounts) as [[m rest]|]; [left|by right].
  destruct Hb as (H1 & H2 & H3). by exists m, rest.
Qed.

(** the mount table never holds two mounts of the same prefix: mounting
    at a prefix in use is refused without change, unmounting removes the one
    mount of that prefix, and unmounting right after mounting gives back the
    table of before. *)
Theorem vfs_mount_table {G : Type} p (f : G) mounts : NoDup (map prefix mounts) ->
  (if decide (p ∈ map prefix mounts) then mount_fs p f mounts = Ret (Err FsAlreadyExists, mounts)
   else mount_fs p f mounts = Ret (Ok tt, mounts ++ [mkMount p f]) /\
     NoDup (map prefix (mounts ++ [mkMount p f])) /\
     umount p (mounts ++ [mkMount p f]) = Ret (Ok tt, mounts) /\
     umount p mounts = Ret (Err FsNotFound, mounts)) /\
  (p ∈ map prefix mounts -> exists mounts', umount p mounts = Ret (Ok tt, mounts') /\
     NoDup (map prefix mounts') /\ p ∉ map prefix mounts').
Proof.
  intros Hnd. split.
  - unfold mount_fs. destruct (decide (p ∈ map prefix mounts)) as [Hin|Hin].
    { by rewrite (proj2 (existsb_prefix p mounts) Hin). }
    destruct (existsb _ mounts) eqn:E; [by apply existsb_prefix in E|]. split; [done|]. split.
    { rewrite map_app. apply NoDup_app. split; [done|]. split; [|apply NoDup_singleton].
      intros q Hq ->%list_elem_of_singleton. done. }
    assert (Hpos : position p mounts = None).
    { pose proof (position_spec p mounts) as Hp. destruct (position p mounts) as [i|]; [|done].
      destruct Hp as (m & Hm & <-). destruct Hin. by apply list_elem_of_fmap_2, list_elem_of_lookup_2 with i. }
    split; unfold umount; [|by rewrite Hpos].
    assert (H : position p (mounts ++ [mkMount p f]) = Some (length mounts)).
    { clear -Hpos. induction mounts as [|m mounts IH]; cbn in *; [by rewrite String.eqb_refl|].
      destruct (String.eqb (prefix m) p); [done|]. rewrite IH; [done|]. by destruct (position p mounts). }
    rewrite H. unfold remove. rewrite take_app_length, drop_ge by (rewrite length_app; cbn; lia).
    by rewrite app_nil_r.
  - intros Hin. unfold umount. pose proof (position_spec p mounts) as Hp.
    destruct (position p mounts) as [i|].
    2: { apply list_elem_of_fmap in Hin as (m & -> & Hm). by destruct (Hp m Hm). }
    destruct Hp as (m & Hm & <-). eexists. split; [done|]. unfold remove. rewrite map_app.
    assert (E : map prefix mounts = map prefix (take i mounts) ++ prefix m :: map prefix (drop (S i) mounts)).
    { rewrite <- (take_drop_middle mounts i m Hm) at 1. by rewrite map_app. }
    rewrite E in Hnd. apply NoDup_app in Hnd as (N1 & N2 & N3). apply NoDup_cons in N3 as [N3 N4].
    split; [apply NoDup_app; split_and!; try done; set_solver|]. rewrite elem_of_app. intros [|]; [|done].
    by apply (N2 (prefix m)); [|apply list_elem_of_here].
Qed.

Section DevClaims.
Context `{Profile} {W D : Type} `{World W D}.

(** standard input and output are files of UART 0, which look for a
    device called "console"; while none is registered, whatever else is,
    every read and write through them fails with [IoError] and reaches no
    device. *)
Theorem stdio_needs_console (w : W) buf : serial (device_manager w) "console" = None ->
  forall fd d, fd_get fd stdio_table = Ok d ->
  (fd < 3)%nat /\
  (fd = 0%nat -> Fd.read buf (d, w) = Ret ((buf, Err IoError), (d, w))) /\
  (fd <> 0%nat -> Fd.write buf (d, w) = Ret (Err IoError, (d, w))).
Proof using All.
  intros Hc fd d Hd.
  assert (Hr : forall o, f_read (UartFile 0) buf o w = Ret ((buf, Err IoError), w)).
  { intros o. cbn. unfold uart_read. erewrite stbind_step by done. cbn [device_name Z.eqb]. by rewrite Hc. }
  assert (Hw : forall o, f_write (UartFile 0) buf o w = Ret (Err IoError, w)).
  { intros o. cbn. unfold uart_write. erewrite stbind_step by done. cbn [device_name Z.eqb]. by rewrite Hc. }
  destruct fd as [|[|[|fd]]]; cbn in Hd; [injection Hd as <-..|done].
  - split_and!; [lia| |done]. intros _. unfold Fd.read. erewrite stbind_step by done. cbn [fst].
    change (negb _) with false. cbv iota. erewrite stbind_step by (unfold on_file; cbn [file new]; by rewrite Hr). done.
  - split_and!; [lia|done|]. intros _. unfold Fd.write. erewrite stbind_step by done. cbn [fst].
    change (negb _) with false. cbv iota. erewrite try_step by done. erewrite stbind_step by done.
    by erewrite try_err by (unfold on_file; cbn [file new fst]; by rewrite Hw).
  - split_and!; [lia|done|]. intros _. unfold Fd.write. erewrite stbind_step by done. cbn [fst].
    change (negb _) with false. cbv iota. erewrite try_step by done. erewrite stbind_step by done.
    by erewrite try_err by (unfold on_file; cbn [file new fst]; by rewrite Hw).
Qed.

(** a framebuffer file reads and writes only inside the framebuffer: past
    its end it reports [InvalidSeek], and up to there it transfers as many
    bytes as fit, at the offset, and changes nothing else in memory. *)
Theorem fb_file_bounds (w : W) index width height pitch bpp h buf offset
    (f := FrameBufferFile index width height pitch bpp) (size := pitch * height)
    (base := fb_buffer_ptr h w) (n := Z.min (Z.of_nat (length buf)) (size - offset)) :
  (forall m v, memory (set_memory m v) = m) -> fits usize_bits size -> 0 <= offset ->
  framebuffer (device_manager w) (device_name f) = Some h ->
  (size < offset -> fb_read f buf offset w = Ret ((buf, Err InvalidSeek), w) /\
     fb_write f buf offset w = Ret (Err InvalidSeek, w)) /\
  (offset <= size -> exists buf' w', fb_read f buf offset w = Ret ((buf', Ok n), w) /\
     length buf' = length buf /\
     (forall i, Z.of_nat i < n -> buf' !! i = Some (memory w (base + offset + Z.of_nat i))) /\
     fb_write f buf offset w = Ret (Ok n, w') /\ 0 <= n /\ offset + n <= size /\
     (forall i, Z.of_nat i < n -> Some (memory w' (base + offset + Z.of_nat i)) = buf !! i) /\
     same_outside (in_block (base + offset) n) (memory w) (memory w')).
Proof using All.
  intros Hmem Hsz Ho Hfb.
  assert (Hs : fb_size f = Ret size) by (cbn; by apply mul_ok).
  assert (Hv : validate_offset f offset = Ret (if size <? offset then Err InvalidSeek else Ok tt)).
  { unfold validate_offset. by rewrite Hs. }
  unfold fb_read, fb_write. split.
  - intros Hlt. rewrite (proj2 (Z.ltb_lt _ _) Hlt) in Hv. split; [by erewrite stbind_step by (by rewrite Hv)|].
    by erewrite try_err by (by rewrite Hv).
  - intros Hle. rewrite (proj2 (Z.ltb_ge _ _) Hle) in Hv.
    erewrite stbind_step by (by rewrite Hv). erewrite try_step by (by rewrite Hv).
    erewrite !stbind_step by done. rewrite Hfb. erewrite !stbind_step by (by rewrite Hs).
    replace (saturating_sub size offset) with (size - offset) by (unfold saturating_sub; lia). fold n.
    destruct (Z.eqb_spec n 0) as [E0|N0].
    { rewrite E0. exists buf, w. split_and!; (done || lia). }
    do 2 eexists. split; [done|]. split_and!; [| |by erewrite stbind_step by done|lia|lia| |].
    + rewrite length_app, length_drop, load_bytes_length. lia.
    + intros i Hi. rewrite lookup_app_l by (rewrite load_bytes_length; lia). apply load_bytes_lookup. lia.
    + intros i Hi. rewrite Hmem, store_bytes_spec, length_take, decide_True by lia. fold base.
      replace (Z.to_nat (base + offset + Z.of_nat i - (base + offset))) with i by lia.
      rewrite lookup_take_lt by lia. by destruct (lookup_lt_is_Some_2 buf i ltac:(lia)) as [b ->].
    + rewrite Hmem. intros x Hx. rewrite store_bytes_spec, length_take, decide_False; [done|].
      unfold in_block in Hx. fold base. lia.
Qed.
End DevClaims.

(** ** Witnesses *)

#[local] Instance debug_profile : Profile := Build_Profile true.

Record DemoWorld := mkDemo { demo_dm : DeviceManager Z; demo_memory : mem }.

(** One serial port, called "serial0", and a framebuffer of 4 by 2 bytes at
    address 4096. *)
#[local] Instance demo_world : World DemoWorld Z := {
  device_manager := demo_dm;
  memory := demo_memory;
  set_memory m w := mkDemo (demo_dm w) m;
  ds_read _ buf := mret (buf, Ok (Z.of_nat (length buf)));
  ds_write _ buf := mret (Ok (Z.of_nat (length buf)));
  ds_try_read _ := None;
  fb_width _ _ := 4; fb_height _ _ := 2; fb_pitch _ _ := 4; fb_bytes_per_pixel _ _ := 1;
  fb_buffer_ptr _ _ := 4096;
}.

Definition demo : DemoWorld := mkDemo
  (register "serial0" (mkDevice Serial 1) (register "fb0" (mkDevice FrameBuffer 2) Devices.new)) (fun x => x mod 256).

Lemma vfs_mount_table_witness :
  mount_fs "/dev" 2 [mkMount "/" 1] = Ret (Ok tt, [mkMount "/" 1; mkMount "/dev" 2]) /\
  umount "/dev" [mkMount "/" 1; mkMount "/dev" 2] = Ret (Ok tt, [mkMount "/" 1]).
Proof.
  destruct (vfs_mount_table "/dev" 2 [mkMount "/" 1]) as [H _]; [apply NoDup_singleton|].
  cbn in H. destruct H as (H1 & _ & H2 & _). split; [exact H1|exact H2].
Defined.

Lemma stdio_needs_console_witness :
  Fd.write [72; 105] (new (UartFile 0) 0 WRONLY, demo) = Ret (Err IoError, (new (UartFile 0) 0 WRONLY, demo)).
Proof.
  apply (stdio_needs_console (D := Z) demo [72; 105]) with (fd := 1%nat); [by vm_compute|done|done].
Defined.

Lemma fb_file_bounds_witness :
  fb_write (FrameBufferFile 0 4 2 4 1) [1; 2; 3] 9 demo = Ret (Err InvalidSeek, demo) /\
  exists w', fb_write (FrameBufferFile 0 4 2 4 1) [1; 2; 3] 6 demo = Ret (Ok 2, w').
Proof.
  split.
  - apply (fb_file_bounds (D := Z) demo 0 4 2 4 1 2 [1; 2; 3] 9); vm_compute; done.
  - destruct (fb_file_bounds (D := Z) demo 0 4 2 4 1 2 [1; 2; 3] 6) as [_ H]; try (by vm_compute).
    destruct H as (buf' & w' & _ & _ & _ & H & _); [by vm_compute|]. exists w'. exact H.
Defined.
