(* ===== verification/Stdio.v ===== *)
(** * Standard output, from a process to the wire

    A process's descriptors (kernel/src/fs/fd.rs) hold the file of UART 0
    (kernel/src/fs/dev/uart_file.rs), which finds a port by name in the device
    manager (drivers/src/device_manager.rs) and writes to it through the
    driver (drivers/src/hal/serial.rs).  This file joins [Fd], [Vfs], [Devices]
    and [Serial]; the ports sit in a list and the manager's handles are
    positions in it. *)
From S2P Require Import Prelude Memory BTree Devices Serial Fd Vfs.

(** ** Definitions *)

Section Machine.
Context {D E : Type} `{SerialPort D E} (fuel : nat).

Record machine := mkMachine { devices : DeviceManager nat; ports : list D; ram : mem }.

(** An operation of the port behind a handle; the manager's handles are
    never dangling. *)
Definition on_port {A} (h : nat) (m : st D A) : st machine A := fun s =>
  match ports s !! h with
  | None => Panic
  | Some p =>
      match m p with
      | Ret (a, p) => Ret (a, mkMachine (devices s) (<[h := p]> (ports s)) (ram s))
      | Panic => Panic
      | OutOfFuel => OutOfFuel
      end
  end.

(** The ports as the world of the device files; no framebuffer is attached. *)
Definition port_world : World machine nat := {|
  Vfs.device_manager := devices;
  Vfs.memory := ram;
  Vfs.set_memory m s := mkMachine (devices s) (ports s) m;
  Vfs.ds_read h buf := on_port h (dyn_read fuel buf);
  Vfs.ds_write h buf := on_port h (dyn_write fuel buf);
  Vfs.ds_try_read _ := None;
  Vfs.fb_width _ _ := 0; Vfs.fb_height _ _ := 0; Vfs.fb_pitch _ _ := 0; Vfs.fb_bytes_per_pixel _ _ := 0;
  Vfs.fb_buffer_ptr _ _ := 0;
|}.

(** A process writes a buffer to one of its descriptors. *)
Definition fd_write `{Profile} (fd : nat) (buf : list Z) : st (table dev_file * machine) (result Z FdError) := fun '(t, s) =>
  match fd_get fd t with
  | Err e => Ret (Err e, (t, s))
  | Ok d =>
      match Fd.write (H0 := dev_file_file (H0 := port_world)) buf (d, s) with
      | Ret (r, (d, s)) => Ret (r, (fd_update fd d t, s))
      | Panic => Panic
      | OutOfFuel => OutOfFuel
      end
  end.

Fixpoint fd_writes `{Profile} (writes : list (nat * list Z)) : st (table dev_file * machine) (list (result Z FdError)) :=
  match writes with
  | [] => mret []
  | (fd, buf) :: writes => r ← fd_write fd buf; rs ← fd_writes writes; mret (r :: rs)
  end.
End Machine.
Arguments machine : clear implicits.

(** ** Lemmas *)

Section Lemmas.
Context {D E : Type} (P : SerialPort D E) `{!SerialLaws D E P} `{Profile}.
Implicit Types s : machine D.

(** The table of a process that has written [o1] and [o2] bytes. *)
Definition stdio_at (o1 o2 : Z) : table dev_file :=
  [Some (new (UartFile 0) 0 RDONLY); Some (mkFd (UartFile 0) 0 WRONLY o1); Some (mkFd (UartFile 0) 0 WRONLY o2)].

(** Console 0 as a file: the bytes go out on the port called console. *)
Lemma console_file s h p buf off : serial (devices s) "console" = Some h -> ports s !! h = Some p -> Forall (fits 8) buf ->
  exists p', f_write (File := dev_file_file (H0 := port_world enough)) (UartFile 0) buf off s =
      Ret (Ok (Z.of_nat (length buf)), mkMachine (devices s) (<[h := p']> (ports s)) (ram s)) /\
    sent p' = sent p ++ buf.
Proof using All.
  intros Hd Hp Hb. destruct (write_each_sends P buf p Hb) as (p' & E1 & S1). exists p'. split; [|exact S1].
  cbn [f_write dev_file_file]. unfold uart_write. erewrite stbind_step by reflexivity.
  cbn [Vfs.device_manager port_world device_name Z.eqb]. rewrite Hd. erewrite try_step; [reflexivity|].
  cbn [ds_write port_world]. unfold st_map_err, on_port. rewrite Hp. unfold dyn_write, st_map_err, Serial.write.
  by rewrite (try_step _ _ _ _ _ E1).
Qed.

(** Writing to one of the two output descriptors. *)
Lemma output_write s h p fd buf o1 o2 : serial (devices s) "console" = Some h -> ports s !! h = Some p ->
  Forall (fits 8) buf -> 0 <= o1 -> 0 <= o2 -> o1 + o2 + Z.of_nat (length buf) < 2 ^ 32 -> fd = 1%nat \/ fd = 2%nat ->
  exists p' o1' o2', fd_write enough fd buf (stdio_at o1 o2, s) =
      Ret (Ok (Z.of_nat (length buf)), (stdio_at o1' o2', mkMachine (devices s) (<[h := p']> (ports s)) (ram s))) /\
    sent p' = sent p ++ buf /\ 0 <= o1' /\ 0 <= o2' /\ o1' + o2' = o1 + o2 + Z.of_nat (length buf).
Proof using All.
  intros Hd Hp Hb H1 H2 H32 Hfd.
  assert (Hw : forall o, 0 <= o -> o + Z.of_nat (length buf) < 2 ^ 32 -> exists p',
    Fd.write (H0 := dev_file_file (H0 := port_world enough)) buf (mkFd (UartFile 0) 0 WRONLY o, s) =
      Ret (Ok (Z.of_nat (length buf)), (mkFd (UartFile 0) 0 WRONLY (o + Z.of_nat (length buf)),
        mkMachine (devices s) (<[h := p']> (ports s)) (ram s))) /\ sent p' = sent p ++ buf).
  { intros o Ho Ho'. destruct (console_file s h p buf o Hd Hp Hb) as (p' & E1 & S1). exists p'. split; [|exact S1].
    unfold Fd.write. erewrite stbind_step by reflexivity. cbn [fst access].
    change (negb (contains WRONLY WRITE)) with false. change (contains WRONLY APPEND) with false. cbv iota.
    erewrite try_step by reflexivity. erewrite stbind_step by reflexivity. cbn [fst offset].
    erewrite try_step by (unfold on_file; cbn [file]; rewrite E1; reflexivity).
    erewrite stbind_step by (by rewrite add_ok by (unfold fits, usize_bits; lia)). by erewrite stbind_step by reflexivity. }
  destruct Hfd as [-> | ->].
  - destruct (Hw o1 ltac:(lia) ltac:(lia)) as (p' & E1 & S1). exists p', (o1 + Z.of_nat (length buf)), o2.
    split; [|split; [exact S1|lia]]. unfold fd_write, fd_get. cbn [stdio_at lookup list_lookup mjoin option_join ok_or]. by rewrite E1.
  - destruct (Hw o2 ltac:(lia) ltac:(lia)) as (p' & E1 & S1). exists p', o1, (o2 + Z.of_nat (length buf)).
    split; [|split; [exact S1|lia]]. unfold fd_write, fd_get. cbn [stdio_at lookup list_lookup mjoin option_join ok_or]. by rewrite E1.
Qed.
End Lemmas.

(** ** Theorems *)

Section Claims.
Context {D E : Type} (P : SerialPort D E) `{!SerialLaws D E P} `{Profile}.
Implicit Types s : machine D.

(** C27: With a port called console in the manager, whatever a new process writes
    to its standard output and standard error, in any order and any pieces,
    goes out on the wire of that port, in that order and unchanged; every
    write reports the length of its buffer, and no other port is touched. *)
Theorem stdout_reaches_wire s h p writes : serial (devices s) "console" = Some h -> ports s !! h = Some p ->
  Forall (fun x => (x.1 = 1%nat \/ x.1 = 2%nat) /\ Forall (fits 8) x.2) writes ->
  Z.of_nat (length (concat (map snd writes))) < 2 ^ 32 ->
  exists t p', fd_writes enough writes (stdio_table, s) =
      Ret (map (fun x => Ok (Z.of_nat (length x.2))) writes,
        (t, mkMachine (devices s) (<[h := p']> (ports s)) (ram s))) /\
    sent p' = sent p ++ concat (map snd writes).
Proof using All.
  intros Hd Hp Hw Hlen. change stdio_table with (stdio_at 0 0).
  assert (Hgo : forall o1 o2, 0 <= o1 -> 0 <= o2 -> o1 + o2 + Z.of_nat (length (concat (map snd writes))) < 2 ^ 32 ->
    exists t p', fd_writes enough writes (stdio_at o1 o2, s) =
      Ret (map (fun x => Ok (Z.of_nat (length x.2))) writes,
        (t, mkMachine (devices s) (<[h := p']> (ports s)) (ram s))) /\
    sent p' = sent p ++ concat (map snd writes)); [|apply Hgo; lia].
  clear Hlen. revert s p Hd Hp. induction Hw as [|[fd buf] writes [Hfd Hb] _ IH]; intros s p Hd Hp o1 o2 H1 H2 Hlen.
  { exists (stdio_at o1 o2), p. rewrite app_nil_r, list_insert_id by done. by destruct s. }
  cbn [fst snd map concat] in *. rewrite length_app in Hlen.
  destruct (output_write P s h p fd buf o1 o2 Hd Hp Hb H1 H2 ltac:(lia) Hfd) as (p1 & o1' & o2' & E1 & S1 & Ho1 & Ho2 & Ho).
  destruct (IH (mkMachine (devices s) (<[h := p1]> (ports s)) (ram s)) p1 Hd
    ltac:(cbn; apply list_lookup_insert_eq; by eapply lookup_lt_Some) o1' o2' Ho1 Ho2 ltac:(lia)) as (t & p2 & E2 & S2).
  exists t, p2. split.
  - cbn [fd_writes]. erewrite stbind_step by exact E1. erewrite stbind_step by exact E2. cbn [devices ports ram].
    by rewrite list_insert_insert_eq.
  - by rewrite S2, S1, <- app_assoc.
Qed.
End Claims.

(** ** Witnesses *)

#[local] Instance debug_profile : Profile := Build_Profile true.

(** A PL011 called console. *)
Definition demo_machine : machine UartSim :=
  mkMachine (register "console" (mkDevice Serial 0%nat) Devices.new) [mkUart [] 0] (fun _ => 0).

Lemma stdout_reaches_wire_witness : exists t p',
  fd_writes (H := Pl011.port 0x20201000) 3 [(1%nat, [72; 105]); (2%nat, [33]); (1%nat, [10])] (stdio_table, demo_machine) =
    Ret ([Ok 2; Ok 1; Ok 1], (t, mkMachine (devices demo_machine) [p'] (fun _ => 0))) /\ out_ p' = [72; 105; 33; 10].
Proof.
  pose (L := pl011_laws (D := UartSim) 0x20201000 ltac:(by vm_compute) ltac:(lia)).
  destruct (@stdout_reaches_wire _ _ (Pl011.port 0x20201000) L debug_profile demo_machine 0%nat (mkUart [] 0)
    [(1%nat, [72; 105]); (2%nat, [33]); (1%nat, [10])]) as (t & p' & E1 & S1); [by vm_compute|done| |done|].
  - repeat constructor; cbn; auto; lia.
  - exists t, p'. split; [exact E1|exact S1].
Defined.
