(* ===== verification/Fat32.v ===== *)
(** * The FAT32 file system (kernel/src/fs/fat/fat32.rs)

    Mounting, the file allocation table, cluster chains, directories and file
    I/O over a block device.  The device is the state threaded through every
    operation.  The locks of the file system serialise its operations and are
    taken within one call; heap allocations succeed. *)
From Stdlib Require Import Ascii.
From S2P Require Import Prelude Memory Fd BlockDev Utf8.

(** ** Data *)

Inductive Fat32Error :=
  FNotFound | FIoError | FReadError | FWriteError | FInvalidPath | FInvalidCluster | FIsADirectory
  | FNotADirectory | FDiskFull.

(** [impl From<Fat32Error> for FsError]. *)
Definition fs_error_of (err : Fat32Error) : FsError :=
  match err with
  | FNotFound => FsNotFound
  | FIoError | FReadError | FWriteError => FsIoError
  | FInvalidPath | FInvalidCluster => FsNotFound
  | FIsADirectory => FsIsADirectory
  | FNotADirectory => FsNotADirectory
  | FDiskFull => FsIoError
  end.

Record FatInfo := mkFat {
  bytes_per_sector : Z;
  sectors_per_cluster : Z;
  reserved_sector_count : Z;
  num_fats : Z;
  num_dir_entries : Z;
  sectors_per_fat : Z;
  root_cluster : Z;
  fat_start_lba : Z;
  cluster_heap_start_lba : Z;
  partition_start_lba : Z;
  total_clusters : Z;
}.

Record DirEntry := mkEntry { name : string; first_cluster : Z; size : Z; is_dir : bool }.

Record Fat32File := mkFile { start_cluster : Z; file_size : Z; file_name : string }.

(** [Fat32File::new]. *)
Definition file_new (start size : Z) (n : string) : result Fat32File Fat32Error :=
  if (start <? 2) && (0 <? size) then Err FInvalidCluster else Ok (mkFile start size n).

(** ** Directory entries *)

(** The characters with the property White_Space, reversed, and
    [trim_end] on a reversed string. *)
Definition rev_whitespace : list (list Z) :=
  [[0x20]; [9]; [10]; [11]; [12]; [13]; [0x85; 0xc2]; [0xa0; 0xc2]; [0x80; 0x9a; 0xe1]] ++
  map (fun i => [0x80 + Z.of_nat i; 0x80; 0xe2]) (seq 0 11) ++
  [[0xa8; 0x80; 0xe2]; [0xa9; 0x80; 0xe2]; [0xaf; 0x80; 0xe2]; [0x9f; 0x81; 0xe2]; [0x80; 0x80; 0xe3]].

Fixpoint starts_with (p l : list Z) : bool :=
  match p, l with
  | [], _ => true
  | a :: p, b :: l => (a =? b) && starts_with p l
  | _ :: _, [] => false
  end.

Fixpoint trim_rev (fuel : nat) (l : list Z) : list Z :=
  match fuel with
  | O => l
  | S fuel =>
      match List.find (fun w => starts_with w l) rev_whitespace with
      | Some w => trim_rev fuel (drop (length w) l)
      | None => l
      end
  end.

Definition trim_end (l : list Z) : list Z := rev (trim_rev (length l) (rev l)).

Definition from_utf8_or_empty (l : list Z) : list Z := if is_utf8 l then l else [].

Definition parse_83 (raw : list Z) : string :=
  let base := trim_end (from_utf8_or_empty (take 8 raw)) in
  let ext := trim_end (from_utf8_or_empty (take 3 (drop 8 raw))) in
  match ext with
  | [] => string_of_bytes base
  | _ => string_of_bytes base +:+ "." +:+ string_of_bytes ext
  end.

(** [raw] is a slice of 32 bytes. *)
Definition rb (raw : list Z) (i : nat) : Z := raw !!! i.

Definition parse_dir_entry (raw : list Z) : option DirEntry :=
  if rb raw 0 =? 0xe5 then None
  else
    let attr := rb raw 11 in
    if (attr =? 0x0f) || negb (Z.land attr 0x08 =? 0) then None
    else
      let name := parse_83 raw in
      let hi := u16_of_le (rb raw 20) (rb raw 21) in
      let lo := u16_of_le (rb raw 26) (rb raw 27) in
      let size := u32_of_le (rb raw 28) (rb raw 29) (rb raw 30) (rb raw 31) in
      if String.eqb name "." || String.eqb name ".." then None
      else
        let first_cluster := Z.lor (wrap 32 (Z.shiftl hi 16)) lo in
        if (first_cluster <? 2) && negb (size =? 0) then None
        else Some (mkEntry name first_cluster size (negb (Z.land attr 0x10 =? 0))).

(** [str::eq_ignore_ascii_case]. *)
Definition lower (a : ascii) : ascii :=
  let n := N_of_ascii a in
  if ((65 <=? n)%N && (n <=? 90)%N) then ascii_of_N (n + 32) else a.

Fixpoint eq_ignore_ascii_case (s t : string) : bool :=
  match s, t with
  | EmptyString, EmptyString => true
  | String a s, String b t => Ascii.eqb (lower a) (lower b) && eq_ignore_ascii_case s t
  | _, _ => false
  end.

(** [path.split('/').filter(|s| !s.is_empty()).collect()]; [cur] is the
    piece being read. *)
Fixpoint split_from (cur : string) (path : string) : list string :=
  match path with
  | EmptyString => [cur]
  | String a path =>
      if Ascii.eqb a "/" then cur :: split_from EmptyString path
      else split_from (cur +:+ String a EmptyString) path
  end.

Definition parts_of (path : string) : list string :=
  List.filter (fun s => negb (String.eqb s EmptyString)) (split_from EmptyString path).

(** [parts.join("/")]. *)
Fixpoint join (l : list string) : string :=
  match l with
  | [] => EmptyString
  | [s] => s
  | s :: l => s +:+ "/" +:+ join l
  end.

(** ** The boot sector *)

Section Fat.
Context `{Profile}.

Definition parse (bs : list Z) : outcome (result FatInfo Fat32Error) :=
  bytes_per_sector ← le16 bs 11;
  sectors_per_cluster ← index bs 13;
  reserved ← le16 bs 14;
  num_fats ← index bs 16;
  sectors_per_fat ← le32 bs 36;
  small ← le16 bs 19;
  total_sectors ← (if negb (small =? 0) then Ret small else le32 bs 32);
  d ← sub 64 total_sectors reserved;
  fats ← mul 64 num_fats sectors_per_fat;
  data_sectors ← sub 64 d fats;
  n ← udiv data_sectors sectors_per_cluster;
  num_dir_entries ← le16 bs 17;
  root ← le32 bs 44;
  Ret (Ok (mkFat bytes_per_sector sectors_per_cluster reserved num_fats num_dir_entries
             sectors_per_fat root 0 0 0 (wrap 32 n))).

Context {W : Type} `{BlockDevice W}.

(** Reading into a buffer of zeros; the device's error is replaced. *)
Definition read_sector {E} (e : E) (lba len : Z) : st W (result (list Z) E) :=
  '(buf, r) ← read_block lba (zeros len);
  mret (match r with Ok _ => Ok buf | Err _ => Err e end).

Definition write_sector {E} (e : E) (lba : Z) (buf : list Z) : st W (result unit E) :=
  st_map_err (fun _ => e) (write_block lba buf).

Definition mount : st W (result FatInfo Fat32Error) :=
  let? mbr := read_sector FReadError 0 512 in
  p ← lift (le32 mbr 454);
  let? boot := read_sector FReadError p 512 in
  let? fat := lift (parse boot) in
  start ← lift (add 64 p (reserved_sector_count fat));
  total_fat_sectors ← lift (mul 64 (num_fats fat) (sectors_per_fat fat));
  heap ← lift (add 64 start total_fat_sectors);
  mret (Ok (mkFat (bytes_per_sector fat) (sectors_per_cluster fat) (reserved_sector_count fat)
    (num_fats fat) (num_dir_entries fat) (sectors_per_fat fat) (root_cluster fat)
    start heap p (total_clusters fat))).

(** ** The file allocation table *)

Context (fat : FatInfo).
Let bps : Z := bytes_per_sector fat.
Let spc : Z := sectors_per_cluster fat.

(** The sector and the offset in it of a cluster's entry. *)
Definition entry_position (cluster : Z) : outcome (Z * Z) :=
  offset ← mul 64 cluster 4;
  q ← udiv offset bps;
  sector ← add 64 (fat_start_lba fat) q;
  idx ← urem offset bps;
  Ret (sector, idx).

Definition read_fat_entry (cluster : Z) : st W (result Z Fat32Error) :=
  '(sector, idx) ← lift (entry_position cluster);
  let? buf := read_sector FReadError sector bps in
  let? entry :=
    (if idx + 4 <=? Z.of_nat (length buf) then e ← lift (le32 buf idx); mret (Ok e)
     else
       s1 ← lift (add 64 sector 1);
       let? next := read_sector FReadError s1 bps in
       let first := Z.of_nat (length buf) - idx in
       a ← lift (slice buf idx (Z.of_nat (length buf)));
       b ← lift (slice next 0 (4 - first));
       e ← lift (le32 (a ++ b) 0); mret (Ok e)) in
  mret (Ok (Z.land entry 0x0fffffff)).

(** [for fat_idx in i..num_fats]: the same buffer into every copy. *)
Fixpoint write_copies (n : nat) (i sector : Z) (buf : list Z) : st W (result unit Fat32Error) :=
  match n with
  | O => mret (Ok tt)
  | S n =>
      d ← lift (mul 64 i (sectors_per_fat fat));
      fat_sector ← lift (add 64 sector d);
      let? _ := write_sector FWriteError fat_sector buf in
      write_copies n (i + 1) sector buf
  end.

Definition write_fat_entry (cluster value : Z) : st W (result unit Fat32Error) :=
  let value := Z.land value 0x0fffffff in
  '(sector, idx) ← lift (entry_position cluster);
  let? buf := read_sector FReadError sector bps in
  let bytes := le_bytes32 value in
  let? buf :=
    (if idx + 4 <=? Z.of_nat (length buf) then
       buf ← lift (splice buf idx bytes);
       let? _ := write_sector FWriteError sector buf in mret (Ok buf)
     else
       s1 ← lift (add 64 sector 1);
       let? next := read_sector FReadError s1 bps in
       let first := Z.of_nat (length buf) - idx in
       buf ← lift (splice buf idx (take (Z.to_nat first) bytes));
       next ← lift (splice next 0 (drop (Z.to_nat first) bytes));
       let? _ := write_sector FWriteError sector buf in
       let? _ := write_sector FWriteError s1 next in mret (Ok buf)) in
  write_copies (Z.to_nat (num_fats fat - 1)) 1 sector buf.

Definition FAT32_EOC : Z := 0x0ffffff8.

Fixpoint get_chain_from (fuel : nat) (cur : Z) (chain : list Z) : st W (result (list Z) Fat32Error) :=
  match fuel with
  | O => out_of_fuel
  | S fuel =>
      if cur <? 2 then mret (Err FInvalidCluster)
      else
        let chain := chain ++ [cur] in
        let? next := read_fat_entry cur in
        if FAT32_EOC <=? next then mret (Ok chain)
        else if next =? 0 then mret (Err FInvalidCluster)
        else get_chain_from fuel next chain
  end.

Definition get_chain (fuel : nat) (start : Z) : st W (result (list Z) Fat32Error) :=
  get_chain_from fuel start [].

(** [for cluster in c..total_clusters] with [n] clusters to go. *)
Fixpoint alloc_from (n : nat) (cluster : Z) : st W (result Z Fat32Error) :=
  match n with
  | O => mret (Err FDiskFull)
  | S n =>
      let? entry := read_fat_entry cluster in
      if entry =? 0 then
        let? _ := write_fat_entry cluster 0x0fffffff in mret (Ok cluster)
      else alloc_from n (cluster + 1)
  end.

Definition alloc_cluster : st W (result Z Fat32Error) :=
  alloc_from (Z.to_nat (total_clusters fat - 2)) 2.

Definition link_cluster (last_cluster new_cluster : Z) : st W (result unit Fat32Error) :=
  let? _ := write_fat_entry last_cluster new_cluster in
  write_fat_entry new_cluster 0x0fffffff.

Fixpoint extend_loop (n : nat) (last_cluster : Z) : st W (result unit Fat32Error) :=
  match n with
  | O => mret (Ok tt)
  | S n =>
      let? new_cluster := alloc_cluster in
      let? _ := link_cluster last_cluster new_cluster in
      extend_loop n new_cluster
  end.

Definition extend_file (fuel : nat) (start new_size : Z) : st W (result unit Fat32Error) :=
  bpc ← lift (mul usize_bits bps spc);
  a ← lift (add usize_bits new_size bpc);
  a ← lift (sub usize_bits a 1);
  clusters_needed ← lift (udiv a bpc);
  let? chain := get_chain fuel start in
  let current := Z.of_nat (length chain) in
  if clusters_needed <=? current then mret (Ok tt)
  else
    match last chain with
    | None => panic
    | Some last_cluster => extend_loop (Z.to_nat (clusters_needed - current)) last_cluster
    end.

Definition cluster_to_lba (cluster : Z) : outcome Z :=
  c ← sub 32 cluster 2;
  s ← mul 64 c spc;
  add 64 (cluster_heap_start_lba fat) s.
End Fat.

(** ** Directories *)

Section Directories.
Context `{Profile} {W : Type} `{BlockDevice W} (fat : FatInfo).

(** The three nested loops over a directory: the 32-byte slots of a sector,
    the sectors of a cluster and the clusters of the chain.  [visit] either
    goes on with a new accumulator or ends the walk. *)
Section Walk.
Context {A R : Type} (visit : A -> list Z -> A + R).

Fixpoint walk_slots (n : nat) (i : Z) (sector : list Z) (acc : A) : outcome (A + R) :=
  match n with
  | O => Ret (inl acc)
  | S n =>
      raw ← slice sector (i * 32) (i * 32 + 32);
      match visit acc raw with
      | inl acc => walk_slots n (i + 1) sector acc
      | inr r => Ret (inr r)
      end
  end.

Fixpoint walk_sectors (n : nat) (s base : Z) (acc : A) : st W (result (A + R) Fat32Error) :=
  match n with
  | O => mret (Ok (inl acc))
  | S n =>
      lba ← lift (add 64 base s);
      let? sector := read_sector FReadError lba (bytes_per_sector fat) in
      v ← lift (walk_slots (Z.to_nat (Z.of_nat (length sector) / 32)) 0 sector acc);
      match v with
      | inl acc => walk_sectors n (s + 1) base acc
      | inr r => mret (Ok (inr r))
      end
  end.

Fixpoint walk_chain (chain : list Z) (acc : A) : st W (result (A + R) Fat32Error) :=
  match chain with
  | [] => mret (Ok (inl acc))
  | cluster :: chain =>
      base ← lift (cluster_to_lba fat cluster);
      let? v := walk_sectors (Z.to_nat (sectors_per_cluster fat)) 0 base acc in
      match v with
      | inl acc => walk_chain chain acc
      | inr r => mret (Ok (inr r))
      end
  end.
End Walk.

Definition list_visit (entries : list DirEntry) (raw : list Z) : list DirEntry + list DirEntry :=
  if rb raw 0 =? 0 then inr entries
  else match parse_dir_entry raw with
       | Some e => inl (entries ++ [e])
       | None => inl entries
       end.

Definition list_entries (fuel : nat) (start : Z) : st W (result (list DirEntry) Fat32Error) :=
  let? chain := get_chain fat fuel start in
  let? v := walk_chain list_visit chain [] in
  mret (Ok (match v with inl entries => entries | inr entries => entries end)).

Definition find_visit (n : string) (_ : unit) (raw : list Z) : unit + result DirEntry Fat32Error :=
  if rb raw 0 =? 0 then inr (Err FNotFound)
  else match parse_dir_entry raw with
       | Some e => if eq_ignore_ascii_case (name e) n then inr (Ok e) else inl tt
       | None => inl tt
       end.

Definition find_entry (fuel : nat) (start : Z) (n : string) : st W (result DirEntry Fat32Error) :=
  let? chain := get_chain fat fuel start in
  let? v := walk_chain (find_visit n) chain tt in
  mret (match v with inl _ => Err FNotFound | inr r => r end).

Fixpoint navigate (fuel : nat) (parts : list string) (current : Z) : st W (result Z Fat32Error) :=
  match parts with
  | [] => mret (Ok current)
  | part :: parts =>
      let? entry := find_entry fuel current part in
      if negb (is_dir entry) then mret (Err FNotADirectory)
      else navigate fuel parts (first_cluster entry)
  end.

Definition navigate_to_dir (fuel : nat) (path : string) : st W (result Z Fat32Error) :=
  match parts_of path with
  | [] => mret (Ok (root_cluster fat))
  | parts => navigate fuel parts (root_cluster fat)
  end.

(** The parent directory of the last part. *)
Definition parent_cluster (fuel : nat) (parent_parts : list string) : st W (result Z Fat32Error) :=
  match parent_parts with
  | [] => mret (Ok (root_cluster fat))
  | _ => navigate_to_dir fuel (join parent_parts)
  end.

Definition open (fuel : nat) (path : string) : st W (result Fat32File Fat32Error) :=
  match last (parts_of path) with
  | None => mret (Err FInvalidPath)
  | Some n =>
      let? parent := parent_cluster fuel (removelast (parts_of path)) in
      let? entry := find_entry fuel parent n in
      if is_dir entry then mret (Err FIsADirectory)
      else mret (file_new (first_cluster entry) (size entry) (name entry))
  end.

Definition ls (fuel : nat) (path : string) : st W (result (list string) Fat32Error) :=
  let? cluster := navigate_to_dir fuel path in
  let? entries := list_entries fuel cluster in
  mret (Ok (map name entries)).

Definition stat (fuel : nat) (path : string) : st W (result FileStat Fat32Error) :=
  match last (parts_of path) with
  | None => mret (Ok (mkStat 0 Directory EmptyString))
  | Some n =>
      let? parent := parent_cluster fuel (removelast (parts_of path)) in
      let? entry := find_entry fuel parent n in
      mret (Ok (mkStat (size entry) (if is_dir entry then Directory else Regular) (name entry)))
  end.

(** [impl FileSystem for Fat32Fs]: four operations are [todo!()]. *)
Definition fs_open fuel path := st_map_err fs_error_of (open fuel path).
Definition fs_ls fuel path := st_map_err fs_error_of (ls fuel path).
Definition fs_stat fuel path := st_map_err fs_error_of (stat fuel path).
Definition fs_create (path : string) : st W (result Fat32File FsError) := panic.
Definition fs_delete (path : string) : st W (result unit FsError) := panic.
Definition fs_mkdir (path : string) : st W (result unit FsError) := panic.
Definition fs_rmdir (path : string) : st W (result unit FsError) := panic.
End Directories.

(** ** File I/O *)

Section Io.
Context `{Profile} {W : Type} `{BlockDevice W} (fat : FatInfo).
Let bps : Z := bytes_per_sector fat.
Let spc : Z := sectors_per_cluster fat.

(** Where byte [file_offset] of a chain is: nowhere past the chain, else the
    sector and the offset in it. *)
Definition locate (bpc : Z) (chain : list Z) (file_offset : Z) : outcome (option (Z * Z)) :=
  cluster_idx ← udiv file_offset bpc;
  offset_in_cluster ← urem file_offset bpc;
  if Z.of_nat (length chain) <=? cluster_idx then Ret None
  else
    cluster ← index chain cluster_idx;
    sector_in_cluster ← udiv offset_in_cluster bps;
    offset_in_sector ← urem offset_in_cluster bps;
    base ← cluster_to_lba fat cluster;
    lba ← add 64 base sector_in_cluster;
    Ret (Some (lba, offset_in_sector)).

(** [while bytes_read < bytes_to_read]; the loop ends early past the chain. *)
Fixpoint read_loop (fuel : nat) (bpc : Z) (chain : list Z) (bytes_to_read bytes_read file_offset : Z)
    (buf : list Z) : st W (list Z * result Z FdError) :=
  if bytes_read <? bytes_to_read then
    match fuel with
    | O => out_of_fuel
    | S fuel =>
        place ← lift (locate bpc chain file_offset);
        match place with
        | None => mret (buf, Ok bytes_read)
        | Some (lba, offset_in_sector) =>
            r ← read_sector IoError lba bps;
            match r with
            | Err e => mret (buf, Err e)
            | Ok sector =>
                let n := Z.min (bps - offset_in_sector) (bytes_to_read - bytes_read) in
                data ← lift (slice sector offset_in_sector (offset_in_sector + n));
                buf ← lift (splice buf bytes_read data);
                br ← lift (add usize_bits bytes_read n);
                fo ← lift (add usize_bits file_offset n);
                read_loop fuel bpc chain bytes_to_read br fo buf
            end
        end
    end
  else mret (buf, Ok bytes_read).

Definition read (fuel : nat) (f : Fat32File) (buf : list Z) (offset : Z) : st W (list Z * result Z FdError) :=
  if file_size f <=? offset then mret (buf, Ok 0)
  else
    let bytes_to_read := Z.min (Z.of_nat (length buf)) (file_size f - offset) in
    if bytes_to_read =? 0 then mret (buf, Ok 0)
    else
      chain ← get_chain fat fuel (start_cluster f);
      match chain with
      | Err _ => mret (buf, Err IoError)
      | Ok chain =>
          bpc ← lift (mul usize_bits bps spc);
          read_loop fuel bpc chain bytes_to_read 0 offset buf
      end.

Fixpoint write_loop (fuel : nat) (bpc : Z) (chain : list Z) (buf : list Z) (bytes_written file_offset : Z)
    : st W (result Z FdError) :=
  if bytes_written <? Z.of_nat (length buf) then
    match fuel with
    | O => out_of_fuel
    | S fuel =>
        place ← lift (locate bpc chain file_offset);
        match place with
        | None => mret (Ok bytes_written)
        | Some (lba, offset_in_sector) =>
            let n := Z.min (bps - offset_in_sector) (Z.of_nat (length buf) - bytes_written) in
            let? sector :=
              (if negb (offset_in_sector =? 0) || (n <? bps) then read_sector IoError lba bps
               else mret (Ok (zeros bps))) in
            data ← lift (slice buf bytes_written (bytes_written + n));
            sector ← lift (splice sector offset_in_sector data);
            let? _ := write_sector IoError lba sector in
            bw ← lift (add usize_bits bytes_written n);
            fo ← lift (add usize_bits file_offset n);
            write_loop fuel bpc chain buf bw fo
        end
    end
  else mret (Ok bytes_written).

(** The state is the file with its shared size cell and the device. *)
Definition on_dev {A} (m : st W A) : st (Fat32File * W) A := fun '(f, w) =>
  match m w with
  | Ret (a, w) => Ret (a, (f, w))
  | Panic => Panic
  | OutOfFuel => OutOfFuel
  end.

Definition set_size (new_size : Z) : st (Fat32File * W) unit :=
  modify (fun '(f, w) => (mkFile (start_cluster f) new_size (file_name f), w)).

Definition write (fuel : nat) (buf : list Z) (offset : Z) : st (Fat32File * W) (result Z FdError) :=
  if Z.of_nat (length buf) =? 0 then mret (Ok 0)
  else
    f ← gets fst;
    new_size ← lift (add usize_bits offset (Z.of_nat (length buf)));
    let? _ :=
      (if file_size f <? new_size then
         let? _ := on_dev (st_map_err (fun _ => IoError) (extend_file fat fuel (start_cluster f) new_size)) in
         _ ← set_size (wrap 32 new_size); mret (Ok tt)
       else mret (Ok tt)) in
    let? chain := on_dev (st_map_err (fun _ => IoError) (get_chain fat fuel (start_cluster f))) in
    bpc ← lift (mul usize_bits bps spc);
    on_dev (write_loop fuel bpc chain buf 0 offset).

Definition file_stat (f : Fat32File) : FileStat := mkStat (file_size f) Regular (file_name f).
End Io.

(** ** The disk

    What the file system relies on: a device whose sectors are bytes, of the
    size the boot sector says, that reads what was written last and fails for
    no address of the volume. *)
Class Disk (W : Type) `{BlockDevice W} (bps : Z) := {
  sector : W -> Z -> list Z;
  valid : Z -> Prop;
  sector_length w lba : valid lba -> length (sector w lba) = Z.to_nat bps;
  sector_bytes w lba : valid lba -> Forall (fits 8) (sector w lba);
  read_law w lba buf : valid lba -> length buf = Z.to_nat bps ->
    read_block lba buf w = Ret ((sector w lba, Ok tt), w);
  write_law w lba buf : valid lba -> length buf = Z.to_nat bps -> Forall (fits 8) buf -> exists w',
    write_block lba buf w = Ret (Ok tt, w') /\
    forall l, sector w' l = if decide (l = lba) then buf else sector w l;
}.

(** A volume: the FATs follow each other from [fat_start_lba] on and the
    clusters follow the FATs. *)
Record volume_ok (fat : FatInfo) (valid : Z -> Prop) : Prop := {
  vo_bps : 0 < bytes_per_sector fat < 2 ^ 16;
  vo_bps4 : (4 | bytes_per_sector fat);
  vo_spc : 0 < sectors_per_cluster fat < 2 ^ 8;
  vo_fats : 1 <= num_fats fat < 2 ^ 8;
  vo_spf : 0 < sectors_per_fat fat < 2 ^ 32;
  vo_start : 0 <= fat_start_lba fat < 2 ^ 33;
  vo_heap : cluster_heap_start_lba fat = fat_start_lba fat + num_fats fat * sectors_per_fat fat;
  vo_total : 0 <= total_clusters fat < 2 ^ 32 - 2;
  vo_room : 4 * (total_clusters fat + 2) <= sectors_per_fat fat * bytes_per_sector fat;
  vo_valid lba : fat_start_lba fat <= lba <
    cluster_heap_start_lba fat + total_clusters fat * sectors_per_cluster fat -> valid lba;
}.

(** The clusters of the volume are numbered from 2. *)
Definition is_cluster (fat : FatInfo) (c : Z) : Prop := 2 <= c < total_clusters fat + 2.

(** [l[i..i + 4]] as a little-endian word. *)
Definition word_at (l : list Z) (i : Z) : Z :=
  u32_of_le (l !!! Z.to_nat i) (l !!! Z.to_nat (i + 1)) (l !!! Z.to_nat (i + 2)) (l !!! Z.to_nat (i + 3)).

(** The first bytes of the FATs' sectors hold the entries in order. *)
Definition entry `{Disk W bps} (fat : FatInfo) (w : W) (c : Z) : Z :=
  Z.land (word_at (sector w (fat_start_lba fat + 4 * c / bytes_per_sector fat)) ((4 * c) mod bytes_per_sector fat))
    0x0fffffff.

(** All copies of the FAT are equal. *)
Definition mirrored `{Disk W bps} (fat : FatInfo) (w : W) : Prop := forall k l,
  0 <= k < num_fats fat -> 0 <= l < sectors_per_fat fat ->
  sector w (fat_start_lba fat + l + k * sectors_per_fat fat) = sector w (fat_start_lba fat + l).

(** A chain of clusters ends with an end mark. *)
Inductive Chain `{Disk W bps} (fat : FatInfo) (w : W) : Z -> list Z -> Prop :=
  | chain_end c : is_cluster fat c -> FAT32_EOC <= entry fat w c -> Chain fat w c [c]
  | chain_step c l : is_cluster fat c -> 2 <= entry fat w c < FAT32_EOC ->
      Chain fat w (entry fat w c) l -> Chain fat w c (c :: l).

(** The sectors of a chain in order, and the bytes in them. *)
Definition cluster_lbas (fat : FatInfo) (c : Z) : list Z :=
  map (fun s => cluster_heap_start_lba fat + (c - 2) * sectors_per_cluster fat + Z.of_nat s)
    (seq 0 (Z.to_nat (sectors_per_cluster fat))).
Definition chain_lbas (fat : FatInfo) (chain : list Z) : list Z := chain ≫= cluster_lbas fat.
Definition chain_data `{Disk W bps} (fat : FatInfo) (w : W) (chain : list Z) : list Z :=
  chain_lbas fat chain ≫= sector w.

(** ** Lemmas *)

(** The 28 bits of an entry. *)
Lemma entry_mask v : Z.land v 0x0fffffff = v mod 2 ^ 28.
Proof. apply (land_mask v 28). lia. Qed.

Lemma entry_mask_idem v : Z.land (Z.land v 0x0fffffff) 0x0fffffff = Z.land v 0x0fffffff.
Proof. rewrite !entry_mask. apply Z.mod_mod. lia. Qed.

Lemma index_total (l : list Z) i : 0 <= i < Z.of_nat (length l) -> index l i = Ret (l !!! Z.to_nat i).
Proof. intros Hi. apply index_ok; [lia|]. apply list_lookup_lookup_total_lt. lia. Qed.

Lemma le32_ok l i : 0 <= i -> i + 4 <= Z.of_nat (length l) -> le32 l i = Ret (word_at l i).
Proof. intros Hi Hl. unfold le32. rewrite !index_total by lia. done. Qed.

Lemma slice_ok {A} (l : list A) a n : 0 <= a -> 0 <= n -> a + n <= Z.of_nat (length l) ->
  slice l a (a + n) = Ret (take (Z.to_nat n) (drop (Z.to_nat a) l)).
Proof.
  intros Ha Hn Hl. unfold slice. rewrite !(proj2 (Z.leb_le _ _)) by lia. cbn [andb].
  by replace (a + n - a) with n by lia.
Qed.

Lemma splice_ok {A} (l : list A) a data : 0 <= a -> a + Z.of_nat (length data) <= Z.of_nat (length l) ->
  splice l a data = Ret (take (Z.to_nat a) l ++ data ++ drop (Z.to_nat a + length data) l).
Proof. intros Ha Hl. unfold splice. by rewrite !(proj2 (Z.leb_le _ _)) by lia. Qed.

Lemma splice_length {A} (l : list A) (a : nat) data : (a + length data <= length l)%nat ->
  length (take a l ++ data ++ drop (a + length data) l) = length l.
Proof. intros Hl. rewrite !length_app, length_take, length_drop. lia. Qed.

Lemma lookup_splice_in {A} (l data : list A) (i k : nat) : (i + length data <= length l)%nat ->
  (k < length data)%nat -> (take i l ++ data ++ drop (i + length data) l) !! (i + k)%nat = data !! k.
Proof.
  intros Hl Hk. assert (Ht : length (take i l) = i) by (rewrite length_take; lia).
  rewrite lookup_app_r by lia. rewrite lookup_app_l by lia. f_equal. lia.
Qed.

(** A word written at an aligned place is read back, and the other aligned
    words are as before. *)
Lemma word_at_splice_eq l i v : 0 <= i -> i + 4 <= Z.of_nat (length l) -> fits 32 v ->
  word_at (take (Z.to_nat i) l ++ le_bytes32 v ++ drop (Z.to_nat i + 4) l) i = v.
Proof.
  intros Hi Hl Hv. set (l' := take (Z.to_nat i) l ++ _).
  assert (H : forall k, (k < 4)%nat -> l' !! (Z.to_nat i + k)%nat = le_bytes32 v !! k).
  { intros k Hk. apply (lookup_splice_in l (le_bytes32 v) (Z.to_nat i) k); cbn; lia. }
  unfold word_at. rewrite !list_lookup_total_alt.
  replace (Z.to_nat i) with (Z.to_nat i + 0)%nat at 1 by lia.
  replace (Z.to_nat (i + 1)) with (Z.to_nat i + 1)%nat by lia.
  replace (Z.to_nat (i + 2)) with (Z.to_nat i + 2)%nat by lia.
  replace (Z.to_nat (i + 3)) with (Z.to_nat i + 3)%nat by lia.
  rewrite !H by lia. apply (u32_of_le_bytes v Hv).
Qed.

Lemma lookup_splice_ne {A} (l data : list A) (i j : nat) : (i + length data <= length l)%nat ->
  (j < i \/ i + length data <= j)%nat ->
  (take i l ++ data ++ drop (i + length data) l) !! j = l !! j.
Proof.
  intros Hl Hj. assert (Ht : length (take i l) = i) by (rewrite length_take; lia).
  destruct Hj as [Hj|Hj].
  - rewrite lookup_app_l by lia. by rewrite lookup_take_lt.
  - rewrite !lookup_app_r by lia. rewrite lookup_drop, Ht. f_equal. lia.
Qed.

Lemma word_at_splice_ne l i j data : 0 <= i -> length data = 4%nat -> i + 4 <= Z.of_nat (length l) -> 0 <= j ->
  j + 4 <= i \/ i + 4 <= j ->
  word_at (take (Z.to_nat i) l ++ data ++ drop (Z.to_nat i + 4) l) j = word_at l j.
Proof.
  intros Hi Hd Hl Hj Hne. unfold word_at. rewrite !list_lookup_total_alt. rewrite <- Hd.
  by rewrite !lookup_splice_ne by lia.
Qed.

Section FatLemmas.
Context `{Profile} {W : Type} (fat : FatInfo) `{Disk W (bytes_per_sector fat)} (Hv : volume_ok fat valid).
Implicit Types w : W.
Notation bps := (bytes_per_sector fat).
Notation spf := (sectors_per_fat fat).

(** An entry lies in one sector of the first FAT. *)
Lemma entry_place c : 0 <= c < total_clusters fat + 2 ->
  0 <= 4 * c / bps < spf /\ 0 <= (4 * c) mod bps /\ (4 * c) mod bps + 4 <= bps /\ ((4 * c) mod bps) mod 4 = 0.
Proof using Hv.
  intros Hc. pose proof (vo_bps _ _ Hv) as Hb. pose proof (vo_bps4 _ _ Hv) as [q Hq].
  pose proof (vo_room _ _ Hv) as Hr. pose proof (Z.mod_pos_bound (4 * c) bps).
  assert (Hm : (4 * c) mod bps = 4 * (c mod q)).
  { rewrite Hq, (Z.mul_comm q 4), Z.mul_mod_distr_l by lia. done. }
  pose proof (Z.mod_pos_bound c q). rewrite Hm in *.
  split_and!; try lia.
  - apply Z.div_pos; lia.
  - apply Z.div_lt_upper_bound; lia.
  - rewrite Z.mul_comm. apply Z.mod_mul. lia.
Qed.

Lemma entry_position_ok c : 0 <= c < total_clusters fat + 2 ->
  entry_position fat c = Ret (fat_start_lba fat + 4 * c / bps, (4 * c) mod bps).
Proof using Hv.
  intros Hc. pose proof (entry_place c Hc) as (Hq & _). pose proof (vo_bps _ _ Hv). pose proof (vo_spf _ _ Hv).
  pose proof (vo_start _ _ Hv). pose proof (vo_total _ _ Hv). unfold entry_position.
  rewrite mul_ok by (unfold fits; lia). cbn [mbind outcome_bind]. rewrite udiv_ok by lia. cbn [mbind outcome_bind].
  rewrite (Z.mul_comm c 4). rewrite add_ok by (unfold fits; lia). cbn [mbind outcome_bind].
  by rewrite urem_ok by lia.
Qed.

Lemma read_sector_ok {E} (e : E) w lba : valid lba -> read_sector e lba bps w = Ret (Ok (sector w lba), w).
Proof using Hv.
  intros Hl. pose proof (vo_bps _ _ Hv). unfold read_sector.
  by erewrite stbind_step by (apply read_law; [done|apply length_replicate]).
Qed.

Lemma write_sector_ok {E} (e : E) w lba buf : valid lba -> length buf = Z.to_nat bps -> Forall (fits 8) buf -> exists w',
  write_sector e lba buf w = Ret (Ok tt, w') /\ forall l, sector w' l = if decide (l = lba) then buf else sector w l.
Proof using Hv.
  intros Hl Hb H8. destruct (write_law w lba buf Hl Hb H8) as (w' & E1 & E2). exists w'. split; [|done].
  unfold write_sector, st_map_err. by rewrite E1.
Qed.

Lemma fat_valid k l : 0 <= k < num_fats fat -> 0 <= l < spf -> valid (fat_start_lba fat + l + k * spf).
Proof using Hv.
  intros Hk Hl. apply (vo_valid _ _ Hv). pose proof (vo_heap _ _ Hv). pose proof (vo_total _ _ Hv).
  pose proof (vo_spc _ _ Hv). nia.
Qed.

Lemma sector_len w k l : 0 <= k < num_fats fat -> 0 <= l < spf ->
  Z.of_nat (length (sector w (fat_start_lba fat + l + k * spf))) = bps.
Proof using Hv. intros. rewrite sector_length by (by apply fat_valid). pose proof (vo_bps _ _ Hv). lia. Qed.

Lemma first_fat l : fat_start_lba fat + l = fat_start_lba fat + l + 0 * spf.
Proof using. lia. Qed.

Lemma read_fat_entry_ok w c : 0 <= c < total_clusters fat + 2 -> read_fat_entry fat c w = Ret (Ok (entry fat w c), w).
Proof using Hv.
  intros Hc. destruct (entry_place c Hc) as (Hq & Hi & Hi4 & _). pose proof (vo_fats _ _ Hv).
  unfold read_fat_entry. erewrite stbind_step by (by rewrite entry_position_ok). cbv beta iota.
  assert (Hva : valid (fat_start_lba fat + 4 * c / bps)) by (rewrite first_fat; apply fat_valid; lia).
  assert (Hlen : Z.of_nat (length (sector w (fat_start_lba fat + 4 * c / bps))) = bps)
    by (rewrite first_fat; apply sector_len; lia).
  erewrite try_step by (by apply read_sector_ok). rewrite Hlen, (proj2 (Z.leb_le _ _)) by done.
  erewrite try_step; [done|]. erewrite stbind_step; [done|]. by rewrite le32_ok by lia.
Qed.

(** The same sector of every copy from the [i]-th on. *)
Lemma write_copies_ok buf l : length buf = Z.to_nat bps -> Forall (fits 8) buf -> 0 <= l < spf -> forall n i w, 1 <= i ->
  i + Z.of_nat n = num_fats fat -> exists w',
  write_copies fat n i (fat_start_lba fat + l) buf w = Ret (Ok tt, w') /\
  (forall k, i <= k < num_fats fat -> sector w' (fat_start_lba fat + l + k * spf) = buf) /\
  (forall x, (forall k, i <= k < num_fats fat -> x <> fat_start_lba fat + l + k * spf) -> sector w' x = sector w x).
Proof using Hv.
  intros Hb H8 Hl. pose proof (vo_fats _ _ Hv). pose proof (vo_spf _ _ Hv). pose proof (vo_start _ _ Hv).
  induction n as [|n IH]; intros i w Hi Hn.
  { exists w. split; [done|]. split; [|done]. intros. lia. }
  assert (0 <= i * spf <= 2 ^ 40) by nia.
  destruct (write_sector_ok FWriteError w (fat_start_lba fat + l + i * spf) buf) as (w1 & E1 & S1);
    [apply fat_valid; lia|done|done|].
  destruct (IH (i + 1) w1) as (w2 & E2 & S2 & F2); [lia|lia|]. exists w2. split_and!.
  - cbn [write_copies]. erewrite stbind_step by (by rewrite mul_ok by (unfold fits; lia)).
    erewrite stbind_step by (by rewrite add_ok by (unfold fits; lia)). by erewrite try_step by exact E1.
  - intros k Hk. destruct (Z.eq_dec k i) as [->|]; [|apply S2; lia].
    rewrite F2; [by rewrite S1, decide_True|]. intros k' Hk'. nia.
  - intros x Hx. rewrite F2 by (intros k Hk; apply Hx; lia). rewrite S1, decide_False; [done|]. apply Hx. lia.
Qed.

(** Writing an entry puts one new sector into every copy. *)
Lemma write_fat_entry_ok w c v (l := 4 * c / bps) (i := Z.to_nat ((4 * c) mod bps))
    (old := sector w (fat_start_lba fat + l))
    (buf := take i old ++ le_bytes32 (Z.land v 0x0fffffff) ++ drop (i + 4) old) :
  0 <= c < total_clusters fat + 2 -> exists w', write_fat_entry fat c v w = Ret (Ok tt, w') /\
  (forall k, 0 <= k < num_fats fat -> sector w' (fat_start_lba fat + l + k * spf) = buf) /\
  (forall x, (forall k, 0 <= k < num_fats fat -> x <> fat_start_lba fat + l + k * spf) -> sector w' x = sector w x).
Proof using Hv.
  intros Hc. destruct (entry_place c Hc) as (Hq & Hi & Hi4 & _). pose proof (vo_fats _ _ Hv). fold l in Hq.
  pose proof (vo_bps _ _ Hv). pose proof (vo_spf _ _ Hv).
  assert (Hva : valid (fat_start_lba fat + l)) by (rewrite first_fat; apply fat_valid; lia).
  assert (Hlen : Z.of_nat (length old) = bps) by (unfold old; rewrite first_fat; apply sector_len; lia).
  assert (Hbuf : length buf = Z.to_nat bps).
  { unfold buf. pose proof (splice_length old i (le_bytes32 (Z.land v 0x0fffffff))) as E.
    cbn [le_bytes32 length] in E. cbn [le_bytes32]. rewrite E by lia. lia. }
  assert (H8 : Forall (fits 8) buf).
  { pose proof (sector_bytes w _ Hva) as Ho. fold old in Ho. unfold buf.
    apply Forall_app; split; [by apply Forall_take|]. apply Forall_app; split; [apply le_bytes32_fits|by apply Forall_drop]. }
  destruct (write_sector_ok FWriteError w (fat_start_lba fat + l) buf Hva Hbuf H8) as (w1 & E1 & S1).
  destruct (write_copies_ok buf l Hbuf H8 Hq (Z.to_nat (num_fats fat - 1)) 1 w1) as (w2 & E2 & S2 & F2); [lia|lia|].
  exists w2. split_and!.
  - unfold write_fat_entry. erewrite stbind_step by (by rewrite entry_position_ok). cbv beta iota.
    erewrite try_step by (by apply read_sector_ok). fold l. fold old.
    rewrite Hlen, (proj2 (Z.leb_le _ _)) by done.
    erewrite try_step; [exact E2|]. erewrite stbind_step.
    2: { rewrite splice_ok by (cbn [le_bytes32 length]; lia). done. }
    erewrite try_step; [done|]. exact E1.
  - intros k Hk. destruct (Z.eq_dec k 0) as [->|]; [|apply S2; lia]. rewrite F2 by (intros; nia).
    by rewrite S1, decide_True by lia.
  - intros x Hx. rewrite F2 by (intros k Hk; apply Hx; lia). rewrite S1, decide_False; [done|].
    rewrite (first_fat l). apply Hx. lia.
Qed.

(** What that does to the entries, the clusters and the mirrors. *)
Lemma write_fat_entry_spec w c v : is_cluster fat c -> exists w',
  write_fat_entry fat c v w = Ret (Ok tt, w') /\
  (forall c', 0 <= c' < total_clusters fat + 2 ->
     entry fat w' c' = if decide (c' = c) then Z.land v 0x0fffffff else entry fat w c') /\
  (forall x, cluster_heap_start_lba fat <= x -> sector w' x = sector w x) /\
  (mirrored fat w -> mirrored fat w').
Proof using Hv.
  intros Hc. unfold is_cluster in Hc. assert (Hc0 : 0 <= c < total_clusters fat + 2) by lia.
  destruct (write_fat_entry_ok w c v Hc0) as (w' & E & S & F). exists w'.
  destruct (entry_place c Hc0) as (Hq & Hi & Hi4 & Hm4). pose proof (vo_fats _ _ Hv).
  pose proof (vo_bps _ _ Hv). pose proof (vo_spf _ _ Hv).
  assert (Hlen : Z.of_nat (length (sector w (fat_start_lba fat + 4 * c / bps))) = bps)
    by (rewrite first_fat; apply sector_len; lia).
  assert (Hmask : fits 32 (Z.land v 0x0fffffff)).
  { rewrite entry_mask. pose proof (Z.mod_pos_bound v (2 ^ 28)). unfold fits. lia. }
  split_and!; [exact E| | |].
  - intros c' Hc'. destruct (entry_place c' Hc') as (Hq' & Hi' & Hi4' & Hm4').
    unfold entry. destruct (Z.eq_dec (4 * c' / bps) (4 * c / bps)) as [Es|Es].
    + rewrite Es. rewrite (first_fat (4 * c / bps)) at 1. rewrite S by lia.
      destruct (decide (c' = c)) as [->|Hne].
      * rewrite word_at_splice_eq by (lia || done). apply entry_mask_idem.
      * rewrite word_at_splice_ne; try (done || lia).
        assert ((4 * c') mod bps <> (4 * c) mod bps).
        { intros E2. pose proof (Z.div_mod (4 * c') bps). pose proof (Z.div_mod (4 * c) bps).
          rewrite Es, E2 in *. lia. }
        pose proof (Z.div_mod ((4 * c') mod bps) 4). pose proof (Z.div_mod ((4 * c) mod bps) 4). lia.
    + rewrite F.
      * rewrite decide_False; [done|]. by intros ->.
      * intros k Hk E2. destruct (Z.eq_dec k 0) as [->|]; [lia|]. nia.
  - intros x Hx. apply F. intros k Hk. pose proof (vo_heap _ _ Hv). nia.
  - intros Hmir k l Hk Hl. destruct (Z.eq_dec l (4 * c / bps)) as [->|Hne].
    + rewrite (first_fat (4 * c / bps)) at 2. by rewrite !S by lia.
    + rewrite !F; [by apply Hmir|intros k' Hk' E2..].
      * assert (k' = 0) by nia. subst k'. lia.
      * assert (k = k') by nia. lia.
Qed.
End FatLemmas.

(** Chains, allocation and file reads. *)
Section VolumeLemmas.
Context `{Profile} {W : Type} (fat : FatInfo) `{Disk W (bytes_per_sector fat)} (Hv : volume_ok fat valid).
Implicit Types w : W.
Notation bps := (bytes_per_sector fat).
Notation spc := (sectors_per_cluster fat).

Lemma get_chain_ok w c l : Chain fat w c l -> forall fuel acc, (length l <= fuel)%nat ->
  get_chain_from fat fuel c acc w = Ret (Ok (acc ++ l), w).
Proof using Hv.
  unfold FAT32_EOC. induction 1 as [c Hc He|c l Hc He Hl IH]; intros [|fuel] acc Hf; cbn [length] in Hf; try lia;
    cbn [get_chain_from]; unfold is_cluster in Hc; rewrite (proj2 (Z.ltb_ge c 2)) by lia;
    erewrite try_step by (apply (read_fat_entry_ok fat Hv); lia).
  - by rewrite (proj2 (Z.leb_le _ _)).
  - unfold FAT32_EOC in *. rewrite (proj2 (Z.leb_gt _ _)), (proj2 (Z.eqb_neq _ _)) by lia.
    rewrite IH by lia. by rewrite <- app_assoc.
Qed.

Lemma get_chain_diverges w (P : Z -> Prop) : (forall x, P x -> is_cluster fat x /\
    2 <= entry fat w x < FAT32_EOC /\ P (entry fat w x)) ->
  forall fuel c acc, P c -> get_chain_from fat fuel c acc w = OutOfFuel.
Proof using Hv.
  intros HP. induction fuel as [|fuel IH]; intros c acc Hc; [done|]. cbn [get_chain_from].
  destruct (HP c Hc) as (Hcl & He & Hn). unfold is_cluster in Hcl. rewrite (proj2 (Z.ltb_ge c 2)) by lia.
  erewrite try_step by (apply (read_fat_entry_ok fat Hv); lia).
  rewrite (proj2 (Z.leb_gt _ _)), (proj2 (Z.eqb_neq _ _)) by lia. by apply IH.
Qed.

Lemma alloc_from_ok w : forall n c, 2 <= c -> c + Z.of_nat n <= total_clusters fat ->
  (exists c' w', c <= c' < c + Z.of_nat n /\ entry fat w c' = 0 /\
     (forall j, c <= j < c' -> entry fat w j <> 0) /\ alloc_from fat n c w = Ret (Ok c', w') /\
     (forall j, 0 <= j < total_clusters fat + 2 ->
        entry fat w' j = if decide (j = c') then 0x0fffffff else entry fat w j) /\
     (forall x, cluster_heap_start_lba fat <= x -> sector w' x = sector w x) /\
     (mirrored fat w -> mirrored fat w')) \/
  ((forall j, c <= j < c + Z.of_nat n -> entry fat w j <> 0) /\ alloc_from fat n c w = Ret (Err FDiskFull, w)).
Proof using Hv.
  induction n as [|n IH]; intros c Hc Hn; [right; split; [lia|done]|]. cbn [alloc_from].
  erewrite !try_step by (apply (read_fat_entry_ok fat Hv); lia).
  destruct (Z.eqb_spec (entry fat w c) 0) as [E0|N0].
  - left. destruct (write_fat_entry_spec fat Hv w c 0x0fffffff) as (w' & E & S & D & M); [unfold is_cluster; lia|].
    exists c, w'. split_and!; try done; try lia. by erewrite try_step by exact E.
  - destruct (IH (c + 1)) as [(c' & w' & Hr & He & Hj & Hx)|(Hj & Hx)]; [lia|lia|left|right].
    + exists c', w'. split; [lia|]. split; [done|]. split; [|done].
      intros j Hjr. destruct (Z.eq_dec j c) as [->|]; [done|apply Hj; lia].
    + split; [|done]. intros j Hjr. destruct (Z.eq_dec j c) as [->|]; [done|apply Hj; lia].
Qed.

(** Slices of a concatenation of pieces of one length. *)
Lemma take_drop_bind {A B} (f : A -> list B) (n : nat) (x : A) (L : list A) : forall (i j k : nat),
  (forall y, y ∈ L -> length (f y) = n) -> L !! i = Some x -> (j + k <= n)%nat ->
  take k (drop (i * n + j) (L ≫= f)) = take k (drop j (f x)).
Proof using.
  induction L as [|y L IH]; intros [|i] j k Hl Hx Hk; try done; cbn [mbind list_bind].
  - cbn in Hx. injection Hx as ->. assert (length (f x) = n) by (apply Hl, list_elem_of_here).
    cbn [Nat.mul Nat.add]. rewrite drop_app_le by lia. rewrite take_app_le by (rewrite length_drop; lia). done.
  - assert (Hy : length (f y) = n) by (apply Hl, list_elem_of_here). rewrite drop_app_ge by (rewrite Hy; lia).
    rewrite Hy. replace (S i * n + j - n)%nat with (i * n + j)%nat by lia. apply IH; [|done|done].
    intros z Hz. by apply Hl, list_elem_of_further.
Qed.

Lemma lookup_bind {A B} (f : A -> list B) (n : nat) (x : A) (L : list A) : forall (i j : nat),
  (forall y, y ∈ L -> length (f y) = n) -> L !! i = Some x -> (j < n)%nat ->
  (L ≫= f) !! (i * n + j)%nat = f x !! j.
Proof using.
  induction L as [|y L IH]; intros [|i] j Hl Hx Hj; try done; cbn [mbind list_bind].
  - cbn in Hx. injection Hx as ->. assert (length (f x) = n) by (apply Hl, list_elem_of_here).
    by rewrite lookup_app_l by lia.
  - assert (Hy : length (f y) = n) by (apply Hl, list_elem_of_here). rewrite lookup_app_r by (rewrite Hy; lia).
    rewrite Hy. replace (S i * n + j - n)%nat with (i * n + j)%nat by lia. apply IH; [|done|done].
    intros z Hz. by apply Hl, list_elem_of_further.
Qed.

Lemma length_bind {A B} (f : A -> list B) (n : nat) (L : list A) : (forall y, y ∈ L -> length (f y) = n) ->
  length (L ≫= f) = (length L * n)%nat.
Proof using.
  induction L as [|y L IH]; intros Hl; [done|]. cbn [mbind list_bind]. rewrite length_app.
  rewrite (Hl y) by apply list_elem_of_here. rewrite IH; [done|]. intros z Hz. by apply Hl, list_elem_of_further.
Qed.

Lemma cluster_lbas_length c : length (cluster_lbas fat c) = Z.to_nat spc.
Proof using. unfold cluster_lbas. by rewrite length_map, length_seq. Qed.

Lemma cluster_lbas_lookup c s : 0 <= s < spc ->
  cluster_lbas fat c !! Z.to_nat s = Some (cluster_heap_start_lba fat + (c - 2) * spc + s).
Proof using.
  intros Hs. unfold cluster_lbas. rewrite list_lookup_fmap.
  rewrite lookup_seq_lt by lia. cbn [fmap option_fmap option_map]. do 2 f_equal. lia.
Qed.

Lemma cluster_valid c s : is_cluster fat c -> 0 <= s < spc -> valid (cluster_heap_start_lba fat + (c - 2) * spc + s).
Proof using Hv.
  intros Hc Hs. apply (vo_valid _ _ Hv). pose proof (vo_heap _ _ Hv). pose proof (vo_fats _ _ Hv).
  pose proof (vo_spf _ _ Hv). unfold is_cluster in Hc. nia.
Qed.

Lemma chain_lbas_valid chain lba : Forall (is_cluster fat) chain -> lba ∈ chain_lbas fat chain -> valid lba.
Proof using Hv.
  intros Hc (c & Hlba & Hin)%list_elem_of_bind. rewrite Forall_forall in Hc. unfold cluster_lbas in Hlba.
  apply list_elem_of_fmap in Hlba as (s & -> & Hs). apply elem_of_seq in Hs. apply cluster_valid; [by apply Hc|lia].
Qed.

Lemma chain_data_length w chain : Forall (is_cluster fat) chain ->
  Z.of_nat (length (chain_data fat w chain)) = bps * spc * Z.of_nat (length chain).
Proof using Hv.
  intros Hc. pose proof (vo_bps _ _ Hv). pose proof (vo_spc _ _ Hv). unfold chain_data.
  rewrite (length_bind _ (Z.to_nat bps)).
  2: { intros lba Hl. apply sector_length. by apply (chain_lbas_valid chain). }
  unfold chain_lbas. rewrite (length_bind _ (Z.to_nat spc)) by (intros; apply cluster_lbas_length). lia.
Qed.

(** Byte [off] of a chain is in the sector [off / bps] of its sectors. *)
Lemma locate_ok chain off : Forall (is_cluster fat) chain -> 0 <= off < bps * spc * Z.of_nat (length chain) ->
  exists lba, locate fat (bps * spc) chain off = Ret (Some (lba, off mod bps)) /\ valid lba /\
    chain_lbas fat chain !! Z.to_nat (off / bps) = Some lba.
Proof using Hv.
  intros Hc Ho. pose proof (vo_bps _ _ Hv). pose proof (vo_spc _ _ Hv). pose proof (vo_total _ _ Hv).
  pose proof (vo_start _ _ Hv). pose proof (vo_fats _ _ Hv). pose proof (vo_spf _ _ Hv). pose proof (vo_heap _ _ Hv).
  set (q := off / bps). assert (Hq : 0 <= q) by (apply Z.div_pos; lia).
  assert (Hci : off / (bps * spc) = q / spc) by (unfold q; rewrite Z.div_div by lia; done).
  assert (Hoc : off mod (bps * spc) = off mod bps + bps * (q mod spc)) by (unfold q; rewrite Z.rem_mul_r by lia; done).
  pose proof (Z.mod_pos_bound off bps). pose proof (Z.mod_pos_bound q spc).
  assert (Hcb : 0 <= q / spc < Z.of_nat (length chain)).
  { rewrite <- Hci. split; [apply Z.div_pos; lia|apply Z.div_lt_upper_bound; lia]. }
  destruct (lookup_lt_is_Some_2 chain (Z.to_nat (q / spc))) as [c Ec]; [lia|].
  assert (Hcc : is_cluster fat c) by (by eapply Forall_lookup_1 in Hc). unfold is_cluster in Hcc.
  exists (cluster_heap_start_lba fat + (c - 2) * spc + q mod spc). split_and!.
  - unfold locate. rewrite udiv_ok, urem_ok by nia. cbn [mbind outcome_bind]. rewrite Hci, Hoc.
    rewrite (proj2 (Z.leb_gt _ _)) by lia. rewrite (index_ok _ _ _ (proj1 Hcb) Ec). cbn [mbind outcome_bind].
    rewrite udiv_ok, urem_ok by lia. cbn [mbind outcome_bind].
    replace ((off mod bps + bps * (q mod spc)) / bps) with (q mod spc).
    2: { rewrite (Z.mul_comm bps), Z.div_add, Z.div_small by lia. done. }
    replace ((off mod bps + bps * (q mod spc)) mod bps) with (off mod bps).
    2: { rewrite (Z.mul_comm bps), Z.mod_add, Z.mod_mod by lia. done. }
    assert (0 <= (c - 2) * spc <= 2 ^ 40) by nia.
    assert (0 <= num_fats fat * sectors_per_fat fat <= 2 ^ 40) by nia.
    unfold cluster_to_lba. rewrite sub_ok by (unfold fits; lia). cbn [mbind outcome_bind].
    rewrite mul_ok by (unfold fits; lia). cbn [mbind outcome_bind].
    rewrite add_ok by (unfold fits; lia). cbn [mbind outcome_bind].
    rewrite add_ok by (unfold fits; lia). done.
  - apply cluster_valid; [done|lia].
  - unfold chain_lbas. pose proof (Z.div_mod q spc).
    replace (Z.to_nat q) with (Z.to_nat (q / spc) * Z.to_nat spc + Z.to_nat (q mod spc))%nat by nia.
    rewrite (lookup_bind _ (Z.to_nat spc) c); [apply cluster_lbas_lookup; lia| |done|lia].
    intros; apply cluster_lbas_length.
Qed.

(** A slice of one sector is a slice of the chain's bytes. *)
Lemma sector_slice w chain off k lba : Forall (is_cluster fat) chain -> 0 <= off -> 0 <= k ->
  off mod bps + k <= bps -> chain_lbas fat chain !! Z.to_nat (off / bps) = Some lba ->
  take (Z.to_nat k) (drop (Z.to_nat (off mod bps)) (sector w lba)) =
  take (Z.to_nat k) (drop (Z.to_nat off) (chain_data fat w chain)).
Proof using Hv.
  intros Hc Ho Hk Hm Hl. pose proof (vo_bps _ _ Hv). pose proof (Z.mod_pos_bound off bps).
  pose proof (Z.div_mod off bps). assert (0 <= off / bps) by (apply Z.div_pos; lia). unfold chain_data.
  replace (Z.to_nat off) with (Z.to_nat (off / bps) * Z.to_nat bps + Z.to_nat (off mod bps))%nat by nia.
  symmetry. apply take_drop_bind; [|done|lia]. intros y Hy. apply sector_length.
  by apply (chain_lbas_valid chain).
Qed.

Lemma read_loop_ok w chain btr buf : Forall (is_cluster fat) chain -> btr <= Z.of_nat (length buf) -> forall fuel br off buf',
  0 <= br <= btr -> btr - br <= Z.of_nat fuel -> 0 <= off ->
  off + (btr - br) <= bps * spc * Z.of_nat (length chain) -> off + (btr - br) < 2 ^ 32 -> btr < 2 ^ 32 ->
  length buf' = length buf -> drop (Z.to_nat br) buf' = drop (Z.to_nat br) buf ->
  read_loop fat fuel (bps * spc) chain btr br off buf' w =
  Ret ((take (Z.to_nat br) buf' ++ take (Z.to_nat (btr - br)) (drop (Z.to_nat off) (chain_data fat w chain)) ++
        drop (Z.to_nat btr) buf, Ok btr), w).
Proof using Hv.
  intros Hc Hbuf. pose proof (vo_bps _ _ Hv) as Hb. induction fuel as [|fuel IH];
    intros br off buf' Hbr Hf Ho Hdata H32 Hb32 Hlen Hdrop; cbn [read_loop].
  { rewrite (proj2 (Z.ltb_ge _ _)) by lia. replace (btr - br) with 0 by lia. replace btr with br by lia.
    rewrite take_0, app_nil_l. by rewrite <- Hdrop, take_drop. }
  destruct (Z.ltb_spec br btr) as [Hlt|Hge].
  2: { replace (btr - br) with 0 by lia. replace btr with br by lia.
       rewrite take_0, app_nil_l. by rewrite <- Hdrop, take_drop. }
  destruct (locate_ok chain off Hc) as (lba & El & Hval & Hlk); [lia|].
  erewrite stbind_step by (by rewrite El). cbv beta iota.
  erewrite stbind_step by (by apply (read_sector_ok fat Hv)). cbv beta iota zeta.
  pose proof (Z.mod_pos_bound off bps ltac:(lia)) as Hm. set (n := Z.min (bps - off mod bps) (btr - br)).
  assert (Hn : 1 <= n <= btr - br) by lia.
  assert (Hsl : Z.of_nat (length (sector w lba)) = bps) by (rewrite sector_length by done; lia).
  set (data := take (Z.to_nat n) (drop (Z.to_nat off) (chain_data fat w chain))).
  assert (Hdl : Z.of_nat (length data) = n).
  { unfold data. rewrite length_take, length_drop. pose proof (chain_data_length w chain Hc). lia. }
  erewrite stbind_step.
  2: { rewrite slice_ok by lia. rewrite (sector_slice w chain off n lba) by (done || lia). done. }
  fold data. erewrite stbind_step by (by rewrite splice_ok by lia).
  erewrite stbind_step by (by rewrite add_ok by (unfold fits, usize_bits; lia)).
  erewrite stbind_step by (by rewrite add_ok by (unfold fits, usize_bits; lia)).
  assert (Htk : length (take (Z.to_nat br) buf') = Z.to_nat br) by (rewrite length_take; lia).
  assert (Hb1 : take (Z.to_nat (br + n)) (take (Z.to_nat br) buf' ++ data ++ drop (Z.to_nat br + length data) buf') =
                take (Z.to_nat br) buf' ++ data).
  { rewrite app_assoc. apply take_app_length'. rewrite length_app. lia. }
  rewrite IH; [|lia..| |].
  - rewrite Hb1. replace (Z.to_nat (btr - br)) with (Z.to_nat n + Z.to_nat (btr - (br + n)))%nat by lia.
    rewrite <- take_take_drop, drop_drop. fold data.
    replace (Z.to_nat off + Z.to_nat n)%nat with (Z.to_nat (off + n)) by lia. by rewrite <- !app_assoc.
  - rewrite splice_length by lia. done.
  - rewrite app_assoc, drop_app_length' by (rewrite length_app; lia).
    replace (Z.to_nat br + length data)%nat with (Z.to_nat br + Z.to_nat n)%nat by lia.
    rewrite <- !drop_drop, Hdrop, drop_drop. f_equal. lia.
Qed.
End VolumeLemmas.

(** ** Theorems *)

Section Claims.
Context `{Profile} {W : Type} (fat : FatInfo) `{Disk W (bytes_per_sector fat)}.
Implicit Types w : W.

(** Reading an open file. *)
Lemma fat_read_ok w f chain buf offset (n := Z.min (Z.of_nat (length buf)) (file_size f - offset)) fuel :
  volume_ok fat valid -> Chain fat w (start_cluster f) chain ->
  file_size f <= Z.of_nat (length (chain_data fat w chain)) -> 0 <= offset < file_size f -> file_size f < 2 ^ 32 ->
  bytes_per_sector fat * sectors_per_cluster fat < 2 ^ 32 ->
  (length chain <= fuel)%nat -> (length buf <= fuel)%nat ->
  read fat fuel f buf offset w =
  Ret ((take (Z.to_nat n) (drop (Z.to_nat offset) (chain_data fat w chain)) ++ drop (Z.to_nat n) buf, Ok n), w).
Proof.
  intros Hv Hc Hsz Ho H32 Hbpc Hf1 Hf2.
  assert (Hcl : Forall (is_cluster fat) chain) by (clear -Hc; induction Hc; by constructor).
  rewrite (chain_data_length fat Hv) in Hsz by done. pose proof (vo_bps _ _ Hv). pose proof (vo_spc _ _ Hv).
  unfold read. rewrite (proj2 (Z.leb_gt _ _)) by lia. fold n. destruct (Z.eqb_spec n 0) as [E0|N0].
  { rewrite E0. done. }
  erewrite stbind_step by (by apply (get_chain_ok fat Hv w _ chain Hc fuel [])). cbv beta iota. cbn [app].
  erewrite stbind_step by (by rewrite mul_ok by (unfold fits, usize_bits; nia)).
  rewrite (read_loop_ok fat Hv w chain n buf) by (done || lia). by rewrite Z.sub_0_r.
Qed.

(** an entry written to the allocation table is read back with its upper
    four bits cleared, every other entry reads as before, no sector of a
    cluster changes, and the copies of the table stay equal. *)
Theorem fat_entry_write w c v : volume_ok fat valid -> is_cluster fat c -> exists w',
  write_fat_entry fat c v w = Ret (Ok tt, w') /\
  read_fat_entry fat c w' = Ret (Ok (Z.land v 0x0fffffff), w') /\
  (forall c', is_cluster fat c' -> c' <> c -> exists e,
     read_fat_entry fat c' w = Ret (Ok e, w) /\ read_fat_entry fat c' w' = Ret (Ok e, w')) /\
  (forall x, cluster_heap_start_lba fat <= x -> sector w' x = sector w x) /\
  (mirrored fat w -> mirrored fat w').
Proof.
  intros Hv Hc. destruct (write_fat_entry_spec fat Hv w c v Hc) as (w' & E & S & D & M). unfold is_cluster in *.
  exists w'. split; [done|]. split; [|split; [|done]].
  - rewrite (read_fat_entry_ok fat Hv) by lia. rewrite S by lia. by rewrite decide_True.
  - intros c' Hc' Hne. exists (entry fat w c'). split; [apply (read_fat_entry_ok fat Hv); lia|].
    rewrite (read_fat_entry_ok fat Hv) by lia. rewrite S by lia. by rewrite decide_False.
Qed.

(** C30: [get_chain] returns exactly the clusters of a well-formed chain, in as
    many steps as the chain has clusters; from a cluster that leads into a
    cycle it never returns. *)
Theorem get_chain_follows w c : volume_ok fat valid ->
  (forall l, Chain fat w c l -> forall fuel, (length l <= fuel)%nat -> get_chain fat fuel c w = Ret (Ok l, w)) /\
  (forall P : Z -> Prop, P c ->
   (forall x, P x -> is_cluster fat x /\ 2 <= entry fat w x < FAT32_EOC /\ P (entry fat w x)) ->
   forall fuel, get_chain fat fuel c w = OutOfFuel).
Proof.
  intros Hv. split.
  - intros l Hl fuel Hf. by apply (get_chain_ok fat Hv w c l Hl fuel []).
  - intros P Hc HP fuel. by apply (get_chain_diverges fat Hv w P).
Qed.

(** [alloc_cluster] takes the first free cluster below [total_clusters]
    and marks it as the end of a chain, leaving every other entry and the
    contents of all clusters; it reports a full disk only when no cluster
    below [total_clusters] is free.  The last two clusters of the volume,
    [total_clusters] and the one after it, are never taken. *)
Theorem alloc_cluster_first_free w : volume_ok fat valid ->
  (exists c w', 2 <= c < total_clusters fat /\ alloc_cluster fat w = Ret (Ok c, w') /\ entry fat w c = 0 /\
     (forall j, 2 <= j < c -> entry fat w j <> 0) /\
     (forall j, is_cluster fat j -> entry fat w' j = if decide (j = c) then 0x0fffffff else entry fat w j) /\
     (forall x, cluster_heap_start_lba fat <= x -> sector w' x = sector w x) /\
     (mirrored fat w -> mirrored fat w')) \/
  ((forall j, 2 <= j < total_clusters fat -> entry fat w j <> 0) /\
   alloc_cluster fat w = Ret (Err FDiskFull, w)).
Proof.
  intros Hv. pose proof (vo_total _ _ Hv). unfold alloc_cluster, is_cluster.
  destruct (Z.le_gt_cases 2 (total_clusters fat)) as [Hle|Hgt].
  - destruct (alloc_from_ok fat Hv w (Z.to_nat (total_clusters fat - 2)) 2)
      as [(c & w' & Hr & He & Hj & E & S & D & M)|(Hj & E)]; [lia|lia|left|right].
    + exists c, w'. split; [lia|]. repeat (split; [done|]). split; [|done]. intros j ?. apply S. lia.
    + split; [|done]. intros j ?. apply Hj. lia.
  - right. replace (Z.to_nat (total_clusters fat - 2)) with O by lia. split; [lia|done].
Qed.

(** reading an open file copies the bytes of its cluster chain from the
    offset on, as many as the buffer and the file's size allow, leaves the
    rest of the buffer, and changes nothing on the disk. *)
Theorem fat_read_contents w f chain buf offset (n := Z.min (Z.of_nat (length buf)) (file_size f - offset)) fuel :
  volume_ok fat valid -> Chain fat w (start_cluster f) chain ->
  file_size f <= Z.of_nat (length (chain_data fat w chain)) -> 0 <= offset < file_size f -> file_size f < 2 ^ 32 ->
  bytes_per_sector fat * sectors_per_cluster fat < 2 ^ 32 ->
  (length chain <= fuel)%nat -> (length buf <= fuel)%nat ->
  read fat fuel f buf offset w =
  Ret ((take (Z.to_nat n) (drop (Z.to_nat offset) (chain_data fat w chain)) ++ drop (Z.to_nat n) buf, Ok n), w).
Proof. apply fat_read_ok. Qed.
End Claims.

(** ** A disk in memory

    [n] sectors of 512 bytes, zero until written.  It takes any buffer of at
    least 512 bytes, as the card does, and says nothing of other requests. *)
Record SectorDisk (n : Z) := mkDisk { sectors : gmap Z (list Z) }.
Arguments mkDisk {n} sectors.
Arguments sectors {n} _.

Definition ram_sector {n} (w : SectorDisk n) (lba : Z) : list Z :=
  take 512 (map (wrap 8) (default [] (sectors w !! lba)) ++ zeros 512).

Definition in_disk (n lba : Z) (buf : list Z) : bool :=
  (0 <=? lba) && (lba <? n) && (512 <=? Z.of_nat (length buf)).

Definition is_byte (b : Z) : bool := (0 <=? b) && (b <? 256).

Lemma is_byte_fits l : forallb is_byte l = true <-> Forall (fits 8) l.
Proof.
  rewrite forallb_forall, Forall_forall. unfold is_byte, fits. split; intros Hl x Hx%list_elem_of_In;
    specialize (Hl x Hx); [apply andb_true_iff in Hl as [?%Z.leb_le ?%Z.ltb_lt]; lia|].
  rewrite (proj2 (Z.leb_le _ _)), (proj2 (Z.ltb_lt _ _)) by lia. done.
Qed.

#[export] Instance ram_device n : BlockDevice (SectorDisk n) := {
  bd_info := mret (mkInfo 512 n (n * 512) false false);
  read_block lba buf w :=
    if in_disk n lba buf then Ret ((ram_sector w lba ++ drop 512 buf, Ok tt), w) else Panic;
  write_block lba buf w :=
    if in_disk n lba buf && forallb is_byte buf then Ret (Ok tt, mkDisk (<[lba := buf]> (sectors w))) else Panic;
  bd_is_ready := mret true;
}.

Lemma ram_sector_length {n} (w : SectorDisk n) lba : length (ram_sector w lba) = 512%nat.
Proof. unfold ram_sector. rewrite length_take, length_app. change (length (zeros 512)) with 512%nat. lia. Qed.

Lemma ram_sector_bytes {n} (w : SectorDisk n) lba : Forall (fits 8) (ram_sector w lba).
Proof.
  apply Forall_take, Forall_app. split.
  - apply Forall_map, Forall_forall. intros x _. apply Z.mod_pos_bound. lia.
  - apply Forall_replicate. unfold fits. lia.
Qed.

Lemma map_wrap_bytes l : Forall (fits 8) l -> map (wrap 8) l = l.
Proof. induction 1 as [|x l Hx _ IH]; [done|]. cbn [map]. rewrite IH. f_equal. by apply Z.mod_small. Qed.

(** A sector written reads as the first 512 bytes of the buffer. *)
Lemma ram_sector_insert {n} (w : SectorDisk n) lba buf l : (512 <= length buf)%nat -> Forall (fits 8) buf ->
  ram_sector (mkDisk (n := n) (<[lba := buf]> (sectors w))) l = if decide (l = lba) then take 512 buf else ram_sector w l.
Proof.
  intros Hb H8. unfold ram_sector. cbn [sectors].
  destruct (decide (l = lba)) as [->|]; [|by rewrite lookup_insert_ne by done].
  rewrite lookup_insert_eq. change (default [] (Some buf)) with buf. rewrite map_wrap_bytes by done. by rewrite take_app_le by lia.
Qed.

#[export] Instance ram_disk n : Disk (SectorDisk n) 512.
Proof.
  refine {| sector := ram_sector; valid := fun lba => 0 <= lba < n |}.
  - intros w lba _. apply ram_sector_length.
  - intros w lba _. apply ram_sector_bytes.
  - intros w lba buf [Hl1 Hl2] Hb. cbn. unfold in_disk. rewrite (proj2 (Z.leb_le 0 lba)), (proj2 (Z.ltb_lt _ _)), (proj2 (Z.leb_le 512 _)) by lia.
    cbn [andb]. by rewrite drop_ge, app_nil_r by lia.
  - intros w lba buf [Hl1 Hl2] Hb H8. eexists. split.
    + cbn. unfold in_disk. rewrite (proj2 (Z.leb_le 0 lba)), (proj2 (Z.ltb_lt _ _)), (proj2 (Z.leb_le 512 _)) by lia.
      by rewrite (proj2 (is_byte_fits buf) H8).
    + intros l. rewrite ram_sector_insert by (done || lia). destruct (decide _); [|done]. by rewrite take_ge by lia.
Defined.

(** Two FATs of one sector from sector 1 on, clusters of one sector from
    sector 3 on.  A file of 600 bytes lies in the clusters 2 and 4. *)
Definition demo_fat : FatInfo := mkFat 512 1 1 2 0 1 2 1 3 0 4.

Lemma demo_volume : volume_ok demo_fat (valid (W := SectorDisk 64)).
Proof. split; cbn; first [lia|by exists 128|done]. Qed.

Definition demo_disk : SectorDisk 64 := mkDisk (
  <[1 := flat_map le_bytes32 [0; 0; 4; 0; 0x0fffffff]]>
  (<[2 := flat_map le_bytes32 [0; 0; 4; 0; 0x0fffffff]]>
  (<[3 := replicate 512 7]> (<[5 := replicate 512 8]> ∅)))).

Lemma demo_chain : Chain demo_fat demo_disk 2 [2; 4].
Proof.
  apply chain_step; [unfold is_cluster; cbn; lia|by vm_compute|].
  replace (entry demo_fat demo_disk 2) with 4 by by vm_compute.
  apply chain_end; [unfold is_cluster; cbn; lia|by vm_compute].
Qed.

(** ** Witnesses *)

#[local] Instance debug_profile : Profile := Build_Profile true.

Lemma fat_entry_write_witness : exists w', write_fat_entry demo_fat 3 0xf0000005 demo_disk = Ret (Ok tt, w') /\
  read_fat_entry demo_fat 3 w' = Ret (Ok 5, w').
Proof.
  destruct (fat_entry_write demo_fat demo_disk 3 0xf0000005 demo_volume) as (w' & H1 & H2 & _).
  { unfold is_cluster. cbn. lia. }
  exists w'. split; [exact H1|exact H2].
Defined.

Lemma get_chain_follows_witness : get_chain demo_fat 2 2 demo_disk = Ret (Ok [2; 4], demo_disk).
Proof. apply (proj1 (get_chain_follows demo_fat demo_disk 2 demo_volume) [2; 4] demo_chain). cbn. lia. Defined.

Lemma alloc_cluster_first_free_witness : exists c w', 2 <= c < 4 /\ alloc_cluster demo_fat demo_disk = Ret (Ok c, w').
Proof.
  destruct (alloc_cluster_first_free demo_fat demo_disk demo_volume) as [(c & w' & H1 & H2 & _)|[H1 _]].
  - exists c, w'. split; [exact H1|exact H2].
  - exfalso. apply (H1 3); [cbn; lia|by vm_compute].
Defined.

Lemma fat_read_contents_witness :
  read demo_fat 4 (mkFile 2 600 "A.TXT") [0; 0; 0; 0] 510 demo_disk = Ret (([7; 7; 8; 8], Ok 4), demo_disk).
Proof.
  assert (H : chain_data demo_fat demo_disk [2; 4] = replicate 512 7 ++ replicate 512 8) by by vm_compute.
  rewrite (fat_read_contents demo_fat demo_disk (mkFile 2 600 "A.TXT") [2; 4] [0; 0; 0; 0] 510 4 demo_volume demo_chain);
    rewrite ?H; first [by vm_compute|cbn; lia].
Defined.
