(* ===== verification/FatWrite.v ===== *)
(** * Writing files on FAT32

    What kernel/src/fs/fat/fat32.rs does to a volume when a file is written:
    chains grow by free clusters, the bytes of the file change where they were
    written and nowhere else, and no other file changes.  The operations are
    those of [Fat32]. *)
From S2P Require Import Prelude Memory Fd BlockDev Fat32.

(** ** Chains *)

Section Chains.
Context `{Profile} {W : Type} (fat : FatInfo) `{Disk W (bytes_per_sector fat)}.
Implicit Types w : W.

Lemma chain_clusters w c l : Chain fat w c l -> Forall (is_cluster fat) l.
Proof. induction 1; by constructor. Qed.

Lemma chain_starts w c l : Chain fat w c l -> exists l', l = c :: l'.
Proof. destruct 1; eauto. Qed.

Lemma chain_unique w c l : Chain fat w c l -> forall l', Chain fat w c l' -> l = l'.
Proof.
  induction 1 as [c Hc He|c l Hc He Hl IH]; intros l' Hl'; inversion Hl'; subst; try lia; [done|].
  f_equal. by apply IH.
Qed.

Lemma chain_suffix w c l x : Chain fat w c l -> x ∈ l -> exists l1 l2, l = l1 ++ l2 /\ Chain fat w x l2.
Proof.
  induction 1 as [c Hc He|c l Hc He Hl IH]; intros Hx.
  - apply list_elem_of_singleton in Hx as ->. exists [], [c]. split; [done|by apply chain_end].
  - apply elem_of_cons in Hx as [->|Hx].
    + exists [], (c :: l). split; [done|by apply chain_step].
    + destruct (IH Hx) as (l1 & l2 & -> & Hs). by exists (c :: l1), l2.
Qed.

Lemma chain_nodup w c l : Chain fat w c l -> NoDup l.
Proof.
  induction 1 as [c Hc He|c l Hc He Hl IH]; [apply NoDup_singleton|]. apply NoDup_cons. split; [|done].
  intros Hin. destruct (chain_suffix w _ l c Hl Hin) as (l1 & l2 & -> & Hs).
  pose proof (chain_unique w c _ Hs (c :: l1 ++ l2) ltac:(by apply chain_step)) as E.
  apply (f_equal length) in E. cbn [length] in E. rewrite length_app in E. lia.
Qed.

Lemma chain_entry w c l x : Chain fat w c l -> x ∈ l -> 2 <= entry fat w x.
Proof.
  unfold FAT32_EOC. induction 1 as [c Hc He|c l Hc He Hl IH]; intros Hx.
  - apply list_elem_of_singleton in Hx as ->. unfold FAT32_EOC in He. lia.
  - apply elem_of_cons in Hx as [->|Hx]; [lia|by apply IH].
Qed.

Lemma chain_same w w' c l : Chain fat w c l -> (forall x, x ∈ l -> entry fat w' x = entry fat w x) -> Chain fat w' c l.
Proof.
  induction 1 as [c Hc He|c l Hc He Hl IH]; intros Hs.
  - apply chain_end; [done|]. by rewrite Hs by apply list_elem_of_here.
  - assert (E := Hs c (list_elem_of_here c l)). apply chain_step; [done|by rewrite E|]. rewrite E. apply IH.
    intros x Hx. by apply Hs, list_elem_of_further.
Qed.

(** A cluster linked to the end of a chain. *)
Lemma chain_append w w' s l c x : Chain fat w s l -> last l = Some c -> is_cluster fat x -> x < FAT32_EOC ->
  (forall y, y ∈ l -> y <> c -> entry fat w' y = entry fat w y) -> entry fat w' c = x -> FAT32_EOC <= entry fat w' x ->
  Chain fat w' s (l ++ [x]).
Proof.
  intros Hl Hc Hx Hlt Hs Ec Ex. pose proof (chain_nodup w s l Hl) as Hnd.
  induction Hl as [a Ha He|a l Ha He Hl IH].
  - injection Hc as ->. apply chain_step; [done|rewrite Ec; unfold is_cluster in Hx; lia|]. rewrite Ec.
    by apply chain_end.
  - apply NoDup_cons in Hnd as [Hal Hnd]. destruct (chain_starts w _ l Hl) as (l' & El).
    assert (Hc' : last l = Some c) by (by rewrite El in Hc |- *).
    assert (Hne : a <> c). { intros ->. apply Hal. by apply last_Some_elem_of. }
    assert (Ea : entry fat w' a = entry fat w a) by (apply Hs; [apply list_elem_of_here|done]).
    cbn [app]. apply chain_step; [done|by rewrite Ea|]. rewrite Ea. apply IH; [done| |done].
    intros y Hy. by apply Hs, list_elem_of_further.
Qed.
End Chains.

(** ** Extending a file *)

(** [w'] is [w] with the free clusters [news] linked to the chain [l] from [s]. *)
Record extended `{Disk W bps} (fat : FatInfo) (w : W) (s : Z) (l news : list Z) (w' : W) : Prop := {
  ex_chain : Chain fat w' s (l ++ news);
  ex_free x : x ∈ news -> 2 <= x < total_clusters fat /\ entry fat w x = 0;
  ex_other x : is_cluster fat x -> x ∉ l ++ news -> entry fat w' x = entry fat w x;
  ex_data x : cluster_heap_start_lba fat <= x -> sector w' x = sector w x;
  ex_mirror : mirrored fat w -> mirrored fat w';
}.

Section Extend.
Context `{Profile} {W : Type} (fat : FatInfo) `{Disk W (bytes_per_sector fat)} (Hv : volume_ok fat valid).
Context (Htot : total_clusters fat <= FAT32_EOC).
Implicit Types w : W.
Notation bps := (bytes_per_sector fat).
Notation spc := (sectors_per_cluster fat).

(** [alloc_cluster] as an instance of [alloc_from_ok]. *)
Lemma alloc_cluster_ok w :
  (exists c w', 2 <= c < total_clusters fat /\ alloc_cluster fat w = Ret (Ok c, w') /\ entry fat w c = 0 /\
     (forall j, is_cluster fat j -> entry fat w' j = if decide (j = c) then 0x0fffffff else entry fat w j) /\
     (forall x, cluster_heap_start_lba fat <= x -> sector w' x = sector w x) /\
     (mirrored fat w -> mirrored fat w')) \/
  ((forall j, 2 <= j < total_clusters fat -> entry fat w j <> 0) /\
   alloc_cluster fat w = Ret (Err FDiskFull, w)).
Proof using Hv.
  pose proof (vo_total _ _ Hv). unfold alloc_cluster, is_cluster.
  destruct (Z.le_gt_cases 2 (total_clusters fat)) as [Hle|Hgt].
  - destruct (alloc_from_ok fat Hv w (Z.to_nat (total_clusters fat - 2)) 2)
      as [(c & w' & Hr & He & Hj & E & S & D & M)|(Hj & E)]; [lia|lia|left|right].
    + exists c, w'. split; [lia|]. repeat (split; [done|]). split; [|done]. intros j ?. apply S. lia.
    + split; [|done]. intros j ?. apply Hj. lia.
  - right. replace (Z.to_nat (total_clusters fat - 2)) with O by lia. split; [lia|done].
Qed.

Lemma extended_nil w s l : Chain fat w s l -> extended fat w s l [] w.
Proof using. intros Hl. split; try done; [by rewrite app_nil_r|]. by intros x ?%not_elem_of_nil. Qed.

Lemma extended_cons w s l x w1 news w2 : extended fat w s l [x] w1 -> extended fat w1 s (l ++ [x]) news w2 ->
  extended fat w s l (x :: news) w2.
Proof using.
  intros [C1 F1 O1 D1 M1] [C2 F2 O2 D2 M2]. rewrite <- app_assoc in C2, O2. cbn [app] in C2, O2.
  assert (Hnews : forall y, y ∈ news -> y ∉ l ++ [x]).
  { intros y Hy Hin. pose proof (chain_entry fat w1 s _ y C1 Hin). destruct (F2 y Hy) as [_ E]. rewrite E in *. lia. }
  split; [done| | |intros y Hy; rewrite D2, D1 by done; done|by intros M; apply M2, M1].
  - intros y [->|Hy]%elem_of_cons; [apply F1, list_elem_of_here|].
    destruct (F2 y Hy) as [Hr E]. split; [done|]. rewrite <- O1; [done|unfold is_cluster; lia|by apply Hnews].
  - intros y Hy Hin. rewrite O2 by done. apply O1; [done|]. intros Hin'. apply Hin.
    rewrite elem_of_app, elem_of_cons. rewrite elem_of_app, list_elem_of_singleton in Hin'. tauto.
Qed.

(** [link_cluster] writes two entries. *)
Lemma link_entries w c x : is_cluster fat c -> 2 <= x < total_clusters fat -> exists w',
  link_cluster fat c x w = Ret (Ok tt, w') /\
  (forall j, is_cluster fat j -> entry fat w' j =
     if decide (j = x) then 0x0fffffff else if decide (j = c) then x else entry fat w j) /\
  (forall y, cluster_heap_start_lba fat <= y -> sector w' y = sector w y) /\ (mirrored fat w -> mirrored fat w').
Proof using Hv Htot.
  intros Hc Hx. assert (Hxc : is_cluster fat x) by (unfold is_cluster; lia).
  destruct (write_fat_entry_spec fat Hv w c x Hc) as (w2 & E2 & S2 & D2 & M2).
  destruct (write_fat_entry_spec fat Hv w2 x 0x0fffffff Hxc) as (w3 & E3 & S3 & D3 & M3).
  exists w3. split; [unfold link_cluster; by erewrite try_step by exact E2|]. split; [|split].
  - intros j Hj. rewrite S3, S2 by (unfold is_cluster in *; done || lia).
    destruct (decide (j = x)); [done|]. destruct (decide (j = c)); [|done].
    unfold FAT32_EOC in Htot. rewrite entry_mask. apply Z.mod_small. lia.
  - intros y Hy. by rewrite D3, D2.
  - intros M. by apply M3, M2.
Qed.

(** The chain that ends in [c], after [c] is linked to a cluster outside it. *)
Lemma chain_linked w s l c x w' : Chain fat w s l -> last l = Some c -> 2 <= x < total_clusters fat -> x ∉ l ->
  (forall j, is_cluster fat j -> entry fat w' j =
     if decide (j = x) then 0x0fffffff else if decide (j = c) then x else entry fat w j) ->
  Chain fat w' s (l ++ [x]).
Proof using Htot.
  intros Hl Hc Hx Hxl S. assert (Hcl := chain_clusters fat w s l Hl). rewrite Forall_forall in Hcl.
  assert (Hin : c ∈ l) by (by apply last_Some_elem_of). assert (Hxc : is_cluster fat x) by (unfold is_cluster; lia).
  apply (chain_append fat w w' s l c x Hl Hc Hxc); [lia| | |].
  - intros y Hy Hne. rewrite S by (by apply Hcl). rewrite !decide_False; [done|done|]. by intros ->.
  - rewrite S by (by apply Hcl). rewrite decide_False, decide_True by (done || by intros ->). done.
  - rewrite S by done. by rewrite decide_True.
Qed.

(** One round of the loop of [extend_file]. *)
Lemma link_ok w s l c x w1 : Chain fat w s l -> last l = Some c -> 2 <= x < total_clusters fat -> entry fat w x = 0 ->
  (forall j, is_cluster fat j -> entry fat w1 j = if decide (j = x) then 0x0fffffff else entry fat w j) ->
  (forall y, cluster_heap_start_lba fat <= y -> sector w1 y = sector w y) -> (mirrored fat w -> mirrored fat w1) ->
  exists w2, link_cluster fat c x w1 = Ret (Ok tt, w2) /\ extended fat w s l [x] w2.
Proof using Hv Htot.
  intros Hl Hc Hx Ex S1 D1 M1. assert (Hcl := chain_clusters fat w s l Hl). rewrite Forall_forall in Hcl.
  assert (Hin : c ∈ l) by (by apply last_Some_elem_of).
  assert (Hxl : x ∉ l). { intros Hxl. pose proof (chain_entry fat w s l x Hl Hxl). lia. }
  destruct (link_entries w1 c x (Hcl c Hin) Hx) as (w2 & E2 & S2 & D2 & M2).
  assert (S : forall j, is_cluster fat j -> entry fat w2 j =
    if decide (j = x) then 0x0fffffff else if decide (j = c) then x else entry fat w j).
  { intros j Hj. rewrite S2, S1 by done. by destruct (decide (j = x)). }
  exists w2. split; [exact E2|]. split.
  - by apply (chain_linked w s l c x w2).
  - intros y ->%list_elem_of_singleton. done.
  - intros y Hy Hn. rewrite elem_of_app, list_elem_of_singleton in Hn. rewrite S by done.
    rewrite !decide_False; [done|intros ->; tauto|intros ->; tauto].
  - intros y Hy. by rewrite D2, D1.
  - intros M. by apply M2, M1.
Qed.

Lemma extend_loop_ok n : forall w s l c, Chain fat w s l -> last l = Some c -> exists r news w',
  extend_loop fat n c w = Ret (r, w') /\ extended fat w s l news w' /\
  ((r = Ok tt /\ length news = n) \/
   (r = Err FDiskFull /\ (length news < n)%nat /\ forall j, 2 <= j < total_clusters fat -> entry fat w' j <> 0)).
Proof using Hv Htot.
  induction n as [|n IH]; intros w s l c Hl Hc; cbn [extend_loop].
  { exists (Ok tt), [], w. split; [done|]. split; [by apply extended_nil|by left]. }
  destruct (alloc_cluster_ok w) as [(x & w1 & Hx & E1 & Ex & S1 & D1 & M1)|[Hf E1]].
  2: { exists (Err FDiskFull), [], w. split; [by erewrite try_err by exact E1|]. split; [by apply extended_nil|].
       right. cbn [length]. split; [done|]. split; [lia|done]. }
  destruct (link_ok w s l c x w1 Hl Hc Hx Ex S1 D1 M1) as (w2 & E2 & X2).
  destruct (IH w2 s (l ++ [x]) x (ex_chain _ _ _ _ _ _ X2) ltac:(by apply last_snoc)) as (r & news & w3 & E3 & X3 & Hr).
  exists r, (x :: news), w3. split; [|split].
  - erewrite try_step by exact E1. by erewrite try_step by exact E2.
  - by eapply extended_cons.
  - cbn [length]. destruct Hr as [[-> Hn]|[-> [Hn Hf]]]; [left|right]; split; auto. split; [lia|done].
Qed.

(** [extend_file] adds the clusters that are missing for the size. *)
Lemma extend_file_ok fuel w s l size : Chain fat w s l -> (length l <= fuel)%nat ->
  0 <= size -> size + bps * spc < 2 ^ 32 -> exists r news w',
  extend_file fat fuel s size w = Ret (r, w') /\ extended fat w s l news w' /\
  ((r = Ok tt /\ size <= bps * spc * Z.of_nat (length (l ++ news)) /\
    (news = [] \/ bps * spc * (Z.of_nat (length (l ++ news)) - 1) < size)) \/
   (r = Err FDiskFull /\ forall j, 2 <= j < total_clusters fat -> entry fat w' j <> 0)).
Proof using Hv Htot.
  intros Hl Hf Hs H32. pose proof (vo_bps _ _ Hv). pose proof (vo_spc _ _ Hv). set (bpc := bps * spc) in *.
  assert (0 < bpc) by (unfold bpc; nia). set (need := (size + bpc - 1) / bpc).
  assert (Hneed : size <= bpc * need /\ bpc * (need - 1) < size /\ 0 <= need).
  { pose proof (Z.div_mod (size + bpc - 1) bpc). pose proof (Z.mod_pos_bound (size + bpc - 1) bpc).
    unfold need. split_and!; [lia|lia|apply Z.div_pos; lia]. }
  assert (Hlast : exists c, last l = Some c).
  { destruct (chain_starts fat w s l Hl) as (l' & ->). by apply last_is_Some. }
  destruct Hlast as [c Hc]. unfold extend_file.
  assert (Ebody : forall k, (bpc0 ← lift (mul usize_bits bps spc); a ← lift (add usize_bits size bpc0);
    a ← lift (sub usize_bits a 1); clusters_needed ← lift (udiv a bpc0); k clusters_needed) w = k need w :> outcome (result unit Fat32Error * W)).
  { intros k. erewrite stbind_step by (by rewrite mul_ok by (unfold fits, usize_bits; fold bpc; lia)). fold bpc.
    erewrite stbind_step by (by rewrite add_ok by (unfold fits, usize_bits; lia)).
    erewrite stbind_step by (by rewrite sub_ok by (unfold fits, usize_bits; lia)).
    by erewrite stbind_step by (by rewrite udiv_ok by lia). }
  rewrite Ebody. erewrite try_step by (by apply (get_chain_ok fat Hv w s l Hl fuel [])). cbn [app].
  destruct (Z.leb_spec need (Z.of_nat (length l))) as [Hle|Hgt].
  - exists (Ok tt), [], w. split; [done|]. split; [by apply extended_nil|]. left. rewrite app_nil_r.
    split; [done|]. split; [nia|by left].
  - rewrite Hc. destruct (extend_loop_ok (Z.to_nat (need - Z.of_nat (length l))) w s l c Hl Hc)
      as (r & news & w' & E & X & Hr). exists r, news, w'. split; [exact E|]. split; [done|].
    destruct Hr as [[-> Hn]|[-> [Hn Hfull]]]; [left|by right]. split; [done|]. rewrite length_app.
    replace (Z.of_nat (length l + length news)) with need by lia. split; [lia|right; lia].
Qed.
End Extend.

(** ** Writing bytes *)

Lemma bind_ext {A B} (f g : A -> list B) (L : list A) : (forall y, y ∈ L -> g y = f y) -> L ≫= g = L ≫= f.
Proof.
  induction L as [|x L IH]; intros Hfg; [done|]. cbn [mbind list_bind].
  rewrite Hfg by apply list_elem_of_here. f_equal. apply IH. intros y Hy. by apply Hfg, list_elem_of_further.
Qed.

(** Bytes written into one of the pieces of a concatenation. *)
Lemma bind_splice {A B} (f g : A -> list B) (n : nat) (x : A) (o : nat) (p : list B) (L : list A) : forall i,
  NoDup L -> (forall y, y ∈ L -> length (f y) = n) -> L !! i = Some x -> (forall y, y ∈ L -> y <> x -> g y = f y) ->
  g x = take o (f x) ++ p ++ drop (o + length p) (f x) -> (o + length p <= n)%nat ->
  L ≫= g = take (i * n + o) (L ≫= f) ++ p ++ drop (i * n + o + length p) (L ≫= f).
Proof.
  induction L as [|y L IH]; intros [|i] Hnd Hl Hx Hs Hg Ho; try done; apply NoDup_cons in Hnd as [Hy Hnd];
    assert (Hyl : length (f y) = n) by (apply Hl, list_elem_of_here); cbn [mbind list_bind].
  - cbn in Hx. injection Hx as ->. cbn [Nat.mul Nat.add].
    rewrite (bind_ext f g L), Hg by (intros z Hz; apply Hs; [by apply list_elem_of_further|by intros ->]).
    rewrite take_app_le, drop_app_le by lia. by rewrite <- !app_assoc.
  - cbn in Hx. rewrite (IH i Hnd) by
      (try done; intros z Hz; intros; first [apply Hl|apply Hs]; auto using list_elem_of_further).
    rewrite Hs by (apply list_elem_of_here || (intros ->; by eapply Hy, list_elem_of_lookup_2)).
    rewrite take_app_ge, drop_app_ge by lia. rewrite Hyl, <- app_assoc.
    by replace (S i * n + o - n)%nat with (i * n + o)%nat by lia;
      replace (S i * n + o + length p - n)%nat with (i * n + o + length p)%nat by lia.
Qed.

(** The rest of a buffer after its first [n] bytes from [bw] on. *)
Lemma splice_next {A} (D buf : list A) (off bw n len : nat) : (bw + n <= len)%nat -> len = length buf ->
  (off + n <= length D)%nat ->
  let data := take n (drop bw buf) in let D' := take off D ++ data ++ drop (off + n) D in
  take (off + n) D' ++ drop (bw + n) buf ++ drop (off + n + (len - (bw + n))) D' =
  take off D ++ drop bw buf ++ drop (off + (len - bw)) D.
Proof.
  intros Hn -> Ho data D'. assert (Hd : length data = n) by (unfold data; rewrite length_take, length_drop; lia).
  assert (Ht : length (take off D) = off) by (rewrite length_take; lia).
  assert (E1 : take (off + n) D' = take off D ++ data).
  { unfold D'. rewrite app_assoc. apply take_app_length'. rewrite length_app. lia. }
  assert (E2 : forall k, drop (off + n + k) D' = drop (off + n + k) D).
  { intros k. unfold D'. rewrite app_assoc, drop_app_ge by (rewrite length_app; lia).
    rewrite drop_drop. f_equal. rewrite length_app. lia. }
  rewrite E1, E2. rewrite <- app_assoc. f_equal. rewrite app_assoc. f_equal.
  - unfold data. rewrite <- drop_drop. apply take_drop.
  - f_equal. lia.
Qed.

Section WriteLoop.
Context `{Profile} {W : Type} (fat : FatInfo) `{Disk W (bytes_per_sector fat)} (Hv : volume_ok fat valid).
Implicit Types w : W.
Notation bps := (bytes_per_sector fat).
Notation spc := (sectors_per_cluster fat).

Lemma cluster_lbas_elem c x : x ∈ cluster_lbas fat c <->
  exists i, 0 <= i < spc /\ x = cluster_heap_start_lba fat + (c - 2) * spc + i.
Proof using Hv.
  pose proof (vo_spc _ _ Hv). unfold cluster_lbas. rewrite list_elem_of_fmap. split.
  - intros (i & -> & Hi%elem_of_seq). exists (Z.of_nat i). split; [lia|done].
  - intros (i & Hi & ->). exists (Z.to_nat i). split; [f_equal; lia|apply elem_of_seq; lia].
Qed.

Lemma chain_lbas_nodup chain : NoDup chain -> NoDup (chain_lbas fat chain).
Proof using Hv.
  pose proof (vo_spc _ _ Hv). intros Hnd. apply NoDup_bind; [|intros c _|done].
  - intros c1 c2 x _ _ (i & Hi & ->)%cluster_lbas_elem (j & Hj & E)%cluster_lbas_elem. nia.
  - unfold cluster_lbas. apply NoDup_fmap_2; [intros a b; lia|]. apply NoDup_seq.
Qed.

(** A sector of one chain is not a sector of another. *)
Lemma chain_lbas_disjoint l1 l2 x : (forall c, c ∈ l1 -> c ∉ l2) -> x ∈ chain_lbas fat l1 -> x ∉ chain_lbas fat l2.
Proof using Hv.
  pose proof (vo_spc _ _ Hv). intros Hd (c1 & Hx1 & Hc1)%list_elem_of_bind (c2 & Hx2 & Hc2)%list_elem_of_bind.
  apply cluster_lbas_elem in Hx1 as (i & Hi & ->). apply cluster_lbas_elem in Hx2 as (j & Hj & E).
  assert (c1 = c2) by nia. subst. by apply (Hd c2).
Qed.

Lemma chain_lbas_heap chain x : Forall (is_cluster fat) chain -> x ∈ chain_lbas fat chain ->
  cluster_heap_start_lba fat <= x.
Proof using Hv.
  pose proof (vo_spc _ _ Hv). intros Hc (c & Hx & Hin)%list_elem_of_bind. rewrite Forall_forall in Hc.
  apply cluster_lbas_elem in Hx as (i & Hi & ->). specialize (Hc c Hin). unfold is_cluster in Hc. nia.
Qed.

(** What one round of the loop puts into the sector. *)
Lemma new_sector w lba o n data : valid lba -> 0 <= o -> 1 <= n -> o + n <= bps -> Z.of_nat (length data) = n ->
  exists s0, (if negb (o =? 0) || (n <? bps) then read_sector IoError lba bps else mret (Ok (zeros bps))) w = Ret (Ok s0, w) /\
    splice s0 o data = Ret (take (Z.to_nat o) (sector w lba) ++ data ++ drop (Z.to_nat o + length data) (sector w lba)).
Proof using Hv.
  intros Hl Ho Hn Hon Hd. pose proof (vo_bps _ _ Hv).
  assert (Hs : Z.of_nat (length (sector w lba)) = bps) by (rewrite sector_length by done; lia).
  destruct (negb (o =? 0) || (n <? bps)) eqn:Hpart.
  - exists (sector w lba). split; [by apply (read_sector_ok fat Hv)|]. apply splice_ok; lia.
  - apply orb_false_iff in Hpart as [Ho0%negb_false_iff%Z.eqb_eq Hnb%Z.ltb_ge]. subst o.
    exists (zeros bps). split; [done|]. assert (Hz : length (zeros bps) = Z.to_nat bps) by apply length_replicate.
    rewrite splice_ok by lia. change (Z.to_nat 0) with 0%nat. rewrite !take_0, !app_nil_l. f_equal. f_equal.
    rewrite !drop_ge by lia. done.
Qed.

Lemma chain_data_written w w1 chain off lba data : Forall (is_cluster fat) chain -> NoDup chain -> 0 <= off ->
  chain_lbas fat chain !! Z.to_nat (off / bps) = Some lba -> off mod bps + Z.of_nat (length data) <= bps ->
  (forall l, sector w1 l = if decide (l = lba)
     then take (Z.to_nat (off mod bps)) (sector w lba) ++ data ++ drop (Z.to_nat (off mod bps) + length data) (sector w lba)
     else sector w l) ->
  chain_data fat w1 chain = take (Z.to_nat off) (chain_data fat w chain) ++ data ++
    drop (Z.to_nat off + length data) (chain_data fat w chain).
Proof using Hv.
  intros Hc Hnd Ho Hlk Hlen Sw. pose proof (vo_bps _ _ Hv). pose proof (Z.mod_pos_bound off bps ltac:(lia)).
  pose proof (Z.div_mod off bps). assert (0 <= off / bps) by (apply Z.div_pos; lia).
  unfold chain_data. rewrite (bind_splice (sector w) (sector w1) (Z.to_nat bps) lba (Z.to_nat (off mod bps)) data
    (chain_lbas fat chain) (Z.to_nat (off / bps)) (chain_lbas_nodup chain Hnd)).
  - by replace (Z.to_nat (off / bps) * Z.to_nat bps + Z.to_nat (off mod bps))%nat with (Z.to_nat off) by nia.
  - intros y Hy. apply sector_length. by apply (chain_lbas_valid fat Hv chain).
  - done.
  - intros y Hy Hne. by rewrite Sw, decide_False.
  - by rewrite Sw, decide_True.
  - lia.
Qed.

Lemma write_loop_ok chain buf : Forall (is_cluster fat) chain -> NoDup chain -> Forall (fits 8) buf ->
  Z.of_nat (length buf) < 2 ^ 32 -> forall fuel bw off w (rest := Z.of_nat (length buf) - bw),
  0 <= bw -> 0 <= rest <= Z.of_nat fuel -> 0 <= off -> off + rest <= bps * spc * Z.of_nat (length chain) ->
  off + rest < 2 ^ 32 -> exists w',
  write_loop fat fuel (bps * spc) chain buf bw off w = Ret (Ok (Z.of_nat (length buf)), w') /\
  chain_data fat w' chain = take (Z.to_nat off) (chain_data fat w chain) ++ drop (Z.to_nat bw) buf ++
    drop (Z.to_nat off + (length buf - Z.to_nat bw)) (chain_data fat w chain) /\
  forall x, x ∉ chain_lbas fat chain -> sector w' x = sector w x.
Proof using Hv.
  intros Hc Hnd H8 Hb32. pose proof (vo_bps _ _ Hv) as Hb.
  induction fuel as [|fuel IH]; intros bw off w rest Hbw Hf Ho Hdata H32; cbn [write_loop].
  1: { rewrite (proj2 (Z.ltb_ge _ _)) by lia. exists w. replace bw with (Z.of_nat (length buf)) by lia.
       split; [done|]. split; [|done]. rewrite drop_ge by lia. rewrite app_nil_l.
       replace (Z.to_nat off + _)%nat with (Z.to_nat off) by lia. by rewrite take_drop. }
  destruct (Z.ltb_spec bw (Z.of_nat (length buf))) as [Hlt|Hge].
  2: { exists w. replace bw with (Z.of_nat (length buf)) by lia.
       split; [done|]. split; [|done]. rewrite drop_ge by lia. rewrite app_nil_l.
       replace (Z.to_nat off + _)%nat with (Z.to_nat off) by lia. by rewrite take_drop. }
  destruct (locate_ok fat Hv chain off Hc) as (lba & El & Hval & Hlk); [lia|].
  erewrite stbind_step by (by rewrite El). cbv beta iota zeta.
  pose proof (Z.mod_pos_bound off bps ltac:(lia)) as Hm. set (n := Z.min (bps - off mod bps) (Z.of_nat (length buf) - bw)).
  assert (Hn : 1 <= n <= rest) by lia.
  set (data := take (Z.to_nat n) (drop (Z.to_nat bw) buf)).
  assert (Hdl : Z.of_nat (length data) = n) by (unfold data; rewrite length_take, length_drop; lia).
  destruct (new_sector w lba (off mod bps) n data Hval) as (s0 & Er & Es); [lia..|].
  erewrite try_step by exact Er. erewrite stbind_step by (by rewrite slice_ok by lia). fold data.
  erewrite stbind_step by (by rewrite Es).
  set (new := take (Z.to_nat (off mod bps)) (sector w lba) ++ _).
  assert (Hsl : length (sector w lba) = Z.to_nat bps) by (by apply sector_length).
  assert (Hnew : length new = Z.to_nat bps) by (unfold new; rewrite splice_length by lia; done).
  assert (Hnew8 : Forall (fits 8) new).
  { pose proof (sector_bytes w lba Hval). unfold new, data. auto 10 using Forall_take, Forall_drop, Forall_app_2. }
  destruct (write_sector_ok fat Hv IoError w lba new Hval Hnew Hnew8) as (w1 & Ew & Sw).
  erewrite try_step by exact Ew. erewrite stbind_step by (by rewrite add_ok by (unfold fits, usize_bits; lia)).
  erewrite stbind_step by (by rewrite add_ok by (unfold fits, usize_bits; lia)).
  destruct (IH (bw + n) (off + n) w1) as (w2 & E2 & D2 & F2); [lia..|]. exists w2. split; [exact E2|].
  pose proof (list_elem_of_lookup_2 _ _ _ Hlk) as Hin. split.
  - assert (D1 := chain_data_written w w1 chain off lba data Hc Hnd Ho Hlk ltac:(lia) Sw).
    replace (length data) with (Z.to_nat n) in D1 by lia.
    rewrite D2, D1. replace (Z.to_nat (off + n)) with (Z.to_nat off + Z.to_nat n)%nat by lia.
    replace (Z.to_nat (bw + n)) with (Z.to_nat bw + Z.to_nat n)%nat by lia.
    apply splice_next; [lia|done|]. pose proof (chain_data_length fat Hv w chain Hc). lia.
  - intros x Hx. rewrite F2, Sw, decide_False; [done|by intros ->|done].
Qed.
End WriteLoop.

(** ** Writing a file *)

(** Every chain that shares no cluster with [l] is a chain with the same bytes. *)
Definition untouched `{Disk W bps} (fat : FatInfo) (w : W) (l : list Z) (w' : W) : Prop := forall s l2,
  Chain fat w s l2 -> (forall x, x ∈ l2 -> x ∉ l) -> Chain fat w' s l2 /\ chain_data fat w' l2 = chain_data fat w l2.

Lemma on_dev_ok {W A} (m : st W A) (f : Fat32File) w a w' : m w = Ret (a, w') -> on_dev m (f, w) = Ret (a, (f, w')).
Proof. unfold on_dev. by intros ->. Qed.

Section WriteLemmas.
Context `{Profile} {W : Type} (fat : FatInfo) `{Disk W (bytes_per_sector fat)} (Hv : volume_ok fat valid).
Implicit Types w : W.
Notation bps := (bytes_per_sector fat).
Notation spc := (sectors_per_cluster fat).

(** Writing clusters leaves the table alone. *)
Lemma table_same w w' : (forall x, x < cluster_heap_start_lba fat -> sector w' x = sector w x) ->
  (forall c, is_cluster fat c -> entry fat w' c = entry fat w c) /\ (mirrored fat w -> mirrored fat w').
Proof using Hv.
  intros Hs. pose proof (vo_heap _ _ Hv). pose proof (vo_fats _ _ Hv). pose proof (vo_spf _ _ Hv). split.
  - intros c Hc. unfold is_cluster in Hc. destruct (entry_place fat Hv c ltac:(lia)) as (Hq & _).
    unfold entry. rewrite Hs; [done|]. nia.
  - intros M k l Hk Hl. rewrite !Hs by nia. by apply M.
Qed.

Lemma extended_untouched w s l news w' : extended fat w s l news w' -> untouched fat w l w'.
Proof using Hv.
  intros [C F O D M] s2 l2 Hl2 Hd. pose proof (chain_clusters fat w s2 l2 Hl2) as Hcl. split.
  - apply (chain_same fat w w' s2 l2 Hl2). intros x Hx. rewrite Forall_forall in Hcl.
    apply O; [by apply Hcl|]. intros [Hin|Hin]%elem_of_app; [by apply (Hd x)|].
    pose proof (chain_entry fat w s2 l2 x Hl2 Hx). destruct (F x Hin) as [_ E]. rewrite E in *. lia.
  - apply bind_ext. intros x Hx. apply D. by apply (chain_lbas_heap fat Hv l2).
Qed.

Lemma written_untouched w w' s l : Chain fat w s l -> (forall x, x ∉ chain_lbas fat l -> sector w' x = sector w x) ->
  Chain fat w' s l /\ untouched fat w l w' /\ (mirrored fat w -> mirrored fat w') /\
  (forall c, is_cluster fat c -> entry fat w' c = entry fat w c).
Proof using Hv.
  intros Hl Hs. pose proof (chain_clusters fat w s l Hl) as Hcl. destruct (table_same w w') as [He Hm].
  { intros x Hx. apply Hs. intros Hin. pose proof (chain_lbas_heap fat Hv l x Hcl Hin). lia. }
  assert (Hsame : forall s2 l2, Chain fat w s2 l2 -> Chain fat w' s2 l2).
  { intros s2 l2 Hl2. apply (chain_same fat w w' s2 l2 Hl2). intros x Hx. apply He.
    pose proof (chain_clusters fat w s2 l2 Hl2) as Hc2. rewrite Forall_forall in Hc2. by apply Hc2. }
  split_and!; [by apply Hsame| |done|done]. intros s2 l2 Hl2 Hd. split; [by apply Hsame|].
  apply bind_ext. intros x Hx. apply Hs. by apply (chain_lbas_disjoint fat Hv l2 l).
Qed.

(** Growing the file, when the write ends past its size. *)
Lemma grow_ok fuel w f l size : total_clusters fat <= FAT32_EOC -> Chain fat w (start_cluster f) l ->
  file_size f <= Z.of_nat (length (chain_data fat w l)) -> (length l <= fuel)%nat -> 0 <= size ->
  size + bps * spc < 2 ^ 32 -> exists r news w',
  (if file_size f <? size then
     let? _ := on_dev (st_map_err (fun _ => IoError) (extend_file fat fuel (start_cluster f) size)) in
     _ ← set_size (wrap 32 size); mret (Ok tt)
   else mret (Ok tt)) (f, w) = Ret (r, (match r with Ok _ => mkFile (start_cluster f) (Z.max (file_size f) size) (file_name f)
     | Err _ => f end, w')) /\
  extended fat w (start_cluster f) l news w' /\
  ((r = Ok tt /\ size <= bps * spc * Z.of_nat (length (l ++ news)) /\
    (news = [] \/ bps * spc * (Z.of_nat (length (l ++ news)) - 1) < size)) \/
   (r = Err IoError /\ forall j, 2 <= j < total_clusters fat -> entry fat w' j <> 0)).
Proof using Hv.
  intros Htot Hl Hsz Hf Hs H32. rewrite (chain_data_length fat Hv) in Hsz by (by eapply chain_clusters).
  destruct (Z.ltb_spec (file_size f) size) as [Hlt|Hge].
  - destruct (extend_file_ok fat Hv Htot fuel w (start_cluster f) l size Hl Hf Hs H32) as (r & news & w' & E & X & Hr).
    pose proof (vo_bps _ _ Hv). pose proof (vo_spc _ _ Hv). assert (0 < bps * spc) by nia.
    destruct Hr as [(-> & Hr)|[-> Hr]].
    + exists (Ok tt), news, w'. split; [|split; [done|left; done]].
      erewrite try_step by (apply on_dev_ok; unfold st_map_err; by rewrite E).
      unfold set_size. erewrite stbind_step by done. rewrite Z.max_r by lia.
      by replace (wrap 32 size) with size by (symmetry; apply Z.mod_small; lia).
    + exists (Err IoError), news, w'. split; [|split; [done|right; done]].
      by erewrite try_err by (apply on_dev_ok; unfold st_map_err; by rewrite E).
  - exists (Ok tt), [], w. rewrite Z.max_l by lia. split; [by destruct f|]. split; [by apply extended_nil|left].
    rewrite app_nil_r. split; [done|]. split; [lia|by left].
Qed.
End WriteLemmas.

(** ** Theorems *)

Section Claims.
Context `{Profile} {W : Type} (fat : FatInfo) `{Disk W (bytes_per_sector fat)}.
Implicit Types w : W.
Notation bps := (bytes_per_sector fat).
Notation spc := (sectors_per_cluster fat).

(** What a write leaves behind when it succeeds: a chain grown by free clusters
    [news], holding the buffer at the offset and its old bytes elsewhere. *)
Record write_done (w : W) (f : Fat32File) (chain news buf : list Z) (offset : Z) (f' : Fat32File) (w' : W) : Prop := {
  wd_file : f' = mkFile (start_cluster f) (Z.max (file_size f) (offset + Z.of_nat (length buf))) (file_name f);
  wd_chain : Chain fat w' (start_cluster f) (chain ++ news);
  wd_news x : x ∈ news -> entry fat w x = 0;
  wd_data : chain_data fat w' (chain ++ news) =
    take (Z.to_nat offset) (chain_data fat w (chain ++ news)) ++ buf ++
    drop (Z.to_nat offset + length buf) (chain_data fat w (chain ++ news));
  wd_fits : Z.max (file_size f) (offset + Z.of_nat (length buf)) <= Z.of_nat (length (chain_data fat w' (chain ++ news)));
  wd_untouched : untouched fat w chain w';
  wd_mirror : mirrored fat w -> mirrored fat w';
}.

(** What it leaves behind when the disk is full: the file as it was, though its
    chain may have taken the last free clusters. *)
Record write_full (w : W) (f : Fat32File) (chain news : list Z) (w' : W) : Prop := {
  wf_full j : 2 <= j < total_clusters fat -> entry fat w' j <> 0;
  wf_chain : Chain fat w' (start_cluster f) (chain ++ news);
  wf_data x : cluster_heap_start_lba fat <= x -> sector w' x = sector w x;
  wf_untouched : untouched fat w chain w';
  wf_mirror : mirrored fat w -> mirrored fat w';
}.

Context (Hv : volume_ok fat valid) (Htot : total_clusters fat <= FAT32_EOC).

(** The loop over the grown chain. *)
Lemma write_grown w f chain news w1 buf offset fuel : Chain fat w (start_cluster f) chain ->
  extended fat w (start_cluster f) chain news w1 -> Forall (fits 8) buf -> 0 <= offset ->
  offset + Z.of_nat (length buf) < 2 ^ 32 -> file_size f <= Z.of_nat (length (chain_data fat w chain)) ->
  offset + Z.of_nat (length buf) <= bps * spc * Z.of_nat (length (chain ++ news)) -> (length buf <= fuel)%nat ->
  exists w', write_loop fat fuel (bps * spc) (chain ++ news) buf 0 offset w1 = Ret (Ok (Z.of_nat (length buf)), w') /\
    write_done w f chain news buf offset
      (mkFile (start_cluster f) (Z.max (file_size f) (offset + Z.of_nat (length buf))) (file_name f)) w'.
Proof using Hv.
  intros Hl X H8 Ho H32 Hsz Hroom Hf. pose proof (ex_chain _ _ _ _ _ _ X) as C1.
  pose proof (chain_clusters fat w1 _ _ C1) as Hcl.
  destruct (write_loop_ok fat Hv (chain ++ news) buf Hcl (chain_nodup fat w1 _ _ C1) H8 ltac:(lia) fuel 0 offset w1)
    as (w2 & E & D & F); [lia..|].
  destruct (written_untouched fat Hv w1 w2 _ _ C1 F) as (C2 & U2 & M2 & _).
  pose proof (extended_untouched fat Hv w _ chain news w1 X) as U1.
  assert (D1 : chain_data fat w1 (chain ++ news) = chain_data fat w (chain ++ news)).
  { apply bind_ext. intros x Hx. apply (ex_data _ _ _ _ _ _ X). by apply (chain_lbas_heap fat Hv (chain ++ news)). }
  exists w2. split; [exact E|]. split; [done|done|intros x Hx; by apply (ex_free _ _ _ _ _ _ X)| | | |].
  - rewrite D, D1. change (Z.to_nat 0) with 0%nat. by rewrite Nat.sub_0_r.
  - rewrite (chain_data_length fat Hv) by done. rewrite (chain_data_length fat Hv) in Hsz by (by eapply chain_clusters).
    pose proof (vo_bps _ _ Hv). pose proof (vo_spc _ _ Hv). rewrite length_app in *. nia.
  - intros s l2 Hl2 Hd. destruct (U1 s l2 Hl2 Hd) as [Hc1 Hd1]. rewrite <- Hd1. apply U2; [done|].
    intros x Hx [Hin|Hin]%elem_of_app; [by apply (Hd x)|]. pose proof (chain_entry fat w s l2 x Hl2 Hx).
    destruct (ex_free _ _ _ _ _ _ X x Hin) as [_ Ex]. rewrite Ex in *. lia.
  - intros M. apply M2, (ex_mirror _ _ _ _ _ _ X), M.
Qed.

Lemma fat_write_ok w f chain buf offset fuel (len := Z.of_nat (length buf)) :
  Chain fat w (start_cluster f) chain -> file_size f <= Z.of_nat (length (chain_data fat w chain)) ->
  Forall (fits 8) buf -> 0 < len -> 0 <= offset -> offset + len + bps * spc < 2 ^ 32 ->
  (length chain <= fuel)%nat -> (length buf <= fuel)%nat -> (offset + len) / (bps * spc) + 1 <= Z.of_nat fuel ->
  (exists news f' w', write fat fuel buf offset (f, w) = Ret (Ok len, (f', w')) /\
     write_done w f chain news buf offset f' w' /\ (length (chain ++ news) <= fuel)%nat) \/
  (exists news w', write fat fuel buf offset (f, w) = Ret (Err IoError, (f, w')) /\ write_full w f chain news w').
Proof using Hv Htot.
  intros Hl Hsz H8 Hlen Ho H32 Hf1 Hf2 Hf3. pose proof (vo_bps _ _ Hv). pose proof (vo_spc _ _ Hv).
  assert (0 < bps * spc) by nia.
  unfold write. rewrite (proj2 (Z.eqb_neq _ _)) by (fold len; lia). fold len.
  destruct (grow_ok fat Hv fuel w f chain (offset + len) Htot Hl Hsz Hf1 ltac:(lia) ltac:(lia))
    as (r & news & w1 & E & X & Hr).
  erewrite stbind_step by done. cbn [fst].
  erewrite stbind_step by (by rewrite add_ok by (unfold fits, usize_bits; lia)).
  destruct Hr as [(-> & Hroom & Hmin)|[-> Hfull]].
  - left. assert (Hlen' : (length (chain ++ news) <= fuel)%nat).
    { destruct Hmin as [->|Hmin]; [by rewrite app_nil_r|].
      assert (Z.of_nat (length (chain ++ news)) - 1 <= (offset + len) / (bps * spc)) by (apply Z.div_le_lower_bound; lia). lia. }
    destruct (write_grown w f chain news w1 buf offset fuel Hl X H8 Ho ltac:(fold len; lia) Hsz Hroom Hf2) as (w2 & E2 & D2).
    exists news, (mkFile (start_cluster f) (Z.max (file_size f) (offset + len)) (file_name f)), w2.
    split; [|by split]. erewrite try_step by exact E.
    erewrite try_step.
    2: { apply on_dev_ok. unfold st_map_err. unfold get_chain.
         by rewrite (get_chain_ok fat Hv w1 _ _ (ex_chain _ _ _ _ _ _ X) fuel []). }
    erewrite stbind_step by (by rewrite mul_ok by (unfold fits, usize_bits; lia)).
    by apply on_dev_ok.
  - right. exists news, w1. split; [by erewrite try_err by exact E|].
    destruct X as [C F O D M] eqn:EX. split; [done|done|done| |done].
    by eapply extended_untouched.
Qed.
Lemma write_read_ok w f chain buf offset fuel (len := Z.of_nat (length buf)) :
  Chain fat w (start_cluster f) chain -> file_size f <= Z.of_nat (length (chain_data fat w chain)) ->
  file_size f < 2 ^ 32 -> Forall (fits 8) buf -> 0 < len -> 0 <= offset -> offset + len + bps * spc < 2 ^ 32 ->
  (length chain <= fuel)%nat -> (length buf <= fuel)%nat -> (offset + len) / (bps * spc) + 1 <= Z.of_nat fuel ->
  (exists news f' w', write fat fuel buf offset (f, w) = Ret (Ok len, (f', w')) /\
     write_done w f chain news buf offset f' w' /\ read fat fuel f' (zeros len) offset w' = Ret ((buf, Ok len), w')) \/
  (exists news w', write fat fuel buf offset (f, w) = Ret (Err IoError, (f, w')) /\ write_full w f chain news w').
Proof using Hv Htot.
  intros Hl Hsz Hu32 H8 Hlen Ho H32 Hf1 Hf2 Hf3. pose proof (vo_bps _ _ Hv). pose proof (vo_spc _ _ Hv).
  destruct (fat_write_ok w f chain buf offset fuel Hl Hsz H8 Hlen Ho H32 Hf1 Hf2 Hf3)
    as [(news & f' & w' & E & Hd & Hf4)|Hfull]; [left|by right].
  exists news, f', w'. split; [exact E|]. split; [done|]. destruct Hd as [-> C F D S U M]. fold len in S.
  assert (Hz : Z.of_nat (length (zeros len)) = len) by (unfold zeros; rewrite length_replicate; lia).
  set (f' := mkFile _ _ _).
  rewrite (fat_read_ok fat w' f' (chain ++ news) (zeros len) offset fuel Hv C); cbn [f' file_size start_cluster]; try lia.
  fold len in D |- *. rewrite Hz, Z.min_l, (drop_ge (zeros len)), app_nil_r by (cbn [f' file_size]; lia). rewrite D.
  assert (length (take (Z.to_nat offset) (chain_data fat w (chain ++ news))) = Z.to_nat offset) as Ht.
  { rewrite length_take. apply (f_equal length) in D. rewrite !length_app, length_take, length_drop in D. lia. }
  rewrite drop_app_length' by done. by rewrite take_app_length' by lia.
Qed.

(** C28: Writing to an open file and reading the range back: either the
    file's chain grows by free clusters as far as needed, the range reads as
    the buffer, every other byte of the chain is as before, and so are all
    other chains and the mirrors; or the disk is full, and then the file's size
    and the bytes of all clusters are as before, but its chain has taken the
    clusters that were left.  A new cluster keeps its old bytes outside the
    range. *)
Theorem fat_write_read w f chain buf offset fuel (len := Z.of_nat (length buf)) :
  Chain fat w (start_cluster f) chain -> file_size f <= Z.of_nat (length (chain_data fat w chain)) ->
  file_size f < 2 ^ 32 -> Forall (fits 8) buf -> 0 < len -> 0 <= offset -> offset + len + bps * spc < 2 ^ 32 ->
  (length chain <= fuel)%nat -> (length buf <= fuel)%nat -> (offset + len) / (bps * spc) + 1 <= Z.of_nat fuel ->
  (exists news f' w', write fat fuel buf offset (f, w) = Ret (Ok len, (f', w')) /\
     write_done w f chain news buf offset f' w' /\ read fat fuel f' (zeros len) offset w' = Ret ((buf, Ok len), w')) \/
  (exists news w', write fat fuel buf offset (f, w) = Ret (Err IoError, (f, w')) /\ write_full w f chain news w').
Proof using Hv Htot. apply write_read_ok. Qed.

(** A file without clusters cannot be written: the attempt to
    follow its chain fails, nothing changes. *)
Theorem fat_write_empty_file w f buf offset fuel : start_cluster f < 2 -> file_size f = 0 -> buf <> [] -> 0 <= offset ->
  offset + Z.of_nat (length buf) + bps * spc < 2 ^ 32 -> write fat (S fuel) buf offset (f, w) = Ret (Err IoError, (f, w)).
Proof using Hv.
  intros Hc Hz Hb Ho H32. pose proof (vo_bps _ _ Hv). pose proof (vo_spc _ _ Hv). assert (0 < bps * spc) by nia.
  assert (0 < Z.of_nat (length buf)) by (destruct buf; [done|cbn [length]; lia]).
  unfold write. rewrite (proj2 (Z.eqb_neq _ _)) by lia. erewrite stbind_step by done. cbn [fst].
  erewrite stbind_step by (by rewrite add_ok by (unfold fits, usize_bits; lia)).
  rewrite (proj2 (Z.ltb_lt _ _)) by lia. do 2 (apply try_err).
  apply on_dev_ok. unfold st_map_err, extend_file.
  erewrite stbind_step by (by rewrite mul_ok by (unfold fits, usize_bits; lia)).
  erewrite stbind_step by (by rewrite add_ok by (unfold fits, usize_bits; lia)).
  erewrite stbind_step by (by rewrite sub_ok by (unfold fits, usize_bits; lia)).
  erewrite stbind_step by (by rewrite udiv_ok by lia). unfold get_chain. cbn [get_chain_from].
  by rewrite (proj2 (Z.ltb_lt _ _)) by done.
Qed.
End Claims.

(** ** Witnesses *)

#[local] Instance debug_profile : Profile := Build_Profile true.

(** Six bytes over the end of the file of 600 bytes in the clusters 2 and 4:
    the chain has room. *)
Lemma fat_write_read_witness : exists news f' w',
  write demo_fat 6 [1; 2; 3; 4; 5; 6] 598 (mkFile 2 600 "A.TXT", demo_disk) = Ret (Ok 6, (f', w')) /\
  write_done demo_fat demo_disk (mkFile 2 600 "A.TXT") [2; 4] news [1; 2; 3; 4; 5; 6] 598 f' w' /\
  read demo_fat 6 f' (zeros 6) 598 w' = Ret (([1; 2; 3; 4; 5; 6], Ok 6), w').
Proof.
  assert (Hl : length (chain_data demo_fat demo_disk [2; 4]) = 1024%nat) by by vm_compute.
  assert (Ht : total_clusters demo_fat <= FAT32_EOC) by by vm_compute.
  destruct (fat_write_read demo_fat demo_volume Ht demo_disk (mkFile 2 600 "A.TXT") [2; 4] [1; 2; 3; 4; 5; 6] 598 6 demo_chain)
    as [H|(news & w' & E & _)]; try (cbn [length demo_fat bytes_per_sector sectors_per_cluster file_size start_cluster]; rewrite ?Hl; lia).
  - repeat constructor; lia.
  - by vm_compute.
  - exact H.
  - exfalso. vm_compute in E. discriminate.
Defined.

Lemma fat_write_empty_file_witness :
  write demo_fat 1 [1] 0 (mkFile 0 0 "E.TXT", demo_disk) = Ret (Err IoError, (mkFile 0 0 "E.TXT", demo_disk)).
Proof. apply (fat_write_empty_file demo_fat demo_volume); [done|done|done|lia|cbn; lia]. Defined.
