(* ===== verification/FatDir.v ===== *)
(** * Directories of FAT32

    Listing, lookup and path resolution of kernel/src/fs/fat/fat32.rs against
    a reference: the entries a directory's bytes stand for, in order, and the
    walk of a path from directory to directory.  The operations are those of
    [Fat32]. *)
From Stdlib Require Import Ascii.
From S2P Require Import Prelude Memory Fd BlockDev Utf8 Fat32 FatWrite.

(** ** Reference definitions *)

(** The 32-byte slots at the start of a list of bytes. *)
Fixpoint slots (n : nat) (l : list Z) : list (list Z) :=
  match n with
  | O => []
  | S n => take 32 l :: slots n (drop 32 l)
  end.

(** The entries of a directory's slots: those before the first slot that
    starts with a zero, without the ones that are no entries. *)
Fixpoint entries_of (raws : list (list Z)) : list DirEntry :=
  match raws with
  | [] => []
  | raw :: raws =>
      if rb raw 0 =? 0 then []
      else match parse_dir_entry raw with
           | Some e => e :: entries_of raws
           | None => entries_of raws
           end
  end.

Section Reference.
Context `{Profile} {W : Type} (fat : FatInfo) `{Disk W (bytes_per_sector fat)}.
Implicit Types w : W.

(** The entries of the directory whose clusters are [chain]. *)
Definition directory (w : W) (chain : list Z) : list DirEntry :=
  let bytes := chain_data fat w chain in entries_of (slots (length bytes / 32) bytes).

Definition named (n : string) (e : DirEntry) : bool := eq_ignore_ascii_case (name e) n.

Definition lookup_entry (w : W) (chain : list Z) (n : string) : option DirEntry := List.find (named n) (directory w chain).

(** The directory a path leads to from the directory at [c]. *)
Inductive Leads (w : W) : Z -> list string -> Z -> Prop :=
  | leads_here c : Leads w c [] c
  | leads_step c chain n e ps d : Chain fat w c chain -> lookup_entry w chain n = Some e -> is_dir e = true ->
      Leads w (first_cluster e) ps d -> Leads w c (n :: ps) d.
End Reference.

(** ** The walk over a directory *)

(** What the three loops compute: a fold that can end early. *)
Fixpoint visit_all {A R} (visit : A -> list Z -> A + R) (raws : list (list Z)) (acc : A) : A + R :=
  match raws with
  | [] => inl acc
  | raw :: raws => match visit acc raw with inl acc => visit_all visit raws acc | inr r => inr r end
  end.

Lemma visit_all_app {A R} (visit : A -> list Z -> A + R) l1 : forall l2 acc,
  visit_all visit (l1 ++ l2) acc =
  match visit_all visit l1 acc with inl acc => visit_all visit l2 acc | inr r => inr r end.
Proof. induction l1 as [|raw l1 IH]; intros l2 acc; [done|]. cbn. destruct (visit acc raw); [apply IH|done]. Qed.

Lemma slots_app n m : forall l1 l2, length l1 = (32 * n)%nat -> slots (n + m) (l1 ++ l2) = slots n l1 ++ slots m l2.
Proof.
  induction n as [|n IH]; intros l1 l2 Hl; [by destruct l1|]. cbn [Nat.add slots app].
  rewrite take_app_le, drop_app_le by lia. rewrite IH by (rewrite length_drop; lia). done.
Qed.

Lemma list_visited raws : forall acc,
  match visit_all list_visit raws acc with inl e => e | inr e => e end = acc ++ entries_of raws.
Proof.
  induction raws as [|raw raws IH]; intros acc; cbn [visit_all entries_of]; [by rewrite app_nil_r|].
  unfold list_visit at 1. destruct (rb raw 0 =? 0); [by rewrite app_nil_r|].
  destruct (parse_dir_entry raw) as [e|]; [|apply IH]. by rewrite IH, <- app_assoc.
Qed.

Lemma find_visited n raws :
  match visit_all (find_visit n) raws tt with inl _ => Err FNotFound | inr r => r end =
  match List.find (named n) (entries_of raws) with Some e => Ok e | None => Err FNotFound end.
Proof.
  induction raws as [|raw raws IH]; [done|]. cbn [visit_all entries_of]. unfold find_visit at 1.
  destruct (rb raw 0 =? 0); [done|]. destruct (parse_dir_entry raw) as [e|]; [|apply IH].
  cbn [List.find]. unfold named at 1. destruct (eq_ignore_ascii_case _ _); [done|apply IH].
Qed.

Section Walk.
Context `{Profile} {W : Type} (fat : FatInfo) `{Disk W (bytes_per_sector fat)} (Hv : volume_ok fat valid).
Context (Hb32 : (32 | bytes_per_sector fat)).
Context {A R : Type} (visit : A -> list Z -> A + R).
Implicit Types w : W.
Notation bps := (bytes_per_sector fat).
Notation spc := (sectors_per_cluster fat).

Lemma walk_slots_ok sector n : forall (i : nat) acc, (32 * (i + n) <= length sector)%nat ->
  walk_slots visit n (Z.of_nat i) sector acc = Ret (visit_all visit (slots n (drop (32 * i) sector)) acc).
Proof using.
  induction n as [|n IH]; intros i acc Hn; [done|]. cbn [walk_slots slots visit_all].
  rewrite slice_ok by lia. cbn [mbind outcome_bind]. change (Z.to_nat 32) with 32%nat.
  replace (Z.to_nat (Z.of_nat i * 32)) with (32 * i)%nat by lia.
  destruct (visit acc _) as [acc'|r]; [|done]. replace (Z.of_nat i + 1) with (Z.of_nat (S i)) by lia.
  rewrite IH by lia. rewrite drop_drop. by replace (32 * S i)%nat with (32 * i + 32)%nat by lia.
Qed.

(** Slots of a sector. *)
Definition per_sector : nat := Z.to_nat (bps / 32).

Lemma sector_slots w lba : valid lba -> length (sector w lba) = (32 * per_sector)%nat.
Proof using Hb32 Hv.
  intros Hl. rewrite sector_length by done. unfold per_sector. pose proof (vo_bps _ _ Hv).
  destruct Hb32 as [q Hq]. rewrite Hq, Z.div_mul by lia. lia.
Qed.

Lemma walk_sectors_ok w base n : forall s acc, 0 <= s -> 0 <= base -> base + s + Z.of_nat n < 2 ^ 64 ->
  (forall i, 0 <= i < s + Z.of_nat n -> valid (base + i)) ->
  walk_sectors fat visit n s base acc w =
  Ret (Ok (visit_all visit (slots (n * per_sector) (map (fun i => base + s + Z.of_nat i) (seq 0 n) ≫= sector w)) acc), w).
Proof using Hb32 Hv.
  induction n as [|n IH]; intros s acc Hs Hb H64 Hval; [done|]. cbn [walk_sectors seq map mbind list_bind].
  erewrite stbind_step by (by rewrite add_ok by (unfold fits; lia)).
  assert (Hva : valid (base + s)) by (apply Hval; lia). assert (Hl := sector_slots w (base + s) Hva).
  erewrite try_step by (by apply (read_sector_ok fat Hv)).
  replace (Z.to_nat (Z.of_nat (length (sector w (base + s))) / 32)) with per_sector.
  2: { rewrite Hl. replace (Z.of_nat (32 * per_sector)) with (Z.of_nat per_sector * 32) by lia.
       rewrite Z.div_mul by lia. lia. }
  erewrite stbind_step by (by rewrite (walk_slots_ok _ per_sector 0) by lia). cbn [Nat.mul].
  change (32 * 0)%nat with 0%nat. rewrite drop_0, Z.add_0_r. rewrite slots_app by done. rewrite visit_all_app.
  destruct (visit_all visit (slots per_sector (sector w (base + s))) acc) as [acc'|r]; [|done].
  rewrite IH by (try lia; intros i Hi; apply Hval; lia). rewrite <- seq_shift, map_map. do 6 f_equal.
  apply list_fmap_ext. intros ? i _. lia.
Qed.

Lemma walk_chain_ok w chain : forall acc, Forall (is_cluster fat) chain ->
  walk_chain fat visit chain acc w =
  Ret (Ok (visit_all visit (slots (length (chain_data fat w chain) / 32) (chain_data fat w chain)) acc), w).
Proof using Hb32 Hv.
  pose proof (vo_bps _ _ Hv). pose proof (vo_spc _ _ Hv). pose proof (vo_total _ _ Hv). pose proof (vo_start _ _ Hv).
  pose proof (vo_fats _ _ Hv). pose proof (vo_spf _ _ Hv). pose proof (vo_heap _ _ Hv).
  induction chain as [|c chain IH]; intros acc Hc; [done|]. apply Forall_cons in Hc as [Hc Hcs].
  cbn [walk_chain]. assert (Hcc := Hc). unfold is_cluster in Hcc.
  assert (0 <= (c - 2) * spc <= 2 ^ 40) by nia. assert (0 <= num_fats fat * sectors_per_fat fat <= 2 ^ 40) by nia.
  set (base := cluster_heap_start_lba fat + (c - 2) * spc).
  erewrite stbind_step.
  2: { unfold cluster_to_lba. rewrite sub_ok by (unfold fits; lia). cbn [mbind outcome_bind].
       rewrite mul_ok by (unfold fits; lia). cbn [mbind outcome_bind]. by rewrite add_ok by (unfold fits; lia). }
  fold base. erewrite try_step.
  2: { apply walk_sectors_ok; try lia. intros i Hi. apply (cluster_valid fat Hv); [done|lia]. }
  assert (E : chain_data fat w (c :: chain) = (map (fun i => base + 0 + Z.of_nat i) (seq 0 (Z.to_nat spc)) ≫= sector w) ++ chain_data fat w chain).
  { unfold chain_data, chain_lbas. cbn [mbind list_bind]. rewrite bind_app. f_equal. unfold cluster_lbas. f_equal.
    apply list_fmap_ext. intros ? i _. unfold base. lia. }
  assert (Hlen : length (map (fun i => base + 0 + Z.of_nat i) (seq 0 (Z.to_nat spc)) ≫= sector w) = (32 * (Z.to_nat spc * per_sector))%nat).
  { rewrite (length_bind _ (32 * per_sector)).
    - rewrite length_map, length_seq. lia.
    - intros y (i & -> & Hi%elem_of_seq)%list_elem_of_fmap. apply sector_slots.
      replace (base + 0 + Z.of_nat i) with (base + Z.of_nat i) by lia. apply (cluster_valid fat Hv); [done|lia]. }
  rewrite E, length_app, Hlen. replace ((32 * (Z.to_nat spc * per_sector) + length (chain_data fat w chain)) / 32)%nat
    with (Z.to_nat spc * per_sector + length (chain_data fat w chain) / 32)%nat.
  2: { rewrite (Nat.mul_comm 32), Nat.div_add_l by lia. done. }
  rewrite slots_app by done. rewrite visit_all_app. destruct (visit_all visit _ acc) as [acc'|r]; [by apply IH|done].
Qed.
End Walk.

(** ** Paths *)

Fixpoint no_slash (s : string) : bool :=
  match s with
  | EmptyString => true
  | String a s => negb (Ascii.eqb a "/") && no_slash s
  end.

Lemma append_cons a s t : String a s +:+ t = String a (s +:+ t).
Proof. done. Qed.

Lemma append_assoc (s t u : string) : (s +:+ t) +:+ u = s +:+ (t +:+ u).
Proof. induction s as [|a s IH]; [done|]. by rewrite !append_cons, IH. Qed.

Lemma append_nil_r (s : string) : s +:+ EmptyString = s.
Proof. induction s as [|a s IH]; [done|]. by rewrite append_cons, IH. Qed.

Lemma no_slash_append s t : no_slash (s +:+ t) = no_slash s && no_slash t.
Proof. induction s as [|a s IH]; [done|]. rewrite append_cons. cbn [no_slash]. by rewrite IH, andb_assoc. Qed.

Lemma split_from_piece s : forall cur rest, no_slash s = true ->
  split_from cur (s +:+ rest) = split_from (cur +:+ s) rest.
Proof.
  induction s as [|a s IH]; intros cur rest Hs; [by rewrite append_nil_r|]. rewrite append_cons. cbn [no_slash split_from] in *.
  apply andb_true_iff in Hs as [Ha%negb_true_iff Hs]. rewrite Ha, IH by done. by rewrite append_assoc.
Qed.

(** Joining components and splitting the result gives the components. *)
Lemma parts_of_join l : Forall (fun s => s <> EmptyString /\ no_slash s = true) l -> parts_of (join l) = l.
Proof.
  induction 1 as [|s l [Hs Hn] Hl IH]; [done|]. assert (String.eqb s EmptyString = false) as Es by (by apply String.eqb_neq).
  destruct l as [|s2 l].
  - unfold parts_of. cbn [join]. rewrite <- (append_nil_r s) at 1. rewrite split_from_piece by done.
    change (split_from (EmptyString +:+ s) EmptyString) with [s]. cbn [List.filter]. by rewrite Es.
  - change (join (s :: s2 :: l)) with (s +:+ ("/" +:+ join (s2 :: l))). unfold parts_of.
    rewrite split_from_piece by done.
    change (split_from (EmptyString +:+ s) ("/" +:+ join (s2 :: l))) with (s :: split_from EmptyString (join (s2 :: l))).
    cbn [List.filter]. rewrite Es. cbn [negb]. f_equal. exact IH.
Qed.

Lemma split_from_no_slash path : forall cur, no_slash cur = true -> Forall (fun s => no_slash s = true) (split_from cur path).
Proof.
  induction path as [|a path IH]; intros cur Hc; cbn [split_from]; [by constructor|].
  destruct (Ascii.eqb a "/") eqn:Ha; [constructor; [done|by apply IH]|]. apply IH.
  rewrite no_slash_append, Hc. cbn. by rewrite Ha.
Qed.

Lemma parts_of_components path : Forall (fun s => s <> EmptyString /\ no_slash s = true) (parts_of path).
Proof.
  unfold parts_of. pose proof (split_from_no_slash path EmptyString eq_refl) as Hs.
  induction Hs as [|s l Hs Hl IH]; cbn [List.filter]; [constructor|].
  destruct (String.eqb_spec s EmptyString); [done|]. by constructor.
Qed.

Section Paths.
Context `{Profile} {W : Type} (fat : FatInfo) `{Disk W (bytes_per_sector fat)} (Hv : volume_ok fat valid).
Context (Hb32 : (32 | bytes_per_sector fat)).
Implicit Types w : W.

Lemma list_entries_ok w c chain fuel : Chain fat w c chain -> (length chain <= fuel)%nat ->
  list_entries fat fuel c w = Ret (Ok (directory fat w chain), w).
Proof using Hb32 Hv.
  intros Hc Hf. unfold list_entries. erewrite try_step by (by apply (get_chain_ok fat Hv w c chain Hc fuel [])). cbn [app].
  erewrite try_step by (apply (walk_chain_ok fat Hv Hb32); by eapply chain_clusters).
  pose proof (list_visited (slots (length (chain_data fat w chain) / 32) (chain_data fat w chain)) []) as E.
  unfold directory. unfold mret, st_ret. do 2 f_equal. f_equal. exact E.
Qed.

Lemma find_entry_ok w c chain n fuel : Chain fat w c chain -> (length chain <= fuel)%nat ->
  find_entry fat fuel c n w =
  Ret (match lookup_entry fat w chain n with Some e => Ok e | None => Err FNotFound end, w).
Proof using Hb32 Hv.
  intros Hc Hf. unfold find_entry. erewrite try_step by (by apply (get_chain_ok fat Hv w c chain Hc fuel [])). cbn [app].
  erewrite try_step by (apply (walk_chain_ok fat Hv Hb32); by eapply chain_clusters).
  unfold mret, st_ret. do 2 f_equal. apply find_visited.
Qed.

Lemma navigate_ok w fuel ps d : forall c, Leads fat w c ps d ->
  (forall x chain, Chain fat w x chain -> (length chain <= fuel)%nat) -> navigate fat fuel ps c w = Ret (Ok d, w).
Proof using Hb32 Hv.
  intros c Hl Hf. induction Hl as [c|c chain n e ps d Hc He Hd Hl IH]; [done|]. cbn [navigate].
  erewrite try_step by (rewrite (find_entry_ok w c chain) by (done || by eapply Hf); by rewrite He).
  by rewrite Hd.
Qed.

Lemma parent_ok w fuel ps d : Forall (fun s => s <> EmptyString /\ no_slash s = true) ps ->
  Leads fat w (root_cluster fat) ps d -> (forall x chain, Chain fat w x chain -> (length chain <= fuel)%nat) ->
  parent_cluster fat fuel ps w = Ret (Ok d, w).
Proof using Hb32 Hv.
  intros Hps Hl Hf. unfold parent_cluster, navigate_to_dir. destruct ps as [|p ps]; [by inversion Hl|].
  rewrite parts_of_join by done. by apply navigate_ok.
Qed.

(** Chains are no longer than the number of clusters. *)
Lemma chain_length w c chain : Chain fat w c chain -> Z.of_nat (length chain) <= total_clusters fat.
Proof using Hv.
  intros Hc. pose proof (vo_total _ _ Hv). pose proof (chain_nodup fat w c chain Hc) as Hnd.
  pose proof (chain_clusters fat w c chain Hc) as Hcl. rewrite Forall_forall in Hcl.
  assert (Hs : chain ⊆+ seqZ 2 (total_clusters fat)).
  { apply NoDup_submseteq; [done|]. intros x Hx. apply elem_of_seqZ. specialize (Hcl x Hx). unfold is_cluster in Hcl. lia. }
  apply submseteq_length in Hs. rewrite length_seqZ in Hs. lia.
Qed.
End Paths.

(** ** Theorems *)

Section Claims.
Context `{Profile} {W : Type} (fat : FatInfo) `{Disk W (bytes_per_sector fat)} (Hv : volume_ok fat valid).
Context (Hb32 : (32 | bytes_per_sector fat)).
Implicit Types w : W.

(** Listing a directory gives its entries in order, looking a name up gives
    the first of them with that name in any case of letters; both only read. *)
Theorem fat_find_lists w c chain n fuel : Chain fat w c chain -> (length chain <= fuel)%nat -> exists l,
  list_entries fat fuel c w = Ret (Ok l, w) /\ l = directory fat w chain /\
  find_entry fat fuel c n w = Ret (match List.find (named n) l with Some e => Ok e | None => Err FNotFound end, w).
Proof using Hb32 Hv.
  intros Hc Hf. exists (directory fat w chain). split; [by apply (list_entries_ok fat Hv Hb32)|]. split; [done|].
  by apply (find_entry_ok fat Hv Hb32).
Qed.

(** C29: A path is resolved component by component from the root directory:
    when its directories lead to a directory, [open] and [stat] answer with
    the first entry there of the last component's name, and [ls] with the
    names of all entries of the directory the whole path leads to. *)
Theorem fat_open_resolves w path fuel : total_clusters fat <= Z.of_nat fuel ->
  (forall ps n d chain, parts_of path = ps ++ [n] -> Leads fat w (root_cluster fat) ps d -> Chain fat w d chain ->
     open fat fuel path w = Ret (match lookup_entry fat w chain n with
       | Some e => if is_dir e then Err FIsADirectory else file_new (first_cluster e) (size e) (name e)
       | None => Err FNotFound end, w) /\
     stat fat fuel path w = Ret (match lookup_entry fat w chain n with
       | Some e => Ok (mkStat (size e) (if is_dir e then Directory else Regular) (name e))
       | None => Err FNotFound end, w)) /\
  (forall d chain, Leads fat w (root_cluster fat) (parts_of path) d -> Chain fat w d chain ->
     ls fat fuel path w = Ret (Ok (map name (directory fat w chain)), w)).
Proof using Hb32 Hv.
  intros Hfuel. assert (Hf : forall x chain, Chain fat w x chain -> (length chain <= fuel)%nat).
  { intros x chain Hc. pose proof (chain_length fat Hv w x chain Hc). lia. }
  split.
  - intros ps n d chain Hp Hl Hc. pose proof (parts_of_components path) as Hps. rewrite Hp in Hps.
    apply Forall_app in Hps as [Hps _]. unfold open, stat. rewrite Hp, last_snoc, removelast_last.
    pose proof (parent_ok fat Hv Hb32 w fuel ps d Hps Hl Hf) as Ep.
    pose proof (find_entry_ok fat Hv Hb32 w d chain n fuel Hc (Hf d chain Hc)) as Ee.
    split; (erewrite try_step by exact Ep); destruct (lookup_entry fat w chain n) as [e|].
    + erewrite try_step by exact Ee. by destruct (is_dir e).
    + by erewrite try_err by exact Ee.
    + by erewrite try_step by exact Ee.
    + by erewrite try_err by exact Ee.
  - intros d chain Hl Hc. unfold ls. assert (E : navigate_to_dir fat fuel path w = Ret (Ok d, w)).
    { unfold navigate_to_dir. destruct (parts_of path); [by inversion Hl|]. by apply (navigate_ok fat Hv Hb32). }
    erewrite try_step by exact E.
    by erewrite try_step by (apply (list_entries_ok fat Hv Hb32 w d chain fuel Hc), (Hf d chain Hc)).
Qed.
End Claims.

(** ** Witnesses *)

#[local] Instance debug_profile : Profile := Build_Profile true.

(** A slot: name, attributes, cluster and size. *)
Definition demo_slot (n : list Z) (attr c sz : Z) : list Z :=
  n ++ [attr] ++ zeros 8 ++ [0; 0] ++ zeros 4 ++ [c; 0] ++ [sz; 0; 0; 0].

(** The root directory, in cluster 2, has the directory SUB in cluster 3,
    which has the file A.TXT of 5 bytes in cluster 4. *)
Definition demo_tree : SectorDisk 64 := mkDisk (
  <[1 := flat_map le_bytes32 [0; 0; 0x0fffffff; 0x0fffffff; 0x0fffffff]]>
  (<[3 := demo_slot [0x53; 0x55; 0x42; 32; 32; 32; 32; 32; 32; 32; 32] 0x10 3 0]>
  (<[4 := demo_slot [0x41; 32; 32; 32; 32; 32; 32; 32; 0x54; 0x58; 0x54] 0x20 4 5]> ∅))).

Lemma demo_slots : (32 | bytes_per_sector demo_fat).
Proof. exists 16. reflexivity. Qed.

Lemma demo_end c : 2 <= c <= 4 -> entry demo_fat demo_tree c = 0x0fffffff -> Chain demo_fat demo_tree c [c].
Proof. intros Hc He. apply chain_end; [unfold is_cluster; cbn; lia|by rewrite He]. Qed.

Lemma fat_open_resolves_witness :
  open demo_fat 4 "/sub/a.txt" demo_tree = Ret (Ok (mkFile 4 5 "A.TXT"), demo_tree).
Proof.
  destruct (fat_open_resolves demo_fat demo_volume demo_slots demo_tree "/sub/a.txt" 4) as [Ho _]; [cbn; lia|].
  destruct (Ho ["sub"%string] "a.txt"%string 3 [3]) as [E _].
  - by vm_compute.
  - apply (leads_step demo_fat demo_tree 2 [2] _ (mkEntry "SUB" 3 0 true) [] 3);
      [apply demo_end; [lia|by vm_compute]|by vm_compute|done|apply leads_here].
  - apply demo_end; [lia|by vm_compute].
  - rewrite E. by vm_compute.
Defined.

Lemma fat_find_lists_witness : exists l, list_entries demo_fat 1 2 demo_tree = Ret (Ok l, demo_tree).
Proof.
  destruct (fat_find_lists demo_fat demo_volume demo_slots demo_tree 2 [2] "sub" 1) as (l & E & _);
    [apply demo_end; [lia|by vm_compute]|cbn; lia|]. exists l. exact E.
Defined.
