(* ===== verification/FatFiles.v ===== *)
(** * FAT32 files behind paths and descriptors

    The whole way of a read: the mount table ([Vfs]) finds the file system of
    a path, FAT32 ([Fat32]) opens the file, a descriptor ([Fd]) keeps the
    offset.  [Fat32Fs] and [Fat32File] (kernel/src/fs/fat/fat32.rs) are
    instances of the [FileSystem] and [File] interfaces here; a file handle is
    a reference to the open file, whose size all its holders share. *)
From S2P Require Import Prelude Memory Fd BlockDev Vfs Fat32 FatWrite FatDir.

(** ** Open files *)

Section Files.
Context `{Profile} {W : Type} `{BlockDevice W} (fat : FatInfo) (fuel : nat).

(** The [Arc<dyn File>]s handed out, and the device. *)
Record files_world := mkFiles { files : list Fat32File; disk : W }.

Definition on_disk {A} (m : st W A) : st files_world A := fun s =>
  match m (disk s) with
  | Ret (a, w) => Ret (a, mkFiles (files s) w)
  | Panic => Panic
  | OutOfFuel => OutOfFuel
  end.

(** An operation on the file behind a handle.  Handles are never dangling. *)
Definition on_handle {A} (h : nat) (m : st (Fat32File * W) A) : st files_world A := fun s =>
  match files s !! h with
  | None => Panic
  | Some f =>
      match m (f, disk s) with
      | Ret (a, (f, w)) => Ret (a, mkFiles (<[h := f]> (files s)) w)
      | Panic => Panic
      | OutOfFuel => OutOfFuel
      end
  end.

Definition fat_file : File files_world nat := {|
  f_read h buf off := on_handle h (f ← gets fst; on_dev (Fat32.read fat fuel f buf off));
  f_write h buf off := on_handle h (Fat32.write fat fuel buf off);
  f_stat h := on_handle h (f ← gets fst; mret (Ok (file_stat f)));
|}.

Definition add_file (f : Fat32File) : st files_world nat := fun s =>
  Ret (length (files s), mkFiles (files s ++ [f]) (disk s)).

Definition open_file (path : string) : st files_world (result nat FsError) :=
  let? f := on_disk (Fat32.fs_open fat fuel path) in
  h ← add_file f; mret (Ok h).

Definition fat_fs : FileSystem files_world unit nat := {|
  Vfs.fs_open _ := open_file;
  Vfs.fs_create _ _ := panic;
  Vfs.fs_delete _ _ := panic;
  Vfs.fs_stat _ path := on_disk (Fat32.fs_stat fat fuel path);
  Vfs.fs_ls _ path := on_disk (Fat32.fs_ls fat fuel path);
  Vfs.fs_mkdir _ _ := panic;
  Vfs.fs_rmdir _ _ := panic;
|}.
End Files.
Arguments files_world : clear implicits.
Arguments mkFiles {W}.

(** A client that reads a file in pieces of the lengths given. *)
Fixpoint read_pieces `{Profile} {W F} `{File W F} (lens : list Z) : st (FileDescriptor F * W) (result (list (list Z)) FdError) :=
  match lens with
  | [] => mret (Ok [])
  | len :: lens =>
      '(buf, r) ← Fd.read (zeros len);
      match r with
      | Err e => mret (Err e)
      | Ok n => let? rest := read_pieces lens in mret (Ok (take (Z.to_nat n) buf :: rest))
      end
  end.

(** ** Lemmas *)

Section Lemmas.
Context `{Profile} {W : Type} (fat : FatInfo) `{Disk W (bytes_per_sector fat)} (Hv : volume_ok fat valid).
Context (fuel : nat) (Hbpc : bytes_per_sector fat * sectors_per_cluster fat < 2 ^ 32).
Implicit Types w : W.

(** Reading at any offset up to the end of the file. *)
Lemma read_upto_end w f chain buf offset (n := Z.min (Z.of_nat (length buf)) (file_size f - offset)) :
  Chain fat w (start_cluster f) chain -> file_size f <= Z.of_nat (length (chain_data fat w chain)) ->
  0 <= offset <= file_size f -> file_size f < 2 ^ 32 -> (length chain <= fuel)%nat -> (length buf <= fuel)%nat ->
  Fat32.read fat fuel f buf offset w =
  Ret ((take (Z.to_nat n) (drop (Z.to_nat offset) (chain_data fat w chain)) ++ drop (Z.to_nat n) buf, Ok n), w).
Proof using Hv Hbpc.
  intros Hc Hsz Ho H32 Hf1 Hf2. destruct (Z.eq_dec offset (file_size f)) as [->|Hne].
  - assert (Hn : n = 0) by (unfold n; lia). unfold Fat32.read. rewrite (proj2 (Z.leb_le _ _)) by lia. by rewrite Hn.
  - apply fat_read_ok; try done. lia.
Qed.

Lemma sum_nonneg k lens : Forall (fun len => 0 <= len <= k) lens -> 0 <= foldr Z.add 0 lens.
Proof using. induction 1; cbn [foldr]; lia. Qed.

(** A read through a descriptor. *)
Lemma read_handle w fs h f buf off fl buf' n : fs !! h = Some f -> fits usize_bits (off + n) ->
  Fat32.read fat fuel f buf off w = Ret ((buf', Ok n), w) ->
  Fd.read (H0 := fat_file fat fuel) buf (mkFd h fl RDONLY off, mkFiles fs w) =
  Ret ((buf', Ok n), (mkFd h fl RDONLY (off + n), mkFiles fs w)).
Proof using.
  intros Hh Hn Er. unfold Fd.read. erewrite stbind_step by done. cbn [fst access].
  change (negb (contains RDONLY READ)) with false. cbv iota. erewrite stbind_step.
  2: { unfold on_file, f_read, fat_file, on_handle. cbn [file offset files disk]. rewrite Hh.
       unfold mbind, st_bind, gets, on_dev. cbn [fst]. rewrite Er. by rewrite list_insert_id. }
  cbv beta iota. erewrite stbind_step by (by rewrite add_ok by (cbn [offset]; done)). by erewrite stbind_step by done.
Qed.

(** A write through a descriptor in append mode goes to the end of the file. *)
Lemma append_handle w fs h f buf off fl r f' w' : fs !! h = Some f ->
  Fat32.write fat fuel buf (file_size f) (f, w) = Ret (r, (f', w')) ->
  (forall n, r = Ok n -> fits usize_bits (file_size f + n)) ->
  Fd.write (H0 := fat_file fat fuel) buf (mkFd h fl APPEND_MODE off, mkFiles fs w) =
  Ret (r, (mkFd h fl APPEND_MODE (file_size f + match r with Ok n => n | Err _ => 0 end), mkFiles (<[h := f']> fs) w')).
Proof using.
  intros Hh Ew Hn. unfold Fd.write. erewrite stbind_step by done. cbn [fst access].
  change (negb (contains APPEND_MODE WRITE)) with false. change (contains APPEND_MODE APPEND) with true. cbv iota.
  erewrite try_step.
  2: { erewrite try_step.
       2: { unfold on_file, f_stat, fat_file, on_handle. cbn [file files disk]. rewrite Hh.
            unfold mbind, st_bind, gets, mret, st_ret. cbn. rewrite list_insert_id by done. reflexivity. }
       by erewrite stbind_step by done. }
  erewrite stbind_step by done. cbn [fst offset file_stat size].
  assert (Ef : on_file (f_write (File := fat_file fat fuel) h buf (file_size f)) (mkFd h fl APPEND_MODE (file_size f), mkFiles fs w) =
    Ret (r, (mkFd h fl APPEND_MODE (file_size f), mkFiles (<[h := f']> fs) w'))).
  { unfold on_file, f_write, fat_file, on_handle. cbn [files disk]. by rewrite Hh, Ew. }
  destruct r as [n|e].
  - erewrite try_step by exact Ef. erewrite stbind_step by (by rewrite add_ok by (by apply Hn)). by erewrite stbind_step by done.
  - rewrite Z.add_0_r. by erewrite try_err by exact Ef.
Qed.

(** Reads through a descriptor, one after the other. *)
Lemma read_pieces_ok w fs h f chain lens : fs !! h = Some f -> Chain fat w (start_cluster f) chain ->
  file_size f <= Z.of_nat (length (chain_data fat w chain)) -> file_size f < 2 ^ 32 -> (length chain <= fuel)%nat ->
  Forall (fun len => 0 <= len <= Z.of_nat fuel) lens -> forall fl off, 0 <= off <= file_size f ->
  exists pieces off', read_pieces (H0 := fat_file fat fuel) lens (mkFd h fl RDONLY off, mkFiles fs w) =
    Ret (Ok pieces, (mkFd h fl RDONLY off', mkFiles fs w)) /\
    off' = Z.min (file_size f) (off + foldr Z.add 0 lens) /\
    concat pieces = take (Z.to_nat (off' - off)) (drop (Z.to_nat off) (chain_data fat w chain)).
Proof using Hv Hbpc.
  intros Hh Hc Hsz H32 Hf Hlens fl. induction Hlens as [|len lens Hlen Hlens IH]; intros off Ho; cbn [read_pieces foldr].
  { exists [], off. split; [done|]. split; [lia|]. by rewrite Z.sub_diag. }
  assert (Hz : Z.of_nat (length (zeros len)) = len) by (unfold zeros; rewrite length_replicate; lia).
  set (n := Z.min len (file_size f - off)).
  pose proof (read_upto_end w f chain (zeros len) off Hc Hsz Ho H32 Hf ltac:(lia)) as Er. cbv zeta in Er. rewrite Hz in Er. fold n in Er.
  set (piece := take (Z.to_nat n) (drop (Z.to_nat off) (chain_data fat w chain))) in *.
  assert (Hpl : length piece = Z.to_nat n) by (unfold piece; rewrite length_take, length_drop; lia).
  assert (E : Fd.read (H0 := fat_file fat fuel) (zeros len) (mkFd h fl RDONLY off, mkFiles fs w) =
    Ret ((piece ++ drop (Z.to_nat n) (zeros len), Ok n), (mkFd h fl RDONLY (off + n), mkFiles fs w))).
  { apply read_handle with (f := f); [done|unfold fits, usize_bits; lia|exact Er]. }
  pose proof (sum_nonneg _ _ Hlens) as Hsum.
  destruct (IH (off + n) ltac:(lia)) as (pieces & off' & E' & Ho' & Hcat).
  exists (take (Z.to_nat n) (piece ++ drop (Z.to_nat n) (zeros len)) :: pieces), off'. split; [|split].
  - erewrite stbind_step by exact E. cbv beta iota. by erewrite try_step by exact E'.
  - lia.
  - cbn [concat]. rewrite take_app_length' by done. rewrite Hcat. unfold piece.
    replace (Z.to_nat (off' - off)) with (Z.to_nat n + Z.to_nat (off' - (off + n)))%nat by lia.
    rewrite <- take_take_drop, drop_drop. by replace (Z.to_nat off + Z.to_nat n)%nat with (Z.to_nat (off + n)) by lia.
Qed.
End Lemmas.

(** ** Theorems *)

Section Claims.
Context `{Profile} {W : Type} (fat : FatInfo) `{Disk W (bytes_per_sector fat)} (Hv : volume_ok fat valid).
Context (Hb32 : (32 | bytes_per_sector fat)) (Hbpc : bytes_per_sector fat * sectors_per_cluster fat < 2 ^ 32).
Implicit Types w : W.

(** The content of a file: the first bytes of its chain, as many as its size. *)
Definition content (w : W) (e : DirEntry) (chain : list Z) : list Z :=
  take (Z.to_nat (size e)) (chain_data fat w chain).

(** C26: From a path to the bytes of a file: when the mount table sends the path
    to the volume and the rest of it leads to an entry, opening it gives a
    new handle, and a descriptor for the handle that reads in pieces of any
    lengths gets the content of the file in order, up to the sum of the
    lengths or the end of the file, and changes nothing on the disk. *)
Theorem path_reads_file w fs fuel mounts p path rest ps n d dirchain e chain lens fl :
  total_clusters fat <= Z.of_nat fuel -> best_mount path mounts = Some (Vfs.mkMount p tt, rest) ->
  parts_of rest = ps ++ [n] -> Leads fat w (root_cluster fat) ps d -> Chain fat w d dirchain ->
  lookup_entry fat w dirchain n = Some e -> is_dir e = false -> Chain fat w (first_cluster e) chain ->
  0 <= size e <= Z.of_nat (length (chain_data fat w chain)) -> size e < 2 ^ 32 ->
  Forall (fun len => 0 <= len <= Z.of_nat fuel) lens ->
  let h := length fs in let s := mkFiles (fs ++ [mkFile (first_cluster e) (size e) (name e)]) w in
  vfs_open (H := fat_fs fat fuel) mounts path (mkFiles fs w) = Ret (Ok h, s) /\
  exists pieces off, read_pieces (H0 := fat_file fat fuel) lens (Fd.new h fl RDONLY, s) =
      Ret (Ok pieces, (mkFd h fl RDONLY off, s)) /\
    off = Z.min (size e) (foldr Z.add 0 lens) /\ concat pieces = take (Z.to_nat off) (content w e chain).
Proof using Hv Hb32 Hbpc.
  intros Hfuel Hm Hp Hl Hdir He Hreg Hc Hsz H32 Hlens h s.
  assert (Hlen : forall x l, Chain fat w x l -> (length l <= fuel)%nat).
  { intros x l Hx. pose proof (chain_length fat Hv w x l Hx). lia. }
  set (f := mkFile (first_cluster e) (size e) (name e)) in *. split.
  - pose proof (chain_clusters fat w _ _ Hc) as Hcl. destruct (chain_starts fat w _ _ Hc) as (l' & ->).
    apply Forall_cons in Hcl as [Hce _]. unfold is_cluster in Hce.
    assert (Eo : Fat32.fs_open fat fuel rest w = Ret (Ok f, w)).
    { unfold Fat32.fs_open, st_map_err, Fat32.open. rewrite Hp, last_snoc, removelast_last.
      pose proof (parts_of_components rest) as Hps. rewrite Hp in Hps. apply Forall_app in Hps as [Hps _].
      erewrite try_step by (by apply (parent_ok fat Hv Hb32 w fuel ps d Hps Hl)).
      erewrite try_step by (rewrite (find_entry_ok fat Hv Hb32 w d dirchain n fuel Hdir (Hlen _ _ Hdir)); by rewrite He).
      rewrite Hreg. unfold mret, st_ret, file_new. by rewrite (proj2 (Z.ltb_ge _ _)) by lia. }
    unfold vfs_open, dispatch. rewrite Hm. cbn [Vfs.fs_open fat_fs Vfs.fs]. unfold open_file.
    erewrite try_step by (unfold on_disk; cbn [disk]; by rewrite Eo). by erewrite stbind_step by done.
  - destruct (read_pieces_ok fat Hv fuel Hbpc w (fs ++ [f]) h f chain lens) with (fl := fl) (off := 0)
      as (pieces & off & E & Ho & Hcat); try done; try (cbn [file_size f]; lia); [by apply list_lookup_middle|by apply (Hlen _ _ Hc)|].
    exists pieces, off. split; [exact E|]. cbn [file_size f] in Ho. split; [exact Ho|]. rewrite Hcat.
    unfold content. rewrite take_take, Z.sub_0_r. change (Z.to_nat 0) with 0%nat. rewrite drop_0. f_equal.
    pose proof (sum_nonneg _ _ Hlens). lia.
Qed.

(** Appending through a descriptor writes the bytes at the end of the file,
    wherever the descriptor's offset was, and moves the offset behind them.  A
    descriptor that shares the open file (one made by [dup]) reads them back
    from the old end.  The open file of a second [open] of the same path has a
    size of its own, which stays as it was: a descriptor for it still finds the
    end of the file there and reads nothing. *)
Theorem append_shared_handle w fs fuel h f chain buf off fl (len := Z.of_nat (length buf)) : fs !! h = Some f ->
  total_clusters fat <= FAT32_EOC -> Chain fat w (start_cluster f) chain ->
  0 <= file_size f <= Z.of_nat (length (chain_data fat w chain)) -> Forall (fits 8) buf -> 0 < len ->
  file_size f + len + bytes_per_sector fat * sectors_per_cluster fat < 2 ^ 32 ->
  (length chain <= fuel)%nat -> (length buf <= fuel)%nat ->
  (file_size f + len) / (bytes_per_sector fat * sectors_per_cluster fat) + 1 <= Z.of_nat fuel ->
  (exists f' w', let s := mkFiles (<[h := f']> fs) w' in
     Fd.write (H0 := fat_file fat fuel) buf (mkFd h fl APPEND_MODE off, mkFiles fs w) =
       Ret (Ok len, (mkFd h fl APPEND_MODE (file_size f + len), s)) /\
     (forall fl', Fd.read (H0 := fat_file fat fuel) (zeros len) (mkFd h fl' RDONLY (file_size f), s) =
        Ret ((buf, Ok len), (mkFd h fl' RDONLY (file_size f + len), s))) /\
     (forall h2 f2 fl2, h2 <> h -> fs !! h2 = Some f2 -> start_cluster f2 = start_cluster f -> file_size f2 = file_size f ->
        Fd.read (H0 := fat_file fat fuel) (zeros len) (mkFd h2 fl2 RDONLY (file_size f), s) =
          Ret ((zeros len, Ok 0), (mkFd h2 fl2 RDONLY (file_size f), s)))) \/
  (exists news w', Fd.write (H0 := fat_file fat fuel) buf (mkFd h fl APPEND_MODE off, mkFiles fs w) =
       Ret (Err IoError, (mkFd h fl APPEND_MODE (file_size f), mkFiles fs w')) /\ write_full fat w f chain news w').
Proof using Hv.
  intros Hh Htot Hc [Hs0 Hsz] H8 Hlen H32 Hf1 Hf2 Hf3.
  pose proof (vo_bps _ _ Hv). pose proof (vo_spc _ _ Hv). assert (0 < bytes_per_sector fat * sectors_per_cluster fat) by nia.
  destruct (write_read_ok fat Hv Htot w f chain buf (file_size f) fuel Hc Hsz ltac:(lia) H8 Hlen Hs0 H32 Hf1 Hf2 Hf3)
    as [(news & f' & w' & Ew & Hd & Er)|(news & w' & Ew & Hfull)]; [left|right].
  - exists f', w'. split; [|split].
    + rewrite (append_handle _ _ _ _ _ _ _ _ _ _ _ _ Hh Ew); [done|]. intros n [= <-]. unfold fits, usize_bits. fold len. lia.
    + intros fl'. apply read_handle with (f := f'); [by apply list_lookup_insert_eq, (lookup_lt_Some _ _ _ Hh)|unfold fits, usize_bits; lia|exact Er].
    + intros h2 f2 fl2 Hne Hh2 _ Es2. rewrite <- (Z.add_0_r (file_size f)) at 2. apply read_handle with (f := f2).
      * by rewrite list_lookup_insert_ne by done.
      * unfold fits, usize_bits. lia.
      * unfold Fat32.read. by rewrite (proj2 (Z.leb_le _ _)) by lia.
  - exists news, w'. split; [|done]. rewrite (append_handle _ _ _ _ _ _ _ _ _ _ _ _ Hh Ew) by done.
    by rewrite Z.add_0_r, list_insert_id.
Qed.
End Claims.

(** ** Witnesses *)

#[local] Instance debug_profile : Profile := Build_Profile true.

(** The file A.TXT of [demo_tree], read in two pieces through a mount at /sd. *)
Lemma path_reads_file_witness : exists pieces,
  vfs_open (H := fat_fs demo_fat 4) [Vfs.mkMount "/sd" tt] "/sd/sub/a.txt" (mkFiles [] demo_tree) =
    Ret (Ok 0%nat, mkFiles [mkFile 4 5 "A.TXT"] demo_tree) /\
  read_pieces (H0 := fat_file demo_fat 4) [3; 4] (Fd.new 0%nat 0 RDONLY, mkFiles [mkFile 4 5 "A.TXT"] demo_tree) =
    Ret (Ok pieces, (mkFd 0%nat 0 RDONLY 5, mkFiles [mkFile 4 5 "A.TXT"] demo_tree)) /\
  concat pieces = [0; 0; 0; 0; 0].
Proof.
  destruct (path_reads_file demo_fat demo_volume demo_slots ltac:(by vm_compute) demo_tree [] 4 [Vfs.mkMount "/sd" tt]
    "/sd" "/sd/sub/a.txt" "sub/a.txt" ["sub"%string] "a.txt" 3 [3] (mkEntry "A.TXT" 4 5 false) [4] [3; 4] 0)
    as (Ho & pieces & off & Er & Hoff & Hc).
  - cbn. lia.
  - by vm_compute.
  - by vm_compute.
  - apply (leads_step demo_fat demo_tree 2 [2] _ (mkEntry "SUB" 3 0 true) [] 3);
      [apply demo_end; [lia|by vm_compute]|by vm_compute|done|apply leads_here].
  - apply demo_end; [lia|by vm_compute].
  - by vm_compute.
  - done.
  - apply demo_end; [lia|by vm_compute].
  - split; vm_compute; congruence.
  - done.
  - repeat constructor; lia.
  - exists pieces. split; [exact Ho|]. change (off = 5) in Hoff. subst off. split; [exact Er|]. rewrite Hc. by vm_compute.
Defined.

(** Six bytes appended to A.TXT, 600 bytes in two clusters, through one of two
    opens of it. *)
Lemma append_shared_handle_witness : exists f' w',
  let s := mkFiles [f'; mkFile 2 600 "A.TXT"] w' in
  Fd.write (H0 := fat_file demo_fat 6) [1; 2; 3; 4; 5; 6] (mkFd 0%nat 0 APPEND_MODE 0, mkFiles [mkFile 2 600 "A.TXT"; mkFile 2 600 "A.TXT"] demo_disk) =
    Ret (Ok 6, (mkFd 0%nat 0 APPEND_MODE 606, s)) /\
  Fd.read (H0 := fat_file demo_fat 6) (zeros 6) (mkFd 0%nat 0 RDONLY 600, s) = Ret (([1; 2; 3; 4; 5; 6], Ok 6), (mkFd 0%nat 0 RDONLY 606, s)) /\
  Fd.read (H0 := fat_file demo_fat 6) (zeros 6) (mkFd 1%nat 0 RDONLY 600, s) = Ret ((zeros 6, Ok 0), (mkFd 1%nat 0 RDONLY 600, s)).
Proof.
  assert (Hl : length (chain_data demo_fat demo_disk [2; 4]) = 1024%nat) by by vm_compute.
  destruct (append_shared_handle demo_fat demo_volume demo_disk [mkFile 2 600 "A.TXT"; mkFile 2 600 "A.TXT"] 6 0 (mkFile 2 600 "A.TXT")
    [2; 4] [1; 2; 3; 4; 5; 6] 0 0) as [(f' & w' & Ew & Er & Er2)|(news & w' & E & _)];
    try (cbn [length demo_fat bytes_per_sector sectors_per_cluster file_size start_cluster]; rewrite ?Hl; lia).
  - done.
  - by vm_compute.
  - exact demo_chain.
  - repeat constructor; lia.
  - by vm_compute.
  - exists f', w'. split; [exact Ew|]. split; [exact (Er 0)|]. by apply (Er2 1%nat (mkFile 2 600 "A.TXT")).
  - exfalso. vm_compute in E. discriminate.
Defined.
