(* ===== verification/FatCard.v ===== *)
(** * FAT32 on the SD card

    The file system of [Fat32] over the driver of [Emmc].  The theorems on
    files are about a disk of sectors; here the card under its driver is shown
    to refine such a disk, operation by operation, so that what holds of files
    on the disk holds of files on the card. *)
From S2P Require Import Prelude Memory Mmio Fd BlockDev Emmc Fat32 FatWrite.

(** ** Refinement of programs

    [m] on a concrete device does what [m'] does on an abstract one, whenever
    [m'] returns. *)
Section Refines.
Context {W A : Type} (R : W -> A -> Prop).

Definition refines {X} (m : st W X) (m' : st A X) : Prop := forall w a x a',
  R w a -> m' a = Ret (x, a') -> exists w', m w = Ret (x, w') /\ R w' a'.

Lemma refines_ret {X} (x : X) : refines (mret x) (mret x).
Proof. intros w a y a' HR [= <- <-]. by exists w. Qed.

Lemma refines_lift {X} (o : outcome X) : refines (lift o) (lift o).
Proof. intros w a x a' HR. unfold lift. destruct o; [|done|done]. intros [= <- <-]. by exists w. Qed.

Lemma refines_panic {X} : refines (X := X) panic panic.
Proof. by intros w a x a' HR. Qed.

Lemma refines_out_of_fuel {X} : refines (X := X) out_of_fuel out_of_fuel.
Proof. by intros w a x a' HR. Qed.

Lemma refines_bind {X Y} (m : st W X) m' (k : X -> st W Y) k' :
  refines m m' -> (forall x, refines (k x) (k' x)) -> refines (m ≫= k) (m' ≫= k').
Proof.
  intros Hm Hk w a y a' HR E. unfold mbind, st_bind in E. destruct (m' a) as [[x a1]| |] eqn:E1; [|done|done].
  destruct (Hm w a x a1 HR E1) as (w1 & Ew & HR1). erewrite stbind_step by exact Ew. by eapply Hk.
Qed.

Lemma refines_try {X Y E} (m : st W (result X E)) m' (k : X -> st W (result Y E)) k' :
  refines m m' -> (forall x, refines (k x) (k' x)) -> refines (try_bind m k) (try_bind m' k').
Proof.
  intros Hm Hk w a y a' HR Ea. unfold try_bind in *. destruct (m' a) as [[x a1]| |] eqn:E1; [|done|done].
  destruct (Hm w a x a1 HR E1) as (w1 & -> & HR1). destruct x as [x|e]; [by eapply Hk|].
  injection Ea as <- <-. by exists w1.
Qed.

Lemma refines_map_err {X E F} (f : E -> F) (m : st W (result X E)) m' :
  refines m m' -> refines (st_map_err f m) (st_map_err f m').
Proof.
  intros Hm w a x a' HR Ea. unfold st_map_err in *. destruct (m' a) as [[y a1]| |] eqn:E1; [|done|done].
  destruct (Hm w a y a1 HR E1) as (w1 & -> & HR1). injection Ea as <- <-. by exists w1.
Qed.
End Refines.

(** Two devices whose reads and writes correspond. *)
Class DeviceRefines {W A : Type} `{BlockDevice W} `{BlockDevice A} (R : W -> A -> Prop) := {
  read_refines lba buf : refines R (read_block (W := W) lba buf) (read_block (W := A) lba buf);
  write_refines lba buf : refines R (write_block (W := W) lba buf) (write_block (W := A) lba buf);
}.

Create HintDb refines.
#[export] Hint Resolve refines_ret refines_lift refines_panic refines_out_of_fuel read_refines write_refines : refines.

(** One step through a program, following its structure. *)
Ltac refine_step :=
  first
    [ solve [eauto 2 with refines]
    | apply refines_try; [|intros ?]
    | apply refines_bind; [|intros ?]
    | apply refines_map_err
    | match goal with |- refines _ (match ?x with _ => _ end) _ => destruct x end ].
Ltac refine_program := repeat (cbv beta zeta; refine_step).

(** ** The file system *)

Section FileSystem.
Context `{Profile} {W A : Type} `{BlockDevice W} `{BlockDevice A} (R : W -> A -> Prop) `{!DeviceRefines R}.

Lemma read_sector_refines {E} (e : E) lba len : refines R (read_sector e lba len) (read_sector e lba len).
Proof using All. unfold read_sector. refine_program. Qed.

Lemma write_sector_refines {E} (e : E) lba buf : refines R (write_sector e lba buf) (write_sector e lba buf).
Proof using All. unfold write_sector. refine_program. Qed.
#[local] Hint Resolve read_sector_refines write_sector_refines : refines.

Lemma mount_refines : refines R mount mount.
Proof using All. unfold mount. refine_program. Qed.

Context (fat : FatInfo).

Lemma read_fat_entry_refines c : refines R (read_fat_entry fat c) (read_fat_entry fat c).
Proof using All. unfold read_fat_entry. refine_program. Qed.

Lemma write_copies_refines n : forall i s buf, refines R (write_copies fat n i s buf) (write_copies fat n i s buf).
Proof using All. induction n as [|n IH]; intros i s buf; cbn [write_copies]; refine_program. Qed.
#[local] Hint Resolve read_fat_entry_refines write_copies_refines : refines.

Lemma write_fat_entry_refines c v : refines R (write_fat_entry fat c v) (write_fat_entry fat c v).
Proof using All. unfold write_fat_entry. refine_program. Qed.

Lemma get_chain_from_refines fuel : forall c l, refines R (get_chain_from fat fuel c l) (get_chain_from fat fuel c l).
Proof using All. induction fuel as [|fuel IH]; intros c l; cbn [get_chain_from]; refine_program. Qed.
#[local] Hint Resolve write_fat_entry_refines get_chain_from_refines : refines.

Lemma get_chain_refines fuel c : refines R (get_chain fat fuel c) (get_chain fat fuel c).
Proof using All. unfold get_chain. refine_program. Qed.

Lemma alloc_from_refines n : forall c, refines R (alloc_from fat n c) (alloc_from fat n c).
Proof using All. induction n as [|n IH]; intros c; cbn [alloc_from]; refine_program. Qed.
#[local] Hint Resolve get_chain_refines alloc_from_refines : refines.

Lemma extend_loop_refines n : forall c, refines R (extend_loop fat n c) (extend_loop fat n c).
Proof using All.
  induction n as [|n IH]; intros c; cbn [extend_loop]; unfold alloc_cluster, link_cluster; refine_program.
Qed.
#[local] Hint Resolve extend_loop_refines : refines.

Lemma extend_file_refines fuel s n : refines R (extend_file fat fuel s n) (extend_file fat fuel s n).
Proof using All. unfold extend_file. refine_program. Qed.
#[local] Hint Resolve extend_file_refines : refines.

Section Walks.
Context {B C : Type} (visit : B -> list Z -> B + C).

Lemma walk_sectors_refines n : forall i base acc,
  refines R (walk_sectors fat visit n i base acc) (walk_sectors fat visit n i base acc).
Proof using All. induction n as [|n IH]; intros i base acc; cbn [walk_sectors]; refine_program. Qed.
#[local] Hint Resolve walk_sectors_refines : refines.

Lemma walk_chain_refines chain : forall acc, refines R (walk_chain fat visit chain acc) (walk_chain fat visit chain acc).
Proof using All. induction chain as [|c chain IH]; intros acc; cbn [walk_chain]; refine_program. Qed.
End Walks.
#[local] Hint Resolve walk_chain_refines : refines.

Lemma list_entries_refines fuel c : refines R (list_entries fat fuel c) (list_entries fat fuel c).
Proof using All. unfold list_entries. refine_program. Qed.

Lemma find_entry_refines fuel c n : refines R (find_entry fat fuel c n) (find_entry fat fuel c n).
Proof using All. unfold find_entry. refine_program. Qed.
#[local] Hint Resolve list_entries_refines find_entry_refines : refines.

Lemma navigate_refines fuel ps : forall c, refines R (navigate fat fuel ps c) (navigate fat fuel ps c).
Proof using All. induction ps as [|p ps IH]; intros c; cbn [navigate]; refine_program. Qed.
#[local] Hint Resolve navigate_refines : refines.

Lemma open_refines fuel path : refines R (open fat fuel path) (open fat fuel path).
Proof using All. unfold open, parent_cluster, navigate_to_dir. refine_program. Qed.

Lemma ls_refines fuel path : refines R (ls fat fuel path) (ls fat fuel path).
Proof using All. unfold ls, navigate_to_dir. refine_program. Qed.

Lemma stat_refines fuel path : refines R (stat fat fuel path) (stat fat fuel path).
Proof using All. unfold stat, parent_cluster, navigate_to_dir. refine_program. Qed.

Lemma read_loop_refines fuel bpc chain btr : forall br off buf,
  refines R (read_loop fat fuel bpc chain btr br off buf) (read_loop fat fuel bpc chain btr br off buf).
Proof using All. induction fuel as [|fuel IH]; intros br off buf; cbn [read_loop]; refine_program. Qed.
#[local] Hint Resolve read_loop_refines : refines.

Lemma read_refines_file fuel f buf off : refines R (read fat fuel f buf off) (read fat fuel f buf off).
Proof using All. unfold read. refine_program. Qed.

Lemma write_loop_refines fuel bpc chain buf : forall bw off,
  refines R (write_loop fat fuel bpc chain buf bw off) (write_loop fat fuel bpc chain buf bw off).
Proof using All. induction fuel as [|fuel IH]; intros bw off; cbn [write_loop]; refine_program. Qed.
#[local] Hint Resolve write_loop_refines : refines.

(** Files keep their own state next to the device's. *)
Definition with_file (s : Fat32File * W) (t : Fat32File * A) : Prop := s.1 = t.1 /\ R s.2 t.2.

Lemma on_dev_refines {X} (m : st W X) m' : refines R m m' -> refines with_file (on_dev m) (on_dev m').
Proof using.
  intros Hm [f w] [g a] x a' [Hf HR] E. cbn in Hf, HR. subst g. unfold on_dev in *.
  destruct (m' a) as [[y a1]| |] eqn:E1; [|done|done]. injection E as <- <-.
  destruct (Hm w a y a1 HR E1) as (w1 & -> & HR1). by exists (f, w1).
Qed.

Lemma set_size_refines n : refines with_file (set_size n) (set_size n).
Proof using. intros [f w] [g a] x a' [Hf HR] [= <- <-]. cbn in Hf, HR. subst g. eexists. split; [done|by split]. Qed.

Lemma file_refines : refines with_file (gets fst) (gets fst).
Proof using. intros [f w] [g a] x a' [Hf HR] [= <- <-]. cbn in Hf, HR. subst g. eexists. split; [done|by split]. Qed.
#[local] Hint Resolve on_dev_refines set_size_refines file_refines refines_map_err : refines.

Lemma write_refines_file fuel buf off : refines with_file (write fat fuel buf off) (write fat fuel buf off).
Proof using All. unfold write. refine_program; apply on_dev_refines; refine_program. Qed.
End FileSystem.

(** ** The card *)

Section Card.
Context `{Profile} {D : Type} `{Controller D} (e : Emmc) (He : base e = EMMC_BASE).
Context (Hcount : block_count (csd e) < 2 ^ 64).
Notation n := (block_count (csd e)).

(** The driver and its card at rest show the sectors of a disk. *)
Definition Shows (s : Emmc * D) (a : SectorDisk n) : Prop :=
  s.1 = e /\ idle e s.2 /\ forall lba, 0 <= lba < n -> Emmc.sector e (blocks (card s.2)) lba = ram_sector a lba.

Lemma in_disk_true lba buf : in_disk n lba buf = true -> 0 <= lba < n /\ large buf.
Proof using. unfold in_disk, large. rewrite !andb_true_iff, !Z.leb_le, Z.ltb_lt. lia. Qed.

#[export] Instance card_refines : DeviceRefines Shows.
Proof using He Hcount.
  split.
  - intros lba buf [e1 d] a x a' (E1 & Hd & Hs) E. cbn [fst snd] in *. subst e1. cbn in E.
    destruct (in_disk n lba buf) eqn:Hin; [|done]. injection E as <- <-. apply in_disk_true in Hin as [Hl Hb].
    destruct (read_blocks_ok e He lba [buf] d Hd ltac:(lia) ltac:(cbn; lia) ltac:(by constructor)) as (d' & Er & Hd' & Hbl).
    exists (e, d'). split; [|split; [done|split; [done|]]].
    + cbn [read_block emmc_block_device]. erewrite stbind_step by (unfold dev; by rewrite Er). cbn [filled head default].
      by rewrite Hs.
    + intros i Hi. cbn [snd]. rewrite Hbl. by apply Hs.
  - intros lba buf [e1 d] a x a' (E1 & Hd & Hs) E. cbn [fst snd] in *. subst e1. cbn in E.
    destruct (in_disk n lba buf) eqn:Hin; [|done]. destruct (forallb is_byte buf) eqn:H8; [|done]. cbn [andb] in E.
    injection E as <- <-. apply in_disk_true in Hin as [Hl Hb]. apply is_byte_fits in H8.
    destruct (write_blocks_ok e He lba [buf] d Hd ltac:(lia) ltac:(cbn; lia) ltac:(by constructor)) as (d' & Ew & Hd' & Hbl).
    exists (e, d'). split; [|split; [done|split; [done|]]].
    + cbn [write_block emmc_block_device]. unfold st_map_err, dev. by rewrite Ew.
    + intros i Hi. cbn [snd]. rewrite Hbl, sector_stored by (by constructor). unfold large in Hb.
      rewrite ram_sector_insert by (done || lia). cbn [length]. destruct (decide (i = lba)) as [->|].
      * rewrite decide_True by lia. by rewrite Z.sub_diag.
      * rewrite decide_False by lia. by apply Hs.
Qed.

(** The disk a card shows. *)
Definition card_disk (d : D) : SectorDisk n :=
  mkDisk (list_to_map (map (fun i => (i, Emmc.sector e (blocks (card d)) i)) (seqZ 0 n))).

Lemma le_bytes_all ws : Forall (fits 8) (flat_map le_bytes32 ws).
Proof using. induction ws as [|w ws IH]; [constructor|]. apply Forall_app. split; [apply le_bytes32_fits|done]. Qed.

Lemma le_bytes_length ws : length (flat_map le_bytes32 ws) = (4 * length ws)%nat.
Proof using. induction ws as [|w ws IH]; [done|]. cbn [flat_map length]. rewrite length_app, IH. cbn [le_bytes32 length]. lia. Qed.

Lemma card_disk_shows d : idle e d -> Shows (e, d) (card_disk d).
Proof using.
  intros Hd. split; [done|]. split; [done|]. intros lba Hl. cbn [snd]. unfold ram_sector, card_disk. cbn [sectors].
  set (f := fun i => (i, Emmc.sector e (blocks (card d)) i)).
  assert (Hlk : (list_to_map (map f (seqZ 0 n)) : gmap Z (list Z)) !! lba = Some (Emmc.sector e (blocks (card d)) lba)).
  { apply elem_of_list_to_map_1.
    - replace ((map f (seqZ 0 n)).*1) with (seqZ 0 n); [apply NoDup_seqZ|]. rewrite <- list_fmap_compose. symmetry. apply list_fmap_id.
    - apply list_elem_of_fmap. exists lba. split; [done|]. apply elem_of_seqZ. lia. }
  rewrite Hlk. change (default [] (Some ?x)) with x.
  assert (Hlen : length (Emmc.sector e (blocks (card d)) lba) = 512%nat).
  { unfold Emmc.sector. rewrite le_bytes_length. destruct Hd as [_ Hbl]. destruct (Hbl lba Hl) as [_ ->]. done. }
  rewrite map_wrap_bytes by apply le_bytes_all. symmetry. by apply take_app_length'.
Qed.
End Card.

(** ** Theorems *)

Section Claims.
Context `{Profile} {D : Type} `{Controller D} (e : Emmc) (He : base e = EMMC_BASE).
Context (Hcount : block_count (csd e) < 2 ^ 64).

Lemma write_on_card (d : D) a fat fuel f buf off x f' a' : Shows e (e, d) a ->
  write fat fuel buf off (f, a) = Ret (x, (f', a')) ->
  exists d', write fat fuel buf off (f, (e, d)) = Ret (x, (f', (e, d'))) /\ Shows e (e, d') a'.
Proof using He Hcount.
  intros HS E. pose proof (card_refines e He Hcount) as Hdev.
  destruct (write_refines_file (Shows e) fat fuel buf off (f, (e, d)) (f, a) x (f', a'))
    as ([g [e1 d']] & E' & Hg & HS'); [by split|done|].
  cbn in Hg, HS'. subst g. assert (e1 = e) as -> by apply HS'. by exists d'.
Qed.

(** C22: The file system on the card refines the file system on a disk of sectors:
    whenever the disk shows the card's sectors and an operation returns on the
    disk, it returns the same on the card, and the disk shows the card's
    sectors afterwards. *)
Theorem fat_on_card (d : D) a fat fuel : Shows e (e, d) a ->
  let agree {X} (m : st (Emmc * D) X) (m' : st (SectorDisk (block_count (csd e))) X) := forall x a', m' a = Ret (x, a') ->
    exists d', m (e, d) = Ret (x, (e, d')) /\ Shows e (e, d') a' in
  agree mount mount /\
  (forall path, agree (open fat fuel path) (open fat fuel path) /\ agree (ls fat fuel path) (ls fat fuel path) /\
     agree (stat fat fuel path) (stat fat fuel path)) /\
  (forall f buf off, agree (read fat fuel f buf off) (read fat fuel f buf off)) /\
  (forall f buf off x f' a', write fat fuel buf off (f, a) = Ret (x, (f', a')) ->
     exists d', write fat fuel buf off (f, (e, d)) = Ret (x, (f', (e, d'))) /\ Shows e (e, d') a').
Proof using He Hcount.
  intros HS agree. pose proof (card_refines e He Hcount) as Hdev.
  assert (Hagree : forall X (m : st (Emmc * D) X) m', refines (Shows e) m m' -> agree X m m').
  { intros X m m' Hm x a' E. destruct (Hm (e, d) a x a' HS E) as ([e1 d'] & E' & HS').
    assert (e1 = e) as -> by apply HS'. by exists d'. }
  split_and!.
  - apply Hagree, (mount_refines (Shows e)).
  - intros path. split_and!; apply Hagree; [apply (open_refines (Shows e))|apply (ls_refines (Shows e))|apply (stat_refines (Shows e))].
  - intros f buf off. apply Hagree, (read_refines_file (Shows e)).
  - intros f buf off x f' a' E. by eapply write_on_card.
Qed.

(** C21: A file on the card, through the whole stack: after a write
    that succeeds the range reads as the buffer, from the card; a write that
    finds the disk full reports an I/O error and leaves the file's size; and
    in both cases no other file of the card changes. *)
Theorem card_write_read (d : D) fat f chain buf offset fuel (a := card_disk e d) (len := Z.of_nat (length buf)) :
  idle e d -> bytes_per_sector fat = 512 -> volume_ok fat (fun lba => 0 <= lba < block_count (csd e)) ->
  total_clusters fat <= FAT32_EOC -> Chain fat a (start_cluster f) chain ->
  file_size f <= Z.of_nat (length (chain_data fat a chain)) -> file_size f < 2 ^ 32 -> Forall (fits 8) buf ->
  0 < len -> 0 <= offset -> offset + len + 512 * sectors_per_cluster fat < 2 ^ 32 -> (length chain <= fuel)%nat ->
  (length buf <= fuel)%nat -> (offset + len) / (512 * sectors_per_cluster fat) + 1 <= Z.of_nat fuel ->
  exists d' a', Shows e (e, d') a' /\ untouched fat a chain a' /\
  ((exists f' d'', write fat fuel buf offset (f, (e, d)) = Ret (Ok len, (f', (e, d'))) /\
      file_size f' = Z.max (file_size f) (offset + len) /\
      read fat fuel f' (zeros len) offset (e, d') = Ret ((buf, Ok len), (e, d''))) \/
   write fat fuel buf offset (f, (e, d)) = Ret (Err IoError, (f, (e, d')))).
Proof using He Hcount.
  intros Hd Hbps Hv Htot Hl Hsz Hu32 H8 Hlen Ho H32 Hf1 Hf2 Hf3. destruct fat as [b spc rsc nf nde spf root fs heap part tot].
  cbn [bytes_per_sector] in Hbps. subst b. set (fat := mkFat 512 _ _ _ _ _ _ _ _ _ _) in *.
  set (n := block_count (csd e)).
  pose proof (card_refines e He Hcount) as Hdev.
  assert (HS : Shows e (e, d) a) by (by apply card_disk_shows).
  destruct (@write_read_ok _ (SectorDisk n) fat (ram_device n) (ram_disk n) Hv Htot a f chain buf offset fuel Hl Hsz Hu32 H8 Hlen Ho H32 Hf1 Hf2 Hf3)
    as [(news & f' & a' & Ew & Hwd & Er)|(news & a' & Ew & Hwf)];
    destruct (write_on_card d a fat fuel f buf offset _ _ _ HS Ew) as (d' & Ed & HS'); exists d', a'.
  - split; [done|]. split; [apply (wd_untouched _ _ _ _ _ _ _ _ _ Hwd)|left].
    destruct (read_refines_file (Shows e) fat fuel f' (zeros len) offset (e, d') a' _ _ HS' Er) as ([e1 d''] & E'' & HS'').
    assert (e1 = e) as -> by apply HS''. exists f', d''. split; [exact Ed|]. split; [|exact E''].
    by rewrite (wd_file _ _ _ _ _ _ _ _ _ Hwd).
  - split; [done|]. split; [apply (wf_untouched _ _ _ _ _ _ Hwf)|by right].
Qed.
End Claims.

(** ** Witnesses *)

#[local] Instance debug_profile : Profile := Build_Profile true.

(** A card of 64 blocks with the volume of [demo_fat]: two tables in the
    blocks 1 and 2, a file of 600 bytes in the clusters 2 and 4. *)
Definition fat_words : list Z := [0; 0; 4; 0; 0x0fffffff] ++ replicate 123 0.
Definition small_emmc : Emmc := mkEmmc EMMC_BASE cid_default (mkCsd V2_0 32768 0 512 512 0) 1 SDv2.
Definition fat_card : Card :=
  mkCard (fun b => if (b =? 1) || (b =? 2) then fat_words else replicate 128 b) 0 Idle.

Lemma fat_card_idle : idle small_emmc fat_card.
Proof.
  split; [done|]. intros lba Hl. change (block_count (csd small_emmc)) with 64 in Hl.
  change (card_address small_emmc lba) with lba. split; [unfold fits; lia|].
  change (length (if (lba =? 1) || (lba =? 2) then fat_words else replicate 128 lba) = 128%nat).
  by destruct ((lba =? 1) || (lba =? 2)).
Qed.

Lemma fat_on_card_witness : exists x d',
  stat demo_fat 9 "/" (small_emmc, fat_card) = Ret (x, (small_emmc, d')) /\
  Shows small_emmc (small_emmc, d') (card_disk small_emmc fat_card).
Proof.
  destruct (fat_on_card small_emmc eq_refl ltac:(by vm_compute) fat_card (card_disk small_emmc fat_card) demo_fat 9
    (card_disk_shows small_emmc fat_card fat_card_idle)) as (_ & Hp & _).
  destruct (Hp "/"%string) as (_ & _ & Hs). eexists. apply Hs. reflexivity.
Defined.

Lemma fat_card_chain : Chain demo_fat (card_disk small_emmc fat_card) 2 [2; 4].
Proof.
  apply chain_step; [unfold is_cluster; cbn; lia|split; vm_compute; congruence|].
  replace (entry demo_fat (card_disk small_emmc fat_card) 2) with 4 by by vm_compute.
  apply chain_end; [unfold is_cluster; cbn; lia|vm_compute; congruence].
Qed.

Lemma card_write_read_witness : exists f' d' d'',
  write demo_fat 6 [1; 2; 3; 4; 5; 6] 598 (mkFile 2 600 "A.TXT", (small_emmc, fat_card)) = Ret (Ok 6, (f', (small_emmc, d'))) /\
  read demo_fat 6 f' (zeros 6) 598 (small_emmc, d') = Ret (([1; 2; 3; 4; 5; 6], Ok 6), (small_emmc, d'')).
Proof.
  assert (Hl : length (chain_data demo_fat (card_disk small_emmc fat_card) [2; 4]) = 1024%nat) by by vm_compute.
  destruct (card_write_read small_emmc eq_refl ltac:(by vm_compute) fat_card demo_fat (mkFile 2 600 "A.TXT") [2; 4]
    [1; 2; 3; 4; 5; 6] 598 6 fat_card_idle eq_refl demo_volume ltac:(by vm_compute) fat_card_chain)
    as (d' & a' & _ & _ & [(f' & d'' & E1 & _ & E2)|E]);
    try (cbn [length demo_fat sectors_per_cluster file_size start_cluster]; rewrite ?Hl; lia).
  - repeat constructor; unfold fits; lia.
  - by vm_compute.
  - exists f', d', d''. split; [exact E1|exact E2].
  - exfalso. vm_compute in E. discriminate.
Defined.
