(* ===== verification/FatMount.v ===== *)
(** * Mounting a FAT32 volume

    What [Fat32FsInner::mount] (kernel/src/fs/fat/fat32.rs) makes of the first
    sector of a disk and of the boot sector of its first partition, and what
    it does not look at. *)
From S2P Require Import Prelude Memory BlockDev Fat32 FatWrite.

(** ** Reference *)

(** A 16-bit field of a sector. *)
Definition half_at (l : list Z) (i : Z) : Z := u16_of_le (l !!! Z.to_nat i) (l !!! Z.to_nat (i + 1)).
Definition byte_at (l : list Z) (i : Z) : Z := l !!! Z.to_nat i.

(** The fields of a boot sector, at the offsets of the FAT32 layout. *)
Definition bpb_total (bs : list Z) : Z := if half_at bs 19 =? 0 then word_at bs 32 else half_at bs 19.
Definition bpb_fats (bs : list Z) : Z := byte_at bs 16 * word_at bs 36.

(** The sectors behind the FATs. *)
Definition bpb_data (bs : list Z) : Z := bpb_total bs - half_at bs 14 - bpb_fats bs.

(** The volume that a boot sector at [p] describes, with [data] sectors of
    clusters. *)
Definition volume_of (p : Z) (bs : list Z) (data : Z) : FatInfo :=
  mkFat (half_at bs 11) (byte_at bs 13) (half_at bs 14) (byte_at bs 16) (half_at bs 17) (word_at bs 36) (word_at bs 44)
    (p + half_at bs 14) (p + half_at bs 14 + bpb_fats bs) p (wrap 32 (data / byte_at bs 13)).

(** What the FAT32 layout asks of a boot sector, and the disk of it, for
    sectors of 512 bytes. *)
Record bpb_ok (p : Z) (bs : list Z) (valid : Z -> Prop) : Prop := {
  bo_sector : half_at bs 11 = 512;
  bo_cluster : byte_at bs 13 <> 0;
  bo_fats : byte_at bs 16 <> 0;
  bo_spf : word_at bs 36 <> 0;
  bo_data : 0 <= bpb_data bs;
  bo_room : 4 * (bpb_data bs / byte_at bs 13 + 2) <= 512 * word_at bs 36;
  bo_valid lba : p <= lba < p + bpb_total bs -> valid lba;
}.

(** ** Lemmas *)

Section Lemmas.
Context `{Profile} {W : Type} `{Disk W 512}.
Implicit Types w : W.

Lemma byte_at_fits (l : list Z) i : Forall (fits 8) l -> fits 8 (byte_at l i).
Proof using.
  intros Hl. unfold byte_at. destruct (Nat.lt_ge_cases (Z.to_nat i) (length l)) as [Hi|Hi].
  - by apply Forall_lookup_total_1.
  - rewrite list_lookup_total_alt, lookup_ge_None_2 by lia. by vm_compute.
Qed.

Lemma half_fits (l : list Z) i : Forall (fits 8) l -> fits 16 (half_at l i).
Proof using.
  intros Hl. pose proof (byte_at_fits l i Hl). pose proof (byte_at_fits l (i + 1) Hl). unfold half_at, u16_of_le, byte_at, fits in *. lia.
Qed.

Lemma word_fits (l : list Z) i : Forall (fits 8) l -> fits 32 (word_at l i).
Proof using.
  intros Hl. pose proof (byte_at_fits l i Hl). pose proof (byte_at_fits l (i + 1) Hl).
  pose proof (byte_at_fits l (i + 2) Hl). pose proof (byte_at_fits l (i + 3) Hl).
  unfold word_at, u32_of_le, byte_at, fits in *. lia.
Qed.

Lemma le16_ok l i : 0 <= i -> i + 2 <= Z.of_nat (length l) -> le16 l i = Ret (half_at l i).
Proof using. intros ??. unfold le16. by rewrite !index_total by lia. Qed.

(** The sizes that go into the arithmetic of [parse]. *)
Lemma bpb_bounds (bs : list Z) : Forall (fits 8) bs ->
  0 <= bpb_total bs < 2 ^ 32 /\ fits 16 (half_at bs 14) /\ 0 <= bpb_fats bs < 2 ^ 40 /\ fits 8 (byte_at bs 13).
Proof using.
  intros Hb. pose proof (word_fits bs 32 Hb). pose proof (half_fits bs 19 Hb). pose proof (half_fits bs 14 Hb).
  pose proof (byte_at_fits bs 16 Hb). pose proof (word_fits bs 36 Hb). pose proof (byte_at_fits bs 13 Hb).
  unfold bpb_total, bpb_fats, fits in *. split; [destruct (_ =? 0); lia|]. split; [lia|]. split; [nia|lia].
Qed.

(** [parse] up to its arithmetic. *)
Lemma parse_fields bs : length bs = 512%nat -> Forall (fits 8) bs ->
  parse bs =
    (d ← sub 64 (bpb_total bs) (half_at bs 14);
     fats ← mul 64 (byte_at bs 16) (word_at bs 36);
     data ← sub 64 d fats;
     n ← udiv data (byte_at bs 13);
     Ret (Ok (mkFat (half_at bs 11) (byte_at bs 13) (half_at bs 14) (byte_at bs 16) (half_at bs 17) (word_at bs 36)
       (word_at bs 44) 0 0 0 (wrap 32 n)))).
Proof using.
  intros Hl Hb. unfold parse. rewrite !le16_ok by lia. rewrite !index_total by lia. rewrite !le32_ok by lia. cbn.
  unfold bpb_total. by destruct (half_at bs 19 =? 0).
Qed.

(** The arithmetic of [parse]: a volume smaller than its FATs is found only
    with overflow checks on. *)
Lemma data_sectors {A} bs (k : Z -> outcome A) : Forall (fits 8) bs ->
  (d ← sub 64 (bpb_total bs) (half_at bs 14);
   fats ← mul 64 (byte_at bs 16) (word_at bs 36);
   data ← sub 64 d fats; k data) =
  (if 0 <=? bpb_data bs then k (bpb_data bs) else if debug_assertions then Panic else k (bpb_data bs mod 2 ^ 64)).
Proof using.
  intros Hb. destruct (bpb_bounds bs Hb) as (Ht & Hr & Hf & _). unfold fits in Hr.
  assert (Em : mul 64 (byte_at bs 16) (word_at bs 36) = Ret (bpb_fats bs)) by (apply mul_ok; unfold fits, bpb_fats in *; lia).
  destruct (Z.leb_spec 0 (bpb_data bs)) as [Hd|Hd]; unfold bpb_data in *.
  { rewrite sub_ok by (unfold fits; lia). cbn. rewrite Em. cbn. by rewrite sub_ok by (unfold fits; lia). }
  destruct debug_assertions eqn:Ed.
  - assert (Hs : forall a b, a - b < 0 -> sub 64 a b = Panic).
    { intros a b Hab. unfold sub, arith. rewrite Ed. by rewrite (proj2 (Z.leb_gt _ _)) by lia. }
    destruct (Z.le_gt_cases 0 (bpb_total bs - half_at bs 14)) as [Hd'|Hd']; [|by rewrite Hs].
    rewrite sub_ok by (unfold fits; lia). cbn. rewrite Em. cbn. by rewrite Hs by lia.
  - assert (Hs : forall a b, sub 64 a b = Ret ((a - b) mod 2 ^ 64)).
    { intros a b. unfold sub, arith. rewrite Ed. destruct (Z.leb_spec 0 (a - b)), (Z.ltb_spec (a - b) (2 ^ 64)); cbn; try done.
      by rewrite Z.mod_small by lia. }
    rewrite Hs. cbn. rewrite Em. cbn. rewrite Hs. cbn. by rewrite Zminus_mod_idemp_l.
Qed.

Lemma mount_ok w (p := word_at (sector w 0) 454) (bs := sector w p) : valid 0 -> valid p ->
  mount w =
    if byte_at bs 13 =? 0 then Panic
    else if 0 <=? bpb_data bs then Ret (Ok (volume_of p bs (bpb_data bs)), w)
    else if debug_assertions then Panic
    else Ret (Ok (volume_of p bs (bpb_data bs mod 2 ^ 64)), w).
Proof using.
  intros H0v Hpv. pose proof (sector_length w p Hpv) as Hl. pose proof (sector_bytes w p Hpv) as Hb.
  change (Z.to_nat 512) with 512%nat in Hl. fold bs in Hl, Hb. destruct (bpb_bounds bs Hb) as (Ht & Hr & Hf & Hc).
  pose proof (sector_length w 0 H0v) as Hl0. change (Z.to_nat 512) with 512%nat in Hl0.
  pose proof (word_fits (sector w 0) 454 (sector_bytes w 0 H0v)) as Hp. fold p in Hp. unfold fits in *.
  assert (Er : forall lba, valid lba -> read_sector FReadError lba 512 w = Ret (Ok (sector w lba), w)).
  { intros lba Hv. unfold read_sector. by erewrite stbind_step by (by apply read_law). }
  assert (Hmk : forall data, (let? fat := lift (n ← udiv data (byte_at bs 13); Ret (Ok (mkFat (half_at bs 11) (byte_at bs 13)
      (half_at bs 14) (byte_at bs 16) (half_at bs 17) (word_at bs 36) (word_at bs 44) 0 0 0 (wrap 32 n)))) in
    start ← lift (add 64 p (reserved_sector_count fat));
    total_fat_sectors ← lift (mul 64 (num_fats fat) (sectors_per_fat fat));
    heap ← lift (add 64 start total_fat_sectors);
    mret (Ok (mkFat (bytes_per_sector fat) (sectors_per_cluster fat) (reserved_sector_count fat)
      (num_fats fat) (num_dir_entries fat) (sectors_per_fat fat) (root_cluster fat)
      start heap p (total_clusters fat)))) w =
    if byte_at bs 13 =? 0 then Panic else Ret (Ok (volume_of p bs data), w) :> outcome (result FatInfo Fat32Error * W)).
  { intros data. unfold udiv. destruct (byte_at bs 13 =? 0); [done|]. erewrite try_step by reflexivity.
    cbn [reserved_sector_count num_fats sectors_per_fat].
    erewrite stbind_step by (by rewrite add_ok by (unfold fits; lia)).
    erewrite stbind_step by (by rewrite mul_ok by (unfold fits, bpb_fats in *; lia)). fold (bpb_fats bs).
    by erewrite stbind_step by (by rewrite add_ok by (unfold fits; lia)). }
  unfold mount. erewrite try_step by (by apply Er). erewrite stbind_step by (by rewrite le32_ok by lia). fold p.
  erewrite try_step by (by apply Er). fold bs. rewrite parse_fields, data_sectors by done.
  destruct (0 <=? bpb_data bs); [by rewrite Hmk|]. destruct debug_assertions; [by destruct (_ =? 0)|by rewrite Hmk].
Qed.
End Lemmas.

(** ** Theorems *)

Section Claims.
Context `{Profile} {W : Type} `{Disk W 512}.
Implicit Types w : W.

(** [mount] reads the first sector and the boot sector of the partition at
    its offset 454, and accepts any boot sector whose sectors per cluster are
    not zero and whose sectors cover its FATs: no signature, sector size or
    number of FATs is looked at.  Zero sectors per cluster stop the kernel; so
    does a volume smaller than its FATs in a debug build, and in a release
    build its size wraps around. *)
Theorem mount_result w (p := word_at (sector w 0) 454) (bs := sector w p) : valid 0 -> valid p ->
  mount w =
    if byte_at bs 13 =? 0 then Panic
    else if 0 <=? bpb_data bs then Ret (Ok (volume_of p bs (bpb_data bs)), w)
    else if debug_assertions then Panic
    else Ret (Ok (volume_of p bs (bpb_data bs mod 2 ^ 64)), w).
Proof using. apply mount_ok. Qed.

(** C25: A boot sector of the FAT32 layout mounts as a volume that the rest of the
    file system can work on: sectors of 512 bytes, FATs behind the reserved
    sectors, clusters behind the FATs, all of them on the disk and with a
    place in the FAT. *)
Theorem mount_volume w (p := word_at (sector w 0) 454) : valid 0 -> valid p -> bpb_ok p (sector w p) valid ->
  exists fat, mount w = Ret (Ok fat, w) /\ bytes_per_sector fat = 512 /\ volume_ok fat valid /\
    fat_start_lba fat = p + half_at (sector w p) 14 /\
    total_clusters fat = bpb_data (sector w p) / sectors_per_cluster fat.
Proof using.
  intros H0v Hpv [Bs Bc Bf Bspf Bd Br Bv]. pose proof (sector_bytes w p Hpv) as Hb. set (bs := sector w p) in *.
  destruct (bpb_bounds bs Hb) as (Ht & Hr & Hf & Hc). pose proof (byte_at_fits bs 16 Hb) as Hn. pose proof (word_fits bs 36 Hb) as Hs.
  pose proof (word_fits (sector w 0) 454 (sector_bytes w 0 H0v)) as Hp. fold p in Hp. unfold fits in *.
  assert (Hq : 0 <= bpb_data bs / byte_at bs 13 <= bpb_data bs).
  { split; [apply Z.div_pos; lia|]. apply Z.div_le_upper_bound; [lia|nia]. }
  assert (Hdt : bpb_data bs <= bpb_total bs) by (unfold bpb_data; lia).
  assert (Hwrap : wrap 32 (bpb_data bs / byte_at bs 13) = bpb_data bs / byte_at bs 13) by (apply Z.mod_small; lia).
  exists (volume_of p bs (bpb_data bs)). split.
  { pose proof (mount_ok w H0v Hpv) as E. fold p bs in E. rewrite E. rewrite (proj2 (Z.eqb_neq _ _)) by done.
    by rewrite (proj2 (Z.leb_le _ _)). }
  split; [exact Bs|]. split; [|split; [done|exact Hwrap]].
  split; cbn [volume_of bytes_per_sector sectors_per_cluster num_fats sectors_per_fat fat_start_lba cluster_heap_start_lba total_clusters];
    rewrite ?Hwrap, ?Bs; try lia; try done.
  - by exists 128.
  - assert (word_at bs 36 <= bpb_fats bs) by (unfold bpb_fats; nia). unfold bpb_data in *. lia.
  - intros lba Hlba. apply Bv. unfold bpb_data, bpb_fats in *. pose proof (Z.mul_div_le (bpb_total bs - half_at bs 14 - byte_at bs 16 * word_at bs 36) (byte_at bs 13)). lia.
Qed.
End Claims.

(** ** Witnesses *)

#[local] Instance debug_profile : Profile := Build_Profile true.

(** A disk whose first partition starts at sector 1: sectors of 512 bytes, one
    per cluster, one reserved, two FATs of one sector, 20 sectors, the root
    directory in cluster 2. *)
Definition boot_record : list Z :=
  replicate 11 0 ++ [0; 2; 1; 1; 0; 2; 0; 0; 20; 0] ++ replicate 15 0 ++ le_bytes32 1 ++ replicate 4 0 ++ le_bytes32 2 ++ replicate 464 0.
Definition boot_disk : SectorDisk 64 := mkDisk (
  <[0 := replicate 454 0 ++ le_bytes32 1 ++ replicate 54 0]> (<[1 := boot_record]> ∅)).

Lemma boot_record_ok : bpb_ok 1 (sector boot_disk 1) (valid (W := SectorDisk 64)).
Proof.
  assert (Et : bpb_total (sector boot_disk 1) = 20) by by vm_compute.
  split; [by vm_compute..|]. intros lba. rewrite Et. cbn. lia.
Qed.

Lemma mount_result_witness : mount boot_disk = Ret (Ok (mkFat 512 1 1 2 0 1 2 2 4 1 17), boot_disk).
Proof.
  etransitivity; [apply mount_result|].
  - split; vm_compute; congruence.
  - split; vm_compute; congruence.
  - vm_compute. reflexivity.
Defined.

Lemma mount_volume_witness : exists fat, mount boot_disk = Ret (Ok fat, boot_disk) /\
  volume_ok fat (valid (W := SectorDisk 64)) /\ total_clusters fat = 17.
Proof.
  assert (Hp : word_at (sector boot_disk 0) 454 = 1) by by vm_compute.
  destruct (mount_volume boot_disk) as (fat & E & Eb & Hv & _ & Et).
  - cbn. lia.
  - rewrite Hp. cbn. lia.
  - rewrite Hp. exact boot_record_ok.
  - exists fat. split; [exact E|]. split; [exact Hv|]. rewrite Et, Hp.
    rewrite mount_result_witness in E. injection E as <-. by vm_compute.
Defined.
