(* ===== verification/FatRace.v ===== *)
(** * Files extended at the same time

    [fat_lock] (kernel/src/fs/fat/fat32.rs) is held for one entry that is
    read, one cluster that is allocated or one cluster that is linked, not for
    the whole of [extend_file]; and [io_lock] belongs to one open file, so two
    opens of a path do not exclude each other.  Here each [extend_file] is a
    thread whose steps are the sections under [fat_lock], and threads, and
    writes of data, interleave in any order on one disk. *)
From stdpp Require Import relations.
From S2P Require Import Prelude Memory BlockDev Fat32 FatWrite.

(** ** Definitions *)

(** Where an [extend_file] is: in [get_chain], with the clusters found so far;
    before an allocation; between an allocation and its link; or at an end. *)
Inductive stage :=
  | Following (needed cur : Z) (chain : list Z)
  | Allocating (last_cluster : Z) (todo : nat)
  | Linking (last_cluster new_cluster : Z) (todo : nat)
  | Finished (r : result unit Fat32Error).

Section Stages.
Context `{Profile} {W : Type} `{BlockDevice W} (fat : FatInfo).

(** A result under [?]. *)
Definition or_finish {A} (m : st W (result A Fat32Error)) (k : A -> st W stage) : st W stage :=
  r ← m; match r with Ok a => k a | Err e => mret (Finished (Err e)) end.

(** The next section under [fat_lock]. *)
Definition stage_step (s : stage) : st W stage :=
  match s with
  | Following needed cur chain =>
      if cur <? 2 then mret (Finished (Err FInvalidCluster))
      else
        let chain := chain ++ [cur] in
        or_finish (read_fat_entry fat cur) (fun next =>
          if FAT32_EOC <=? next then
            let current := Z.of_nat (length chain) in
            if needed <=? current then mret (Finished (Ok tt))
            else match last chain with
                 | Some last_cluster => mret (Allocating last_cluster (Z.to_nat (needed - current)))
                 | None => panic
                 end
          else if next =? 0 then mret (Finished (Err FInvalidCluster))
          else mret (Following needed next chain))
  | Allocating last_cluster O => mret (Finished (Ok tt))
  | Allocating last_cluster (S todo) =>
      or_finish (alloc_cluster fat) (fun new_cluster => mret (Linking last_cluster new_cluster todo))
  | Linking last_cluster new_cluster todo =>
      or_finish (link_cluster fat last_cluster new_cluster) (fun _ => mret (Allocating new_cluster todo))
  | Finished r => mret (Finished r)
  end.

Fixpoint stage_steps (n : nat) (s : stage) : st W stage :=
  match n with
  | O => mret s
  | S n => s ← stage_step s; stage_steps n s
  end.

(** [clusters_needed] of [extend_file], and its first stage. *)
Definition clusters_needed (new_size : Z) : outcome Z :=
  bpc ← mul usize_bits (bytes_per_sector fat) (sectors_per_cluster fat);
  a ← add usize_bits new_size bpc;
  a ← sub usize_bits a 1;
  udiv a bpc.

(** *** Threads *)

Context {T : Type} `{EqDecision T}.

Record race := mkRace { threads : T -> stage; shared : W }.

Definition set_thread (t : T) (s : stage) (ts : T -> stage) : T -> stage :=
  fun u => if decide (u = t) then s else ts u.

(** Threads take steps in the order of a schedule. *)
Fixpoint run_schedule (sched : list T) (r : race) : outcome race :=
  match sched with
  | [] => Ret r
  | t :: sched =>
      '(s, w) ← stage_step (threads r t) (shared r);
      run_schedule sched (mkRace (set_thread t s (threads r)) w)
  end.
End Stages.
Arguments race : clear implicits.
Arguments mkRace {W T}.
Arguments threads {W T}.
Arguments shared {W T}.

Section Steps.
Context `{Profile} {W : Type} (fat : FatInfo) `{Disk W (bytes_per_sector fat)} {T : Type} `{EqDecision T}.

(** A thread takes a step, or the write loop of some file writes a sector. *)
Inductive race_step : race W T -> race W T -> Prop :=
  | thread_step t s ts w w' : stage_step fat (ts t) w = Ret (s, w') ->
      race_step (mkRace ts w) (mkRace (set_thread t s ts) w')
  | data_step lba buf ts w w' : cluster_heap_start_lba fat <= lba -> valid lba ->
      length buf = Z.to_nat (bytes_per_sector fat) -> Forall (fits 8) buf ->
      write_sector FWriteError lba buf w = Ret (Ok tt, w') -> race_step (mkRace ts w) (mkRace ts w').

(** Every thread before its [get_chain]. *)
Definition race_start (needed start : T -> Z) (w : W) : race W T := mkRace (fun t => Following (needed t) (start t) []) w.
End Steps.

(** ** One thread alone *)

Section Alone.
Context `{Profile} {W : Type} `{BlockDevice W} (fat : FatInfo).

Lemma stage_steps_add m n s (w : W) s1 w1 : stage_steps fat m s w = Ret (s1, w1) ->
  stage_steps fat (m + n) s w = stage_steps fat n s1 w1.
Proof.
  revert s w. induction m as [|m IH]; intros s w E; [by injection E as -> ->|].
  cbn [stage_steps Nat.add] in *. unfold mbind, st_bind in *. destruct (stage_step fat s w) as [[s2 w2]| |]; [|done..].
  by apply IH.
Qed.

Lemma or_finish_ok {A} (m : st W (result A Fat32Error)) k w a w' : m w = Ret (Ok a, w') -> or_finish m k w = k a w'.
Proof. intros E. unfold or_finish. by erewrite stbind_step by exact E. Qed.

Lemma or_finish_err {A} (m : st W (result A Fat32Error)) k w e w' : m w = Ret (Err e, w') ->
  or_finish m k w = Ret (Finished (Err e), w').
Proof. intros E. unfold or_finish. by erewrite stbind_step by exact E. Qed.

Lemma try_inv {A B} (m : st W (result A Fat32Error)) (k : A -> st W (result B Fat32Error)) w r w' :
  try_bind m k w = Ret (r, w') ->
  (exists e, m w = Ret (Err e, w') /\ r = Err e) \/ (exists a w1, m w = Ret (Ok a, w1) /\ k a w1 = Ret (r, w')).
Proof.
  unfold try_bind. destruct (m w) as [[[a|e] w1]| |]; intros E; try done; [right; by exists a, w1|left].
  injection E as <- <-. by exists e.
Qed.

Lemma stage_steps_S n s (w : W) s1 w1 : stage_step fat s w = Ret (s1, w1) ->
  stage_steps fat (S n) s w = stage_steps fat n s1 w1.
Proof. intros E. cbn [stage_steps]. by erewrite stbind_step by exact E. Qed.

Lemma extend_loop_stages n : forall c (w : W) r w', extend_loop fat n c w = Ret (r, w') ->
  exists k, stage_steps fat k (Allocating c n) w = Ret (Finished r, w').
Proof.
  induction n as [|n IH]; intros c w r w' E; cbn [extend_loop] in E.
  { injection E as <- <-. by exists 1%nat. }
  apply try_inv in E as [(e & Ea & ->)|(x & w1 & Ea & E)].
  { exists 1%nat. erewrite stage_steps_S by exact (or_finish_err _ _ _ _ _ Ea). done. }
  apply try_inv in E as [(e & El & ->)|(u & w2 & El & E)].
  { exists 2%nat. erewrite stage_steps_S by exact (or_finish_ok _ _ _ _ _ Ea).
    by erewrite stage_steps_S by exact (or_finish_err _ _ _ _ _ El). }
  destruct (IH _ _ _ _ E) as (k & Hk). exists (S (S k)).
  erewrite stage_steps_S by exact (or_finish_ok _ _ _ _ _ Ea).
  by erewrite stage_steps_S by exact (or_finish_ok _ _ _ _ _ El).
Qed.

(** What [extend_file] does once it has the chain. *)
Definition extend_chain (needed : Z) (chain : list Z) : st W (result unit Fat32Error) :=
  let current := Z.of_nat (length chain) in
  if needed <=? current then mret (Ok tt)
  else match last chain with
       | None => panic
       | Some last_cluster => extend_loop fat (Z.to_nat (needed - current)) last_cluster
       end.

Lemma get_chain_stages needed fuel : forall cur acc (w : W) r w',
  (let? chain := get_chain_from fat fuel cur acc in extend_chain needed chain) w = Ret (r, w') ->
  exists k, stage_steps fat k (Following needed cur acc) w = Ret (Finished r, w').
Proof.
  induction fuel as [|fuel IH]; intros cur acc w r w' E; [done|]. cbn [get_chain_from] in E.
  destruct (cur <? 2) eqn:Ec.
  { injection E as <- <-. exists 1%nat. erewrite stage_steps_S; [done|]. cbn [stage_step]. by rewrite Ec. }
  destruct (read_fat_entry fat cur w) as [[[next|e] w1]| |] eqn:Er.
  2: { apply try_inv in E as [(e' & Ea & ->)|(x & w2 & Ea & E)]; rewrite (try_err _ _ _ _ _ Er) in Ea; [|done].
       injection Ea as -> ->. exists 1%nat. erewrite stage_steps_S; [done|]. cbn [stage_step]. rewrite Ec.
       by apply or_finish_err. }
  2,3: apply try_inv in E as [(e' & Ea & ->)|(x & w2 & Ea & E)]; unfold try_bind in Ea; by rewrite Er in Ea.
  assert (Hstep : stage_step fat (Following needed cur acc) w =
    (if FAT32_EOC <=? next then
       if needed <=? Z.of_nat (length (acc ++ [cur])) then mret (Finished (Ok tt))
       else match last (acc ++ [cur]) with
            | Some l => mret (Allocating l (Z.to_nat (needed - Z.of_nat (length (acc ++ [cur])))))
            | None => panic
            end
     else if next =? 0 then mret (Finished (Err FInvalidCluster)) else mret (Following needed next (acc ++ [cur]))) w1).
  { cbn [stage_step]. rewrite Ec. by rewrite (or_finish_ok _ _ _ _ _ Er). }
  unfold try_bind at 1 in E. rewrite (try_step _ _ _ _ _ Er) in E. destruct (FAT32_EOC <=? next).
  - cbn in E. unfold extend_chain in E. rewrite last_snoc in *. destruct (needed <=? _).
    + injection E as <- <-. exists 1%nat. by erewrite stage_steps_S by exact Hstep.
    + destruct (extend_loop_stages _ _ _ _ _ E) as (k & Hk). exists (S k). by erewrite stage_steps_S by exact Hstep.
  - destruct (next =? 0).
    + injection E as <- <-. exists 1%nat. by erewrite stage_steps_S by exact Hstep.
    + destruct (IH next (acc ++ [cur]) w1 r w' E) as (k & Hk). exists (S k). by erewrite stage_steps_S by exact Hstep.
Qed.

Lemma extend_file_stages_ok fuel start new_size needed (w : W) r w' : clusters_needed fat new_size = Ret needed ->
  extend_file fat fuel start new_size w = Ret (r, w') ->
  exists k, stage_steps fat k (Following needed start []) w = Ret (Finished r, w').
Proof.
  intros Hn E. apply (get_chain_stages needed fuel start [] w r w'). revert Hn E. unfold clusters_needed, extend_file.
  destruct (mul usize_bits _ _) as [bpc| |] eqn:E1; [|done..].
  intros Hn. erewrite stbind_step by reflexivity. cbn in Hn.
  destruct (add usize_bits new_size bpc) as [a| |] eqn:E2; [|done..]. erewrite stbind_step by reflexivity. cbn in Hn.
  destruct (sub usize_bits a 1) as [a'| |] eqn:E3; [|done..]. erewrite stbind_step by reflexivity. cbn in Hn.
  rewrite Hn. by erewrite stbind_step by reflexivity.
Qed.
End Alone.

(** ** Threads on files of their own *)

(** The cluster a thread has allocated and not linked yet. *)
Definition pending (s : stage) : list Z := match s with Linking _ x _ => [x] | _ => [] end.

(** What a thread relies on: its stage describes the chain [ch] of its file. *)
Definition stage_ok `{Disk W bps} (fat : FatInfo) (w : W) (ch : list Z) (needed : Z) (s : stage) : Prop :=
  match s with
  | Following n cur acc => n = needed /\ exists rest, ch = acc ++ rest /\ Chain fat w cur rest
  | Allocating c todo => last ch = Some c /\ Z.of_nat (length ch + todo) = needed
  | Linking c x todo => last ch = Some c /\ 2 <= x < total_clusters fat /\ entry fat w x = 0x0fffffff /\
      Z.of_nat (length ch + 1 + todo) = needed
  | Finished (Ok _) => needed <= Z.of_nat (length ch)
  | Finished (Err e) => e = FDiskFull
  end.

Section Apart.
Context `{Profile} {W : Type} (fat : FatInfo) `{Disk W (bytes_per_sector fat)} (Hv : volume_ok fat valid).
Context (Htot : total_clusters fat <= FAT32_EOC) {T : Type} `{EqDecision T} (start needed : T -> Z).
Implicit Types w : W.

(** The threads' files are chains that share no cluster. *)
Record race_inv (ch : T -> list Z) (r : race W T) : Prop := {
  ri_chain t : Chain fat (shared r) (start t) (ch t);
  ri_stage t : stage_ok fat (shared r) (ch t) (needed t) (threads r t);
  ri_own t x : x ∈ pending (threads r t) -> x ∉ ch t;
  ri_apart t u x : t <> u -> x ∈ ch t ++ pending (threads r t) -> x ∉ ch u ++ pending (threads r u);
}.

Lemma stage_same w w' c ch n s : Chain fat w c ch -> stage_ok fat w ch n s ->
  (forall x, x ∈ ch ++ pending s -> entry fat w' x = entry fat w x) -> stage_ok fat w' ch n s.
Proof using.
  intros Hc Hs He. destruct s as [n' cur acc|c' todo|c' x todo|[u|e]]; cbn in *; try done.
  - destruct Hs as (-> & rest & -> & Hr). split; [done|]. exists rest. split; [done|].
    apply (chain_same fat w); [done|]. intros y Hy. apply He. rewrite app_nil_r. apply elem_of_app. by right.
  - destruct Hs as (A1 & A2 & A3 & A4). rewrite He; [done|]. apply elem_of_app. right. apply list_elem_of_here.
Qed.

(** Clusters that a thread holds are in use. *)
Lemma claimed_entry ch r t x : race_inv ch r -> x ∈ ch t ++ pending (threads r t) ->
  is_cluster fat x /\ entry fat (shared r) x <> 0.
Proof using.
  intros Hi [Hx|Hx]%elem_of_app.
  - pose proof (chain_clusters fat _ _ _ (ri_chain _ _ Hi t)) as Hc. rewrite Forall_forall in Hc. split; [by apply Hc|].
    pose proof (chain_entry fat _ _ _ x (ri_chain _ _ Hi t) Hx). lia.
  - pose proof (ri_stage _ _ Hi t) as Hs. destruct (threads r t); cbn in Hx; try by apply not_elem_of_nil in Hx.
    apply list_elem_of_singleton in Hx as ->. destruct Hs as (_ & Hr & -> & _). unfold is_cluster. lia.
Qed.

(** A step of one thread that leaves the clusters of the others alone. *)
Lemma race_update ch t s' ch' ts w w' : race_inv ch (mkRace ts w) ->
  (forall u x, u <> t -> x ∈ ch u ++ pending (ts u) -> entry fat w' x = entry fat w x) ->
  Chain fat w' (start t) ch' -> stage_ok fat w' ch' (needed t) s' -> (forall x, x ∈ pending s' -> x ∉ ch') ->
  (forall x, x ∈ ch' ++ pending s' -> x ∈ ch t ++ pending (ts t) \/ entry fat w x = 0) ->
  race_inv (fun u => if decide (u = t) then ch' else ch u) (mkRace (set_thread t s' ts) w').
Proof using.
  intros Hi Ho Hc Hs Hp Hx. unfold set_thread. split; cbn [threads shared].
  - intros u. destruct (decide (u = t)) as [->|Hu]; [done|].
    apply (chain_same fat w); [apply (ri_chain _ _ Hi u)|]. intros x Hin. apply (Ho u); [done|]. apply elem_of_app. by left.
  - intros u. destruct (decide (u = t)) as [->|Hu]; [done|].
    apply (stage_same w _ (start u)); [apply (ri_chain _ _ Hi u)|apply (ri_stage _ _ Hi u)|intros x; by apply Ho].
  - intros u x. destruct (decide (u = t)) as [->|Hu]; [apply Hp|apply (ri_own _ _ Hi u)].
  - assert (Hmine : forall u x, u <> t -> x ∈ ch u ++ pending (ts u) -> x ∉ ch' ++ pending s').
    { intros u x Hu Hin [Ht|He]%Hx.
      - by apply (ri_apart _ _ Hi u t x Hu Hin).
      - by destruct (claimed_entry _ _ u x Hi Hin). }
    intros u v x Huv. destruct (decide (u = t)) as [->|Hu], (decide (v = t)) as [->|Hv']; [done| | |].
    + intros A1 A2. by apply (Hmine v x).
    + by apply (Hmine u x).
    + by apply (ri_apart _ _ Hi u v x).
Qed.

(** Steps that leave the disk and the clusters of the thread as they are. *)
Lemma race_stay ch t s' ts w : race_inv ch (mkRace ts w) -> pending s' = [] ->
  stage_ok fat w (ch t) (needed t) s' -> race_inv ch (mkRace (set_thread t s' ts) w).
Proof using.
  intros Hi Hp Hs. pose proof (race_update ch t s' (ch t) ts w w Hi) as Hu. rewrite Hp in Hu.
  destruct Hu as [A1 A2 A3 A4]; [done|apply (ri_chain _ _ Hi t)|done|by intros x ?%not_elem_of_nil| |].
  { intros x Hx. left. apply elem_of_app. left. by rewrite app_nil_r in Hx. }
  assert (Ech : forall u, (if decide (u = t) then ch t else ch u) = ch u) by (intros u; by destruct (decide (u = t)) as [->|]).
  split.
  - intros u. rewrite <- Ech. apply A1.
  - intros u. rewrite <- Ech. apply A2.
  - intros u x. rewrite <- Ech. apply A3.
  - intros u v x. rewrite <- (Ech u), <- (Ech v). apply A4.
Qed.

(** The step of thread [t], after which the others' chains are as before and
    its own has grown. *)
Definition stepped (ch : T -> list Z) (t : T) (ts : T -> stage) w : Prop := exists s' w' ch',
  stage_step fat (ts t) w = Ret (s', w') /\ race_inv ch' (mkRace (set_thread t s' ts) w') /\
  (forall u, ch u `prefix_of` ch' u) /\ (forall x, cluster_heap_start_lba fat <= x -> sector w' x = sector w x).

Lemma follow_step ch t ts w n cur acc : race_inv ch (mkRace ts w) -> ts t = Following n cur acc -> stepped ch t ts w.
Proof using Hv.
  intros Hi Es. pose proof (ri_stage _ _ Hi t) as Hs. cbn in Hs. rewrite Es in Hs.
  destruct Hs as (-> & rest & Ech & Hr). unfold stepped. rewrite Es. cbn [stage_step].
  assert (Hcl : is_cluster fat cur) by (by destruct Hr). unfold is_cluster in Hcl.
  rewrite (proj2 (Z.ltb_ge cur 2)) by lia. rewrite (or_finish_ok _ _ _ _ _ (read_fat_entry_ok fat Hv w cur ltac:(lia))).
  assert (Hstay : forall s', pending s' = [] -> stage_ok fat w (ch t) (needed t) s' -> exists s0 w' ch',
    Ret (s', w) = Ret (s0, w') /\ race_inv ch' (mkRace (set_thread t s0 ts) w') /\ (forall u, ch u `prefix_of` ch' u) /\
    (forall x, cluster_heap_start_lba fat <= x -> sector w' x = sector w x)).
  { intros s' Hp Hs. exists s', w, ch. split; [done|]. split; [by apply race_stay|done]. }
  inversion Hr as [c Hc He|c l Hc He Hl]; subst.
  - rewrite (proj2 (Z.leb_le _ _) He). destruct (Z.leb_spec (needed t) (Z.of_nat (length (acc ++ [cur])))) as [Hle|Hgt].
    + apply Hstay; [done|]. cbn. by rewrite Ech.
    + rewrite last_snoc. apply Hstay; [done|]. cbn. rewrite Ech. split; [apply last_snoc|lia].
  - rewrite (proj2 (Z.leb_gt _ _)) by lia. rewrite (proj2 (Z.eqb_neq _ _)) by lia. apply Hstay; [done|]. cbn.
    split; [done|]. exists l. by rewrite Ech, <- app_assoc.
Qed.

Lemma alloc_step ch t ts w c todo : race_inv ch (mkRace ts w) -> ts t = Allocating c todo -> stepped ch t ts w.
Proof using Hv.
  intros Hi Es. pose proof (ri_stage _ _ Hi t) as Hs. cbn in Hs. rewrite Es in Hs. destruct Hs as [Hl Hn].
  unfold stepped. rewrite Es. cbn [stage_step]. destruct todo as [|todo].
  { exists (Finished (Ok tt)), w, ch. split; [done|]. split; [|done]. apply race_stay; [done|done|]. cbn. lia. }
  destruct (alloc_cluster_ok fat Hv w) as [(x & w' & Hx & Ea & E0 & S1 & D1 & _)|[_ Ea]].
  2: { exists (Finished (Err FDiskFull)), w, ch. rewrite (or_finish_err _ _ _ _ _ Ea). split; [done|]. split; [|done].
       by apply race_stay. }
  assert (Hfree : forall u, x ∉ ch u ++ pending (ts u)).
  { intros u Hin. destruct (claimed_entry _ _ u x Hi Hin) as [_ Hne]. by apply Hne. }
  assert (Hsame : forall u y, y ∈ ch u ++ pending (ts u) -> entry fat w' y = entry fat w y).
  { intros u y Hin. rewrite S1 by (by apply (claimed_entry _ _ u y Hi Hin)). rewrite decide_False; [done|].
    intros ->. by apply (Hfree u). }
  exists (Linking c x todo), w', (fun u => if decide (u = t) then ch t else ch u).
  rewrite (or_finish_ok _ _ _ _ _ Ea). split; [done|]. split; [|split; [|done]].
  - apply (race_update _ _ _ _ _ w); [done|by intros u y _; apply Hsame| | | |].
    + apply (chain_same fat w); [apply (ri_chain _ _ Hi t)|]. intros y Hy. apply (Hsame t), elem_of_app. by left.
    + cbn. split; [done|]. split; [done|]. rewrite S1, decide_True by (done || unfold is_cluster; lia). split; [done|lia].
    + intros y ->%list_elem_of_singleton Hin. apply (Hfree t), elem_of_app. by left.
    + cbn. intros y [Hy| ->%list_elem_of_singleton]%elem_of_app; [left; apply elem_of_app; by left|by right].
  - intros u. by destruct (decide (u = t)) as [->|].
Qed.

Lemma link_step ch t ts w c x todo : race_inv ch (mkRace ts w) -> ts t = Linking c x todo -> stepped ch t ts w.
Proof using Hv Htot.
  intros Hi Es. pose proof (ri_stage _ _ Hi t) as Hs. pose proof (ri_chain _ _ Hi t) as Hc. cbn in Hs, Hc. rewrite Es in Hs.
  destruct Hs as (Hl & Hx & Ex & Hn). unfold stepped. rewrite Es. cbn [stage_step].
  assert (Hin : c ∈ ch t) by (by apply last_Some_elem_of).
  assert (Hxt : x ∉ ch t). { apply (ri_own _ _ Hi t). cbn. rewrite Es. apply list_elem_of_here. }
  assert (Hmine : forall y, y = c \/ y = x -> y ∈ ch t ++ pending (ts t)).
  { intros y [->| ->]; apply elem_of_app; [by left|right]. rewrite Es. apply list_elem_of_here. }
  destruct (link_entries fat Hv Htot w c x) as (w' & E2 & S2 & D2 & _).
  { by apply (claimed_entry _ _ t c Hi), Hmine; left. }
  { done. }
  exists (Allocating x todo), w', (fun u => if decide (u = t) then ch t ++ [x] else ch u).
  rewrite (or_finish_ok _ _ _ _ _ E2). split; [done|]. split; [|split; [|done]].
  - apply (race_update _ _ _ _ _ w); [done| | | | |].
    + intros u y Hu Hy. rewrite S2 by (by apply (claimed_entry _ _ u y Hi Hy)).
      rewrite !decide_False; [done|..]; intros ->; by apply (ri_apart _ _ Hi u t _ Hu Hy), Hmine; auto.
    + by apply (chain_linked fat Htot w _ _ c x).
    + cbn. rewrite last_snoc, length_app. cbn [length]. split; [done|lia].
    + by intros y ?%not_elem_of_nil.
    + intros y Hy. left. rewrite app_nil_r in Hy. apply elem_of_app in Hy as [Hy| ->%list_elem_of_singleton];
        [apply elem_of_app; by left|apply Hmine; by right].
  - intros u. destruct (decide (u = t)) as [->|]; [by apply prefix_app_r|done].
Qed.

(** Every thread can take its next step, whatever the others have done. *)
Lemma race_thread ch t ts w : race_inv ch (mkRace ts w) -> stepped ch t ts w.
Proof using Hv Htot.
  intros Hi. destruct (ts t) as [n cur acc|c todo|c x todo|r] eqn:Es.
  - by eapply follow_step.
  - by eapply alloc_step.
  - by eapply link_step.
  - pose proof (ri_stage _ _ Hi t) as Hs. cbn in Hs. rewrite Es in Hs. exists (Finished r), w, ch. rewrite Es. split; [done|].
    split; [by apply race_stay|done].
Qed.

(** Writing a sector of data changes no entry. *)
Lemma race_data ch ts w w' : race_inv ch (mkRace ts w) ->
  (forall x, x < cluster_heap_start_lba fat -> sector w' x = sector w x) -> race_inv ch (mkRace ts w').
Proof using Hv.
  intros Hi Hd. assert (Hsame : forall x, is_cluster fat x -> entry fat w' x = entry fat w x).
  { intros x Hx. by apply (table_same fat Hv w w' Hd). }
  assert (Hcl : forall t x, x ∈ ch t ++ pending (ts t) -> is_cluster fat x) by (intros t x Hx; by apply (claimed_entry _ _ t x Hi)).
  split; cbn [shared threads].
  - intros t. apply (chain_same fat w); [apply (ri_chain _ _ Hi t)|]. intros x Hx. apply Hsame, (Hcl t), elem_of_app. by left.
  - intros t. apply (stage_same w _ (start t)); [apply (ri_chain _ _ Hi t)|apply (ri_stage _ _ Hi t)|].
    intros x Hx. by apply Hsame, (Hcl t).
  - apply (ri_own _ _ Hi).
  - apply (ri_apart _ _ Hi).
Qed.
End Apart.

(** ** Threads on one file *)

Section Same.
Context `{Profile} {W : Type} (fat : FatInfo) `{Disk W (bytes_per_sector fat)} (Hv : volume_ok fat valid).
Context (Htot : total_clusters fat <= FAT32_EOC) {T : Type} `{EqDecision T}.
Implicit Types w : W.

(** Entries are ends, or lead to clusters in use. *)
Definition sane w : Prop := forall j, is_cluster fat j ->
  entry fat w j < 2 \/ FAT32_EOC <= entry fat w j \/ (is_cluster fat (entry fat w j) /\ entry fat w (entry fat w j) <> 0).

(** The steps of one thread, while the others wait. *)
Lemma thread_runs t k : forall ts w s' w', stage_steps fat k (ts t) w = Ret (s', w') -> exists ts',
  rtc (race_step (T := T) fat) (mkRace ts w) (mkRace ts' w') /\ ts' t = s' /\ forall v, v <> t -> ts' v = ts v.
Proof using.
  induction k as [|k IH]; intros ts w s' w' E; cbn [stage_steps] in E.
  { injection E as <- <-. by exists ts. }
  unfold mbind, st_bind in E. destruct (stage_step fat (ts t) w) as [[s1 w1]| |] eqn:E1; [|done..].
  destruct (IH (set_thread t s1 ts) w1 s' w') as (ts' & Hr & Et & Eo).
  { unfold set_thread. by rewrite decide_True. }
  exists ts'. split; [eapply rtc_l; [by eapply thread_step|exact Hr]|]. split; [done|].
  intros v Hne. rewrite Eo by done. unfold set_thread. by rewrite decide_False.
Qed.

(** [get_chain] reads the whole chain and changes nothing. *)
Lemma follow_stages w cur rest : Chain fat w cur rest -> forall needed acc c,
  Z.of_nat (length (acc ++ rest)) < needed -> last (acc ++ rest) = Some c -> exists k,
  stage_steps fat k (Following needed cur acc) w =
    Ret (Allocating c (Z.to_nat (needed - Z.of_nat (length (acc ++ rest)))), w).
Proof using Hv.
  induction 1 as [cur Hc He|cur rest Hc He Hl IH]; intros needed acc c Hn Hlast; unfold is_cluster in Hc.
  - exists 1%nat. erewrite stage_steps_S; [reflexivity|]. cbn [stage_step]. rewrite (proj2 (Z.ltb_ge cur 2)) by lia.
    rewrite (or_finish_ok _ _ _ _ _ (read_fat_entry_ok fat Hv w cur ltac:(lia))), (proj2 (Z.leb_le _ _) He).
    by rewrite (proj2 (Z.leb_gt _ _) Hn), Hlast.
  - destruct (IH needed (acc ++ [cur]) c) as (k & Hk); [by rewrite <- app_assoc|by rewrite <- app_assoc|].
    exists (S k). rewrite <- app_assoc in Hk. erewrite stage_steps_S; [exact Hk|].
    cbn [stage_step]. rewrite (proj2 (Z.ltb_ge cur 2)) by lia.
    rewrite (or_finish_ok _ _ _ _ _ (read_fat_entry_ok fat Hv w cur ltac:(lia))).
    by rewrite (proj2 (Z.leb_gt _ _)), (proj2 (Z.eqb_neq _ _)) by lia.
Qed.

(** A longer chain from the same cluster has the same entries before its fork. *)
Lemma chain_prefix_entry w s l : Chain fat w s l -> forall w1 xs y, Chain fat w1 s (l ++ xs) -> y ∈ l ->
  last l <> Some y -> entry fat w1 y = entry fat w y.
Proof using.
  induction 1 as [c Hc He|c l Hc He Hl IH]; intros w1 xs y Hx Hy Hlast.
  - apply list_elem_of_singleton in Hy as ->. by destruct Hlast.
  - destruct (chain_starts fat _ _ _ Hl) as (l' & El). assert (E : entry fat w1 c = entry fat w c).
    { inversion Hx as [c0 Hc0 He0 E0|c0 l0 Hc0 He0 Hl0 E0]; subst; [done|].
      destruct (chain_starts fat _ _ _ Hl0) as (l2 & E2). cbn in E2. congruence. }
    apply elem_of_cons in Hy as [->|Hy]; [done|]. apply (IH w1 xs); [|done|].
    + inversion Hx as [c0 Hc0 He0 E0|c0 l0 Hc0 He0 Hl0 E0]; subst; [done|]. by rewrite E in Hl0.
    + by rewrite El in *.
Qed.

Lemma chain_entry_in w s l x : Chain fat w s l -> x ∈ l -> entry fat w x ∈ l \/ FAT32_EOC <= entry fat w x.
Proof using.
  induction 1 as [c Hc He|c l Hc He Hl IH]; intros Hx.
  - right. by apply list_elem_of_singleton in Hx as ->.
  - apply elem_of_cons in Hx as [->|Hx].
    + left. destruct (chain_starts fat _ _ _ Hl) as (l' & ->). apply list_elem_of_further, list_elem_of_here.
    + destruct (IH Hx) as [?|?]; [left; by apply list_elem_of_further|by right].
Qed.

(** *** Clusters no file leads to *)

Definition stage_safe (lost : list Z) (s : stage) : Prop :=
  match s with
  | Following _ cur chain => (cur < 2 \/ is_cluster fat cur) /\ Forall (is_cluster fat) chain
  | Allocating c _ => is_cluster fat c
  | Linking c x _ => is_cluster fat c /\ 2 <= x < total_clusters fat /\ x ∉ lost
  | Finished _ => True
  end.

Record lost_inv (lost : list Z) (r : race W T) : Prop := {
  li_used x : x ∈ lost -> 2 <= x < total_clusters fat /\ entry fat (shared r) x <> 0;
  li_apart j : is_cluster fat j -> j ∉ lost -> entry fat (shared r) j ∉ lost;
  li_tame j : is_cluster fat j ->
    entry fat (shared r) j < 2 \/ FAT32_EOC <= entry fat (shared r) j \/ is_cluster fat (entry fat (shared r) j);
  li_stage t : stage_safe lost (threads r t);
}.

Lemma lost_update lost t s ts w w' : lost_inv lost (mkRace ts w) -> stage_safe lost s ->
  (forall j, is_cluster fat j -> entry fat w' j = entry fat w j \/ FAT32_EOC <= entry fat w' j \/
     (2 <= entry fat w' j < total_clusters fat /\ entry fat w' j ∉ lost)) ->
  lost_inv lost (mkRace (set_thread t s ts) w').
Proof using Htot.
  intros [Hu Ha Ht Hs] Hsafe He. cbn [shared threads] in *. split; cbn [shared threads].
  - intros x Hx. destruct (Hu x Hx) as [Hc Hn]. split; [done|].
    destruct (He x) as [->|[?|[? _]]]; [unfold is_cluster; lia|done|unfold FAT32_EOC in *; lia|lia].
  - intros j Hc Hj. destruct (He j Hc) as [->|[Hge|[_ ?]]]; [by apply Ha| |done].
    intros Hin. destruct (Hu _ Hin) as [Hc' _]. lia.
  - intros j Hc. destruct (He j Hc) as [->|[Hge|[? _]]]; [by apply Ht|by right; left|right; right]. unfold is_cluster. lia.
  - intros v. unfold set_thread. by destruct (decide (v = t)).
Qed.

Lemma lost_step lost r r' : lost_inv lost r -> race_step fat r r' -> lost_inv lost r'.
Proof using Hv Htot.
  intros Hi Hs. destruct Hs as [t s ts w w' E|lba buf ts w w' Hl Hval Hlen H8 E].
  - pose proof (li_stage _ _ Hi t) as Hst. cbn [threads] in Hst. destruct (ts t) as [n cur ch|c [|todo]|c x todo|res] eqn:Et;
      cbn [stage_step stage_safe] in *.
    + destruct Hst as [Hcur Hch]. destruct (Z.ltb_spec cur 2).
      { injection E as <- <-. apply (lost_update _ _ _ _ w); [done|done|by left]. }
      assert (is_cluster fat cur) as Hc by (destruct Hcur; [lia|done]). unfold is_cluster in Hc.
      rewrite (or_finish_ok _ _ _ _ _ (read_fat_entry_ok fat Hv w cur ltac:(lia))), last_snoc in E.
      assert (w' = w /\ stage_safe lost s) as [-> Hsafe]; [|apply (lost_update _ _ _ _ w); [done|done|by left]].
      destruct (Z.leb_spec FAT32_EOC (entry fat w cur)); [|destruct (Z.eqb_spec (entry fat w cur) 0)];
        [destruct (n <=? _)|..]; injection E as <- <-; (split; [done|]); cbn [stage_safe]; try done.
      destruct (li_tame _ _ Hi cur Hc) as [Ht|[Ht|Ht]]; cbn [shared] in Ht; [|lia|]; (split; [by auto|]);
        apply Forall_app; (split; [done|]); by apply Forall_singleton.
    + injection E as <- <-. by apply (lost_update _ _ _ _ w); [| |left].
    + destruct (alloc_cluster_ok fat Hv w) as [(x & w1 & Hx & Ea & E0 & S1 & _)|[_ Ea]].
      * rewrite (or_finish_ok _ _ _ _ _ Ea) in E. injection E as <- <-. apply (lost_update _ _ _ _ w); [done| |].
        -- split; [done|]. split; [done|]. intros Hin. by destruct (li_used _ _ Hi x Hin).
        -- intros j Hj. rewrite S1 by done. destruct (decide (j = x)); [right; left; unfold FAT32_EOC; lia|by left].
      * rewrite (or_finish_err _ _ _ _ _ Ea) in E. injection E as <- <-. by apply (lost_update _ _ _ _ w); [| |left].
    + destruct Hst as (Hc & Hx & Hn). destruct (link_entries fat Hv Htot w c x Hc Hx) as (w1 & El & S1 & _).
      rewrite (or_finish_ok _ _ _ _ _ El) in E. injection E as <- <-. apply (lost_update _ _ _ _ w); [done| |].
      * cbn. unfold is_cluster. lia.
      * intros j Hj. rewrite S1 by done. destruct (decide (j = x)); [right; left; unfold FAT32_EOC; lia|].
        destruct (decide (j = c)); [by right; right|by left].
    + injection E as <- <-. by apply (lost_update _ _ _ _ w); [| |left].
  - destruct (write_sector_ok fat Hv FWriteError w lba buf Hval Hlen H8) as (w2 & E2 & Hs2).
    rewrite E in E2. injection E2 as <-. destruct (table_same fat Hv w w') as [He _].
    { intros x Hx. rewrite Hs2, decide_False; [done|lia]. }
    destruct Hi as [Hu Ha Ht Hst]. cbn [shared threads] in *. split; cbn [shared threads]; [|..|done].
    + intros x Hx. rewrite He; [by apply Hu|]. destruct (Hu x Hx). unfold is_cluster. lia.
    + intros j Hc. rewrite He by done. by apply Ha.
    + intros j Hc. rewrite He by done. by apply Ht.
Qed.

Lemma lost_for_ever lost r r' : lost_inv lost r -> rtc (race_step fat) r r' -> lost_inv lost r'.
Proof using Hv Htot. intros Hi Hr. induction Hr as [r|r r1 r' Hs _ IH]; [done|]. by eapply IH, lost_step. Qed.

(** No chain that starts elsewhere comes to a lost cluster. *)
Lemma lost_unreached lost r c l x : lost_inv lost r -> Chain fat (shared r) c l -> c ∉ lost -> x ∈ lost -> x ∉ l.
Proof using.
  intros Hi Hl. induction Hl as [c Hc He|c l Hc He Hl IH]; intros Hn Hx.
  - intros ->%list_elem_of_singleton. done.
  - intros [->|Hin]%elem_of_cons; [done|]. by apply IH; [by apply (li_apart _ _ Hi)| |].
Qed.

(** *** The race *)

(** The loop of the second call, on the disk of the first: it takes other
    clusters, and links them to the cluster the first call has linked to. *)
Lemma second_extend w w1 s l c xs n : Chain fat w s l -> last l = Some c -> extended fat w s l xs w1 ->
  exists r news w2, extend_loop fat (S n) c w1 = Ret (r, w2) /\
    ((r = Ok tt /\ length news = S n /\ Chain fat w2 s (l ++ news)) \/
     (r = Err FDiskFull /\ (length news < S n)%nat /\ forall j, 2 <= j < total_clusters fat -> entry fat w2 j <> 0)) /\
    (forall x, x ∈ news -> 2 <= x < total_clusters fat /\ entry fat w1 x = 0) /\ NoDup news /\
    (forall j, is_cluster fat j -> j ∉ l -> j ∉ news -> entry fat w2 j = entry fat w1 j).
Proof using Hv Htot.
  intros Hl Hc [C1 F1 O1 D1 M1]. assert (Hcl := chain_clusters fat w s l Hl). rewrite Forall_forall in Hcl.
  assert (Hin : c ∈ l) by (by apply last_Some_elem_of). cbn [extend_loop].
  destruct (alloc_cluster_ok fat Hv w1) as [(x & w2 & Hx & E1 & Ex & S1 & D2 & M2)|[Hf E1]].
  2: { exists (Err FDiskFull), [], w1. split; [by erewrite try_err by exact E1|]. split; [right; cbn; split_and!; (done || lia)|].
       split; [by intros x ?%not_elem_of_nil|]. split; [constructor|done]. }
  assert (Hxc : is_cluster fat x) by (unfold is_cluster; lia).
  destruct (link_entries fat Hv Htot w2 c x (Hcl c Hin) Hx) as (w3 & E2 & S2 & _).
  assert (S : forall j, is_cluster fat j -> entry fat w3 j =
    if decide (j = x) then 0x0fffffff else if decide (j = c) then x else entry fat w1 j).
  { intros j Hj. rewrite S2, S1 by done. by destruct (decide (j = x)). }
  assert (Hxl : x ∉ l).
  { intros Hxl. pose proof (chain_entry fat w1 s _ x C1 ltac:(apply elem_of_app; by left)). lia. }
  assert (C3 : Chain fat w3 s (l ++ [x])).
  { apply (chain_append fat w w3 s l c x Hl Hc Hxc); [lia| | |].
    - intros y Hy Hne. rewrite S by (by apply Hcl). rewrite !decide_False by (done || (intros ->; done)).
      apply (chain_prefix_entry w s l Hl w1 xs); [done|done|congruence].
    - rewrite S by (by apply Hcl). rewrite decide_False, decide_True by (done || by intros ->). done.
    - rewrite S by done. by rewrite decide_True. }
  destruct (extend_loop_ok fat Hv Htot n w3 s (l ++ [x]) x C3 ltac:(by apply last_snoc)) as (r & news & w4 & E3 & X & Hr).
  destruct X as [C4 F4 O4 _ _]. rewrite <- app_assoc in C4, O4. cbn [app] in C4, O4.
  assert (Hnd : NoDup (x :: news)).
  { pose proof (chain_nodup fat w4 s _ C4) as Hnd. by apply NoDup_app in Hnd as (_ & _ & Hnd). }
  assert (Hnew : forall y, y ∈ news -> y ∉ l /\ y <> x).
  { intros y Hy. split.
    - intros Hyl. destruct (F4 y Hy) as [_ E0]. pose proof (chain_entry fat w3 s _ y C3 ltac:(apply elem_of_app; by left)). lia.
    - intros ->. by apply NoDup_cons in Hnd as [? _]. }
  exists r, (x :: news), w4. split; [by erewrite try_step by exact E1; erewrite try_step by exact E2|]. split; [|split; [|split; [done|]]].
  - cbn [length]. destruct Hr as [[-> Hn]|(-> & Hn & Hf)]; [left|right]; split_and!; (done || lia).
  - intros y [->|Hy]%elem_of_cons; [done|]. destruct (F4 y Hy) as [Hr4 E4]. destruct (Hnew y Hy) as [Hyl Hyx].
    split; [done|]. rewrite S in E4 by (unfold is_cluster; lia).
    by rewrite !decide_False in E4 by (done || (intros ->; done)).
  - intros j Hj Hjl Hjn. apply not_elem_of_cons in Hjn as [Hjx Hjn]. rewrite O4; [|done|].
    + rewrite S by done. by rewrite !decide_False by (done || (intros ->; done)).
    + rewrite elem_of_app, elem_of_cons. tauto.
Qed.
(** The clusters the first call has linked are those no file leads to. *)
Lemma first_lost w w1 w2 s l xs news ts : sane w -> Chain fat w s l -> extended fat w s l xs w1 ->
  Chain fat w2 s (l ++ news) -> (forall x, x ∈ news -> 2 <= x < total_clusters fat /\ entry fat w1 x = 0) ->
  (forall j, is_cluster fat j -> j ∉ l -> j ∉ news -> entry fat w2 j = entry fat w1 j) ->
  (forall v, stage_safe xs (ts v)) -> lost_inv xs (mkRace ts w2).
Proof using Htot.
  intros Hsane Hl [C1 F1 O1 _ _] C2 F2 O2 Hst.
  assert (Hxw : forall x, x ∈ xs -> is_cluster fat x /\ 2 <= entry fat w1 x).
  { intros x Hx. split; [destruct (F1 x Hx); unfold is_cluster; lia|].
    apply (chain_entry fat w1 s (l ++ xs)); [done|]. apply elem_of_app. by right. }
  assert (Hxl : forall x, x ∈ xs -> x ∉ l).
  { intros x Hx Hin. destruct (F1 x Hx). pose proof (chain_entry fat w s l x Hl Hin). lia. }
  assert (Hxn : forall x, x ∈ xs -> x ∉ news).
  { intros x Hx Hin. destruct (F2 x Hin), (Hxw x Hx). lia. }
  assert (Hcl : forall j, j ∈ l ++ news -> is_cluster fat j).
  { pose proof (chain_clusters fat _ _ _ C2) as Hc. by rewrite Forall_forall in Hc. }
  assert (Hcl1 : forall j, j ∈ l ++ xs -> is_cluster fat j).
  { pose proof (chain_clusters fat _ _ _ C1) as Hc. by rewrite Forall_forall in Hc. }
  assert (Hold : forall j, is_cluster fat j -> j ∉ l ++ news -> j ∉ xs -> entry fat w2 j = entry fat w j).
  { intros j Hj [? ?]%not_elem_of_app ?. rewrite O2, O1; [done|done| |done..]. by rewrite elem_of_app; intros []. }
  split; cbn [shared threads]; [| | |done].
  - intros x Hx. split; [apply F1, Hx|]. destruct (Hxw x Hx). rewrite O2; [lia|done|by apply Hxl|by apply Hxn].
  - intros j Hj Hjx Hin. destruct (F1 _ Hin) as [Hr E0]. destruct (decide (j ∈ l ++ news)) as [Hjn|Hjn].
    + destruct (chain_entry_in _ _ _ _ C2 Hjn) as [[?|?]%elem_of_app|?]; [by eapply Hxl|by eapply Hxn|lia].
    + rewrite (Hold j Hj Hjn Hjx) in *. destruct (Hsane j Hj) as [?|[?|[_ ?]]]; [lia|lia|done].
  - intros j Hj. destruct (decide (j ∈ l ++ news)) as [Hjn|Hjn].
    + destruct (chain_entry_in _ _ _ _ C2 Hjn); [by right; right; apply Hcl|by right; left].
    + destruct (decide (j ∈ xs)) as [Hjx|Hjx].
      * rewrite O2; [|done|by apply Hxl|by apply Hxn].
        destruct (chain_entry_in _ _ _ j C1) as [?|?]; [apply elem_of_app; by right| |by right; left].
        right; right. by apply Hcl1.
      * rewrite (Hold j Hj Hjn Hjx). destruct (Hsane j Hj) as [?|[?|[? _]]]; auto.
Qed.

(** A disk that is full has no more free clusters than were taken. *)
Lemma full_counts w w' (F taken : list Z) : NoDup F -> (forall x, x ∈ F -> 2 <= x < total_clusters fat /\ entry fat w x = 0) ->
  (forall j, 2 <= j < total_clusters fat -> entry fat w' j <> 0) ->
  (forall j, 2 <= j < total_clusters fat -> entry fat w j = 0 -> j ∉ taken -> entry fat w' j = entry fat w j) ->
  (length F <= length taken)%nat.
Proof using.
  intros Hnd HF Hfull Hsame. apply submseteq_length, NoDup_submseteq; [done|]. intros x Hx. destruct (HF x Hx) as [Hr E0].
  destruct (decide (x ∈ taken)) as [|Hn]; [done|]. destruct (Hfull x Hr). by rewrite Hsame.
Qed.

(** One call reads the chain, another runs to its end, and the first goes on:
    the race is lost. *)
Lemma same_file (start needed : T -> Z) w t u l F : sane w -> (forall v, start v < 2 \/ is_cluster fat (start v)) ->
  t <> u -> start t = start u -> Chain fat w (start t) l ->
  Z.of_nat (length l) < needed t -> Z.of_nat (length l) < needed u ->
  NoDup F -> (forall x, x ∈ F -> 2 <= x < total_clusters fat /\ entry fat w x = 0) ->
  needed t + needed u - 2 * Z.of_nat (length l) <= Z.of_nat (length F) ->
  exists r lost news, rtc (race_step fat) (race_start needed start w) r /\
    threads r t = Finished (Ok tt) /\ threads r u = Finished (Ok tt) /\
    Chain fat (shared r) (start t) (l ++ news) /\ Z.of_nat (length (l ++ news)) = needed u /\
    Z.of_nat (length lost) = needed t - Z.of_nat (length l) /\ NoDup lost /\
    (forall x, x ∈ lost -> entry fat w x = 0) /\ lost_inv lost r.
Proof using Hv Htot.
  intros Hsane Hstart Htu Est Hl Ht Hu HndF HF HlenF.
  destruct (last l) as [c|] eqn:Hc; [|apply last_None in Hc as ->; by inversion Hl].
  destruct (follow_stages w _ l Hl (needed u) [] c Hu Hc) as (k0 & R0). rewrite Est in R0.
  destruct (thread_runs u k0 (fun v => Following (needed v) (start v) []) w _ _ R0) as (ts0 & S0 & U0 & O0).
  destruct (follow_stages w _ l Hl (needed t) [] c Ht Hc) as (k1 & R1).
  destruct (extend_loop_ok fat Hv Htot (Z.to_nat (needed t - Z.of_nat (length l))) w _ l c Hl Hc) as (r1 & xs & w1 & L1 & X1 & Hr1).
  destruct (extend_loop_stages fat _ _ _ _ _ L1) as (k2 & R2). rewrite <- (O0 t) in R1 by done.
  destruct (thread_runs t (k1 + k2) ts0 w (Finished r1) w1) as (ts1 & S1 & T1 & O1).
  { erewrite stage_steps_add by exact R1. exact R2. }
  cbn [app] in U0. destruct (Z.to_nat (needed u - Z.of_nat (length l))) as [|n] eqn:En; [lia|].
  destruct (second_extend w w1 (start t) l c xs n Hl Hc X1) as (r2 & news & w2 & L2 & Hr2 & F2 & Hnd2 & O2).
  destruct (extend_loop_stages fat _ _ _ _ _ L2) as (k3 & R3). rewrite <- U0, <- (O1 u) in R3 by done.
  destruct (thread_runs u k3 ts1 w1 (Finished r2) w2 R3) as (ts2 & S2 & U2 & O2').
  assert (Hl0 : forall x, x ∈ l -> entry fat w x <> 0) by (intros x Hx; pose proof (chain_entry fat w _ l x Hl Hx); lia).
  assert (Hx1 : forall j, 2 <= j < total_clusters fat -> entry fat w j = 0 -> j ∉ xs -> entry fat w1 j = entry fat w j).
  { intros j Hj Ej Hn. apply (ex_other _ _ _ _ _ _ X1); [unfold is_cluster; lia|]. intros [Hx|?]%elem_of_app; [by apply (Hl0 j)|done]. }
  destruct Hr1 as [[-> Hn1]|(_ & Hn1 & Hf)]; [|pose proof (full_counts w w1 F xs HndF HF Hf Hx1); lia].
  destruct Hr2 as [(-> & Hn2 & C2)|(_ & Hn2 & Hf)].
  2: { assert (length F <= length (xs ++ news))%nat as Hcount; [|rewrite length_app in Hcount; lia].
       apply (full_counts w w2); [done..|]. intros j Hj Ej [Hn Hn']%not_elem_of_app.
       rewrite O2; [by apply Hx1|unfold is_cluster; lia|intros Hx; by apply (Hl0 j)|done]. }
  exists (mkRace ts2 w2), xs, news. cbn [threads shared]. split; [exact (transitivity S0 (transitivity S1 S2))|].
  split; [by rewrite O2'|]. split; [done|]. split; [done|]. rewrite length_app. split; [lia|]. split; [lia|].
  split; [pose proof (chain_nodup fat _ _ _ (ex_chain _ _ _ _ _ _ X1)) as Hnd; by apply NoDup_app in Hnd as (_ & _ & ?)|].
  split; [intros x Hx; by apply (ex_free _ _ _ _ _ _ X1)|]. apply (first_lost w w1 w2 (start t) l xs news); [done..|].
  intros v. destruct (decide (v = u)) as [->|Hvu]; [by rewrite U2|]. rewrite O2' by done.
  destruct (decide (v = t)) as [->|Hvt]; [by rewrite T1|]. rewrite O1, O0 by done. by split.
Qed.
End Same.

(** *** A volume with room

    Like the one of [Fat32], with 16 clusters; a file lies in the clusters 2
    and 4. *)

Definition race_fat : FatInfo := mkFat 512 1 1 2 0 1 2 1 3 0 16.

Lemma race_volume : volume_ok race_fat (valid (W := SectorDisk 64)).
Proof. split; cbn; first [lia|by exists 128|done]. Qed.

Lemma race_chain : Chain race_fat demo_disk 2 [2; 4].
Proof.
  apply chain_step; [unfold is_cluster; cbn; lia|by vm_compute|].
  replace (entry race_fat demo_disk 2) with 4 by by vm_compute.
  apply chain_end; [unfold is_cluster; cbn; lia|by vm_compute].
Qed.

(** One thread needs two clusters more, the other one. *)
Definition race_needs (t : bool) : Z := if t then 4 else 3.

(** ** Theorems *)

Section Claims.
Context `{Profile} {W : Type} (fat : FatInfo) `{Disk W (bytes_per_sector fat)} (Hv : volume_ok fat valid).

Lemma schedule_steps {T} `{EqDecision T} sched : forall (r r' : race W T), run_schedule fat sched r = Ret r' ->
  rtc (race_step fat) r r'.
Proof using.
  induction sched as [|t sched IH]; intros [ts w] r' E; [by injection E as ->|]. cbn [run_schedule threads shared] in E.
  unfold mbind, outcome_bind in E. destruct (stage_step fat (ts t) w) as [[s w1]| |] eqn:Es; [|done..].
  eapply rtc_l; [by eapply thread_step|]. by apply IH.
Qed.

(** The stages of a thread are those of [extend_file]: run without others,
    they end with its result and its disk. *)
Theorem stages_follow_extend_file fuel start new_size needed (w : W) r w' : clusters_needed fat new_size = Ret needed ->
  extend_file fat fuel start new_size w = Ret (r, w') ->
  exists k, stage_steps fat k (Following needed start []) w = Ret (Finished r, w').
Proof using. apply extend_file_stages_ok. Qed.

(** C23: Extending files that share no cluster is safe in every interleaving: at
    any time each file is a chain that starts with its old clusters, no two of
    them share a cluster, every thread can take its next step, one that has
    succeeded has all its clusters and one that has failed found the disk
    full. *)
Theorem extend_race_safe {T} `{EqDecision T} (start needed : T -> Z) ch0 w r : total_clusters fat <= FAT32_EOC ->
  (forall t, Chain fat w (start t) (ch0 t)) -> (forall t u x, t <> u -> x ∈ ch0 t -> x ∉ ch0 u) ->
  rtc (race_step fat) (race_start needed start w) r -> exists ch,
  (forall t, ch0 t `prefix_of` ch t /\ Chain fat (shared r) (start t) (ch t)) /\
  (forall t u x, t <> u -> x ∈ ch t -> x ∉ ch u) /\
  (forall t, exists s w', stage_step fat (threads r t) (shared r) = Ret (s, w')) /\
  (forall t, match threads r t with
             | Finished (Ok _) => needed t <= Z.of_nat (length (ch t))
             | Finished (Err e) => e = FDiskFull
             | _ => True
             end).
Proof using Hv.
  intros Htot Hc Hd Hr. assert (Hi : exists ch, race_inv fat start needed ch r /\ forall t, ch0 t `prefix_of` ch t).
  { assert (Hi : race_inv fat start needed ch0 (race_start needed start w)).
    { split; cbn; [done| |by intros t x ?%not_elem_of_nil|intros t u x; rewrite !app_nil_r; exact (Hd t u x)].
      intros t. split; [done|]. exists (ch0 t). split; [done|apply Hc]. }
    assert (Hp : exists ch, race_inv fat start needed ch (race_start needed start w) /\ forall t, ch0 t `prefix_of` ch t) by by exists ch0.
    clear Hi Hc Hd. induction Hr as [r|r r1 r' Hs _ IH]; [done|]. apply IH. destruct Hp as (ch & Hi & Hp).
    destruct Hs as [t s ts w0 w1 E|lba buf ts w0 w1 Hl Hval Hlen H8 E].
    - destruct (race_thread fat Hv Htot start needed ch t ts w0 Hi) as (s' & w1' & ch' & E' & Hi' & Hp' & _).
      rewrite E in E'. injection E' as <- <-. exists ch'. split; [done|]. intros u. exact (transitivity (Hp u) (Hp' u)).
    - exists ch. split; [|done]. apply (race_data fat Hv start needed ch ts w0 w1 Hi).
      destruct (write_sector_ok fat Hv FWriteError w0 lba buf Hval Hlen H8) as (w2 & E2 & Hs2).
      rewrite E in E2. injection E2 as <-. intros x Hx. rewrite Hs2, decide_False; [done|lia]. }
  destruct Hi as (ch & Hi & Hp). exists ch. split; [split; [done|apply (ri_chain _ _ _ _ _ Hi)]|]. split; [|split].
  - intros t u x Htu Hx Hx'. apply (ri_apart _ _ _ _ _ Hi t u x Htu); apply elem_of_app; by left.
  - intros t. destruct r as [ts w1]. destruct (race_thread fat Hv Htot start needed ch t ts w1 Hi) as (s & w' & _ & E & _).
    by exists s, w'.
  - intros t. pose proof (ri_stage _ _ _ _ _ Hi t) as Hs. destruct (threads r t) as [| | |[]]; done.
Qed.

(** C24: Two opens of one path have locks of their own, and extending the file
    through both at once loses clusters.  On every volume with enough free
    clusters, every sound table and every file that both calls have to extend,
    there is an order of their steps after which both have succeeded, the file
    has the clusters one of them asked for, and those the other has taken are
    lost for ever: whatever these and the other calls and writes of data do
    next, they stay marked as used, so that no call can take them, and no
    chain that starts outside them comes to one. *)
Theorem extend_race_same_file {T} `{EqDecision T} (start needed : T -> Z) w t u l F : total_clusters fat <= FAT32_EOC ->
  sane fat w -> (forall v, start v < 2 \/ is_cluster fat (start v)) -> t <> u -> start t = start u ->
  Chain fat w (start t) l -> Z.of_nat (length l) < needed t -> Z.of_nat (length l) < needed u ->
  NoDup F -> (forall x, x ∈ F -> 2 <= x < total_clusters fat /\ entry fat w x = 0) ->
  needed t + needed u - 2 * Z.of_nat (length l) <= Z.of_nat (length F) ->
  exists r lost news, rtc (race_step fat) (race_start needed start w) r /\
    threads r t = Finished (Ok tt) /\ threads r u = Finished (Ok tt) /\
    Chain fat (shared r) (start t) (l ++ news) /\ Z.of_nat (length (l ++ news)) = needed u /\
    Z.of_nat (length lost) = needed t - Z.of_nat (length l) /\ NoDup lost /\
    forall r' x, rtc (race_step fat) r r' -> x ∈ lost ->
      entry fat w x = 0 /\ entry fat (shared r') x <> 0 /\
      forall c ch, c ∉ lost -> Chain fat (shared r') c ch -> x ∉ ch.
Proof using Hv.
  intros Htot Hsane Hstart Htu Est Hl Ht Hu HndF HF Hlen.
  destruct (same_file fat Hv Htot start needed w t u l F) as (r & lost & news & Hr & A1 & A2 & A3 & A4 & A5 & A6 & A7 & Hi); [done..|].
  exists r, lost, news. split_and!; [done..|]. intros r' x Hr' Hx. pose proof (lost_for_ever fat Hv Htot _ _ _ Hi Hr') as Hi'.
  split; [by apply A7|]. split; [by apply (li_used _ _ _ Hi')|]. intros c ch Hc Hch. by apply (lost_unreached fat lost r' c).
Qed.
End Claims.

(** ** Witnesses *)

#[local] Instance debug_profile : Profile := Build_Profile true.

Lemma stages_follow_extend_file_witness : exists k w',
  stage_steps race_fat k (Following 3 2 []) demo_disk = Ret (Finished (Ok tt), w').
Proof.
  destruct (extend_file race_fat 5 2 1025 demo_disk) as [[[[]|] w']| |] eqn:E; try (exfalso; vm_compute in E; discriminate).
  destruct (stages_follow_extend_file race_fat 5 2 1025 3 demo_disk (Ok tt) w' eq_refl E) as (k & Hk). by exists k, w'.
Defined.

(** A file of the clusters 2 and 4 and a file of the cluster 5. *)
Definition two_files : SectorDisk 64 := mkDisk (
  <[1 := flat_map le_bytes32 [0; 0; 4; 0; 0x0fffffff; 0x0fffffff]]> (sectors demo_disk)).

Lemma two_files_chains : Chain race_fat two_files 2 [2; 4] /\ Chain race_fat two_files 5 [5].
Proof.
  split; [apply chain_step; [unfold is_cluster; cbn; lia|by vm_compute|]|].
  - replace (entry race_fat two_files 2) with 4 by by vm_compute.
    apply chain_end; [unfold is_cluster; cbn; lia|by vm_compute].
  - apply chain_end; [unfold is_cluster; cbn; lia|by vm_compute].
Qed.

(** Their threads interleave and both succeed. *)
Lemma extend_race_safe_witness : exists r ch,
  rtc (race_step race_fat) (race_start race_needs (fun t : bool => if t then 2 else 5) two_files) r /\
  threads r true = Finished (Ok tt) /\ threads r false = Finished (Ok tt) /\
  Chain race_fat (shared r) 2 (ch true) /\ 4 <= Z.of_nat (length (ch true)) /\
  Chain race_fat (shared r) 5 (ch false) /\ 3 <= Z.of_nat (length (ch false)).
Proof.
  set (sched := [true; false; true; false; true; true; false; false; true; true; false; false; true; false]).
  assert (Hf : match run_schedule race_fat sched (race_start race_needs (fun t : bool => if t then 2 else 5) two_files) with
    | Ret r => Some (threads r true, threads r false)
    | _ => None
    end = Some (Finished (Ok tt), Finished (Ok tt))) by (vm_compute; reflexivity).
  destruct (run_schedule race_fat sched _) as [r| |] eqn:E; [|done..]. injection Hf as Ht Hu.
  pose proof (schedule_steps race_fat sched _ _ E) as Hr.
  destruct (extend_race_safe race_fat race_volume (fun t : bool => if t then 2 else 5) race_needs
    (fun t : bool => if t then [2; 4] else [5]) two_files r) as (ch & Hc & _ & _ & Hn); [by vm_compute| | |exact Hr|].
  - intros [].
    + exact (proj1 two_files_chains).
    + exact (proj2 two_files_chains).
  - clear. intros [] [] x Hne; set_solver.
  - exists r, ch. split; [exact Hr|]. split; [exact Ht|]. split; [exact Hu|].
    pose proof (Hn true) as N1. pose proof (Hn false) as N2. rewrite Ht in N1. rewrite Hu in N2.
    split; [apply (Hc true)|]. split; [exact N1|]. split; [apply (Hc false)|exact N2].
Defined.

(** The clusters of the volume, one by one. *)
Lemma demo_sane : sane race_fat demo_disk.
Proof.
  assert (Hb : forallb (fun j => let e := entry race_fat demo_disk j in
    (e <? 2) || (FAT32_EOC <=? e) || ((2 <=? e) && (e <? 18) && negb (entry race_fat demo_disk e =? 0))) (seqZ 2 16) = true)
    by by vm_compute.
  rewrite forallb_forall in Hb. intros j Hj. assert (Hin : j ∈ seqZ 2 16) by (apply elem_of_seqZ; unfold is_cluster in Hj; cbn in Hj; lia).
  apply list_elem_of_In, Hb in Hin. clear Hb. revert Hin. cbv zeta. intros Hb.
  apply orb_true_iff in Hb as [[?%Z.ltb_lt|?%Z.leb_le]%orb_true_iff|[[?%Z.leb_le ?%Z.ltb_lt]%andb_true_iff He]%andb_true_iff];
    [by left|by right; left|right; right].
  apply negb_true_iff, Z.eqb_neq in He. by split.
Qed.

(** Of the clusters 3, 5 and 6, two are lost and one is the end of the file. *)
Lemma extend_race_same_file_witness : exists r lost news,
  rtc (race_step race_fat) (race_start race_needs (fun _ => 2) demo_disk) r /\
  threads r true = Finished (Ok tt) /\ threads r false = Finished (Ok tt) /\
  Chain race_fat (shared r) 2 ([2; 4] ++ news) /\ length news = 1%nat /\ length lost = 2%nat /\
  forall x c ch, x ∈ lost -> entry race_fat (shared r) x <> 0 /\ (c ∉ lost -> Chain race_fat (shared r) c ch -> x ∉ ch).
Proof.
  destruct (extend_race_same_file race_fat race_volume (fun _ : bool => 2) race_needs demo_disk true false [2; 4] [3; 5; 6])
    as (r & lost & news & Hr & A1 & A2 & A3 & A4 & A5 & A6 & A7).
  - by vm_compute.
  - exact demo_sane.
  - intros v. right. unfold is_cluster. cbn. lia.
  - done.
  - done.
  - exact race_chain.
  - by vm_compute.
  - by vm_compute.
  - repeat constructor; set_solver by lia.
  - intros x Hx. rewrite !elem_of_cons in Hx. destruct Hx as [->|[->|[->|Hx]]]; [by vm_compute..|by apply not_elem_of_nil in Hx].
  - by vm_compute.
  - exists r, lost, news. rewrite length_app in A4. cbn in A4, A5.
    split; [exact Hr|]. split; [exact A1|]. split; [exact A2|]. split; [exact A3|]. split; [lia|]. split; [lia|].
    intros x c ch Hx. destruct (A7 r x) as (_ & B1 & B2); [reflexivity|exact Hx|]. split; [exact B1|exact (B2 c ch)].
Defined.
