(* ===== verification/KInit.v ===== *)
(** * Memory set-up at boot (kernel/src/kcore/init.rs)

    [setup_memory_management] lays out the memory behind the kernel image: the
    first-level page table (ARM) or page directory (x86), the heap, and the
    memory of the page allocator, and initialises both allocators over the same
    memory.  The target architecture and the end of the kernel image, a linker
    symbol, are arguments. *)
From S2P Require Import Prelude Memory Buddy Heap Pages Platform.

(** ** Definitions *)

Inductive target := TargetX86 | TargetArm.

(** The statics: [HEAP], the page allocator, memory, and
    [KERNEL_PD_PHYS] or [KERNEL_L1_TABLE_PHYS]. *)
Record kstate := mkKernel {
  heap : option BuddyAllocator;
  pages : option BuddyAllocator;
  ram : mem;
  table_phys : Z;
}.

Record MemoryLayout := mkMemLayout {
  kernel_end : Z; heap_start : Z; heap_end : Z; page_alloc_start : Z; page_alloc_end : Z;
  page_table : Z * Z;
}.

Definition on_heap {A} (f : st hstate A) : st kstate A := fun s =>
  match f (heap s, ram s) with
  | Ret (a, (h, m)) => Ret (a, mkKernel h (pages s) m (table_phys s))
  | Panic => Panic
  | OutOfFuel => OutOfFuel
  end.

Definition on_pages {A} (f : st pstate A) : st kstate A := fun s =>
  match f (pages s, ram s) with
  | Ret (a, (p, m)) => Ret (a, mkKernel (heap s) p m (table_phys s))
  | Panic => Panic
  | OutOfFuel => OutOfFuel
  end.

(** [get_kernel_end_address]; [symbol] is [_bss_end] or
    [_free_memory_start]. *)
Definition get_kernel_end_address (t : target) (symbol : Z) : Z :=
  match t with
  | TargetX86 =>
      if (0x100000 <? symbol) && (symbol <? 0x6400000) then symbol else 0x100000 + 2 * 1024 * 1024
  | TargetArm => symbol
  end.

(** The size of the table, which is also its alignment. *)
Definition table_size (t : target) : Z :=
  match t with TargetX86 => 4 * 1024 | TargetArm => 16 * 1024 end.

Section Setup.
Context `{Profile}.

(** [(x + 0xFFF) & !0xFFF]. *)
Definition round_page (x : Z) : outcome Z :=
  y ← add usize_bits x 0xfff; Ret (Z.land y (lnot usize_bits 0xfff)).

(** [(x + align - 1) & !(align - 1)]. *)
Definition round_table (t : target) (x : Z) : outcome Z :=
  y ← add usize_bits x (table_size t); z ← sub usize_bits y 1;
  Ret (Z.land z (lnot usize_bits (table_size t - 1))).

(** The assertions that [lo..hi] does not meet the peripheral window. *)
Definition assert_clear (mm : MemoryMap) (lo hi : Z) : outcome unit :=
  if 0 <? peripheral_size mm then
    periph_end ← add usize_bits (peripheral_base mm) (peripheral_size mm);
    rassert ((hi <=? peripheral_base mm) || (periph_end <=? lo))
  else Ret tt.

Definition assert_outside (mm : MemoryMap) (x : Z) : outcome unit :=
  if 0 <? peripheral_size mm then
    periph_end ← add usize_bits (peripheral_base mm) (peripheral_size mm);
    rassert ((x <? peripheral_base mm) || (periph_end <=? x))
  else Ret tt.

(** Reserving and clearing the table at the base of free memory. *)
Definition reserve_table (t : target) (mm : MemoryMap) (free_mem_start : Z) : st kstate Z :=
  start ← lift (round_table t free_mem_start);
  end_ ← lift (add usize_bits start (table_size t));
  _ ← lift (assert_clear mm start end_);
  _ ← modify (fun s => mkKernel (heap s) (pages s) (write_bytes (ram s) start 0 (table_size t)) start);
  lift (round_page end_).

Definition setup_memory_management (t : target) (mm : MemoryMap) (symbol : Z) : st kstate MemoryLayout :=
  let kernel_end := get_kernel_end_address t symbol in
  free_mem_start ← lift (round_page kernel_end);
  ram_end ← lift (add usize_bits (ram_start mm) (ram_size mm));
  _ ← lift (rassert ((ram_start mm <=? free_mem_start) && (free_mem_start <? ram_end)));
  _ ← lift (assert_outside mm free_mem_start);
  post_table_start ← reserve_table t mm free_mem_start;
  let usable_ram_end :=
    if (0 <? peripheral_size mm) && (post_table_start <=? peripheral_base mm) && (peripheral_base mm <? ram_end)
    then peripheral_base mm else ram_end in
  let available_ram := saturating_sub usable_ram_end post_table_start in
  let heap_size := Z.min (16 * 1024 * 1024) (available_ram / 10) in
  let heap_start := post_table_start in
  heap_end ← lift (add usize_bits heap_start heap_size);
  page_alloc_start ← lift (round_page heap_end);
  let page_alloc_end := usable_ram_end in
  _ ← lift (assert_clear mm page_alloc_start page_alloc_end);
  _ ← on_heap (heap_init heap_start heap_end);
  _ ← on_pages (pages_init page_alloc_start page_alloc_end);
  s ← get;
  end_ ← lift (add usize_bits (table_phys s) (table_size t));
  mret (mkMemLayout kernel_end heap_start heap_end page_alloc_start page_alloc_end (table_phys s, end_)).
End Setup.

(** ** The contract

    Where the table goes, where free memory starts after it and where it
    ends. *)
Definition up (a x : Z) : Z := x + a - 1 - (x + a - 1) mod a.

Definition table_start (t : target) (k : Z) : Z := up (table_size t) (up 4096 k).

Definition after_table (t : target) (k : Z) : Z := table_start t k + table_size t.

Definition usable_end (t : target) (mm : MemoryMap) (k : Z) : Z :=
  if (0 <? peripheral_size mm) && (after_table t k <=? peripheral_base mm) &&
     (peripheral_base mm <? ram_start mm + ram_size mm)
  then peripheral_base mm else ram_start mm + ram_size mm.

(** The kernel ends inside a RAM region that ends a page short of the address
    space, at least 16 KiB of usable memory follow the table, and the
    peripheral window meets neither the table nor the first free page. *)
Record boot_ok (t : target) (mm : MemoryMap) (k : Z) : Prop := {
  bo_kernel : 0 < k;
  bo_ram : 0 <= ram_start mm <= up 4096 k;
  bo_limit : ram_start mm + ram_size mm < 2 ^ 32 - 4096;
  bo_room : after_table t k + 16384 <= usable_end t mm k;
  bo_window : 0 < peripheral_size mm ->
    0 <= peripheral_base mm /\ peripheral_base mm + peripheral_size mm < 2 ^ 32 /\
    (up 4096 k < peripheral_base mm \/ peripheral_base mm + peripheral_size mm <= up 4096 k) /\
    (after_table t k <= peripheral_base mm \/
     peripheral_base mm + peripheral_size mm <= table_start t k);
}.

(** ** Lemmas *)

Section Lemmas.
Context `{Profile}.

Lemma up_spec a x : 0 < a -> x <= up a x < x + a /\ (a | up a x).
Proof using.
  intros Ha. unfold up. pose proof (Z.mod_pos_bound (x + a - 1) a Ha). split; [lia|].
  exists ((x + a - 1) / a). pose proof (Z.div_mod (x + a - 1) a). lia.
Qed.

Lemma round_page_ok x : 0 <= x < 2 ^ 32 - 4096 -> round_page x = Ret (up 4096 x).
Proof using.
  intros Hx. unfold round_page. rewrite add_ok by (unfold fits, usize_bits; lia). cbn [mbind outcome_bind].
  replace (Z.land (x + 0xfff) (lnot usize_bits 0xfff)) with (x + 0xfff - (x + 0xfff) mod 2 ^ 12).
  2: { symmetry. apply (land_lnot_mask usize_bits _ 12); unfold fits, usize_bits; lia. }
  unfold up. change (2 ^ 12) with 4096. by replace (x + 4096 - 1) with (x + 0xfff) by lia.
Qed.

Lemma round_table_ok t x : 0 <= x < 2 ^ 32 - 16384 -> round_table t x = Ret (up (table_size t) x).
Proof using.
  intros Hx. assert (Hts : exists n, 0 <= n <= 32 /\ table_size t = 2 ^ n /\ table_size t <= 16384).
  { destruct t; [exists 12|exists 14]; cbn; lia. }
  destruct Hts as (n & Hn & Et & Hle). assert (1 <= table_size t) by (destruct t; cbn; lia).
  unfold round_table. rewrite add_ok by (unfold fits, usize_bits; lia). cbn [mbind outcome_bind].
  rewrite sub_ok by (unfold fits, usize_bits; lia). cbn [mbind outcome_bind].
  rewrite Et at 2. rewrite land_lnot_mask by (unfold fits, usize_bits; lia). by rewrite <- Et.
Qed.

Lemma assert_clear_ok mm lo hi :
  (0 < peripheral_size mm -> 0 <= peripheral_base mm /\ peripheral_base mm + peripheral_size mm < 2 ^ 32 /\
     (hi <= peripheral_base mm \/ peripheral_base mm + peripheral_size mm <= lo)) ->
  assert_clear mm lo hi = Ret tt.
Proof using.
  intros Hw. unfold assert_clear. destruct (Z.ltb_spec 0 (peripheral_size mm)) as [Hp|]; [|done].
  destruct (Hw Hp) as (? & ? & Hc). rewrite add_ok by (unfold fits, usize_bits; lia). cbn [mbind outcome_bind].
  unfold rassert. destruct (Z.leb_spec hi (peripheral_base mm)); [done|].
  by rewrite (proj2 (Z.leb_le _ _)) by lia.
Qed.

Lemma assert_outside_ok mm x :
  (0 < peripheral_size mm -> 0 <= peripheral_base mm /\ peripheral_base mm + peripheral_size mm < 2 ^ 32 /\
     (x < peripheral_base mm \/ peripheral_base mm + peripheral_size mm <= x)) ->
  assert_outside mm x = Ret tt.
Proof using.
  intros Hw. unfold assert_outside. destruct (Z.ltb_spec 0 (peripheral_size mm)) as [Hp|]; [|done].
  destruct (Hw Hp) as (? & ? & Hc). rewrite add_ok by (unfold fits, usize_bits; lia). cbn [mbind outcome_bind].
  unfold rassert. destruct (Z.ltb_spec x (peripheral_base mm)); [done|].
  by rewrite (proj2 (Z.leb_le _ _)) by lia.
Qed.

Lemma region_start_aligned mn a : 0 <= mn -> (2 ^ mn | a) -> region_start mn a = a.
Proof using.
  intros Hmn [q ->]. unfold region_start. assert (0 < 2 ^ mn) by (apply Z.pow_pos_nonneg; lia).
  replace (q * 2 ^ mn + 2 ^ mn - 1) with (2 ^ mn - 1 + q * 2 ^ mn) by lia.
  rewrite Z.mod_add, Z.mod_small by lia. lia.
Qed.

Lemma region_end_near mn e : 0 <= mn -> e - 2 ^ mn < region_end mn e <= e.
Proof using.
  intros Hmn. unfold region_end. pose proof (Z.mod_pos_bound e (2 ^ mn)).
  assert (0 < 2 ^ mn) by (apply Z.pow_pos_nonneg; lia). lia.
Qed.

Lemma after_table_page t k : (4096 | after_table t k).
Proof using.
  assert (Hd : (4096 | table_size t)) by (destruct t; [by exists 1|by exists 4]).
  assert (0 < table_size t) by (destruct t; cbn; lia). unfold after_table, table_start.
  apply Z.divide_add_r; [|done]. etransitivity; [done|]. by apply up_spec.
Qed.

Lemma up_aligned a x : 0 < a -> (a | x) -> up a x = x.
Proof using.
  intros Ha [q ->]. unfold up. replace (q * a + a - 1) with (a - 1 + q * a) by lia.
  rewrite Z.mod_add, Z.mod_small by lia. lia.
Qed.
End Lemmas.

Section SetupLemmas.
Context `{Profile} (t : target) (mm : MemoryMap) (k : Z) (Hok : boot_ok t mm k).

Lemma usable_bound : after_table t k + 16384 <= usable_end t mm k <= ram_start mm + ram_size mm /\
  0 < up 4096 k /\ up 4096 k <= table_start t k < up 4096 k + table_size t /\
  after_table t k = table_start t k + table_size t /\ 4096 <= table_size t <= 16384.
Proof using Hok.
  pose proof (bo_room _ _ _ Hok). pose proof (bo_kernel _ _ _ Hok).
  assert (4096 <= table_size t <= 16384) by (destruct t; cbn; lia).
  destruct (up_spec 4096 k) as [Hu _]; [lia|]. destruct (up_spec (table_size t) (up 4096 k)) as [Ht _]; [lia|].
  assert (usable_end t mm k <= ram_start mm + ram_size mm).
  { unfold usable_end. destruct (_ && _ && _) eqn:E; [|lia]. apply andb_true_iff in E as [_ E%Z.ltb_lt]. lia. }
  unfold after_table, table_start in *. lia.
Qed.

Lemma reserve_table_ok s : reserve_table t mm (up 4096 k) s =
  Ret (after_table t k, mkKernel (heap s) (pages s) (write_bytes (ram s) (table_start t k) 0 (table_size t)) (table_start t k)).
Proof using Hok.
  pose proof usable_bound as (Hu & H0 & Hts & Hat & Hsz). pose proof (bo_limit _ _ _ Hok).
  unfold reserve_table. erewrite stbind_step by (by rewrite round_table_ok by lia).
  fold (table_start t k).
  erewrite stbind_step by (by rewrite add_ok by (unfold fits, usize_bits; lia)). fold (after_table t k).
  erewrite stbind_step.
  2: { rewrite assert_clear_ok; [done|]. intros Hp. pose proof (bo_window _ _ _ Hok Hp). tauto. }
  erewrite stbind_step by done. rewrite round_page_ok by lia.
  by rewrite up_aligned by (lia || apply after_table_page).
Qed.

Lemma window_ok : 0 < peripheral_size mm -> 0 <= peripheral_base mm /\
  peripheral_base mm + peripheral_size mm < 2 ^ 32 /\
  (usable_end t mm k <= peripheral_base mm \/ peripheral_base mm + peripheral_size mm <= table_start t k).
Proof using Hok.
  intros Hp. destruct (bo_window _ _ _ Hok Hp) as (W1 & W2 & _ & W3). split_and!; [done|done|].
  pose proof usable_bound as (Hu & _). unfold usable_end in *. rewrite (proj2 (Z.ltb_lt _ _) Hp) in *.
  destruct (Z.leb_spec (after_table t k) (peripheral_base mm)), (Z.ltb_spec (peripheral_base mm) (ram_start mm + ram_size mm));
    cbn [andb] in *; lia.
Qed.

(** Both allocators over one memory: neither touches the other's region or
    anything outside the two. *)
Lemma init_allocators hs he ps pe m tb : 0 < hs -> (4096 | hs) -> hs <= he -> ps = up 4096 he ->
  he <= ps -> ps + 4096 <= pe -> pe < 2 ^ 32 - 4096 -> exists hb pb m' fl,
  (_ ← on_heap (heap_init hs he); on_pages (pages_init ps pe)) (mkKernel None None m tb) =
    Ret (tt, mkKernel (Some hb) (Some pb) m' tb) /\
  heap_ok hs (region_end HEAP_LOG he) ((Some hb, m'), ∅) /\
  pages_ok (Some pb, m') fl /\ (forall x, free_byte PAGE_LOG fl x <-> ps <= x < region_end PAGE_LOG pe) /\
  same_outside (fun x => hs <= x < he \/ ps <= x < pe) m m'.
Proof using.
  intros Hhs Hal Hle Hps Hph Hpp Hlim.
  assert (Hal5 : region_start HEAP_LOG hs = hs).
  { apply region_start_aligned; [unfold HEAP_LOG; lia|]. etransitivity; [|exact Hal]. by exists 128. }
  assert (Hal12 : region_start PAGE_LOG ps = ps).
  { apply region_start_aligned; [unfold PAGE_LOG; lia|]. rewrite Hps. change (2 ^ PAGE_LOG) with 4096.
    apply up_spec. lia. }
  pose proof (region_end_near HEAP_LOG he ltac:(unfold HEAP_LOG; lia)) as Hre5.
  pose proof (region_end_near PAGE_LOG pe ltac:(unfold PAGE_LOG; lia)) as Hre12.
  assert (Hre5' : hs <= region_end HEAP_LOG he).
  { unfold region_end. destruct Hal as [q ->]. change (2 ^ HEAP_LOG) with 32.
    pose proof (Z.div_mod he 32). pose proof (Z.mod_pos_bound he 32). lia. }
  change (2 ^ HEAP_LOG) with 32 in *. change (2 ^ PAGE_LOG) with 4096 in *.
  destruct (init_ok HEAP_LOG (Buddy.new HEAP_MIN_BLOCK_SIZE, m) hs he) as ([hb m1] & E1 & Eb & Et & fl1 & Hwf1 & Hco1 & Hcov1 & Hso1).
  { split_and!; try done; rewrite ?Hal5; try lia. change (2 ^ HEAP_LOG) with 32. lia. }
  destruct (init_ok PAGE_LOG (Buddy.new PAGE_SIZE, m1) ps pe) as ([pb m2] & E2 & _ & _ & fl2 & Hwf2 & Hco2 & Hcov2 & Hso2).
  { split_and!; try done; rewrite ?Hal12; try lia. change (2 ^ PAGE_LOG) with 4096. lia. }
  cbn [fst snd] in *. rewrite Hal5, Hal12 in *. exists hb, pb, m2, fl2. split_and!.
  - erewrite stbind_step; [|unfold on_heap, heap_init; cbn [heap ram]; by rewrite E1].
    unfold on_pages, pages_init. cbn [pages ram]. by rewrite E2.
  - exists hb, m2, fl1. split; [done|]. split; cbn [fst snd]; [lia| |done|done|done|].
    + eapply wf_frame; [exact Hwf1|exact Hso2|]. intros x Hx%Hcov1. unfold in_block. lia.
    + intros x. rewrite <- Hcov1. split; [by left|]. by intros [?|(p & l & ? & _)].
  - exists pb. split; [done|]. by split.
  - done.
  - intros x Hx. rewrite Hso2 by (unfold in_block; lia). apply Hso1. unfold in_block. lia.
Qed.
End SetupLemmas.

Section Layout.
Context `{Profile}.

Lemma setup_layout_ok t mm symbol m (k := get_kernel_end_address t symbol) : boot_ok t mm k ->
  exists l hb pb m' fl,
    setup_memory_management t mm symbol (mkKernel None None m 0) =
      Ret (l, mkKernel (Some hb) (Some pb) m' (page_table l).1) /\
    kernel_end l = k /\ k <= (page_table l).1 /\ (table_size t | (page_table l).1) /\
    (page_table l).2 = (page_table l).1 + table_size t /\ (page_table l).2 = heap_start l /\
    heap_start l <= heap_end l <= page_alloc_start l /\ page_alloc_start l < page_alloc_end l /\
    page_alloc_end l <= ram_start mm + ram_size mm /\
    (forall x, (page_table l).1 <= x < page_alloc_end l ->
       ~ in_block (peripheral_base mm) (peripheral_size mm) x) /\
    (forall x, in_block (page_table l).1 (table_size t) x -> m' x = 0) /\
    heap_ok (heap_start l) (region_end HEAP_LOG (heap_end l)) ((Some hb, m'), ∅) /\
    pages_ok (Some pb, m') fl /\
    (forall x, free_byte PAGE_LOG fl x <-> page_alloc_start l <= x < region_end PAGE_LOG (page_alloc_end l)).
Proof using.
  intros Hok. destruct (usable_bound t mm k Hok) as (Hu & H0 & Hts & Hat & Hsz).
  pose proof (bo_limit _ _ _ Hok). pose proof (bo_ram _ _ _ Hok). pose proof (bo_kernel _ _ _ Hok) as Hk.
  destruct (up_spec 4096 k) as [Hup _]; [lia|].
  set (T := table_start t k) in *. set (hs := after_table t k) in *. set (pe := usable_end t mm k) in *.
  set (he := hs + Z.min (16 * 1024 * 1024) ((pe - hs) / 10)). set (ps := up 4096 he).
  assert (0 <= (pe - hs) / 10 /\ 10 * ((pe - hs) / 10) <= pe - hs).
  { pose proof (Z.div_mod (pe - hs) 10). pose proof (Z.mod_pos_bound (pe - hs) 10). lia. }
  destruct (up_spec 4096 he) as [Hps _]; [lia|]. fold ps in Hps.
  pose proof (window_ok t mm k Hok) as Hwin. fold T pe in Hwin.
  destruct (init_allocators hs he ps pe (write_bytes m T 0 (table_size t)) T) as (hb & pb & m' & fl & E & Hh & Hp & Hc & Hso);
    try first [lia|apply after_table_page|done].
  exists (mkMemLayout k hs he ps pe (T, hs)), hb, pb, m', fl. cbn [page_table fst snd kernel_end heap_start heap_end page_alloc_start page_alloc_end].
  split.
  - unfold setup_memory_management. fold k. erewrite stbind_step by (by rewrite round_page_ok by lia).
    erewrite stbind_step by (by rewrite add_ok by (unfold fits, usize_bits; lia)).
    erewrite stbind_step.
    2: { unfold rassert. by rewrite (proj2 (Z.leb_le _ _)), (proj2 (Z.ltb_lt _ _)) by lia. }
    erewrite stbind_step.
    2: { rewrite assert_outside_ok; [done|]. intros Hp'. pose proof (bo_window _ _ _ Hok Hp'). tauto. }
    erewrite stbind_step by (by apply (reserve_table_ok t mm k Hok)). fold hs T.
    change (if _ && _ && _ then peripheral_base mm else ram_start mm + ram_size mm) with pe.
    replace (saturating_sub pe hs) with (pe - hs) by (unfold saturating_sub; lia). cbv zeta.
    erewrite stbind_step by (by rewrite add_ok by (unfold fits, usize_bits; lia)). fold he.
    erewrite stbind_step by (by rewrite round_page_ok by lia). fold ps.
    erewrite stbind_step.
    2: { rewrite assert_clear_ok; [done|]. intros Hp'. specialize (Hwin Hp'). lia. }
    cbn [heap pages ram].
    apply stbind_Ret in E as ([] & s1 & E1 & E2). erewrite stbind_step by exact E1.
    erewrite stbind_step by exact E2. erewrite stbind_step by done. cbn [table_phys].
    erewrite stbind_step by (by rewrite add_ok by (unfold fits, usize_bits; lia)).
    by rewrite <- Hat.
  - split_and!; try done; try lia.
    + unfold T, table_start. apply up_spec. lia.
    + intros x Hx Hin. unfold in_block in Hin. destruct (Z.lt_ge_cases 0 (peripheral_size mm)) as [Hp'|]; [|lia].
      specialize (Hwin Hp'). lia.
    + intros x Hx. rewrite Hso by (unfold in_block in Hx; lia). by apply write_bytes_in.
Qed.
End Layout.

(** ** Theorems *)

Section Claims.
Context `{Profile}.

(** C2: on a machine where the kernel and at least 16 KiB behind its first
    table fit in RAM and clear of the peripherals, [setup_memory_management]
    returns: it places table, heap and page memory in this order after the
    kernel, disjoint, inside RAM and off the peripheral window; the table is
    zero and both allocators are initialised, the heap on all of its region
    and the page allocator on all whole pages of its own, over one memory. *)
Theorem setup_memory_layout t mm symbol m (k := get_kernel_end_address t symbol) : boot_ok t mm k ->
  exists l hb pb m' fl,
    setup_memory_management t mm symbol (mkKernel None None m 0) =
      Ret (l, mkKernel (Some hb) (Some pb) m' (page_table l).1) /\
    kernel_end l = k /\ k <= (page_table l).1 /\ (table_size t | (page_table l).1) /\
    (page_table l).2 = (page_table l).1 + table_size t /\ (page_table l).2 = heap_start l /\
    heap_start l <= heap_end l <= page_alloc_start l /\ page_alloc_start l < page_alloc_end l /\
    page_alloc_end l <= ram_start mm + ram_size mm /\
    (forall x, (page_table l).1 <= x < page_alloc_end l ->
       ~ in_block (peripheral_base mm) (peripheral_size mm) x) /\
    (forall x, in_block (page_table l).1 (table_size t) x -> m' x = 0) /\
    heap_ok (heap_start l) (region_end HEAP_LOG (heap_end l)) ((Some hb, m'), ∅) /\
    pages_ok (Some pb, m') fl /\
    (forall x, free_byte PAGE_LOG fl x <-> page_alloc_start l <= x < region_end PAGE_LOG (page_alloc_end l)).
Proof using. apply setup_layout_ok. Qed.
End Claims.

(** ** Witnesses *)

#[local] Instance debug_profile : Profile := Build_Profile true.

(** A Raspberry Pi: 512 MiB of RAM, the peripherals behind it. *)
Definition pi_map : MemoryMap := mkMemoryMap 0 0x20000000 0x20000000 0x1000000.

Lemma pi_boot_ok : boot_ok TargetArm pi_map 0x123456.
Proof. by split; vm_compute; try (intuition congruence). Qed.

Lemma setup_memory_layout_witness : exists l hb pb m',
  setup_memory_management TargetArm pi_map 0x123456 (mkKernel None None (fun _ => 255) 0) =
    Ret (l, mkKernel (Some hb) (Some pb) m' (page_table l).1) /\ kernel_end l = 0x123456.
Proof.
  destruct (setup_memory_layout TargetArm pi_map 0x123456 (fun _ => 255) pi_boot_ok)
    as (l & hb & pb & m' & fl & E & Ek & _).
  exists l, hb, pb, m'. split; [exact E|exact Ek].
Defined.
