(* ===== verification/Fb.v ===== *)
(** * Framebuffers

    The drawing algorithms the HAL trait provides (drivers/src/hal/fb.rs) and
    the linear framebuffer of the Multiboot2 boot loader
    (drivers/src/peripheral/x86/mb2fb.rs), whose pixels are bytes of memory. *)
From S2P Require Import Prelude Memory.

(** ** Arithmetic of 32-bit signed integers *)

Section Signed.
Context `{Profile}.

(** [abs] and negation overflow on the least integer. *)
Definition sabs (z : Z) : outcome Z := sarith 32 (Z.abs z).
Definition sneg (z : Z) : outcome Z := sarith 32 (- z).

Definition as_i32 (z : Z) : Z := to_signed 32 z.
Definition as_u32 (z : Z) : Z := wrap 32 z.

(** [>>] on an unsigned integer. *)
Definition shr (w a n : Z) : outcome Z :=
  if n <? w then Ret (Z.shiftr a n)
  else if debug_assertions then Panic else Ret (Z.shiftr a (n mod w)).
End Signed.

(** ** The HAL *)

Inductive PixelFormat := Rgb | Bgr | Rgba | Bgra.

Inductive FrameBufferError := MailboxFailed | AllocationFailed | InvalidConfig | NotSupported.

Record FrameBufferInfo := mkInfo {
  width : Z; height : Z; pitch : Z; depth : Z; info_format : PixelFormat; address : Z; info_size : Z;
}.

Record FrameBufferConfig := mkConfig {
  cwidth : Z; cheight : Z; virtual_width : Z; virtual_height : Z; cdepth : Z;
}.
Definition default_config : FrameBufferConfig := mkConfig 1920 1080 1920 1080 32.

(** The methods an implementation must give. *)
Class FrameBuffer (S : Type) := {
  fb_width : Z;
  fb_height : Z;
  fb_bytes_per_pixel : Z;
  fb_clear : Z -> st S unit;
  set_pixel : Z -> Z -> Z -> st S bool;
  get_pixel : Z -> Z -> st S (option Z);
  draw_hline : Z -> Z -> Z -> Z -> st S unit;
  draw_vline : Z -> Z -> Z -> Z -> st S unit;
  draw_rect : Z -> Z -> Z -> Z -> Z -> st S unit;
}.

Section Provided.
Context `{Profile} {D : Type} `{FrameBuffer D}.

Definition default_pitch : outcome Z := mul usize_bits fb_width fb_bytes_per_pixel.
Definition default_size : outcome Z := p ← default_pitch; mul usize_bits p fb_height.

(** The loop of [draw_line] (Bresenham's algorithm). *)
Fixpoint line_loop (fuel : nat) (dx dy sx sy x2 y2 color : Z) (x1 y1 err : Z) : st D unit :=
  match fuel with
  | O => out_of_fuel
  | S fuel =>
      _ ← set_pixel (as_u32 x1) (as_u32 y1) color;
      if (x1 =? x2) && (y1 =? y2) then mret tt
      else
        e2 ← lift (smul 32 2 err);
        '(err, x1) ←
          (if dy <=? e2 then
             err ← lift (sadd 32 err dy); x1 ← lift (sadd 32 x1 sx); mret (err, x1)
           else mret (err, x1));
        '(err, y1) ←
          (if e2 <=? dx then
             err ← lift (sadd 32 err dx); y1 ← lift (sadd 32 y1 sy); mret (err, y1)
           else mret (err, y1));
        line_loop fuel dx dy sx sy x2 y2 color x1 y1 err
  end.

Definition draw_line (fuel : nat) (x1 y1 x2 y2 color : Z) : st D unit :=
  let x1 := as_i32 x1 in
  let y1 := as_i32 y1 in
  let x2 := as_i32 x2 in
  let y2 := as_i32 y2 in
  ddx ← lift (ssub 32 x2 x1);
  dx ← lift (sabs ddx);
  ddy ← lift (ssub 32 y2 y1);
  ady ← lift (sabs ddy);
  dy ← lift (sneg ady);
  let sx := if x1 <? x2 then 1 else -1 in
  let sy := if y1 <? y2 then 1 else -1 in
  err ← lift (sadd 32 dx dy);
  line_loop fuel dx dy sx sy x2 y2 color x1 y1 err.

Definition draw_rect_outline (x y w h color : Z) : st D unit :=
  if (w =? 0) || (h =? 0) then mret tt
  else
    mx ← lift (sub 32 (as_u32 fb_width) 1);
    my ← lift (sub 32 (as_u32 fb_height) 1);
    let x2 := Z.min (saturating_add 32 x (w - 1)) mx in
    let y2 := Z.min (saturating_add 32 y (h - 1)) my in
    _ ← draw_hline x x2 y color;
    _ ← draw_hline x x2 y2 color;
    _ ← draw_vline x y y2 color;
    draw_vline x2 y y2 color.

(** The common end of an iteration of the two circle loops. *)
Definition circle_next (x y err : Z) : outcome (Z * Z * Z) :=
  y ← sadd 32 y 1;
  err ← (if err <=? 0 then d ← smul 32 2 y; d ← sadd 32 d 1; sadd 32 err d else Ret err);
  if 0 <? err then
    x ← ssub 32 x 1; d ← smul 32 2 x; d ← sadd 32 d 1; err ← ssub 32 err d; Ret (x, y, err)
  else Ret (x, y, err).

(** The two coordinates of a pixel of the circle, computed in order. *)
Definition circle_pixel (cx sx cy sy color : Z) : st D unit :=
  x ← lift (sadd 32 cx sx);
  y ← lift (sadd 32 cy sy);
  _ ← set_pixel (as_u32 x) (as_u32 y) color; mret tt.

Fixpoint circle_loop (fuel : nat) (cx cy color : Z) (x y err : Z) : st D unit :=
  if y <=? x then
    match fuel with
    | O => out_of_fuel
    | S fuel =>
        _ ← circle_pixel cx x cy y color;
        _ ← circle_pixel cx y cy x color;
        _ ← circle_pixel cx (- y) cy x color;
        _ ← circle_pixel cx (- x) cy y color;
        _ ← circle_pixel cx (- x) cy (- y) color;
        _ ← circle_pixel cx (- y) cy (- x) color;
        _ ← circle_pixel cx y cy (- x) color;
        _ ← circle_pixel cx x cy (- y) color;
        '(x, y, err) ← lift (circle_next x y err);
        circle_loop fuel cx cy color x y err
    end
  else mret tt.

Definition draw_circle (fuel : nat) (cx cy radius color : Z) : st D unit :=
  circle_loop fuel (as_i32 cx) (as_i32 cy) color (as_i32 radius) 0 0.

Definition circle_span (cx dx cy sy color : Z) : st D unit :=
  a ← lift (ssub 32 cx dx);
  b ← lift (sadd 32 cx dx);
  y ← lift (sadd 32 cy sy);
  draw_hline (as_u32 a) (as_u32 b) (as_u32 y) color.

Fixpoint fill_loop (fuel : nat) (cx cy color : Z) (x y err : Z) : st D unit :=
  if y <=? x then
    match fuel with
    | O => out_of_fuel
    | S fuel =>
        _ ← circle_span cx x cy y color;
        _ ← circle_span cx x cy (- y) color;
        _ ← circle_span cx y cy x color;
        _ ← circle_span cx y cy (- x) color;
        '(x, y, err) ← lift (circle_next x y err);
        fill_loop fuel cx cy color x y err
    end
  else mret tt.

Definition fill_circle (fuel : nat) (cx cy radius color : Z) : st D unit :=
  fill_loop fuel (as_i32 cx) (as_i32 cy) color (as_i32 radius) 0 0.

(** [n] pixels of row [y] of [copy_region], from column [x] on. *)
Fixpoint copy_pixels (n : nat) (src_x src_y dst_x dst_y x y : Z) : st D unit :=
  match n with
  | O => mret tt
  | S n =>
      sx ← lift (add 32 src_x x);
      sy ← lift (add 32 src_y y);
      color ← get_pixel sx sy;
      _ ← (match color with
           | Some color =>
               dx ← lift (add 32 dst_x x);
               dy ← lift (add 32 dst_y y);
               _ ← set_pixel dx dy color; mret tt
           | None => mret tt
           end);
      copy_pixels n src_x src_y dst_x dst_y (x + 1) y
  end.

Fixpoint copy_region_rows (n : nat) (src_x src_y dst_x dst_y w y : Z) : st D unit :=
  match n with
  | O => mret tt
  | S n =>
      _ ← copy_pixels (Z.to_nat w) src_x src_y dst_x dst_y 0 y;
      copy_region_rows n src_x src_y dst_x dst_y w (y + 1)
  end.

(** The provided [copy_region]. *)
Definition copy_region (src_x src_y dst_x dst_y w h : Z) : st D unit :=
  copy_region_rows (Z.to_nat h) src_x src_y dst_x dst_y w 0.
End Provided.

(** Colours ([color] in fb.rs). *)
Definition argb (a r g b : Z) : Z :=
  Z.lor (Z.lor (Z.lor (Z.shiftl a 24) (Z.shiftl r 16)) (Z.shiftl g 8)) b.
Definition rgb (r g b : Z) : Z := argb 255 r g b.
Definition components (c : Z) : Z * Z * Z * Z :=
  (Z.land (Z.shiftr c 24) 0xff, Z.land (Z.shiftr c 16) 0xff, Z.land (Z.shiftr c 8) 0xff, Z.land c 0xff).

(** ** The Multiboot2 framebuffer *)

Record ChannelDesc := mkDesc { field_pos : Z; mask_size : Z }.

Record Mb2FbTag := mkTag {
  taddr : Z; tpitch : Z; twidth : Z; theight : Z; tbpp : Z; fb_type : Z;
  red : ChannelDesc; green : ChannelDesc; blue : ChannelDesc;
}.

Record Channel := mkChannel { shift : Z; mask : Z }.

Record Mb2Fb := mkFb {
  mbase : Z; mwidth : Z; mheight : Z; mpitch : Z; mbpp : Z; mbytes : Z;
  ch_r : Channel; ch_g : Channel; ch_b : Channel; mformat : PixelFormat;
}.

(** [u32::count_ones]. *)
Fixpoint count_ones_from (n : nat) (v : Z) : Z :=
  match n with
  | O => 0
  | S n => (if Z.testbit v (Z.of_nat n) then 1 else 0) + count_ones_from n v
  end.
Definition count_ones (v : Z) : Z := count_ones_from 32 v.

Section Mb2.
Context `{Profile}.

Definition from_desc (d : ChannelDesc) : outcome Channel :=
  one ← shl 32 1 (mask_size d);
  ones ← sub 32 one 1;
  m ← shl 32 ones (field_pos d);
  Ret (mkChannel (field_pos d) m).

Definition extract (c : Channel) (pixel : Z) : outcome Z :=
  raw ← shr 32 (Z.land pixel (mask c)) (shift c);
  let bits := count_ones (mask c) in
  if 8 <=? bits then v ← shr 32 raw (bits - 8); Ret (wrap 8 v)
  else v ← shl 32 raw (8 - bits); Ret (wrap 8 v).

Definition pack (c : Channel) (val : Z) : outcome Z :=
  let bits := count_ones (mask c) in
  scaled ← (if 8 <=? bits then shl 32 val (bits - 8) else shr 32 val (8 - bits));
  s ← shl 32 scaled (shift c);
  Ret (Z.land s (mask c)).

Definition detect_pixel_format (tag : Mb2FbTag) (bytes : Z) : PixelFormat :=
  let rp := field_pos (red tag) in
  let gp := field_pos (green tag) in
  let bp := field_pos (blue tag) in
  if bytes =? 3 then if (bp =? 0) && (gp =? 8) && (rp =? 16) then Bgr else Rgb
  else if bytes =? 4 then
    if (rp =? 16) && (gp =? 8) && (bp =? 0) then Bgra
    else if (rp =? 0) && (gp =? 8) && (bp =? 16) then Rgba
    else Rgb
  else Rgb.

Definition bytes_of_depth (bpp : Z) : option Z :=
  if (bpp =? 15) || (bpp =? 16) then Some 2 else if bpp =? 24 then Some 3 else if bpp =? 32 then Some 4 else None.

Definition mb2fb_new (tag : Mb2FbTag) : outcome (result Mb2Fb FrameBufferError) :=
  if negb (fb_type tag =? 1) then Ret (Err NotSupported)
  else
    match bytes_of_depth (tbpp tag) with
    | None => Ret (Err InvalidConfig)
    | Some bytes =>
        r ← from_desc (red tag); g ← from_desc (green tag); b ← from_desc (blue tag);
        Ret (Ok (mkFb (wrap usize_bits (taddr tag)) (twidth tag) (theight tag) (tpitch tag) (tbpp tag) bytes
                   r g b (detect_pixel_format tag bytes)))
    end.

Context (f : Mb2Fb).

(** [(self.pitch * self.height) as usize], a product of [u32]. *)
Definition mb2_size : outcome Z := mul 32 (mpitch f) (mheight f).

Definition mb2_info : outcome FrameBufferInfo :=
  s ← mb2_size; Ret (mkInfo (mwidth f) (mheight f) (mpitch f) (mbpp f) (mformat f) (mbase f) s).

Definition offset (x y : Z) : outcome Z :=
  a ← mul usize_bits y (mpitch f);
  b ← mul usize_bits x (mbytes f);
  add usize_bits a b.

Definition store16 (m : mem) (a v : Z) : mem := store8 (store8 m a (v mod 256)) (a + 1) ((v / 256) mod 256).

Definition write_pixel_raw (x y packed : Z) : st mem unit :=
  off ← lift (offset x y);
  let a := mbase f + off in
  if mbytes f =? 2 then modify (fun m => store16 m a (wrap 16 packed))
  else if mbytes f =? 3 then
    modify (fun m => store8 (store8 (store8 m a (packed mod 256)) (a + 1) ((packed / 256) mod 256))
                       (a + 2) ((packed / 65536) mod 256))
  else if mbytes f =? 4 then modify (fun m => store32 m a packed)
  else panic.

Definition read_pixel_raw (x y : Z) : st mem Z :=
  off ← lift (offset x y);
  let a := mbase f + off in
  m ← Prelude.get;
  if mbytes f =? 2 then mret (u16_of_le (m a) (m (a + 1)))
  else if mbytes f =? 3 then mret (Z.lor (Z.lor (m a) (Z.shiftl (m (a + 1)) 8)) (Z.shiftl (m (a + 2)) 16))
  else if mbytes f =? 4 then mret (load32 m a)
  else panic.

Definition pack_color (color : Z) : outcome Z :=
  r ← pack (ch_r f) (Z.land (Z.shiftr color 16) 0xff);
  g ← pack (ch_g f) (Z.land (Z.shiftr color 8) 0xff);
  b ← pack (ch_b f) (Z.land color 0xff);
  Ret (Z.lor (Z.lor r g) b).

Definition unpack_color (packed : Z) : outcome Z :=
  r ← extract (ch_r f) packed; g ← extract (ch_g f) packed; b ← extract (ch_b f) packed;
  Ret (Z.lor (Z.lor (Z.lor 0xff000000 (Z.shiftl r 16)) (Z.shiftl g 8)) b).

Definition mb2_set_pixel (x y color : Z) : st mem bool :=
  if (mwidth f <=? x) || (mheight f <=? y) then mret false
  else
    packed ← lift (pack_color color);
    _ ← write_pixel_raw x y packed; mret true.

Definition mb2_get_pixel (x y : Z) : st mem (option Z) :=
  if (mwidth f <=? x) || (mheight f <=? y) then mret None
  else
    packed ← read_pixel_raw x y;
    c ← lift (unpack_color packed); mret (Some c).

(** [n] words from address [a] on. *)
Fixpoint fill_words (n : nat) (a packed : Z) : st mem unit :=
  match n with
  | O => mret tt
  | S n => _ ← modify (fun m => store32 m a packed); fill_words n (a + 4) packed
  end.

(** The pixels [x], [x + 1], .. of a row, [n] of them. *)
Fixpoint fill_row (n : nat) (x y packed : Z) : st mem unit :=
  match n with
  | O => mret tt
  | S n => _ ← write_pixel_raw x y packed; fill_row n (x + 1) y packed
  end.

(** [for y in y..y + n { f(y) }]. *)
Fixpoint each_row (n : nat) (y : Z) (body : Z -> st mem unit) : st mem unit :=
  match n with
  | O => mret tt
  | S n => _ ← body y; each_row n (y + 1) body
  end.

Definition mb2_clear (color : Z) : st mem unit :=
  packed ← lift (pack_color color);
  fast ← lift (if mbytes f =? 4 then w ← mul 32 (mwidth f) 4; Ret (mpitch f =? w) else Ret false);
  if (fast : bool) then
    size ← lift mb2_size;
    fill_words (Z.to_nat (size / 4)) (mbase f) packed
  else each_row (Z.to_nat (mheight f)) 0 (fun y => fill_row (Z.to_nat (mwidth f)) 0 y packed).

Definition mb2_draw_hline (x1 x2 y color : Z) : st mem unit :=
  if mheight f <=? y then mret tt
  else
    last ← lift (sub 32 (mwidth f) 1);
    let x_start := Z.min x1 last in
    let x_end := Z.min x2 last in
    packed ← lift (pack_color color);
    if mbytes f =? 4 then
      base_off ← lift (offset x_start y);
      n ← lift (sub 32 x_end x_start);
      fill_words (S (Z.to_nat n)) (mbase f + base_off) packed
    else fill_row (Z.to_nat (x_end - x_start + 1)) x_start y packed.

Definition mb2_draw_vline (x y1 y2 color : Z) : st mem unit :=
  if mwidth f <=? x then mret tt
  else
    last ← lift (sub 32 (mheight f) 1);
    let y_start := Z.min y1 last in
    let y_end := Z.min y2 last in
    packed ← lift (pack_color color);
    each_row (Z.to_nat (y_end - y_start + 1)) y_start (fun y => write_pixel_raw x y packed).

Definition mb2_draw_rect (x y w h color : Z) : st mem unit :=
  packed ← lift (pack_color color);
  xe ← lift (add 32 x w);
  let x_end := Z.min xe (mwidth f) in
  ye ← lift (add 32 y h);
  let y_end := Z.min ye (mheight f) in
  each_row (Z.to_nat (y_end - y)) y (fun row =>
    if mbytes f =? 4 then
      base_off ← lift (offset x row);
      n ← lift (sub 32 x_end x);
      fill_words (Z.to_nat n) (mbase f + base_off) packed
    else fill_row (Z.to_nat (x_end - x)) x row packed).

(** Copying a row byte by byte, upwards or downwards. *)
Fixpoint copy_up (n : nat) (src dst : Z) : st mem unit :=
  match n with
  | O => mret tt
  | S n => _ ← modify (fun m => store8 m dst (load8 m src)); copy_up n (src + 1) (dst + 1)
  end.

Fixpoint copy_down (n : nat) (src dst : Z) : st mem unit :=
  match n with
  | O => mret tt
  | S n => _ ← modify (fun m => store8 m (dst + Z.of_nat n) (load8 m (src + Z.of_nat n))); copy_down n src dst
  end.

(** [for i in i..height]; rows are taken from the bottom when the copy goes
    down. *)
Fixpoint copy_rows (n : nat) (i src_x src_y dst_x dst_y h row_bytes : Z) : st mem unit :=
  match n with
  | O => mret tt
  | S n =>
      si ← lift (if dst_y <=? src_y then Ret i else d ← sub 32 h 1; sub 32 d i);
      sy ← lift (add 32 src_y si);
      src_off ← lift (offset src_x sy);
      dy ← lift (add 32 dst_y si);
      dst_off ← lift (offset dst_x dy);
      _ ← (if dst_off <=? src_off then copy_up (Z.to_nat row_bytes) (mbase f + src_off) (mbase f + dst_off)
           else copy_down (Z.to_nat row_bytes) (mbase f + src_off) (mbase f + dst_off));
      copy_rows n (i + 1) src_x src_y dst_x dst_y h row_bytes
  end.

Definition mb2_copy_region (src_x src_y dst_x dst_y w h : Z) : st mem unit :=
  row_bytes ← lift (mul usize_bits w (mbytes f));
  copy_rows (Z.to_nat h) 0 src_x src_y dst_x dst_y h row_bytes.

(** [impl FrameBuffer for Mb2Fb]. *)
Definition mb2_framebuffer : FrameBuffer mem := {|
  fb_width := mwidth f;
  fb_height := mheight f;
  fb_bytes_per_pixel := mbytes f;
  fb_clear := mb2_clear;
  set_pixel := mb2_set_pixel;
  get_pixel := mb2_get_pixel;
  draw_hline := mb2_draw_hline;
  draw_vline := mb2_draw_vline;
  draw_rect := mb2_draw_rect;
|}.
End Mb2.

(** [parse_mb2_fb_tag]: the fields at their places. *)
Definition parse_mb2_fb_tag (m : mem) (p : Z) : Mb2FbTag :=
  mkTag (load32 m p + 2 ^ 32 * load32 m (p + 4)) (load32 m (p + 8)) (load32 m (p + 12)) (load32 m (p + 16))
    (m (p + 20)) (m (p + 21)) (mkDesc (m (p + 23)) (m (p + 24))) (mkDesc (m (p + 25)) (m (p + 26)))
    (mkDesc (m (p + 27)) (m (p + 28))).

(** ** Lemmas *)

(** *** Lines *)

(** Setting the pixels of a list in order. *)
Fixpoint plot `{FrameBuffer D} (pts : list (Z * Z)) (color : Z) : st D unit :=
  match pts with
  | [] => mret tt
  | (x, y) :: pts => _ ← set_pixel x y color; plot pts color
  end.

(** Successive points are neighbours (or equal never). *)
Inductive Path : Z * Z -> list (Z * Z) -> Z * Z -> Prop :=
  | path_one p : Path p [p] p
  | path_step p q l r : p <> q -> Z.abs (p.1 - q.1) <= 1 -> Z.abs (p.2 - q.2) <= 1 ->
      Path q l r -> Path p (p :: l) r.

Definition in_box (x1 y1 x2 y2 : Z) (p : Z * Z) : Prop :=
  Z.min x1 x2 <= p.1 <= Z.max x1 x2 /\ Z.min y1 y2 <= p.2 <= Z.max y1 y2.

(** The choice of steps in terms of the steps taken so far. *)
Lemma bresenham_steps dx dy nx ny : 0 <= dx -> 0 <= dy -> 0 <= nx <= dx -> 0 <= ny <= dy ->
  ~ (nx = dx /\ ny = dy) ->
  let err := (ny + 1) * dx - (nx + 1) * dy in
  (- dy <= 2 * err -> nx < dx) /\ (2 * err <= dx -> ny < dy) /\ (- dy <= 2 * err \/ 2 * err <= dx).
Proof.
  intros Hx Hy Hnx Hny Hne err. unfold err. split_and!.
  - intros He. destruct (Z.eq_dec nx dx) as [->|]; [|lia]. assert (ny < dy) by lia. nia.
  - intros He. destruct (Z.eq_dec ny dy) as [->|]; [|lia]. assert (nx < dx) by lia. nia.
  - lia.
Qed.

Lemma sarith_ok `{Profile} w z : sfits w z -> sarith w z = Ret z.
Proof. unfold sarith, sfits. intros [??]. by rewrite (proj2 (Z.leb_le _ _)), (proj2 (Z.ltb_lt _ _)). Qed.

Lemma st_bind_ext {S A B} (m : st S A) (k k' : A -> st S B) s :
  (forall a s', k a s' = k' a s') -> (m ≫= k) s = (m ≫= k') s.
Proof. intros E. unfold mbind, st_bind. destruct (m s) as [[a s']| |]; [apply E|done|done]. Qed.

Section Lines.
Context `{Profile} {D : Type} `{FrameBuffer D}.
Context (X1 Y1 X2 Y2 : Z) (Hx1 : 0 <= X1 < 2 ^ 28) (Hy1 : 0 <= Y1 < 2 ^ 28) (Hx2 : 0 <= X2 < 2 ^ 28) (Hy2 : 0 <= Y2 < 2 ^ 28).
Context (dx dy sx sy : Z) (Edx : dx = Z.abs (X2 - X1)) (Edy : dy = Z.abs (Y2 - Y1)).
Context (Esx : sx = if X1 <? X2 then 1 else -1) (Esy : sy = if Y1 <? Y2 then 1 else -1).

Lemma sign_x : sx = 1 /\ X2 = X1 + dx \/ sx = -1 /\ X2 = X1 - dx.
Proof using All. rewrite Esx. destruct (Z.ltb_spec X1 X2); lia. Qed.

Lemma sign_y : sy = 1 /\ Y2 = Y1 + dy \/ sy = -1 /\ Y2 = Y1 - dy.
Proof using All. rewrite Esy. destruct (Z.ltb_spec Y1 Y2); lia. Qed.

Lemma step_x nx : 0 <= nx <= dx -> Z.min X1 X2 <= X1 + sx * nx <= Z.max X1 X2 /\ (X1 + sx * nx = X2 <-> nx = dx).
Proof using All. intros Hn. destruct sign_x as [[-> E]|[-> E]]; lia. Qed.

Lemma step_y ny : 0 <= ny <= dy -> Z.min Y1 Y2 <= Y1 + sy * ny <= Z.max Y1 Y2 /\ (Y1 + sy * ny = Y2 <-> ny = dy).
Proof using All. intros Hn. destruct sign_y as [[-> E]|[-> E]]; lia. Qed.

(** One round of the loop after the pixel is set. *)
Lemma line_step nx ny err : 0 <= nx <= dx -> 0 <= ny <= dy -> ~ (nx = dx /\ ny = dy) ->
  err = (ny + 1) * dx - (nx + 1) * dy -> -2 * dy <= err <= 2 * dx ->
  exists nx' ny' err', nx <= nx' <= nx + 1 /\ ny <= ny' <= ny + 1 /\ nx + ny < nx' + ny' /\ nx' <= dx /\ ny' <= dy /\
    err' = (ny' + 1) * dx - (nx' + 1) * dy /\ -2 * dy <= err' <= 2 * dx /\
    forall fuel color s,
    (e2 ← lift (smul 32 2 err);
     '(err, x1) ←
       (if - dy <=? e2 then
          err ← lift (sadd 32 err (- dy)); x1 ← lift (sadd 32 (X1 + sx * nx) sx); mret (err, x1)
        else mret (err, X1 + sx * nx));
     '(err, y1) ←
       (if e2 <=? dx then
          err ← lift (sadd 32 err dx); y1 ← lift (sadd 32 (Y1 + sy * ny) sy); mret (err, y1)
        else mret (err, Y1 + sy * ny));
     line_loop fuel dx (- dy) sx sy X2 Y2 color x1 y1 err) s =
    line_loop fuel dx (- dy) sx sy X2 Y2 color (X1 + sx * nx') (Y1 + sy * ny') err' s.
Proof using All.
  intros Hnx Hny Hne He Hb. assert (0 <= dx < 2 ^ 28 /\ 0 <= dy < 2 ^ 28) as [Hdx Hdy] by lia.
  destruct (bresenham_steps dx dy nx ny) as (Sx & Sy & Sor); try lia. rewrite <- He in *.
  pose proof (step_x nx Hnx) as [Bx _]. pose proof (step_y ny Hny) as [By _].
  assert (Hsx : Z.abs sx = 1) by (destruct sign_x as [[-> _]|[-> _]]; done).
  assert (Hsy : Z.abs sy = 1) by (destruct sign_y as [[-> _]|[-> _]]; done).
  exists (if - dy <=? 2 * err then nx + 1 else nx), (if 2 * err <=? dx then ny + 1 else ny),
    (err + (if - dy <=? 2 * err then - dy else 0) + (if 2 * err <=? dx then dx else 0)).
  assert (Hmul : smul 32 2 err = Ret (2 * err)).
  { unfold smul, sarith. by rewrite (proj2 (Z.leb_le _ _)), (proj2 (Z.ltb_lt _ _)) by lia. }
  destruct (Z.leb_spec (- dy) (2 * err)), (Z.leb_spec (2 * err) dx); try lia;
    split_and!; try lia; intros fuel color s; erewrite stbind_step by (by rewrite Hmul);
    rewrite ?(proj2 (Z.leb_le (- dy) (2 * err))), ?(proj2 (Z.leb_gt (- dy) (2 * err))),
      ?(proj2 (Z.leb_le (2 * err) dx)), ?(proj2 (Z.leb_gt (2 * err) dx)) by lia.
  - erewrite stbind_step.
    2: { do 2 erewrite stbind_step by (by rewrite sadd_ok by (unfold sfits; lia)). done. }
    cbv beta iota. erewrite stbind_step.
    2: { do 2 erewrite stbind_step by (by rewrite sadd_ok by (unfold sfits; lia)). done. }
    cbv beta iota. f_equal; lia.
  - erewrite stbind_step.
    2: { do 2 erewrite stbind_step by (by rewrite sadd_ok by (unfold sfits; lia)). done. }
    cbv beta iota. erewrite stbind_step by done. cbv beta iota. f_equal; lia.
  - erewrite stbind_step by done. cbv beta iota. erewrite stbind_step.
    2: { do 2 erewrite stbind_step by (by rewrite sadd_ok by (unfold sfits; lia)). done. }
    cbv beta iota. f_equal; lia.
Qed.

Lemma line_loop_ok color : forall fuel nx ny err, 0 <= nx <= dx -> 0 <= ny <= dy ->
  (dx - nx) + (dy - ny) < Z.of_nat fuel -> err = (ny + 1) * dx - (nx + 1) * dy -> -2 * dy <= err <= 2 * dx ->
  exists pts, Path (X1 + sx * nx, Y1 + sy * ny) pts (X2, Y2) /\ Forall (in_box X1 Y1 X2 Y2) pts /\
    forall s, line_loop fuel dx (- dy) sx sy X2 Y2 color (X1 + sx * nx) (Y1 + sy * ny) err s = plot pts color s.
Proof using All.
  induction fuel as [|fuel IH]; intros nx ny err Hnx Hny Hf He Hb; [lia|].
  pose proof (step_x nx Hnx) as [Bx Ex]. pose proof (step_y ny Hny) as [By Ey].
  assert (Hu : forall z, 0 <= z < 2 ^ 32 -> as_u32 z = z) by (intros; by apply Z.mod_small).
  destruct (decide (nx = dx /\ ny = dy)) as [[Hx Hy]|Hne].
  - exists [(X1 + sx * nx, Y1 + sy * ny)]. rewrite (proj2 Ex Hx), (proj2 Ey Hy). split; [constructor|]. split.
    { constructor; [|constructor]. unfold in_box. cbn. lia. }
    intros s. cbn [line_loop plot]. rewrite !Z.eqb_refl. cbn [andb]. by rewrite !Hu by lia.
  - destruct (line_step nx ny err Hnx Hny Hne He Hb) as (nx' & ny' & err' & H1 & H2 & H3 & H4 & H5 & He' & Hb' & Es).
    destruct (IH nx' ny' err') as (pts & Hp & Hbox & Hs); try lia.
    exists ((X1 + sx * nx, Y1 + sy * ny) :: pts). split; [|split].
    + assert (Hsx : Z.abs sx = 1) by (destruct sign_x as [[-> _]|[-> _]]; done).
      assert (Hsy : Z.abs sy = 1) by (destruct sign_y as [[-> _]|[-> _]]; done).
      assert (nx' = nx /\ sx * nx' = sx * nx \/ nx' = nx + 1 /\ sx * nx' = sx * nx + sx) as Cx.
      { destruct (Z.eq_dec nx' nx) as [->|]; [by left|right]. replace nx' with (nx + 1) by lia. lia. }
      assert (ny' = ny /\ sy * ny' = sy * ny \/ ny' = ny + 1 /\ sy * ny' = sy * ny + sy) as Cy.
      { destruct (Z.eq_dec ny' ny) as [->|]; [by left|right]. replace ny' with (ny + 1) by lia. lia. }
      apply (path_step _ (X1 + sx * nx', Y1 + sy * ny')); cbn [fst snd]; [| | |done];
        clear -Cx Cy Hsx Hsy H3; [intros [= Ea Eb]; lia|lia|lia].
    + constructor; [|done]. unfold in_box. cbn. lia.
    + intros s. cbn [line_loop plot]. rewrite !Hu by lia. apply st_bind_ext. intros b s1.
      destruct (Z.eqb_spec (X1 + sx * nx) X2), (Z.eqb_spec (Y1 + sy * ny) Y2); cbn [andb]; try tauto;
        rewrite <- Hs; apply Es.
Qed.
End Lines.

(** *** Pixels of 8-bit channels *)

Section Pixels.
Context `{Profile}.

(** A channel of 8 bits at bit 0, 8 or 16. *)
Definition byte_channel (k : Z) : Channel := mkChannel k (255 * 2 ^ k).

Lemma land_255 a : Z.land a 255 = a mod 256.
Proof using. apply (land_mask a 8). lia. Qed.

Lemma byte_channel_ones k : k = 0 \/ k = 8 \/ k = 16 -> count_ones (mask (byte_channel k)) = 8.
Proof using. by intros [->|[->| ->]]. Qed.

Lemma pack_ok k v : k = 0 \/ k = 8 \/ k = 16 -> 0 <= v < 256 -> pack (byte_channel k) v = Ret (v * 2 ^ k).
Proof using.
  intros Hk Hv. unfold pack. rewrite byte_channel_ones by done. cbn [Z.leb Z.compare Pos.compare Pos.compare_cont].
  assert (1 <= 2 ^ k <= 2 ^ 16) by (destruct Hk as [->|[->| ->]]; done).
  change (8 - 8) with 0. rewrite (shl_ok 32 v 0) by (unfold fits; lia). cbn [mbind outcome_bind shift byte_channel].
  replace (v * 2 ^ 0) with v by lia. rewrite (shl_ok 32 v k) by (unfold fits; nia). cbn [mbind outcome_bind mask byte_channel].
  f_equal. rewrite <- (Z.shiftl_mul_pow2 v), <- (Z.shiftl_mul_pow2 255) by lia. rewrite <- Z.shiftl_land, land_255.
  by rewrite Z.mod_small.
Qed.

Lemma extract_ok k p : k = 0 \/ k = 8 \/ k = 16 -> extract (byte_channel k) p = Ret ((p / 2 ^ k) mod 256).
Proof using.
  intros Hk. unfold extract, shr. rewrite byte_channel_ones by done. cbn [shift mask byte_channel].
  rewrite (proj2 (Z.ltb_lt k 32)) by lia. cbn [mbind outcome_bind Z.leb Z.compare Pos.compare Pos.compare_cont].
  change (8 - 8) with 0. cbn [Z.ltb Z.compare mbind outcome_bind]. rewrite Z.shiftr_0_r, Z.shiftr_land.
  rewrite <- (Z.shiftl_mul_pow2 255), Z.shiftr_shiftl_l, Z.sub_diag, Z.shiftl_0_r by lia.
  rewrite land_255, Z.shiftr_div_pow2 by lia. unfold wrap. by rewrite Z.mod_mod by lia.
Qed.

(** What a boot loader sets up on a PC: 24 or 32 bits per pixel, blue lowest. *)
Record fb_ok (f : Mb2Fb) : Prop := {
  fo_r : ch_r f = byte_channel 16;
  fo_g : ch_g f = byte_channel 8;
  fo_b : ch_b f = byte_channel 0;
  fo_bytes : mbytes f = 3 \/ mbytes f = 4;
  fo_width : 0 < mwidth f;
  fo_height : 0 < mheight f;
  fo_pitch : mwidth f * mbytes f <= mpitch f;
  fo_size : mpitch f * mheight f < 2 ^ 32;
}.

Definition pixel_addr (f : Mb2Fb) (x y : Z) : Z := mbase f + (y * mpitch f + x * mbytes f).

Definition on_screen (f : Mb2Fb) (x y : Z) : Prop := 0 <= x < mwidth f /\ 0 <= y < mheight f.

Lemma color_parts c : 0 <= c < 2 ^ 32 ->
  Z.land (Z.shiftr c 16) 0xff = (c / 65536) mod 256 /\ Z.land (Z.shiftr c 8) 0xff = (c / 256) mod 256 /\
  Z.land c 0xff = c mod 256.
Proof using.
  intros Hc. split_and!; [apply (land_field c 16 8); lia|apply (land_field c 8 8); lia|apply (land_mask c 8); lia].
Qed.

Lemma low24 c : c mod 2 ^ 24 = (c / 65536) mod 256 * 65536 + (c / 256) mod 256 * 256 + c mod 256.
Proof using.
  change (2 ^ 24) with (256 * (256 * 256)). rewrite !Z.rem_mul_r by lia.
  rewrite Z.div_div by lia. change (256 * 256) with 65536. lia.
Qed.

Lemma lor_bytes r g b : 0 <= r < 256 -> 0 <= g < 256 -> 0 <= b < 256 ->
  Z.lor (Z.lor (r * 2 ^ 16) (g * 2 ^ 8)) (b * 2 ^ 0) = r * 65536 + g * 256 + b.
Proof using.
  intros Hr Hg Hb. rewrite (lor_low (r * 2 ^ 16) (g * 2 ^ 8) 16) by (try (by exists r); lia).
  rewrite (lor_low _ (b * 2 ^ 0) 8) by (try lia; exists (r * 256 + g); lia). lia.
Qed.

Lemma pack_color_ok f c : fb_ok f -> 0 <= c < 2 ^ 32 -> pack_color f c = Ret (c mod 2 ^ 24).
Proof using.
  intros Hf Hc. destruct (color_parts c Hc) as (Er & Eg & Eb). unfold pack_color.
  rewrite (fo_r _ Hf), (fo_g _ Hf), (fo_b _ Hf), Er, Eg, Eb.
  pose proof (Z.mod_pos_bound (c / 65536) 256). pose proof (Z.mod_pos_bound (c / 256) 256).
  pose proof (Z.mod_pos_bound c 256).
  rewrite !pack_ok by lia. cbn [mbind outcome_bind]. rewrite lor_bytes by lia. by rewrite low24.
Qed.

Lemma unpack_color_ok f p : fb_ok f -> unpack_color f p = Ret (0xff000000 + p mod 2 ^ 24).
Proof using.
  intros Hf. unfold unpack_color. rewrite (fo_r _ Hf), (fo_g _ Hf), (fo_b _ Hf).
  rewrite !extract_ok by lia. cbn [mbind outcome_bind]. f_equal.
  pose proof (Z.mod_pos_bound (p / 65536) 256). pose proof (Z.mod_pos_bound (p / 256) 256).
  pose proof (Z.mod_pos_bound p 256). change (2 ^ 16) with 65536. change (2 ^ 8) with 256.
  rewrite low24, !Z.shiftl_mul_pow2 by lia. rewrite Z.div_1_r.
  rewrite (lor_low 0xff000000 _ 24) by (try (by exists 255); lia).
  rewrite (lor_low _ ((p / 256) mod 256 * 2 ^ 8) 16)
    by (try lia; exists (255 * 256 + (p / 65536) mod 256); lia).
  rewrite (lor_low _ (p mod 256) 8)
    by (try lia; exists (255 * 65536 + (p / 65536) mod 256 * 256 + (p / 256) mod 256); lia). lia.
Qed.

Lemma offset_ok f x y : fb_ok f -> on_screen f x y -> offset f x y = Ret (y * mpitch f + x * mbytes f) /\
  0 <= y * mpitch f + x * mbytes f /\ y * mpitch f + x * mbytes f + mbytes f <= mpitch f * mheight f.
Proof using.
  intros Hf [Hx Hy]. pose proof (fo_bytes _ Hf). pose proof (fo_pitch _ Hf). pose proof (fo_size _ Hf).
  assert (0 <= x * mbytes f /\ x * mbytes f + mbytes f <= mpitch f) by nia.
  assert (0 <= y * mpitch f /\ y * mpitch f + mpitch f <= mpitch f * mheight f) by nia.
  split; [|lia]. unfold offset. rewrite mul_ok by (unfold fits, usize_bits; lia). cbn [mbind outcome_bind].
  rewrite mul_ok by (unfold fits, usize_bits; lia). cbn [mbind outcome_bind].
  by rewrite add_ok by (unfold fits, usize_bits; lia).
Qed.

(** Pixels do not share bytes. *)
Lemma pixels_apart f x y x' y' : fb_ok f -> on_screen f x y -> on_screen f x' y' -> (x, y) <> (x', y') ->
  pixel_addr f x y + mbytes f <= pixel_addr f x' y' \/ pixel_addr f x' y' + mbytes f <= pixel_addr f x y.
Proof using.
  intros Hf [Hx Hy] [Hx' Hy'] Hne. pose proof (fo_bytes _ Hf). pose proof (fo_pitch _ Hf). unfold pixel_addr.
  assert (x * mbytes f + mbytes f <= mpitch f /\ x' * mbytes f + mbytes f <= mpitch f) by nia.
  destruct (Z.lt_trichotomy y y') as [|[->|]]; [left; nia| |right; nia].
  assert (x <> x') by congruence. destruct (Z.lt_ge_cases x x'); [left|right]; nia.
Qed.

(** The three or four bytes of a pixel as a word. *)
Definition pixel_word (f : Mb2Fb) (m : mem) (a : Z) : Z :=
  if mbytes f =? 3 then u32_of_le (m a) (m (a + 1)) (m (a + 2)) 0 else load32 m a.

Lemma store8_ne m a v x : x <> a -> store8 m a v x = m x.
Proof using. intros Hx. unfold store8. by rewrite (proj2 (Z.eqb_neq x a)). Qed.

Lemma store8_eq m a v : store8 m a v a = v.
Proof using. unfold store8. by rewrite Z.eqb_refl. Qed.

Lemma write_pixel_ok f x y p m : fb_ok f -> on_screen f x y -> 0 <= p < 2 ^ 24 -> exists m',
  write_pixel_raw f x y p m = Ret (tt, m') /\ pixel_word f m' (pixel_addr f x y) = p /\
  same_outside (in_block (pixel_addr f x y) (mbytes f)) m m'.
Proof using.
  intros Hf Hs Hp. destruct (offset_ok f x y Hf Hs) as (Eo & _). unfold write_pixel_raw.
  erewrite stbind_step by (by rewrite Eo). fold (pixel_addr f x y). set (a := pixel_addr f x y).
  unfold pixel_word. destruct (fo_bytes _ Hf) as [-> | ->]; cbn [Z.eqb Pos.eqb].
  - eexists. split; [done|]. split.
    + rewrite store8_ne, store8_ne, store8_eq by lia. rewrite store8_ne, store8_eq, store8_eq by lia.
      pose proof (low24 p). rewrite Z.mod_small in H0 by lia. unfold u32_of_le. lia.
    + intros z Hz. unfold in_block in Hz. by rewrite !store8_ne by lia.
  - eexists. split; [done|]. split; [|apply store32_same_outside].
    apply load32_store32_eq. unfold fits. lia.
Qed.

Definition mem_ok (m : mem) : Prop := forall x, fits 8 (m x).

Lemma read_pixel_ok f x y m : fb_ok f -> mem_ok m -> on_screen f x y ->
  read_pixel_raw f x y m = Ret (pixel_word f m (pixel_addr f x y), m).
Proof using.
  intros Hf Hm Hs. destruct (offset_ok f x y Hf Hs) as (Eo & _). unfold read_pixel_raw.
  erewrite stbind_step by (by rewrite Eo). erewrite stbind_step by done. fold (pixel_addr f x y).
  set (a := pixel_addr f x y). unfold pixel_word. destruct (fo_bytes _ Hf) as [-> | ->]; cbn [Z.eqb Pos.eqb]; [|done].
  unfold mret, st_ret. do 2 f_equal. unfold u32_of_le. pose proof (Hm a). pose proof (Hm (a + 1)).
  pose proof (Hm (a + 2)). unfold fits in *. rewrite !Z.shiftl_mul_pow2 by lia.
  rewrite Z.lor_comm. rewrite (lor_low _ _ 16).
  - rewrite Z.lor_comm, (lor_low _ _ 8) by (try (by eexists); lia). lia.
  - lia.
  - by eexists.
  - rewrite Z.lor_comm, (lor_low _ _ 8) by (try (by eexists); lia). lia.
Qed.

Lemma get_pixel_ok f x y m : fb_ok f -> mem_ok m -> on_screen f x y ->
  mb2_get_pixel f x y m = Ret (Some (0xff000000 + pixel_word f m (pixel_addr f x y) mod 2 ^ 24), m).
Proof using.
  intros Hf Hm Hs. destruct Hs as [Hx Hy]. unfold mb2_get_pixel. rewrite !(proj2 (Z.leb_gt _ _)) by lia. cbn [orb].
  erewrite stbind_step by (by apply read_pixel_ok). by erewrite stbind_step by (by rewrite unpack_color_ok).
Qed.

Lemma pixel_word_frame f m m' P a : same_outside P m m' -> (forall x, in_block a (mbytes f) x -> ~ P x) ->
  mbytes f = 3 \/ mbytes f = 4 -> pixel_word f m' a = pixel_word f m a.
Proof using.
  intros Hs Hd Hb. unfold pixel_word, load32. destruct Hb as [E|E]; rewrite E in *; cbn [Z.eqb Pos.eqb];
    by rewrite !Hs by (apply Hd; unfold in_block; lia).
Qed.

Lemma write_pixel_bytes f x y p m m' : 0 <= p < 2 ^ 32 -> mem_ok m -> mbytes f = 3 \/ mbytes f = 4 ->
  write_pixel_raw f x y p m = Ret (tt, m') -> mem_ok m'.
Proof using.
  intros Hp Hm Hb E. unfold write_pixel_raw in E. apply stbind_Ret in E as (o & s & E1 & E2).
  apply lift_Ret in E1 as [_ ->].
  assert (H8 : forall z, fits 8 (z mod 256)) by (intros; apply Z.mod_pos_bound; lia).
  destruct Hb as [Eb|Eb]; rewrite Eb in E2; cbn [Z.eqb Pos.eqb] in E2; injection E2 as <-; intros z.
  - unfold store8. repeat (destruct (z =? _); [apply H8|]). apply Hm.
  - unfold store32. repeat (destruct (z =? _); [apply H8|]). apply Hm.
Qed.
End Pixels.

(** ** Theorems *)

Section Claims.
Context `{Profile}.

(** C33: between points less than 2^28 apart from the origin, [draw_line]
    terminates after at most one round per horizontal and vertical step: it
    sets the pixels of a path from the first point to the second in which
    successive points are distinct neighbours, never leaves the rectangle the
    two points span, and does nothing else. *)
Theorem draw_line_path `{FrameBuffer D} x1 y1 x2 y2 color fuel :
  0 <= x1 < 2 ^ 28 -> 0 <= y1 < 2 ^ 28 -> 0 <= x2 < 2 ^ 28 -> 0 <= y2 < 2 ^ 28 ->
  Z.abs (x2 - x1) + Z.abs (y2 - y1) < Z.of_nat fuel ->
  exists pts, Path (x1, y1) pts (x2, y2) /\ Forall (in_box x1 y1 x2 y2) pts /\
    forall s, draw_line fuel x1 y1 x2 y2 color s = plot pts color s.
Proof.
  intros Hx1 Hy1 Hx2 Hy2 Hf.
  destruct (line_loop_ok x1 y1 x2 y2 Hx1 Hy1 Hx2 Hy2 (Z.abs (x2 - x1)) (Z.abs (y2 - y1))
    (if x1 <? x2 then 1 else -1) (if y1 <? y2 then 1 else -1) eq_refl eq_refl eq_refl eq_refl color fuel 0 0
    (Z.abs (x2 - x1) - Z.abs (y2 - y1))) as (pts & Hp & Hb & Hs); try lia.
  rewrite !Z.mul_0_r, !Z.add_0_r in *. exists pts. split; [done|]. split; [done|]. intros s. rewrite <- Hs.
  assert (Hi : forall z, 0 <= z < 2 ^ 28 -> as_i32 z = z) by (intros; apply to_signed_small; lia).
  assert (Hsub : forall a b, 0 <= a < 2 ^ 28 -> 0 <= b < 2 ^ 28 -> ssub 32 a b = Ret (a - b)).
  { intros a b Ha Hb'. apply sarith_ok. unfold sfits. lia. }
  assert (Habs : forall z, Z.abs z < 2 ^ 28 -> sabs z = Ret (Z.abs z)).
  { intros z Hz. apply sarith_ok. unfold sfits. lia. }
  unfold draw_line. rewrite !Hi by done. do 2 erewrite stbind_step by (by rewrite ?Hsub, ?Habs by lia).
  do 2 erewrite stbind_step by (by rewrite ?Hsub, ?Habs by lia).
  erewrite stbind_step.
  2: { unfold sneg. rewrite sarith_ok by (unfold sfits; lia). done. }
  by erewrite stbind_step by (by rewrite sadd_ok by (unfold sfits; lia)).
Qed.

(** on a 24 or 32 bit framebuffer a pixel set on the screen reads back as
    its colour with full alpha, every other pixel reads as before, and only the
    bytes of the pixel change, inside the buffer; off the screen nothing is
    written. *)
Theorem mb2_pixel_roundtrip f x y c m : fb_ok f -> mem_ok m -> 0 <= x -> 0 <= y -> 0 <= c < 2 ^ 32 ->
  (on_screen f x y -> exists m', mb2_set_pixel f x y c m = Ret (true, m') /\
     mb2_get_pixel f x y m' = Ret (Some (0xff000000 + c mod 2 ^ 24), m') /\
     (forall x' y', on_screen f x' y' -> (x', y') <> (x, y) -> exists v,
        mb2_get_pixel f x' y' m = Ret (v, m) /\ mb2_get_pixel f x' y' m' = Ret (v, m')) /\
     same_outside (in_block (pixel_addr f x y) (mbytes f)) m m' /\
     mbase f <= pixel_addr f x y /\ pixel_addr f x y + mbytes f <= mbase f + mpitch f * mheight f) /\
  (~ on_screen f x y -> mb2_set_pixel f x y c m = Ret (false, m) /\ mb2_get_pixel f x y m = Ret (None, m)).
Proof.
  intros Hf Hm Hx Hy Hc. split; [intros Hs|intros Hs].
  - pose proof (Z.mod_pos_bound c (2 ^ 24) ltac:(lia)) as Hcm.
    destruct (write_pixel_ok f x y (c mod 2 ^ 24) m Hf Hs Hcm) as (m' & Ew & Hw & Hso).
    assert (Hm' : mem_ok m').
    { apply (write_pixel_bytes f x y (c mod 2 ^ 24) m m'); [lia|done|apply (fo_bytes _ Hf)|done]. }
    destruct (offset_ok f x y Hf Hs) as (_ & H1 & H2). exists m'. split; [|split; [|split; [|split; [done|]]]].
    + unfold mb2_set_pixel. destruct Hs as [??]. rewrite !(proj2 (Z.leb_gt _ _)) by lia. cbn [orb].
      erewrite stbind_step by (by rewrite pack_color_ok). by erewrite stbind_step by exact Ew.
    + rewrite get_pixel_ok by done. rewrite Hw, Z.mod_mod by lia. done.
    + intros x' y' Hs' Hne. eexists. split; [by apply get_pixel_ok|]. rewrite get_pixel_ok by done.
      rewrite (pixel_word_frame f m m' _ _ Hso); [done| |apply (fo_bytes _ Hf)].
      intros z Hz Hz'. unfold in_block in *. pose proof (pixels_apart f x' y' x y Hf Hs' Hs Hne). lia.
    + unfold pixel_addr. lia.
  - unfold mb2_set_pixel, mb2_get_pixel, on_screen in *.
    destruct (Z.leb_spec (mwidth f) x), (Z.leb_spec (mheight f) y); cbn [orb]; (done || lia).
Qed.
End Claims.

(** ** Witnesses *)

#[local] Instance debug_profile : Profile := Build_Profile true.

(** A screen of 640 by 480 with 32 bits per pixel. *)
Definition demo_tag : Mb2FbTag :=
  mkTag 0xfd000000 2560 640 480 32 1 (mkDesc 16 8) (mkDesc 8 8) (mkDesc 0 8).

Definition demo_fb : Mb2Fb := mkFb 0xfd000000 640 480 2560 32 4
  (byte_channel 16) (byte_channel 8) (byte_channel 0) Bgra.

Example demo_fb_new : mb2fb_new demo_tag = Ret (Ok demo_fb).
Proof. reflexivity. Qed.

Lemma demo_fb_ok : fb_ok demo_fb.
Proof. split; try done. by right. Qed.

Lemma draw_line_path_witness : exists pts, Path (2, 1) pts (7, 3) /\ Forall (in_box 2 1 7 3) pts /\
  forall s, draw_line (H0 := mb2_framebuffer demo_fb) 8 2 1 7 3 0xff0000 s =
    plot (H := mb2_framebuffer demo_fb) pts 0xff0000 s.
Proof. apply (draw_line_path (H0 := mb2_framebuffer demo_fb) 2 1 7 3 0xff0000 8); vm_compute; intuition congruence. Defined.

Lemma mb2_pixel_roundtrip_witness : exists m', mb2_set_pixel demo_fb 5 7 0x123456 (fun _ => 0) = Ret (true, m') /\
  mb2_get_pixel demo_fb 5 7 m' = Ret (Some 0xff123456, m').
Proof.
  destruct (mb2_pixel_roundtrip demo_fb 5 7 0x123456 (fun _ => 0) demo_fb_ok) as [H _]; try lia.
  { intros x. unfold fits. lia. }
  destruct H as (m' & H1 & H2 & _); [unfold on_screen; cbn; lia|]. exists m'. split; [exact H1|exact H2].
Defined.
