(* ===== verification/FbFill.v ===== *)
(** * Fills and copies of the linear framebuffer

    The bulk operations of drivers/src/peripheral/x86/mb2fb.rs, which write
    whole words or rows of bytes, against the operations on single pixels they
    stand for: fills set the pixels of a rectangle one by one, and
    [copy_region] moves a rectangle as if through a buffer. *)
From S2P Require Import Prelude Memory Fb.

(** ** Reference definitions *)

(** The points of a rectangle, row by row: [x1 <= x < x2], [y1 <= y < y2]. *)
Definition row_points (x1 x2 y : Z) : list (Z * Z) := (fun x => (x, y)) <$> seqZ x1 (x2 - x1).

Definition rect_points (x1 x2 y1 y2 : Z) : list (Z * Z) := seqZ y1 (y2 - y1) ≫= row_points x1 x2.

(** Setting the pixels of a framebuffer one by one. *)
Definition plot_pixels `{Profile} (f : Mb2Fb) (pts : list (Z * Z)) (c : Z) : st mem unit :=
  plot (H := mb2_framebuffer f) pts c.

(** ** Lemmas *)

Lemma plot_app `{FrameBuffer D} l1 : forall l2 c (s : D),
  plot (l1 ++ l2) c s = (_ ← plot l1 c; plot l2 c) s.
Proof.
  induction l1 as [|[x y] l1 IH]; intros l2 c s; [done|]. cbn [app plot].
  unfold mbind, st_bind. destruct (set_pixel x y c s) as [[b s1]| |]; [|done|done]. apply IH.
Qed.

Lemma bind_ext_m {S A B} (m m' : st S A) (k : A -> st S B) s : m s = m' s -> (m ≫= k) s = (m' ≫= k) s.
Proof. unfold mbind, st_bind. by intros ->. Qed.

Lemma seqZ_S x n : seqZ x (Z.of_nat (S n)) = x :: seqZ (x + 1) (Z.of_nat n).
Proof. rewrite seqZ_cons by lia. unfold Z.succ, Z.pred. do 2 f_equal; lia. Qed.

(** A loop over rows whose body sets the pixels of a row sets a rectangle. *)
Lemma each_row_points `{FrameBuffer mem} c x1 x2 body n : forall y m,
  (forall y' m', y <= y' < y + Z.of_nat n -> body y' m' = plot (row_points x1 x2 y') c m') ->
  each_row n y body m = plot (rect_points x1 x2 y (y + Z.of_nat n)) c m.
Proof.
  unfold rect_points. induction n as [|n IH]; intros y m Hb.
  - by replace (y + Z.of_nat 0 - y) with 0 by lia.
  - replace (y + Z.of_nat (S n) - y) with (Z.of_nat (S n)) by lia. rewrite seqZ_S. cbn [each_row mbind list_bind].
    rewrite plot_app. unfold mbind at 1 2, st_bind at 1 2. rewrite Hb by lia.
    destruct (plot _ c m) as [[u s1]| |]; [|done|done].
    rewrite IH by (intros; apply Hb; lia). by replace (y + 1 + Z.of_nat n - (y + 1)) with (Z.of_nat n) by lia.
Qed.

(** The bytes of the pixels of the rectangle of width [w] and height [h] at ([x0], [y0]). *)
Definition rect_bytes (f : Mb2Fb) (x0 y0 w h a : Z) : Prop := exists x y, 0 <= x < w /\ 0 <= y < h /\
  in_block (pixel_addr f (x0 + x) (y0 + y)) (mbytes f) a.

Section Fills.
Context `{Profile} (f : Mb2Fb) (Hf : fb_ok f).

(** On the screen, setting a pixel is packing its colour and storing it. *)
Lemma set_pixel_raw x y c m : 0 <= c < 2 ^ 32 -> on_screen f x y ->
  mb2_set_pixel f x y c m = (_ ← write_pixel_raw f x y (c mod 2 ^ 24); mret true) m.
Proof using Hf.
  intros Hc [Hx Hy]. unfold mb2_set_pixel. rewrite !(proj2 (Z.leb_gt _ _)) by lia. cbn [orb].
  by erewrite stbind_step by (by rewrite pack_color_ok).
Qed.

Lemma fill_row_plot c y n : forall x m, 0 <= c < 2 ^ 32 -> 0 <= x -> x + Z.of_nat n <= mwidth f -> 0 <= y < mheight f ->
  fill_row f n x y (c mod 2 ^ 24) m = plot_pixels f (row_points x (x + Z.of_nat n) y) c m.
Proof using Hf.
  unfold plot_pixels, row_points.
  induction n as [|n IH]; intros x m Hc Hx Hn Hy.
  - replace (x + Z.of_nat 0 - x) with 0 by lia. done.
  - replace (x + Z.of_nat (S n) - x) with (Z.of_nat (S n)) by lia. rewrite seqZ_S. cbn [fmap list_fmap plot fill_row].
    cbn [set_pixel mb2_framebuffer]. unfold mbind at 1 2, st_bind at 1 2.
    rewrite set_pixel_raw by (unfold on_screen; (done || lia)). unfold mbind, st_bind.
    destruct (write_pixel_raw f x y (c mod 2 ^ 24) m) as [[u s1]| |]; [|done|done]. cbn [mret st_ret].
    rewrite IH by lia. by replace (x + 1 + Z.of_nat n - (x + 1)) with (Z.of_nat n) by lia.
Qed.

Lemma each_row_plot c x1 x2 body n : forall y m,
  (forall y' m', y <= y' < y + Z.of_nat n -> body y' m' = plot_pixels f (row_points x1 x2 y') c m') ->
  each_row n y body m = plot_pixels f (rect_points x1 x2 y (y + Z.of_nat n)) c m.
Proof using. apply each_row_points. Qed.

Lemma fill_words_app n1 : forall n2 a p m,
  fill_words (n1 + n2) a p m = (_ ← fill_words n1 a p; fill_words n2 (a + 4 * Z.of_nat n1) p) m.
Proof using.
  induction n1 as [|n1 IH]; intros n2 a p m.
  - cbn [Nat.add fill_words]. unfold mbind, st_bind, mret, st_ret. f_equal. lia.
  - cbn [Nat.add fill_words]. unfold mbind at 1 2 3, st_bind at 1 2 3, modify. rewrite IH.
    unfold mbind, st_bind. destruct (fill_words n1 (a + 4) p _) as [[u s1]| |]; [|done|done]. f_equal. lia.
Qed.

(** Consecutive words of a row of 32-bit pixels are its pixels. *)
Lemma fill_words_row p y n : forall x m, mbytes f = 4 -> 0 <= x -> x + Z.of_nat n <= mwidth f -> 0 <= y < mheight f ->
  fill_words n (mbase f + (y * mpitch f + x * mbytes f)) p m = fill_row f n x y p m.
Proof using Hf.
  induction n as [|n IH]; intros x m Hb Hx Hn Hy; [done|].
  cbn [fill_words fill_row]. destruct (offset_ok f x y Hf) as (Eo & _); [unfold on_screen; lia|].
  unfold mbind, st_bind, modify, write_pixel_raw. unfold mbind, st_bind, lift. rewrite Eo, Hb. cbn [Z.eqb Pos.eqb modify].
  rewrite <- IH by (done || lia). f_equal. rewrite Hb. lia.
Qed.

Lemma fill_words_rows p n : forall y m, mbytes f = 4 -> mpitch f = mwidth f * 4 -> 0 <= y -> y + Z.of_nat n <= mheight f ->
  fill_words (n * Z.to_nat (mwidth f)) (mbase f + y * mpitch f) p m =
  each_row n y (fun y => fill_row f (Z.to_nat (mwidth f)) 0 y p) m.
Proof using Hf.
  pose proof (fo_width _ Hf). induction n as [|n IH]; intros y m Hb Hp Hy Hn; [done|].
  cbn [Nat.mul each_row]. rewrite fill_words_app.
  unfold mbind at 1 2, st_bind at 1 2. rewrite <- fill_words_row by (done || lia).
  replace (y * mpitch f + 0 * mbytes f) with (y * mpitch f) by lia.
  destruct (fill_words _ (mbase f + y * mpitch f) p m) as [[u s1]| |]; [|done|done].
  rewrite <- IH by (done || lia). f_equal. rewrite Hp. lia.
Qed.

(** One row of a bulk fill, whichever path is taken. *)
Lemma hspan_plot c x1 x2 y m : 0 <= c < 2 ^ 32 -> 0 <= x1 <= x2 -> x2 <= mwidth f -> 0 <= y < mheight f ->
  (if mbytes f =? 4 then fill_words (Z.to_nat (x2 - x1)) (mbase f + (y * mpitch f + x1 * mbytes f)) (c mod 2 ^ 24)
   else fill_row f (Z.to_nat (x2 - x1)) x1 y (c mod 2 ^ 24)) m = plot_pixels f (row_points x1 x2 y) c m.
Proof using Hf.
  intros Hc Hx Hw Hy. assert (fill_row f (Z.to_nat (x2 - x1)) x1 y (c mod 2 ^ 24) m = plot_pixels f (row_points x1 x2 y) c m) as E.
  { rewrite fill_row_plot by (done || lia). by replace (x1 + Z.of_nat (Z.to_nat (x2 - x1))) with x2 by lia. }
  destruct (Z.eqb_spec (mbytes f) 4); [|exact E]. by rewrite fill_words_row by (done || lia).
Qed.

(** The byte offset of the first pixel of a row, or of the place after it. *)
Lemma row_offset x y : 0 <= x <= mwidth f -> 0 <= y < mheight f -> offset f x y = Ret (y * mpitch f + x * mbytes f).
Proof using Hf.
  intros Hx Hy. pose proof (fo_bytes _ Hf). pose proof (fo_pitch _ Hf). pose proof (fo_size _ Hf). pose proof (fo_width _ Hf).
  assert (0 <= x * mbytes f /\ x * mbytes f <= mpitch f) by nia.
  assert (0 <= y * mpitch f /\ y * mpitch f + mpitch f <= mpitch f * mheight f) by nia.
  unfold offset, add, mul, arith. unfold usize_bits.
  rewrite !(proj2 (Z.leb_le 0 _)) by lia. rewrite (proj2 (Z.ltb_lt (y * mpitch f) _)) by lia. cbn [andb mbind outcome_bind].
  destruct (Z.ltb_spec (x * mbytes f) (2 ^ 32)).
  2: { assert (mpitch f <= mpitch f * mheight f) by (pose proof (fo_height _ Hf); nia). lia. }
  cbn [mbind outcome_bind]. rewrite (proj2 (Z.leb_le _ _)), (proj2 (Z.ltb_lt _ _)) by lia. done.
Qed.
End Fills.

Section Ops.
Context `{Profile} (f : Mb2Fb) (Hf : fb_ok f).

Lemma clear_plot c m : 0 <= c < 2 ^ 32 ->
  mb2_clear f c m = plot_pixels f (rect_points 0 (mwidth f) 0 (mheight f)) c m.
Proof using Hf.
  intros Hc. pose proof (fo_width _ Hf) as Hw. pose proof (fo_height _ Hf) as Hh. pose proof (fo_size _ Hf) as Hs.
  pose proof (fo_pitch _ Hf) as Hp. pose proof (fo_bytes _ Hf).
  assert (Hslow : each_row (Z.to_nat (mheight f)) 0 (fun y => fill_row f (Z.to_nat (mwidth f)) 0 y (c mod 2 ^ 24)) m =
    plot_pixels f (rect_points 0 (mwidth f) 0 (mheight f)) c m).
  { rewrite (each_row_plot f c 0 (mwidth f)).
    - by rewrite Z2Nat.id by lia.
    - intros y' m' Hy. rewrite fill_row_plot by (done || lia). by rewrite Z2Nat.id by lia. }
  unfold mb2_clear. erewrite stbind_step by (by rewrite pack_color_ok).
  destruct (Z.eqb_spec (mbytes f) 4) as [Eb|]; [|by erewrite stbind_step by done].
  assert (mwidth f * 4 < 2 ^ 32) by nia.
  erewrite stbind_step by (rewrite mul_ok by (unfold fits; lia); cbn [mbind outcome_bind lift]; reflexivity).
  cbv beta. destruct (Z.eqb_spec (mpitch f) (mwidth f * 4)) as [Ep|]; [|done].
  erewrite stbind_step.
  2: { unfold mb2_size. rewrite mul_ok by (unfold fits; nia). done. }
  cbv beta. rewrite <- Hslow, <- fill_words_rows by (done || lia). f_equal; [|lia].
  rewrite <- Z2Nat.inj_mul by lia. f_equal. rewrite Ep.
  replace (mwidth f * 4 * mheight f) with (mheight f * mwidth f * 4) by lia. by rewrite Z.div_mul by lia.
Qed.

Lemma width_fits : mwidth f < 2 ^ 32 /\ mheight f < 2 ^ 32.
Proof using Hf.
  pose proof (fo_width _ Hf). pose proof (fo_bytes _ Hf). pose proof (fo_pitch _ Hf). pose proof (fo_size _ Hf).
  pose proof (fo_height _ Hf). split; nia.
Qed.

Lemma sub_underflow a b : a < b -> debug_assertions = true -> sub 32 a b = Panic.
Proof using. intros Hlt Hd. unfold sub, arith. by rewrite (proj2 (Z.leb_gt _ _)), Hd by lia. Qed.

Lemma offset_debug x y : debug_assertions = true -> offset f x y = Panic \/ exists o, offset f x y = Ret o.
Proof using.
  intros Hd. unfold offset, mul, add, arith. rewrite Hd. 
  destruct ((0 <=? y * mpitch f) && _); cbn [mbind outcome_bind]; [|by left].
  do 2 (destruct (_ && _); cbn [mbind outcome_bind]; [|by left]). right. by eexists.
Qed.

(** A span of 32-bit pixels whose end lies before its start underflows. *)
Lemma backward_span x1 x2 y (k : Z -> Z -> st mem unit) m : x2 < x1 -> debug_assertions = true ->
  (base_off ← lift (offset f x1 y); n ← lift (sub 32 x2 x1); k base_off n) m = Panic.
Proof using.
  intros Hlt Hd. unfold mbind, st_bind, lift. destruct (offset_debug x1 y Hd) as [->|(o & ->)]; [done|].
  cbn [mbind outcome_bind]. by rewrite sub_underflow.
Qed.

Lemma hline_plot x1 x2 y c m : 0 <= c < 2 ^ 32 -> 0 <= x1 -> 0 <= x2 -> 0 <= y ->
  if (y <? mheight f) && (Z.min x2 (mwidth f - 1) <? Z.min x1 (mwidth f - 1)) && (mbytes f =? 4)
  then debug_assertions = true -> mb2_draw_hline f x1 x2 y c m = Panic
  else mb2_draw_hline f x1 x2 y c m =
    plot_pixels f (if y <? mheight f then row_points (Z.min x1 (mwidth f - 1)) (Z.min x2 (mwidth f - 1) + 1) y else []) c m.
Proof using Hf.
  intros Hc Hx1 Hx2 Hy. pose proof (fo_width _ Hf). destruct width_fits as [? _].
  destruct (Z.ltb_spec y (mheight f)) as [Hlt|Hge]; cbn [andb].
  2: { unfold mb2_draw_hline. by rewrite (proj2 (Z.leb_le _ _)). }
  set (a := Z.min x1 (mwidth f - 1)). set (b := Z.min x2 (mwidth f - 1)).
  assert (Hab : 0 <= a < mwidth f /\ 0 <= b < mwidth f) by lia.
  assert (E : mb2_draw_hline f x1 x2 y c m = (if mbytes f =? 4 then
       base_off ← lift (offset f a y); n ← lift (sub 32 b a); fill_words (S (Z.to_nat n)) (mbase f + base_off) (c mod 2 ^ 24)
     else fill_row f (Z.to_nat (b - a + 1)) a y (c mod 2 ^ 24)) m).
  { unfold mb2_draw_hline. rewrite (proj2 (Z.leb_gt _ _)) by lia.
    erewrite stbind_step by (by rewrite sub_ok by (unfold fits; lia)). cbv beta zeta.
    by erewrite stbind_step by (by rewrite pack_color_ok). }
  rewrite E. clear E. clearbody a b.
  destruct (Z.eqb_spec (mbytes f) 4) as [Eb|]; rewrite ?andb_true_r, ?andb_false_r.
  - destruct (Z.ltb_spec b a); [intros Hd; by apply backward_span|].
    rewrite <- hspan_plot by (done || lia). rewrite (proj2 (Z.eqb_eq _ _) Eb).
    erewrite stbind_step by (by rewrite (row_offset f Hf) by (done || lia)). cbv beta.
    erewrite stbind_step by (by rewrite sub_ok by (unfold fits; lia)). cbv beta.
    by replace (S (Z.to_nat (b - a))) with (Z.to_nat (b + 1 - a)) by lia.
  - destruct (Z.le_gt_cases a (b + 1)).
    + rewrite <- hspan_plot by (done || lia). rewrite (proj2 (Z.eqb_neq _ _)) by done.
      by replace (b - a + 1) with (b + 1 - a) by lia.
    + unfold row_points. rewrite seqZ_nil by lia. by replace (Z.to_nat (b - a + 1)) with 0%nat by lia.
Qed.

Lemma vline_plot x y1 y2 c m : 0 <= c < 2 ^ 32 -> 0 <= x -> 0 <= y1 -> 0 <= y2 ->
  mb2_draw_vline f x y1 y2 c m =
  plot_pixels f (if x <? mwidth f then rect_points x (x + 1) (Z.min y1 (mheight f - 1)) (Z.min y2 (mheight f - 1) + 1) else []) c m.
Proof using Hf.
  intros Hc Hx Hy1 Hy2. pose proof (fo_height _ Hf) as Hh. destruct width_fits as [_ ?].
  unfold mb2_draw_vline. destruct (Z.leb_spec (mwidth f) x); [by rewrite (proj2 (Z.ltb_ge _ _))|].
  rewrite (proj2 (Z.ltb_lt _ _)) by lia.
  erewrite stbind_step by (by rewrite sub_ok by (unfold fits; lia)). cbv beta zeta.
  erewrite stbind_step by (by rewrite pack_color_ok). cbv beta.
  set (a := Z.min y1 (mheight f - 1)). set (b := Z.min y2 (mheight f - 1)).
  assert (Hab : 0 <= a < mheight f /\ 0 <= b < mheight f) by lia. clearbody a b.
  destruct (Z.le_gt_cases a (b + 1)).
  2: { unfold rect_points. rewrite seqZ_nil by lia. by replace (Z.to_nat (b - a + 1)) with 0%nat by lia. }
  rewrite (each_row_plot f c x (x + 1)); [by replace (a + Z.of_nat (Z.to_nat (b - a + 1))) with (b + 1) by lia|].
  intros y' m' Hy'. replace (x + 1) with (x + Z.of_nat 1) by lia. rewrite <- fill_row_plot by (done || lia).
  cbn [fill_row]. unfold mbind, st_bind. by destruct (write_pixel_raw f x y' _ m') as [[[] s1]| |].
Qed.

Lemma rect_points_empty x1 x2 y1 y2 : x2 <= x1 \/ y2 <= y1 -> rect_points x1 x2 y1 y2 = [].
Proof using.
  unfold rect_points, row_points. intros [Hx|Hy]; [rewrite (seqZ_nil x1) by lia; by induction (seqZ _ _)|by rewrite (seqZ_nil y1) by lia].
Qed.

(** A sum of 32 bits: a debug build panics where it would wrap. *)
Lemma add_wraps a b : 0 <= a -> 0 <= b ->
  add 32 a b = if debug_assertions && (2 ^ 32 <=? a + b) then Panic else Ret (wrap 32 (a + b)).
Proof using.
  intros Ha Hb. unfold add, arith, wrap. rewrite (proj2 (Z.leb_le 0 _)) by lia. cbn [andb].
  destruct (Z.ltb_spec (a + b) (2 ^ 32)) as [Hlt|Hge].
  - rewrite (proj2 (Z.leb_gt _ _)), andb_false_r, Z.mod_small by lia. done.
  - rewrite (proj2 (Z.leb_le _ _)), andb_true_r by lia. done.
Qed.

Lemma rect_plot x y w h c m : 0 <= c < 2 ^ 32 -> 0 <= x -> 0 <= y -> 0 <= w -> 0 <= h ->
  let x_end := Z.min (wrap 32 (x + w)) (mwidth f) in
  let y_end := Z.min (wrap 32 (y + h)) (mheight f) in
  if debug_assertions && ((2 ^ 32 <=? x + w) || (2 ^ 32 <=? y + h)) then mb2_draw_rect f x y w h c m = Panic
  else if (y <? y_end) && (x_end <? x) && (mbytes f =? 4)
  then debug_assertions = true -> mb2_draw_rect f x y w h c m = Panic
  else mb2_draw_rect f x y w h c m = plot_pixels f (rect_points x x_end y y_end) c m.
Proof using Hf.
  intros Hc Hx Hy Hw Hh x_end y_end. assert (Hxe : 0 <= x_end <= mwidth f).
  { unfold x_end, wrap. pose proof (fo_width _ Hf). pose proof (Z.mod_pos_bound (x + w) (2 ^ 32)). lia. }
  assert (Hye : y_end <= mheight f) by (unfold y_end; lia). destruct width_fits as [Hwf _].
  unfold mb2_draw_rect. erewrite stbind_step by (by rewrite pack_color_ok). cbv beta.
  rewrite !add_wraps by lia. rewrite andb_orb_distrib_r.
  destruct (debug_assertions && (2 ^ 32 <=? x + w)) eqn:Ox; [done|]. cbn [orb].
  erewrite stbind_step by reflexivity. cbv beta zeta.
  destruct (debug_assertions && (2 ^ 32 <=? y + h)) eqn:Oy; [done|].
  erewrite stbind_step by reflexivity. cbv beta zeta. fold x_end y_end. clearbody x_end y_end. clear Ox Oy.
  destruct (Z.ltb_spec y y_end) as [Hlt|Hge]; cbn [andb].
  2: { rewrite rect_points_empty by lia. by replace (Z.to_nat (y_end - y)) with 0%nat by lia. }
  destruct (Z.ltb_spec x_end x) as [Hback|Hfwd]; cbn [andb].
  - destruct (Z.eqb_spec (mbytes f) 4) as [Eb|Eb].
    + intros Hd. destruct (Z.to_nat (y_end - y)) as [|n] eqn:En; [lia|]. cbn [each_row].
      unfold mbind at 1, st_bind at 1. by rewrite backward_span.
    + rewrite rect_points_empty by lia. replace (Z.to_nat (x_end - x)) with 0%nat by lia.
      generalize (Z.to_nat (y_end - y)). intros n. generalize y. induction n as [|n IH]; intros z; [done|apply IH].
  - rewrite (each_row_plot f c x x_end); [by replace (y + Z.of_nat (Z.to_nat (y_end - y))) with y_end by lia|].
    intros y' m' Hy'. rewrite <- hspan_plot by (done || lia). destruct (Z.eqb_spec (mbytes f) 4); [|done].
    erewrite stbind_step by (by rewrite (row_offset f Hf) by (done || lia)). cbv beta.
    by erewrite stbind_step by (by rewrite sub_ok by (unfold fits; lia)).
Qed.

(** Lines and rectangles that are in order and do not overflow. *)
Lemma hline_inside x1 x2 y c m : 0 <= c < 2 ^ 32 -> 0 <= x1 <= x2 -> x2 < mwidth f -> 0 <= y < mheight f ->
  mb2_draw_hline f x1 x2 y c m = plot_pixels f (row_points x1 (x2 + 1) y) c m.
Proof using Hf.
  intros Hc Hx Hw Hy. pose proof (hline_plot x1 x2 y c m Hc ltac:(lia) ltac:(lia) ltac:(lia)) as E.
  rewrite !Z.min_l, (proj2 (Z.ltb_ge x2 x1)), (proj2 (Z.ltb_lt y _)) in E by lia. exact E.
Qed.

Lemma rect_inside x y w h c m : 0 <= c < 2 ^ 32 -> 0 <= x -> 0 <= w -> x + w <= mwidth f -> 0 <= y -> 0 <= h ->
  y + h <= mheight f -> mb2_draw_rect f x y w h c m = plot_pixels f (rect_points x (x + w) y (y + h)) c m.
Proof using Hf.
  intros Hc Hx Hw Hxw Hy Hh Hyh. destruct width_fits as [? ?].
  pose proof (rect_plot x y w h c m Hc Hx Hy Hw Hh) as E. cbv zeta in E. unfold wrap in E.
  rewrite !Z.mod_small, !Z.min_l, (proj2 (Z.leb_gt _ (x + w))), (proj2 (Z.leb_gt _ (y + h))) in E by lia. cbn [orb] in E.
  rewrite andb_false_r, (proj2 (Z.ltb_ge (x + w) x)), andb_false_r in E by lia. exact E.
Qed.
End Ops.

(** *** Copies *)

Lemma copy_up_ok n : forall src dst m, dst <= src -> exists m', copy_up n src dst m = Ret (tt, m') /\
  forall x, m' x = if (dst <=? x) && (x <? dst + Z.of_nat n) then m (src + (x - dst)) else m x.
Proof.
  induction n as [|n IH]; intros src dst m Hle.
  - exists m. split; [done|]. intros x. destruct (Z.leb_spec dst x), (Z.ltb_spec x (dst + Z.of_nat 0)); (done || lia).
  - destruct (IH (src + 1) (dst + 1) (store8 m dst (load8 m src))) as (m' & E & Hm'); [lia|]. exists m'.
    split; [exact E|]. intros x. rewrite Hm'. unfold store8, load8.
    destruct (Z.leb_spec (dst + 1) x), (Z.ltb_spec x (dst + 1 + Z.of_nat n)), (Z.leb_spec dst x),
      (Z.ltb_spec x (dst + Z.of_nat (S n))); cbn [andb]; try lia.
    + rewrite (proj2 (Z.eqb_neq _ _)) by lia. f_equal. lia.
    + by rewrite (proj2 (Z.eqb_neq _ _)) by lia.
    + replace x with dst by lia. rewrite Z.eqb_refl. f_equal. lia.
    + by rewrite (proj2 (Z.eqb_neq _ _)) by lia.
Qed.

Lemma copy_down_ok n : forall src dst m, src <= dst -> exists m', copy_down n src dst m = Ret (tt, m') /\
  forall x, m' x = if (dst <=? x) && (x <? dst + Z.of_nat n) then m (src + (x - dst)) else m x.
Proof.
  induction n as [|n IH]; intros src dst m Hle.
  - exists m. split; [done|]. intros x. destruct (Z.leb_spec dst x), (Z.ltb_spec x (dst + Z.of_nat 0)); (done || lia).
  - destruct (IH src dst (store8 m (dst + Z.of_nat n) (load8 m (src + Z.of_nat n)))) as (m' & E & Hm'); [lia|]. exists m'.
    split; [exact E|]. intros x. rewrite Hm'. unfold store8, load8.
    destruct (Z.leb_spec dst x), (Z.ltb_spec x (dst + Z.of_nat n)),
      (Z.ltb_spec x (dst + Z.of_nat (S n))); cbn [andb]; try lia.
    + by rewrite (proj2 (Z.eqb_neq _ _)) by lia.
    + replace x with (dst + Z.of_nat n) by lia. rewrite Z.eqb_refl. f_equal. lia.
    + by rewrite (proj2 (Z.eqb_neq _ _)) by lia.
    + by rewrite (proj2 (Z.eqb_neq _ _)) by lia.
Qed.

Section Copies.
Context `{Profile} (f : Mb2Fb) (Hf : fb_ok f).
Context (sx sy dx dy w h : Z) (Hw : 0 <= w) (Hs : 0 <= sx /\ sx + w <= mwidth f) (Hd : 0 <= dx /\ dx + w <= mwidth f).
Context (Hsy : 0 <= sy /\ sy + h <= mheight f) (Hdy : 0 <= dy /\ dy + h <= mheight f).

(** The rows [P] of the rectangle have been copied from [m0]. *)
Definition copied (P : Z -> Prop) (m0 m : mem) : Prop :=
  (forall r b, P r -> 0 <= b < w * mbytes f -> m (pixel_addr f dx (dy + r) + b) = m0 (pixel_addr f sx (sy + r) + b)) /\
  (forall x, (forall r b, P r -> 0 <= b < w * mbytes f -> x <> pixel_addr f dx (dy + r) + b) -> m x = m0 x).

(** The rows done after [i] rounds, and the row of the next round. *)
Definition rows_done (i r : Z) : Prop := if dy <=? sy then 0 <= r < i else h - i <= r < h.
Definition row_of (i : Z) : Z := if dy <=? sy then i else h - 1 - i.

(** Bytes of different rows are different. *)
Lemma rows_apart x y b x' y' b' : 0 <= x -> x + w <= mwidth f -> 0 <= x' -> x' + w <= mwidth f ->
  0 <= b < w * mbytes f -> 0 <= b' < w * mbytes f -> y <> y' -> pixel_addr f x y + b <> pixel_addr f x' y' + b'.
Proof using All.
  intros Hx Hxw Hx' Hxw' Hb Hb' Hne E. pose proof (fo_bytes _ Hf). pose proof (fo_pitch _ Hf). unfold pixel_addr in E.
  assert (0 <= x * mbytes f + b < mpitch f) by nia. assert (0 <= x' * mbytes f + b' < mpitch f) by nia.
  destruct (Z.lt_trichotomy y y') as [|[->|]]; [|done|]; nia.
Qed.

Lemma copied_step i m0 m m' : 0 <= i < h -> copied (rows_done i) m0 m ->
  (forall x, m' x = if (pixel_addr f dx (dy + row_of i) <=? x) && (x <? pixel_addr f dx (dy + row_of i) + w * mbytes f)
     then m (pixel_addr f sx (sy + row_of i) + (x - pixel_addr f dx (dy + row_of i))) else m x) ->
  copied (rows_done (i + 1)) m0 m'.
Proof using All.
  intros Hi [H1 H2] Hm'. set (ri := row_of i) in *.
  assert (Hri : ~ rows_done i ri /\ forall r, rows_done (i + 1) r <-> r = ri \/ rows_done i r).
  { unfold ri, row_of, rows_done. destruct (dy <=? sy); split; intros; lia. }
  assert (Hsrc : forall b, 0 <= b < w * mbytes f -> m (pixel_addr f sx (sy + ri) + b) = m0 (pixel_addr f sx (sy + ri) + b)).
  { intros b Hb. apply H2. intros r b' Hr Hb'. apply rows_apart; try lia.
    clear -Hr Hi. unfold ri, row_of, rows_done in *. destruct (Z.leb_spec dy sy); lia. }
  destruct Hri as [_ Hri]. split.
  - intros r b Hr Hb. rewrite Hm'. apply Hri in Hr as [->|Hr].
    + rewrite (proj2 (Z.leb_le _ _)), (proj2 (Z.ltb_lt _ _)) by lia. cbn [andb]. rewrite <- Hsrc by done. f_equal. lia.
    + assert (dy + r <> dy + ri). { unfold rows_done, ri, row_of in *. destruct (dy <=? sy); lia. }
      destruct (Z.leb_spec (pixel_addr f dx (dy + ri)) (pixel_addr f dx (dy + r) + b)),
        (Z.ltb_spec (pixel_addr f dx (dy + r) + b) (pixel_addr f dx (dy + ri) + w * mbytes f)); cbn [andb]; try by apply H1.
      exfalso. apply (rows_apart dx (dy + r) b dx (dy + ri) (pixel_addr f dx (dy + r) + b - pixel_addr f dx (dy + ri))); lia.
  - intros x Hx. rewrite Hm'. destruct (Z.leb_spec (pixel_addr f dx (dy + ri)) x),
      (Z.ltb_spec x (pixel_addr f dx (dy + ri) + w * mbytes f)); cbn [andb].
    { exfalso. apply (Hx ri (x - pixel_addr f dx (dy + ri))); [apply Hri; by left|lia|lia]. }
    all: apply H2; intros r b Hr Hb; apply Hx; [apply Hri; by right|done].
Qed.

Lemma copy_rows_ok m0 n : forall i m, 0 <= i -> i + Z.of_nat n = h -> mem_ok m -> copied (rows_done i) m0 m ->
  exists m', copy_rows f n i sx sy dx dy h (w * mbytes f) m = Ret (tt, m') /\ mem_ok m' /\ copied (rows_done h) m0 m'.
Proof using All.
  pose proof (fo_bytes _ Hf) as Hb. assert (Hh32 : mheight f < 2 ^ 32).
  { pose proof (fo_size _ Hf). pose proof (fo_pitch _ Hf). pose proof (fo_width _ Hf). nia. }
  induction n as [|n IH]; intros i m Hi En Hm Hc.
  { exists m. replace h with i by lia. by split_and!. }
  assert (Hr : 0 <= row_of i < h) by (unfold row_of; destruct (dy <=? sy); lia).
  set (ri := row_of i) in *. cbn [copy_rows].
  erewrite stbind_step.
  2: { instantiate (1 := m). instantiate (1 := ri). unfold ri, row_of. destruct (dy <=? sy); [done|].
       rewrite sub_ok by (unfold fits; lia). cbn [mbind outcome_bind]. by rewrite sub_ok by (unfold fits; lia). }
  erewrite stbind_step by (by rewrite add_ok by (unfold fits; lia)).
  erewrite stbind_step by (by rewrite (row_offset f Hf) by lia).
  erewrite stbind_step by (by rewrite add_ok by (unfold fits; lia)).
  erewrite stbind_step by (by rewrite (row_offset f Hf) by lia). cbv beta zeta.
  assert (Hn : Z.of_nat (Z.to_nat (w * mbytes f)) = w * mbytes f) by (apply Z2Nat.id; nia).
  fold (pixel_addr f sx (sy + ri)) (pixel_addr f dx (dy + ri)).
  assert (Hstep : exists m1, (if (dy + ri) * mpitch f + dx * mbytes f <=? (sy + ri) * mpitch f + sx * mbytes f
      then copy_up (Z.to_nat (w * mbytes f)) (pixel_addr f sx (sy + ri)) (pixel_addr f dx (dy + ri))
      else copy_down (Z.to_nat (w * mbytes f)) (pixel_addr f sx (sy + ri)) (pixel_addr f dx (dy + ri))) m = Ret (tt, m1) /\
    forall x, m1 x = if (pixel_addr f dx (dy + ri) <=? x) && (x <? pixel_addr f dx (dy + ri) + w * mbytes f)
     then m (pixel_addr f sx (sy + ri) + (x - pixel_addr f dx (dy + ri))) else m x).
  { rewrite <- Hn. rewrite Nat2Z.id.
    destruct (Z.leb_spec ((dy + ri) * mpitch f + dx * mbytes f) ((sy + ri) * mpitch f + sx * mbytes f));
      [apply copy_up_ok|apply copy_down_ok]; unfold pixel_addr; lia. }
  destruct Hstep as (m1 & E & Hm1). erewrite stbind_step by exact E. apply IH; [lia|lia| |].
  - intros x. rewrite Hm1. destruct (_ && _); apply Hm.
  - apply (copied_step i m0 m m1); [lia|done|exact Hm1].
Qed.
End Copies.

(** ** Theorems *)

Section Claims.
Context `{Profile}.

(** C20: on a 24 or 32 bit framebuffer the bulk operations are equivalent to
    setting pixels one by one, whichever of the word-wise and pixel-wise paths
    is taken.  [clear] sets those of the whole screen.  The ends of a line are
    clamped to the screen, so one that lies wholly right of it, or below it,
    still sets the pixel of the last column, or row; a line whose other
    coordinate is off the screen sets none.  A rectangle is clipped to the
    screen, after its far corner has been computed in 32 bits, which panics in
    a debug build where it overflows and wraps in a release build.  The
    exceptions, with pixels of 32 bits, are a horizontal line whose clamped
    ends are out of order and a rectangle with rows on the screen whose clipped
    right side lies left of its left side: the length of the span underflows,
    which panics in a debug build; what a release build does there, where the
    length wraps to some 2^32 words, is not stated.  With pixels of 24 bits
    these set nothing. *)
Theorem mb2_fills_plot f c m : fb_ok f -> fits 32 c ->
  mb2_clear f c m = plot_pixels f (rect_points 0 (mwidth f) 0 (mheight f)) c m /\
  (forall x1 x2 y, fits 32 x1 -> fits 32 x2 -> fits 32 y ->
     let x_start := Z.min x1 (mwidth f - 1) in
     let x_end := Z.min x2 (mwidth f - 1) in
     if (y <? mheight f) && (x_end <? x_start) && (mbytes f =? 4)
     then debug_assertions = true -> mb2_draw_hline f x1 x2 y c m = Panic
     else mb2_draw_hline f x1 x2 y c m =
       plot_pixels f (if y <? mheight f then row_points x_start (x_end + 1) y else []) c m) /\
  (forall x y1 y2, fits 32 x -> fits 32 y1 -> fits 32 y2 -> mb2_draw_vline f x y1 y2 c m =
     plot_pixels f (if x <? mwidth f
                    then rect_points x (x + 1) (Z.min y1 (mheight f - 1)) (Z.min y2 (mheight f - 1) + 1)
                    else []) c m) /\
  (forall x y w h, fits 32 x -> fits 32 y -> fits 32 w -> fits 32 h ->
     let x_end := Z.min (wrap 32 (x + w)) (mwidth f) in
     let y_end := Z.min (wrap 32 (y + h)) (mheight f) in
     if debug_assertions && ((2 ^ 32 <=? x + w) || (2 ^ 32 <=? y + h)) then mb2_draw_rect f x y w h c m = Panic
     else if (y <? y_end) && (x_end <? x) && (mbytes f =? 4)
     then debug_assertions = true -> mb2_draw_rect f x y w h c m = Panic
     else mb2_draw_rect f x y w h c m = plot_pixels f (rect_points x x_end y y_end) c m).
Proof.
  unfold fits. intros Hf Hc. split_and!; intros.
  - by apply clear_plot.
  - apply hline_plot; (done || lia).
  - apply vline_plot; (done || lia).
  - apply rect_plot; (done || lia).
Qed.

(** [copy_region] between two rectangles of the screen, overlapping or not,
    moves the rectangle as if through a buffer: each pixel of the destination
    reads as the pixel of the source did before, and no byte outside the
    destination changes. *)
Theorem mb2_copy_region_moves f sx sy dx dy w h m : fb_ok f -> mem_ok m -> 0 <= w -> 0 <= h ->
  0 <= sx -> sx + w <= mwidth f -> 0 <= sy -> sy + h <= mheight f ->
  0 <= dx -> dx + w <= mwidth f -> 0 <= dy -> dy + h <= mheight f ->
  exists m', mb2_copy_region f sx sy dx dy w h m = Ret (tt, m') /\
    (forall x y, 0 <= x < w -> 0 <= y < h -> exists v,
       mb2_get_pixel f (sx + x) (sy + y) m = Ret (v, m) /\ mb2_get_pixel f (dx + x) (dy + y) m' = Ret (v, m')) /\
    same_outside (rect_bytes f dx dy w h) m m'.
Proof.
  intros Hf Hm Hw Hh Hsx Hsw Hsy Hsh Hdx Hdw Hdy Hdh. pose proof (fo_bytes _ Hf) as Hb.
  assert (mwidth f * mbytes f < 2 ^ 32) by (pose proof (fo_size _ Hf); pose proof (fo_pitch _ Hf); pose proof (fo_height _ Hf); nia).
  destruct (copy_rows_ok f Hf sx sy dx dy w h Hw (conj Hsx Hsw) (conj Hdx Hdw) (conj Hsy Hsh) (conj Hdy Hdh)
    m (Z.to_nat h) 0 m) as (m' & E & Hm' & Hc); [lia|lia|done| |].
  { split; [|done]. intros r b Hr. exfalso. unfold rows_done in Hr. destruct (dy <=? sy); lia. }
  assert (Hall : forall r, rows_done sy dy h h r <-> 0 <= r < h).
  { intros r. unfold rows_done. destruct (dy <=? sy); lia. }
  destruct Hc as [H1 H2]. exists m'. split; [|split].
  - unfold mb2_copy_region. by erewrite stbind_step by (by rewrite mul_ok by (unfold fits, usize_bits; nia)).
  - intros x y Hx Hy. eexists. split; [apply get_pixel_ok; try done; unfold on_screen; lia|].
    rewrite get_pixel_ok by (try done; unfold on_screen; lia). do 4 f_equal.
    assert (Ea : forall k, 0 <= k < mbytes f ->
      m' (pixel_addr f (dx + x) (dy + y) + k) = m (pixel_addr f (sx + x) (sy + y) + k)).
    { intros k Hk. assert (0 <= x * mbytes f + k < w * mbytes f) by nia.
      replace (pixel_addr f (dx + x) (dy + y) + k) with (pixel_addr f dx (dy + y) + (x * mbytes f + k)) by (unfold pixel_addr; lia).
      rewrite H1 by (done || by apply Hall). f_equal. unfold pixel_addr. lia. }
    assert (Ea0 := Ea 0). rewrite !Z.add_0_r in Ea0.
    unfold pixel_word, load32. destruct Hb as [E3|E4]; [rewrite E3|rewrite E4]; cbn [Z.eqb Pos.eqb]; by rewrite Ea0, !Ea by lia.
  - intros a Ha. apply H2. intros r b Hr Hbr ->. apply Ha. exists (b / mbytes f), r. apply Hall in Hr.
    pose proof (Z.div_mod b (mbytes f)). pose proof (Z.mod_pos_bound b (mbytes f)).
    assert (0 <= b / mbytes f < w) by (split; [apply Z.div_pos; lia|apply Z.div_lt_upper_bound; lia]).
    split_and!; try lia. unfold in_block, pixel_addr. lia.
Qed.
End Claims.

(** ** Witnesses *)

#[local] Instance debug_profile : Profile := Build_Profile true.

(** A rectangle cut by the corner of the screen, a line beyond the right side,
    and a line from right to left. *)
Lemma mb2_fills_plot_witness :
  mb2_draw_rect demo_fb 630 470 100 100 7 (fun _ => 0) =
    plot_pixels demo_fb (rect_points 630 640 470 480) 7 (fun _ => 0) /\
  mb2_draw_hline demo_fb 700 800 3 7 (fun _ => 0) = plot_pixels demo_fb [(639, 3)] 7 (fun _ => 0) /\
  mb2_draw_hline demo_fb 20 10 3 7 (fun _ => 0) = Panic.
Proof.
  destruct (mb2_fills_plot demo_fb 7 (fun _ => 0) demo_fb_ok) as (_ & Hl & _ & Hr); [by vm_compute|].
  split; [apply (Hr 630 470 100 100); by vm_compute|]. split; [apply (Hl 700 800 3); by vm_compute|].
  apply (Hl 20 10 3); by vm_compute.
Defined.

(** Scrolling up by 16 rows. *)
Lemma mb2_copy_region_moves_witness : exists m',
  mb2_copy_region demo_fb 0 16 0 0 640 464 (fun x => x mod 256) = Ret (tt, m') /\
  exists v, mb2_get_pixel demo_fb 5 21 (fun x => x mod 256) = Ret (v, (fun x => x mod 256)) /\
    mb2_get_pixel demo_fb 5 5 m' = Ret (v, m').
Proof.
  destruct (mb2_copy_region_moves demo_fb 0 16 0 0 640 464 (fun x => x mod 256) demo_fb_ok)
    as (m' & E & Hp & _); try (cbn; lia).
  { intros x. apply Z.mod_pos_bound. lia. }
  exists m'. split; [exact E|]. apply (Hp 5 5); lia.
Defined.
