(* ===== verification/Boot.v ===== *)
(** * Platform discovery

    kernel/src/boot/{mod,multiboot2,probe,device_tree}.rs fill the platform
    tables from a Multiboot2 information structure or from fixed knowledge of
    the machine, chosen by what the boot loader left ([determine_boot_info] of
    kernel/src/kcore/init.rs).  The device-tree feature is declared in no
    manifest, so its parser is never compiled and [device_tree_discover] is the
    stub.  Memory outside the structure may hold anything; the pointers read
    through are taken to be aligned as the protocol demands. *)
From S2P Require Import Prelude Memory Utf8 BTree Devices Buddy Heap Pages Platform Fb KInit.

(** ** State *)

Inductive BootInfo :=
  | Multiboot2 (magic info_addr : Z)
  | DeviceTree (dtb_addr : Z)
  | Raw.

(** The platform tables and the cell [MB2_FB_TAG]. *)
Record bstate := mkBoot { plat : platform; fb_tag : option Mb2FbTag }.

Definition on_plat {A} (f : st platform A) : st bstate A := fun s =>
  match f (plat s) with
  | Ret (a, p) => Ret (a, mkBoot p (fb_tag s))
  | Panic => Panic
  | OutOfFuel => OutOfFuel
  end.

(** [set_mb2_fb_tag]: [call_once] keeps the first tag. *)
Definition set_mb2_fb_tag (tag : Mb2FbTag) : st bstate unit :=
  modify (fun s => mkBoot (plat s) (match fb_tag s with Some t => Some t | None => Some tag end)).

Definition load64 (m : mem) (a : Z) : Z := load32 m a + 2 ^ 32 * load32 m (a + 4).

Definition bytes_at (m : mem) (a : Z) (n : nat) : list Z := map (fun i => m (a + Z.of_nat i)) (seq 0 n).

(** ** Probing (probe.rs) *)

Section Probe.
Context `{Profile}.

Definition register_standard_pc_devices : st platform unit :=
  _ ← add_device (Platform.mkInfo "serial0" "16550a-uart" 0x3f8 8 (Some 4));
  _ ← add_device (Platform.mkInfo "timer" "i8254-pit" 0x40 4 (Some 0));
  _ ← add_device (Platform.mkInfo "pic" "i8259-pic" 0x20 2 None);
  _ ← add_device (Platform.mkInfo "vga" "vga-text" 0xb8000 0x8000 None);
  _ ← add_ram_region 0x100000 (127 * 1024 * 1024);
  add_mmio_region 0xa0000 0x60000.

Definition probe_x86 : st platform (result unit string) :=
  _ ← register_standard_pc_devices; mret (Ok tt).

(** [read_arm_cpu_id], of the main ID register [midr]. *)
Definition read_arm_cpu_id (midr : Z) : Z := Z.land (Z.shiftr midr 4) 0xfff.

Definition bcm2835 : st platform (result unit string) :=
  _ ← add_device (Platform.mkInfo "uart0" "arm,pl011" 0x20201000 0x1000 (Some 57));
  _ ← add_device (Platform.mkInfo "timer" "brcm,bcm2835-system-timer" 0x20003000 0x1000 (Some 1));
  _ ← add_device (Platform.mkInfo "intc" "brcm,bcm2835-armctrl-ic" 0x2000b200 0x200 None);
  _ ← add_ram_region 0 (512 * 1024 * 1024);
  _ ← add_mmio_region 0x20000000 0x1000000;
  mret (Ok tt).

Definition bcm2836 : st platform (result unit string) :=
  _ ← add_device (Platform.mkInfo "uart0" "arm,pl011" 0x3f201000 0x1000 (Some 57));
  _ ← add_device (Platform.mkInfo "timer" "arm,armv7-timer" 0 0 (Some 30));
  _ ← add_device (Platform.mkInfo "intc" "brcm,bcm2835-armctrl-ic" 0x3f00b200 0x200 None);
  _ ← add_ram_region 0 (1024 * 1024 * 1024);
  _ ← add_mmio_region 0x3f000000 0x1000000;
  mret (Ok tt).

Definition bcm2837 : st platform (result unit string) :=
  _ ← add_device (Platform.mkInfo "uart0" "arm,pl011" 0x3f201000 0x1000 (Some 57));
  _ ← add_device (Platform.mkInfo "timer" "arm,armv8-timer" 0 0 (Some 30));
  _ ← add_device (Platform.mkInfo "intc" "brcm,bcm2835-armctrl-ic" 0x3f00b200 0x200 None);
  _ ← add_ram_region 0 (1024 * 1024 * 1024);
  _ ← add_mmio_region 0x3f000000 0x1000000;
  mret (Ok tt).

Definition probe_arm (midr : Z) : st platform (result unit string) :=
  let cpu_id := read_arm_cpu_id midr in
  if cpu_id =? 0xb760 then bcm2835
  else if cpu_id =? 0xc070 then bcm2836
  else if cpu_id =? 0xd030 then bcm2837
  else mret (Err "unknown ARM CPU"%string).

(** ** Multiboot2 (multiboot2.rs) *)

Definition MB2_MAGIC : Z := 0x36d76289.

Section Parse.
Context (m : mem).

Fixpoint strlen (fuel : nat) (ptr len : Z) : outcome Z :=
  match fuel with
  | O => OutOfFuel
  | S fuel =>
      a ← add usize_bits ptr len;
      if m a =? 0 then Ret len else len ← add usize_bits len 1; strlen fuel ptr len
  end.

Definition parse_cmdline (fuel : nat) (tag_addr : Z) : st bstate unit :=
  ptr ← lift (add usize_bits tag_addr 8);
  len ← lift (strlen fuel ptr 0);
  match from_utf8 (bytes_at m ptr (Z.to_nat len)) with
  | Some s => on_plat (set_cmdline s)
  | None => mret tt
  end.

Definition entry_mem_type (entry_type : Z) : MemoryType :=
  if entry_type =? 1 then Available else if entry_type =? 3 then Mmio else Reserved.

Fixpoint entries_loop (fuel : nat) (entry entries_end entry_size : Z) : st bstate (result unit string) :=
  if entry <? entries_end then
    match fuel with
    | O => out_of_fuel
    | S fuel =>
        let base := wrap usize_bits (load64 m entry) in
        e8 ← lift (add usize_bits entry 8);
        let length := wrap usize_bits (load64 m e8) in
        e16 ← lift (add usize_bits entry 16);
        let entry_type := load32 m e16 in
        _ ← on_plat (add_memory_region (mkRegion base length (entry_mem_type entry_type)));
        entry ← lift (add usize_bits entry entry_size);
        entries_loop fuel entry entries_end entry_size
    end
  else mret (Ok tt).

Definition parse_memory_map (fuel : nat) (tag_addr : Z) : st bstate (result unit string) :=
  a8 ← lift (add usize_bits tag_addr 8);
  let entry_size := load32 m a8 in
  a12 ← lift (add usize_bits tag_addr 12);
  let entry_version := load32 m a12 in
  if negb (entry_version =? 0) then mret (Err "unsupported multiboot2 memory map version"%string)
  else
    a4 ← lift (add usize_bits tag_addr 4);
    let tag_size := load32 m a4 in
    entries_end ← lift (add usize_bits tag_addr tag_size);
    entry ← lift (add usize_bits tag_addr 16);
    entries_loop fuel entry entries_end entry_size.

Definition parse_framebuffer (tag_addr : Z) : st bstate unit :=
  a8 ← lift (add usize_bits tag_addr 8);
  let tag := parse_mb2_fb_tag m a8 in
  _ ← set_mb2_fb_tag tag;
  size ← lift (mul 32 (tpitch tag) (theight tag));
  on_plat (add_device (Platform.mkInfo "framebuffer" "multiboot2-fb" (wrap usize_bits (taddr tag)) size None)).

Fixpoint tags_loop (fuel : nat) (tag_addr end_addr : Z) : st bstate (result unit string) :=
  if tag_addr <? end_addr then
    match fuel with
    | O => out_of_fuel
    | S fuel' =>
        a ← lift (add usize_bits tag_addr 7);
        let tag_addr := Z.land a (lnot usize_bits 7) in
        let tag_type := load32 m tag_addr in
        a4 ← lift (add usize_bits tag_addr 4);
        let tag_size := load32 m a4 in
        if tag_type =? 0 then mret (Ok tt)
        else
          let? _ := (if tag_type =? 1 then _ ← parse_cmdline fuel tag_addr; mret (Ok tt)
                     else if tag_type =? 6 then parse_memory_map fuel tag_addr
                     else if tag_type =? 8 then _ ← parse_framebuffer tag_addr; mret (Ok tt)
                     else mret (Ok tt)) in
          next ← lift (add usize_bits tag_addr tag_size);
          tags_loop fuel' next end_addr
    end
  else mret (Ok tt).

Definition discover (fuel : nat) (magic info_addr : Z) : st bstate (result unit string) :=
  if negb (magic =? MB2_MAGIC) then mret (Err "invalid Multiboot2 magic"%string)
  else
    let total_size := load32 m info_addr in
    end_addr ← lift (add usize_bits info_addr total_size);
    tag_addr ← lift (add usize_bits info_addr 8);
    let? _ := tags_loop fuel tag_addr end_addr in
    _ ← on_plat register_standard_pc_devices;
    mret (Ok tt).
End Parse.

(** [device_tree::discover] without the feature. *)
Definition device_tree_discover (dtb_addr : Z) : result unit string :=
  Err "device tree support not enabled"%string.

(** ** [boot::init] (boot/mod.rs) *)

Definition detect_architecture (t : target) : Architecture :=
  match t with TargetX86 => X86 | TargetArm => Arm end.

Definition has_compat (p : platform) (s : string) : bool :=
  existsb (fun d => str_contains s (compatible d)) (devices_of p).

Definition determine_platform_name (t : target) (p : platform) : string :=
  if has_compat p "bcm2835" then "Broadcom BCM2835 (Raspberry Pi Zero/1)"
  else if has_compat p "bcm2836" then "Broadcom BCM2836 (Raspberry Pi 2)"
  else if has_compat p "bcm2837" then "Broadcom BCM2837 (Raspberry Pi 3)"
  else if has_compat p "bcm2711" then "Broadcom BCM2711 (Raspberry Pi 4)"
  else match detect_architecture t with
       | X86 | X86_64 => "Generic PC (x86)"
       | Arm | AArch64 => "ARM-based Platform"
       end.

Definition is_ok {A E} (r : result A E) : bool := match r with Ok _ => true | Err _ => false end.

Definition init (fuel : nat) (t : target) (midr : Z) (m : mem) (boot_info : BootInfo) : st bstate (result unit string) :=
  let? _ := on_plat begin_ in
  let arch := detect_architecture t in
  _ ← on_plat (set_arch arch);
  discovered ← (match boot_info with
                | Multiboot2 magic info_addr => r ← discover m fuel magic info_addr; mret (is_ok r)
                | DeviceTree dtb_addr => mret (is_ok (device_tree_discover dtb_addr))
                | Raw => mret false
                end);
  let? _ := (if (discovered : bool) then mret (Ok tt)
             else on_plat (match arch with
                           | X86 | X86_64 => probe_x86
                           | Arm | AArch64 => probe_arm midr
                           end)) in
  s ← Prelude.get;
  _ ← on_plat (set_platform_name (determine_platform_name t (plat s)));
  mret (Ok tt).
End Probe.

(** ** What the boot loader left ([determine_boot_info] of kcore/init.rs) *)

(** [Result::expect]. *)
Definition expect {A E} (r : result A E) : outcome A := match r with Ok a => Ret a | Err _ => Panic end.

Definition determine_boot_info (t : target) (m : mem) (machine_type atags_addr : Z) : BootInfo :=
  match t with
  | TargetX86 => if machine_type =? MB2_MAGIC then Multiboot2 machine_type atags_addr else Raw
  | TargetArm =>
      if negb (atags_addr =? 0) then
        if u32_of_be (m atags_addr) (m (atags_addr + 1)) (m (atags_addr + 2)) (m (atags_addr + 3)) =? 0xd00dfeed
        then DeviceTree atags_addr else Raw
      else Raw
  end.

(** ** Tables that grow

    Boot only appends to the tables, which drop what does not fit. *)
Section Grows.
Context `{Profile}.

Record grows (p p' : platform) (rs : list MemoryRegion) (ds : list DeviceInfo) : Prop := {
  gr_wf : tables_wf p';
  gr_regions : memory_regions p' = take 64 (memory_regions p ++ rs);
  gr_devices : devices_of p' = take 32 (devices_of p ++ ds);
  gr_arch : ARCH p' = ARCH p;
  gr_init : INITIALIZED p' = INITIALIZED p;
}.

Lemma regions_length p : tables_wf p -> Z.of_nat (length (memory_regions p)) = MEMORY_REGION_COUNT p.
Proof using.
  intros Hwf. pose proof (tw_rcount _ Hwf). pose proof (tw_regions _ Hwf). unfold memory_regions.
  rewrite length_take. lia.
Qed.

Lemma omap_all_some {A} (l : list (option A)) : (forall i, (i < length l)%nat -> exists d, l !! i = Some (Some d)) ->
  length (omap id l) = length l.
Proof using.
  induction l as [|x l IH]; intros Hs; [done|]. destruct (Hs 0%nat) as [d Hd]; [cbn; lia|]. cbn in Hd. injection Hd as ->.
  cbn. f_equal. apply IH. intros i Hi. apply (Hs (S i)). cbn. lia.
Qed.

Lemma devices_length p : tables_wf p -> Z.of_nat (length (devices_of p)) = DEVICE_COUNT p.
Proof using.
  intros Hwf. pose proof (tw_dcount _ Hwf). pose proof (tw_devices _ Hwf). unfold devices_of.
  rewrite omap_all_some.
  - rewrite length_take. lia.
  - intros i Hi. rewrite length_take in Hi. rewrite lookup_take_lt by lia. apply (tw_some _ Hwf). lia.
Qed.

Lemma grows_refl p : tables_wf p -> grows p p [] [].
Proof using.
  intros Hwf. pose proof (regions_length p Hwf). pose proof (devices_length p Hwf).
  pose proof (tw_rcount _ Hwf). pose proof (tw_dcount _ Hwf).
  split; try done; rewrite app_nil_r, take_ge by lia; done.
Qed.

Lemma take_app_take {A} n (l k r : list A) : take n (take n (l ++ k) ++ r) = take n (l ++ k ++ r).
Proof using.
  rewrite (app_assoc l k r). destruct (Nat.le_gt_cases n (length (l ++ k))).
  - rewrite (take_app_le (l ++ k)) by done. rewrite take_app_le by (rewrite length_take; lia).
    by rewrite take_take, Nat.min_id.
  - by rewrite (take_ge (l ++ k)) by lia.
Qed.

Lemma grows_trans p1 p2 p3 rs1 rs2 ds1 ds2 : grows p1 p2 rs1 ds1 -> grows p2 p3 rs2 ds2 ->
  grows p1 p3 (rs1 ++ rs2) (ds1 ++ ds2).
Proof using.
  intros [W1 R1 D1 A1 I1] [W2 R2 D2 A2 I2]. split; try done; try congruence.
  - by rewrite R2, R1, take_app_take.
  - by rewrite D2, D1, take_app_take.
Qed.

Lemma add_memory_region_fields r p p' : add_memory_region r p = Ret (tt, p') ->
  ARCH p' = ARCH p /\ INITIALIZED p' = INITIALIZED p /\ CMDLINE p' = CMDLINE p /\ PLATFORM_NAME p' = PLATFORM_NAME p.
Proof using.
  unfold add_memory_region. rewrite stbind_Ret. intros (q & s & [= <- <-] & E).
  destruct (_ <? _); [|by injection E as <-].
  apply stbind_Ret in E as (l & s & [_ ->]%lift_Ret & E). apply stbind_Ret in E as (n & s & [_ ->]%lift_Ret & E).
  by injection E as <-.
Qed.

Lemma add_device_fields d p p' : add_device d p = Ret (tt, p') ->
  ARCH p' = ARCH p /\ INITIALIZED p' = INITIALIZED p /\ CMDLINE p' = CMDLINE p /\ PLATFORM_NAME p' = PLATFORM_NAME p.
Proof using.
  unfold add_device. rewrite stbind_Ret. intros (q & s & [= <- <-] & E).
  destruct (_ <? _); [|by injection E as <-].
  apply stbind_Ret in E as (l & s & [_ ->]%lift_Ret & E). apply stbind_Ret in E as (n & s & [_ ->]%lift_Ret & E).
  by injection E as <-.
Qed.

Lemma add_region_grows p r : tables_wf p -> exists p', add_memory_region r p = Ret (tt, p') /\ grows p p' [r] [] /\
  CMDLINE p' = CMDLINE p.
Proof using.
  intros Hwf. destruct (add_memory_region_ok p r Hwf) as (p' & E & W & Dv & R).
  destruct (add_memory_region_fields _ _ _ E) as (F1 & F2 & F3 & _). exists p'. split; [done|]. split; [|done].
  pose proof (regions_length p Hwf). pose proof (devices_length p Hwf). pose proof (tw_dcount _ Hwf). pose proof (tw_rcount _ Hwf).
  split; try done.
  - rewrite R. destruct (Z.ltb_spec (MEMORY_REGION_COUNT p) 64).
    + rewrite take_ge; [done|]. rewrite length_app. cbn. lia.
    + rewrite take_app_le, take_ge by lia. done.
  - rewrite Dv, app_nil_r, take_ge by lia. done.
Qed.

Lemma add_device_grows p d : tables_wf p -> exists p', add_device d p = Ret (tt, p') /\ grows p p' [] [d] /\
  CMDLINE p' = CMDLINE p.
Proof using.
  intros Hwf. destruct (add_device_ok p d Hwf) as (p' & E & W & R & Dv).
  destruct (add_device_fields _ _ _ E) as (F1 & F2 & F3 & _). exists p'. split; [done|]. split; [|done].
  pose proof (regions_length p Hwf). pose proof (devices_length p Hwf). pose proof (tw_dcount _ Hwf). pose proof (tw_rcount _ Hwf).
  split; try done.
  - rewrite R, app_nil_r, take_ge by lia. done.
  - rewrite Dv. destruct (Z.ltb_spec (DEVICE_COUNT p) 32).
    + rewrite take_ge; [done|]. rewrite length_app. cbn. lia.
    + rewrite take_app_le, take_ge by lia. done.
Qed.

(** What every PC is taken to have. *)
Definition pc_regions : list MemoryRegion := [mkRegion 0x100000 0x7f00000 Available; mkRegion 0xa0000 0x60000 Mmio].
Definition pc_devices : list DeviceInfo :=
  [Platform.mkInfo "serial0" "16550a-uart" 0x3f8 8 (Some 4); Platform.mkInfo "timer" "i8254-pit" 0x40 4 (Some 0);
   Platform.mkInfo "pic" "i8259-pic" 0x20 2 None; Platform.mkInfo "vga" "vga-text" 0xb8000 0x8000 None].

Lemma standard_devices_grow p : tables_wf p -> exists p', register_standard_pc_devices p = Ret (tt, p') /\
  grows p p' pc_regions pc_devices /\ CMDLINE p' = CMDLINE p.
Proof using.
  intros Hwf. unfold register_standard_pc_devices, add_ram_region, add_mmio_region.
  destruct (add_device_grows p (Platform.mkInfo "serial0" "16550a-uart" 0x3f8 8 (Some 4)) Hwf) as (p1 & E1 & G1 & C1).
  destruct (add_device_grows p1 (Platform.mkInfo "timer" "i8254-pit" 0x40 4 (Some 0)) (gr_wf _ _ _ _ G1)) as (p2 & E2 & G2 & C2).
  destruct (add_device_grows p2 (Platform.mkInfo "pic" "i8259-pic" 0x20 2 None) (gr_wf _ _ _ _ G2)) as (p3 & E3 & G3 & C3).
  destruct (add_device_grows p3 (Platform.mkInfo "vga" "vga-text" 0xb8000 0x8000 None) (gr_wf _ _ _ _ G3)) as (p4 & E4 & G4 & C4).
  destruct (add_region_grows p4 (mkRegion 0x100000 (127 * 1024 * 1024) Available) (gr_wf _ _ _ _ G4)) as (p5 & E5 & G5 & C5).
  destruct (add_region_grows p5 (mkRegion 0xa0000 0x60000 Mmio) (gr_wf _ _ _ _ G5)) as (p6 & E6 & G6 & C6).
  exists p6. split.
  { do 5 (erewrite stbind_step by eassumption). exact E6. }
  split; [|congruence].
  pose proof (grows_trans _ _ _ _ _ _ _ G1 (grows_trans _ _ _ _ _ _ _ G2 (grows_trans _ _ _ _ _ _ _ G3
    (grows_trans _ _ _ _ _ _ _ G4 (grows_trans _ _ _ _ _ _ _ G5 G6))))) as G. exact G.
Qed.
End Grows.

(** ** Information structures

    The tags a boot loader leaves in memory, as the Multiboot2 protocol lays
    them out. *)
Inductive mb_tag :=
  | TagCmdline (s : list Z)
  | TagMemoryMap (entries : list (Z * Z * Z))   (* base, length, type *)
  | TagFramebuffer (tag : Mb2FbTag)
  | TagOther (ty : Z).

Section Layout.
Context (m : mem).

(** The tag at [a] with its size. *)
Inductive tag_at (a size : Z) : mb_tag -> Prop :=
  | at_cmdline s : load32 m a = 1 -> 8 + Z.of_nat (length s) < size ->
      bytes_at m (a + 8) (length s) = s -> Forall (fun b => b <> 0) s -> m (a + 8 + Z.of_nat (length s)) = 0 ->
      tag_at a size (TagCmdline s)
  | at_memory_map es esz : load32 m a = 6 -> load32 m (a + 8) = esz -> load32 m (a + 12) = 0 ->
      24 <= esz -> size = 16 + Z.of_nat (length es) * esz ->
      (forall i b n ty, es !! i = Some (b, n, ty) -> load64 m (a + 16 + Z.of_nat i * esz) = b /\
         load64 m (a + 16 + Z.of_nat i * esz + 8) = n /\ load32 m (a + 16 + Z.of_nat i * esz + 16) = ty) ->
      tag_at a size (TagMemoryMap es)
  | at_framebuffer tag : load32 m a = 8 -> parse_mb2_fb_tag m (a + 8) = tag ->
      0 <= tpitch tag * theight tag < 2 ^ 32 -> tag_at a size (TagFramebuffer tag)
  | at_other ty : load32 m a = ty -> ~ In ty [0; 1; 6; 8] -> tag_at a size (TagOther ty).

(** The next multiple of 8. *)
Definition align8 (a : Z) : Z := up 8 a.

(** The tags from [a] to a terminator or the end of the structure. *)
Inductive tags_at (end_ : Z) : Z -> list mb_tag -> Prop :=
  | tags_end a : end_ <= a -> tags_at end_ a []
  | tags_terminator a : a < end_ -> load32 m (align8 a) = 0 -> tags_at end_ a []
  | tags_cons a size t l : a < end_ -> load32 m (align8 a + 4) = size -> 8 <= size -> align8 a + size <= end_ ->
      tag_at (align8 a) size t -> tags_at end_ (align8 a + size) l -> tags_at end_ a (t :: l).

(** A structure at [info] below the end of memory. *)
Definition info_at (info : Z) (l : list mb_tag) : Prop :=
  0 <= info /\ 0 <= load32 m info /\ info + load32 m info + 32 < 2 ^ 32 /\
  tags_at (info + load32 m info) (info + 8) l.
End Layout.

(** What the tags say. *)
Definition region_of (e : Z * Z * Z) : MemoryRegion :=
  let '(b, n, ty) := e in mkRegion (wrap usize_bits b) (wrap usize_bits n) (entry_mem_type ty).

Definition fb_device (tag : Mb2FbTag) : DeviceInfo :=
  Platform.mkInfo "framebuffer" "multiboot2-fb" (wrap usize_bits (taddr tag)) (tpitch tag * theight tag) None.

Definition tag_regions (t : mb_tag) : list MemoryRegion :=
  match t with TagMemoryMap es => map region_of es | _ => [] end.
Definition tag_devices (t : mb_tag) : list DeviceInfo :=
  match t with TagFramebuffer tag => [fb_device tag] | _ => [] end.
Definition tag_cmdline (c : option string) (t : mb_tag) : option string :=
  match t with TagCmdline s => match from_utf8 s with Some c => Some c | None => c end | _ => c end.
Definition tag_fb (f : option Mb2FbTag) (t : mb_tag) : option Mb2FbTag :=
  match t, f with TagFramebuffer tag, None => Some tag | _, _ => f end.

Definition regions_of (l : list mb_tag) : list MemoryRegion := l ≫= tag_regions.
Definition fb_devices_of (l : list mb_tag) : list DeviceInfo := l ≫= tag_devices.

Section Parsing.
Context `{Profile} (m : mem).

(** The boot state grows by what the tags say. *)
Record bgrows (s s' : bstate) (l : list mb_tag) : Prop := {
  bg_tables : grows (plat s) (plat s') (regions_of l) (fb_devices_of l);
  bg_cmdline : CMDLINE (plat s') = foldl tag_cmdline (CMDLINE (plat s)) l;
  bg_fb : fb_tag s' = foldl tag_fb (fb_tag s) l;
}.

Lemma bgrows_refl s : tables_wf (plat s) -> bgrows s s [].
Proof using. intros Hwf. split; try done. by apply grows_refl. Qed.

Lemma bgrows_trans s1 s2 s3 l1 l2 : bgrows s1 s2 l1 -> bgrows s2 s3 l2 -> bgrows s1 s3 (l1 ++ l2).
Proof using.
  intros [G1 C1 F1] [G2 C2 F2]. split.
  - unfold regions_of, fb_devices_of. rewrite !bind_app. by eapply grows_trans.
  - by rewrite foldl_app, <- C1.
  - by rewrite foldl_app, <- F1.
Qed.

Lemma strlen_ok fuel : forall ptr s len, 0 <= ptr -> 0 <= len ->
  bytes_at m (ptr + len) (length s) = s -> Forall (fun b => b <> 0) s -> m (ptr + len + Z.of_nat (length s)) = 0 ->
  ptr + len + Z.of_nat (length s) + 1 < 2 ^ 32 -> Z.of_nat (length s) < Z.of_nat fuel ->
  strlen m fuel ptr len = Ret (len + Z.of_nat (length s)).
Proof using.
  induction fuel as [|fuel IH]; intros ptr s len Hp Hl Hs Hnz Hz Hb Hf; [lia|]. cbn [strlen].
  rewrite (add_ok usize_bits ptr len) by (unfold fits, usize_bits; lia). cbn [mbind outcome_bind].
  destruct s as [|b s].
  - cbn [length] in *. replace (ptr + len + Z.of_nat 0) with (ptr + len) in Hz by lia. rewrite Hz. cbn [Z.eqb].
    f_equal. lia.
  - unfold bytes_at in Hs. cbn [length seq map] in Hs. injection Hs as Eb Hs. inversion Hnz as [|? ? Hb0 Hnz']; subst.
    replace (ptr + len + Z.of_nat 0) with (ptr + len) in * by lia.
    destruct (Z.eqb_spec (m (ptr + len)) 0); [done|]. cbn [length] in *.
    rewrite add_ok by (unfold fits, usize_bits; lia). cbn [mbind outcome_bind].
    rewrite (IH ptr s (len + 1)); [f_equal; lia|lia|lia| |done| |lia|lia].
    + unfold bytes_at. etransitivity; [|exact Hs]. rewrite <- seq_shift, map_map. apply map_ext. intros i. f_equal. lia.
    + rewrite <- Hz. f_equal. lia.
Qed.

Lemma entries_ok esz es : forall fuel e s, 24 <= esz -> 0 <= e -> e + Z.of_nat (length es) * esz + 24 < 2 ^ 32 ->
  Z.of_nat (length es) < Z.of_nat fuel -> tables_wf (plat s) ->
  (forall i b n ty, es !! i = Some (b, n, ty) -> load64 m (e + Z.of_nat i * esz) = b /\
     load64 m (e + Z.of_nat i * esz + 8) = n /\ load32 m (e + Z.of_nat i * esz + 16) = ty) ->
  exists s', entries_loop m fuel e (e + Z.of_nat (length es) * esz) esz s = Ret (Ok tt, s') /\
    grows (plat s) (plat s') (map region_of es) [] /\ CMDLINE (plat s') = CMDLINE (plat s) /\ fb_tag s' = fb_tag s.
Proof using.
  induction es as [|[[b n] ty] es IH]; intros fuel e s Hesz He Hlim Hf Hwf Hes.
  { exists s. split; [|by split; [apply grows_refl|]]. destruct fuel; cbn [entries_loop length]; by rewrite (proj2 (Z.ltb_ge _ _)) by lia. }
  destruct fuel as [|fuel]; [cbn in Hf; lia|]. cbn [entries_loop length map] in *. rewrite (proj2 (Z.ltb_lt _ _)) by lia.
  destruct (Hes 0%nat b n ty eq_refl) as (Eb & En & Et). replace (e + Z.of_nat 0 * esz) with e in * by lia.
  destruct (add_region_grows (plat s) (region_of (b, n, ty)) Hwf) as (p1 & E1 & G1 & C1).
  destruct (IH fuel (e + esz) (mkBoot p1 (fb_tag s))) as (s' & E' & G' & C' & F'); try lia; [by apply (gr_wf _ _ _ _ G1)| |].
  { intros i b' n' ty' Hi. destruct (Hes (S i) b' n' ty' Hi) as (H1 & H2 & H3).
    replace (e + esz + Z.of_nat i * esz) with (e + Z.of_nat (S i) * esz) by lia. done. }
  exists s'. cbn [plat fb_tag] in *. split; [|split; [|split; congruence]].
  - erewrite stbind_step by (by rewrite add_ok by (unfold fits, usize_bits; lia)). cbv beta zeta.
    erewrite stbind_step by (by rewrite add_ok by (unfold fits, usize_bits; lia)). cbv beta zeta.
    rewrite Eb, En, Et. erewrite stbind_step by (unfold on_plat; unfold region_of in E1; by rewrite E1).
    erewrite stbind_step by (by rewrite add_ok by (unfold fits, usize_bits; lia)).
    rewrite <- E'. f_equal. lia.
  - eapply grows_trans in G'; [|exact G1]. exact G'.
Qed.
End Parsing.

Section Discovery.
Context `{Profile} (m : mem).

Lemma align_ok a : 0 <= a -> a + 7 < 2 ^ 32 -> Z.land (a + 7) (lnot usize_bits 7) = align8 a /\ a <= align8 a < a + 8.
Proof using.
  intros Ha Hb. pose proof (up_spec 8 a ltac:(lia)) as [Hu _]. split; [|exact Hu].
  etransitivity; [apply (land_lnot_mask usize_bits _ 3); unfold fits, usize_bits; lia|].
  unfold align8, up. change (2 ^ 3) with 8. by replace (a + 8 - 1) with (a + 7) by lia.
Qed.

(** What [tags_loop] does for a tag. *)
Definition parse_tag (fuel : nat) (a : Z) : st bstate (result unit string) :=
  let ty := load32 m a in
  if ty =? 1 then _ ← parse_cmdline m fuel a; mret (Ok tt)
  else if ty =? 6 then parse_memory_map m fuel a
  else if ty =? 8 then _ ← parse_framebuffer m a; mret (Ok tt)
  else mret (Ok tt).

Lemma parse_tag_ok fuel a size t s : tag_at m a size t -> 0 <= a -> a + size + 24 < 2 ^ 32 -> size < Z.of_nat fuel ->
  8 <= size -> load32 m (a + 4) = size -> tables_wf (plat s) ->
  exists s', parse_tag fuel a s = Ret (Ok tt, s') /\ bgrows s s' [t].
Proof using.
  intros Ht Ha Hlim Hf H8 Hsz Hwf. pose proof (grows_refl _ Hwf) as Gr. destruct Ht as [cs Ety Hsize Hb Hnz Hz|es esz Ety Eesz Ev Hesz Hsize Hes|tag Ety Etag Hpr|ty Ety Hty].
  - unfold parse_tag. rewrite Ety. cbn [Z.eqb Pos.eqb].
    assert (E : parse_cmdline m fuel a s = Ret (tt, mkBoot (match from_utf8 cs with Some c =>
        mkPlatform (MEMORY_REGIONS (plat s)) (MEMORY_REGION_COUNT (plat s)) (DEVICES (plat s)) (DEVICE_COUNT (plat s))
          (Some c) (PLATFORM_NAME (plat s)) (ARCH (plat s)) (INITIALIZED (plat s)) | None => plat s end) (fb_tag s))).
    { unfold parse_cmdline. erewrite stbind_step by (by rewrite add_ok by (unfold fits, usize_bits; lia)).
      erewrite stbind_step by (by rewrite (strlen_ok m fuel (a + 8) cs 0) by (rewrite ?Z.add_0_r; done || lia)).
      rewrite Z.add_0_l, Nat2Z.id, Hb. destruct (from_utf8 cs); [done|]. by destruct s. }
    eexists. split; [by erewrite stbind_step by exact E|].
    split; cbn [plat fb_tag regions_of fb_devices_of mbind list_bind tag_regions tag_devices app foldl tag_cmdline tag_fb].
    + destruct (from_utf8 cs); [|done]. destruct Gr as [[? ? ? ? ?] ? ? ? ?]. split; try done.
    + by destruct (from_utf8 cs).
    + done.
  - unfold parse_tag, parse_memory_map. rewrite Ety. cbn [Z.eqb Pos.eqb].
    destruct (entries_ok m esz es fuel (a + 16) s) as (s' & E & G & C & F); [done|lia|lia|nia|done|exact Hes|].
    exists s'. split.
    + erewrite stbind_step by (by rewrite add_ok by (unfold fits, usize_bits; lia)). cbv beta zeta.
      erewrite stbind_step by (by rewrite add_ok by (unfold fits, usize_bits; lia)). cbv beta zeta.
      rewrite Ev, Eesz. cbn [Z.eqb negb].
      erewrite stbind_step by (by rewrite add_ok by (unfold fits, usize_bits; lia)). cbv beta zeta. rewrite Hsz.
      erewrite stbind_step by (by rewrite add_ok by (unfold fits, usize_bits; lia)). cbv beta zeta.
      erewrite stbind_step by (by rewrite add_ok by (unfold fits, usize_bits; lia)). cbv beta zeta.
      rewrite <- E. f_equal. lia.
    + split; cbn; rewrite ?app_nil_r; done.
  - unfold parse_tag, parse_framebuffer. rewrite Ety. cbn [Z.eqb Pos.eqb].
    destruct (add_device_grows (plat s) (fb_device tag) Hwf) as (p' & E & G & C).
    eexists. split.
    + erewrite stbind_step; [done|]. erewrite stbind_step by (by rewrite add_ok by (unfold fits, usize_bits; lia)).
      cbv beta zeta. rewrite Etag. erewrite stbind_step by done.
      erewrite stbind_step by (by rewrite mul_ok by (unfold fits; lia)).
      unfold on_plat. cbn [plat fb_tag]. unfold fb_device in E. rewrite E. done.
    + split; cbn; [done|done|by destruct (fb_tag s)].
  - exists s. split; [|split; cbn; done]. unfold parse_tag. rewrite Ety.
    destruct (Z.eqb_spec ty 1), (Z.eqb_spec ty 6), (Z.eqb_spec ty 8); try done; subst; exfalso; apply Hty; cbn; auto.
Qed.

Lemma tag_type_nonzero a size t : tag_at m a size t -> load32 m a <> 0.
Proof using. intros [? ->|? ? ->|? ->|? -> Hty]; try done. intros ->. apply Hty. by left. Qed.

Lemma tags_loop_step fuel a end_ s : a < end_ -> 0 <= a -> a + 24 < 2 ^ 32 ->
  tags_loop m (S fuel) a end_ s =
    if load32 m (align8 a) =? 0 then Ret (Ok tt, s)
    else (let? _ := parse_tag (S fuel) (align8 a) in
          next ← lift (add usize_bits (align8 a) (load32 m (align8 a + 4)));
          tags_loop m fuel next end_) s.
Proof using.
  intros Hlt Ha Hlim. destruct (align_ok a Ha ltac:(lia)) as [Ea Hal]. cbn [tags_loop].
  rewrite (proj2 (Z.ltb_lt _ _)) by done. erewrite stbind_step by (by rewrite add_ok by (unfold fits, usize_bits; lia)).
  cbv beta zeta. rewrite Ea. erewrite stbind_step by (by rewrite add_ok by (unfold fits, usize_bits; lia)).
  cbv beta. by destruct (load32 m (align8 a) =? 0).
Qed.

Lemma tags_loop_ok end_ a l : tags_at m end_ a l -> forall fuel s, 0 <= a -> end_ + 24 < 2 ^ 32 ->
  end_ - a < Z.of_nat fuel -> tables_wf (plat s) ->
  exists s', tags_loop m fuel a end_ s = Ret (Ok tt, s') /\ bgrows s s' l.
Proof using.
  induction 1 as [a Hge|a Hlt Hz|a size t l Hlt Hsz H8 Hend Ht Hl IH]; intros fuel s Ha Hlim Hf Hwf.
  - exists s. split; [|by apply bgrows_refl]. destruct fuel; cbn [tags_loop]; by rewrite (proj2 (Z.ltb_ge _ _)) by lia.
  - exists s. split; [|by apply bgrows_refl]. destruct fuel as [|fuel]; [lia|].
    rewrite tags_loop_step by lia. by rewrite Hz.
  - destruct fuel as [|fuel]; [lia|]. destruct (align_ok a Ha ltac:(lia)) as [_ Hal].
    destruct (parse_tag_ok (S fuel) (align8 a) size t s Ht) as (s1 & E1 & G1); try done; try lia.
    destruct (IH fuel s1) as (s2 & E2 & G2); try lia; [apply (gr_wf _ _ _ _ (bg_tables _ _ _ G1))|].
    exists s2. split; [|by apply (bgrows_trans s s1 s2 [t] l)].
    rewrite tags_loop_step by lia. rewrite (proj2 (Z.eqb_neq _ _)) by (by eapply tag_type_nonzero).
    erewrite try_step by exact E1. rewrite Hsz.
    by erewrite stbind_step by (by rewrite add_ok by (unfold fits, usize_bits; lia)).
Qed.

Lemma discover_ok info l fuel s : info_at m info l -> load32 m info < Z.of_nat fuel -> tables_wf (plat s) ->
  exists s', discover m fuel MB2_MAGIC info s = Ret (Ok tt, s') /\
    grows (plat s) (plat s') (regions_of l ++ pc_regions) (fb_devices_of l ++ pc_devices) /\
    CMDLINE (plat s') = foldl tag_cmdline (CMDLINE (plat s)) l /\ fb_tag s' = foldl tag_fb (fb_tag s) l.
Proof using.
  intros (Hi & Hts & Hlim & Hl) Hf Hwf.
  destruct (tags_loop_ok _ _ _ Hl fuel s) as (s1 & E1 & [G1 C1 F1]); try lia; [done|].
  destruct (standard_devices_grow (plat s1) (gr_wf _ _ _ _ G1)) as (p2 & E2 & G2 & C2).
  exists (mkBoot p2 (fb_tag s1)). split; [|split; [by eapply grows_trans|split; [cbn [plat]; congruence|done]]].
  unfold discover. rewrite Z.eqb_refl. cbn [negb]. cbv zeta.
  erewrite stbind_step by (by rewrite add_ok by (unfold fits, usize_bits; lia)).
  erewrite stbind_step by (by rewrite add_ok by (unfold fits, usize_bits; lia)).
  erewrite try_step by exact E1. by erewrite stbind_step by (unfold on_plat; rewrite E2; done).
Qed.
End Discovery.

(** ** Whole boots *)

Section Boots.
Context `{Profile}.

(** The tables after the initialisation of a fresh platform: what discovery
    added, with the architecture and the name set. *)
Record booted (t : target) (s : bstate) (rs : list MemoryRegion) (ds : list DeviceInfo) : Prop := {
  bt_wf : tables_wf (plat s);
  bt_regions : memory_regions (plat s) = take 64 rs;
  bt_devices : devices_of (plat s) = take 32 ds;
  bt_arch : ARCH (plat s) = detect_architecture t;
  bt_name : PLATFORM_NAME (plat s) = determine_platform_name t (plat s);
}.

Definition started (t : target) : platform :=
  mkPlatform (MEMORY_REGIONS fresh) 0 (DEVICES fresh) 0 None "Unknown" (detect_architecture t) true.

Lemma started_wf t : tables_wf (started t).
Proof using. destruct fresh_wf. by split. Qed.

(** The end of [init]: naming the platform. *)
Definition named (t : target) (s : bstate) : bstate :=
  let p := plat s in
  mkBoot (mkPlatform (MEMORY_REGIONS p) (MEMORY_REGION_COUNT p) (DEVICES p) (DEVICE_COUNT p)
            (CMDLINE p) (determine_platform_name t p) (ARCH p) (INITIALIZED p)) (fb_tag s).

Lemma named_booted t s rs ds : grows (started t) (plat s) rs ds -> booted t (named t s) rs ds.
Proof using. intros [[W1 W2 W3 W4 W5] R D A I]. split; try done. Qed.

Lemma init_multiboot info l fuel t midr m : info_at m info l -> load32 m info < Z.of_nat fuel -> exists s,
  init fuel t midr m (Multiboot2 MB2_MAGIC info) (mkBoot fresh None) = Ret (Ok tt, s) /\
  booted t s (regions_of l ++ pc_regions) (fb_devices_of l ++ pc_devices) /\
  CMDLINE (plat s) = foldl tag_cmdline None l /\ fb_tag s = foldl tag_fb None l.
Proof using.
  intros Hi Hf. destruct (discover_ok m info l fuel (mkBoot (started t) None) Hi Hf (started_wf t)) as (s & E & G & C & F).
  exists (named t s). split; [|by split; [apply named_booted|]].
  unfold init. erewrite try_step by done. erewrite stbind_step by done. cbv beta zeta.
  erewrite stbind_step; [|erewrite stbind_step by exact E; done].
  by erewrite try_step by done.
Qed.

Lemma init_raw_x86 fuel midr m : exists s,
  init fuel TargetX86 midr m Raw (mkBoot fresh None) = Ret (Ok tt, s) /\ booted TargetX86 s pc_regions pc_devices.
Proof using.
  destruct (standard_devices_grow (started TargetX86) (started_wf _)) as (p & E & G & _).
  exists (named TargetX86 (mkBoot p None)). split; [|by apply named_booted].
  unfold init. erewrite try_step by done. erewrite stbind_step by done. cbv beta zeta.
  erewrite stbind_step by done. cbv beta iota. erewrite try_step; [done|].
  unfold on_plat. cbn [plat fb_tag detect_architecture]. unfold probe_x86. by erewrite stbind_step by exact E.
Qed.

(** No part number fits in the twelve bits the driver keeps. *)
Lemma probe_arm_fails midr p : 0 <= midr -> probe_arm midr p = Ret (Err "unknown ARM CPU"%string, p).
Proof using.
  intros Hm. unfold probe_arm, read_arm_cpu_id.
  assert (Hb : Z.land (Z.shiftr midr 4) 0xfff = (midr / 2 ^ 4) mod 2 ^ 12) by (apply (land_field midr 4 12); lia).
  pose proof (Z.mod_pos_bound (midr / 2 ^ 4) (2 ^ 12) ltac:(lia)). rewrite Hb.
  by rewrite !(proj2 (Z.eqb_neq _ _)) by lia.
Qed.

Lemma init_arm_fails fuel midr m bi : 0 <= midr -> (forall a b, bi <> Multiboot2 a b) ->
  exists s, init fuel TargetArm midr m bi (mkBoot fresh None) = Ret (Err "unknown ARM CPU"%string, s).
Proof using.
  intros Hm Hb. eexists. unfold init. erewrite try_step by done. erewrite stbind_step by done. cbv beta zeta.
  destruct bi as [a b|a|]; [by destruct (Hb a b)| |]; (erewrite stbind_step by done; cbv beta iota;
    erewrite try_err; [done|]; cbn [is_ok device_tree_discover detect_architecture]; unfold on_plat; rewrite probe_arm_fails by done; done).
Qed.

(** *** Memory maps *)

Lemma of_type_app t l k : of_type t (l ++ k) = of_type t l ++ of_type t k.
Proof using. apply filter_app. Qed.

Lemma max_by_size_last l x : Forall (fun r => size r <= size x) l -> max_by_size None (l ++ [x]) = Some x.
Proof using.
  intros Hl. assert (Hg : forall best, (forall b, best = Some b -> size b <= size x) -> max_by_size best (l ++ [x]) = Some x).
  { induction Hl as [|r l Hr Hl IH]; intros best Hb; cbn [app max_by_size].
    - destruct best as [b|]; [|done]. by rewrite (proj2 (Z.leb_le _ _)) by (by apply Hb).
    - apply IH. intros b. destruct best as [b'|]; [destruct (_ <=? _); intros [= <-]; auto|]. by intros [= <-]. }
  by apply Hg.
Qed.

Lemma ends_of_fuel l : ends_of l <> OutOfFuel.
Proof using.
  induction l as [|x l IH]; [done|]. cbn [ends_of]. unfold add, arith.
  destruct (_ && _); [|destruct debug_assertions]; cbn [mbind outcome_bind]; try done; destruct (ends_of l); done.
Qed.

Lemma memory_map_fuel p : memory_map p <> OutOfFuel.
Proof using.
  unfold memory_map. destruct (max_by_size None _) as [r|]; [|done].
  pose proof (ends_of_fuel (of_type Mmio (memory_regions p))). destruct (ends_of _) as [es| |]; cbn [mbind outcome_bind]; try done.
  by destruct (match min_of _ with Some _ => _ | None => _ end).
Qed.

Lemma memory_map_ram p mm : memory_map p = Ret mm -> exists r,
  max_by_size None (of_type Available (memory_regions p)) = Some r /\ ram_start mm = base r /\ ram_size mm = size r.
Proof using.
  unfold memory_map. destruct (max_by_size None _) as [r|]; [|done].
  destruct (ends_of _) as [es| |]; cbn [mbind outcome_bind]; [|done|done].
  destruct (match min_of _ with Some _ => _ | None => _ end) as [pb ps]. intros [= <-]. by exists r.
Qed.

Lemma ends_of_Ret l : forall es, ends_of l = Ret es -> Forall (fits usize_bits) es /\
  forall r, r ∈ l -> fits usize_bits (base r + size r) -> base r + size r ∈ es.
Proof using.
  induction l as [|x l IH]; intros es; cbn [ends_of]; [intros [= <-]; split; [done|set_solver]|].
  rewrite obind_Ret. intros (e & Ee & E). apply obind_Ret in E as (es' & E' & [= <-]).
  destruct (IH es' E') as [Hf He]. split.
  - constructor; [|done]. eapply arith_fits; [|exact Ee]. unfold usize_bits. lia.
  - intros r [->|Hr]%elem_of_cons Hr'; [|right; by apply He].
    rewrite add_ok in Ee by done. injection Ee as <-. by left.
Qed.

(** The peripheral window reaches from every MMIO region's start to every
    MMIO region's end that is below 2^32. *)
Lemma memory_map_window p mm r1 r2 : memory_map p = Ret mm -> r1 ∈ of_type Mmio (memory_regions p) ->
  r2 ∈ of_type Mmio (memory_regions p) -> fits usize_bits (base r2 + size r2) -> base r1 < base r2 + size r2 ->
  peripheral_base mm <= base r1 /\ base r2 + size r2 <= peripheral_base mm + peripheral_size mm < 2 ^ 32.
Proof using.
  intros E H1 H2 Hf Hlt. unfold memory_map in E. destruct (max_by_size None _) as [ram|]; [|done].
  destruct (ends_of _) as [es| |] eqn:Ees; cbn [mbind outcome_bind] in E; [|done|done].
  destruct (ends_of_Ret _ _ Ees) as [Hfe Hin]. specialize (Hin r2 H2 Hf).
  set (l := of_type Mmio (memory_regions p)) in *. assert (Hb : base r1 ∈ map base l) by (by apply (list_elem_of_fmap_2 base)).
  destruct (map base l) as [|b bs] eqn:Eb; [set_solver|]. destruct es as [|e es]; [set_solver|].
  cbn [min_of max_of] in E. injection E as <-. cbn [peripheral_base peripheral_size].
  destruct (foldl_min_le bs b) as [m1 m2]. destruct (foldl_max_ge es e) as [x1 x2].
  assert (foldl Z.min b bs <= base r1) by (apply elem_of_cons in Hb as [->|Hb]; [done|by apply m2]).
  assert (base r2 + size r2 <= foldl Z.max e es) by (apply elem_of_cons in Hin as [<-|Hin]; [done|by apply x2]).
  assert (foldl Z.max e es < 2 ^ 32).
  { assert (Hmx : forall l a, a < 2 ^ 32 -> Forall (fits usize_bits) l -> foldl Z.max a l < 2 ^ 32).
    { clear. induction l as [|y l IH]; intros a Ha Hl; [done|]. inversion Hl as [|? ? Hy Hl']; subst.
      apply IH; [unfold fits, usize_bits in Hy; lia|done]. }
    inversion Hfe as [|? ? Hy Hl']; subst. apply Hmx; [unfold fits, usize_bits in Hy; lia|done]. }
  unfold saturating_sub. lia.
Qed.

Lemma memory_map_base p mm : memory_map p = Ret mm -> Forall (fun r => 0 <= base r) (memory_regions p) ->
  0 <= peripheral_base mm.
Proof using.
  intros E Hf. assert (Hl : Forall (fun z => 0 <= z) (map base (of_type Mmio (memory_regions p)))).
  { apply Forall_fmap, Forall_forall. intros r [_ Hr]%list_elem_of_filter. by eapply Forall_forall in Hf. }
  unfold memory_map in E. destruct (max_by_size None _) as [ram|]; [|done].
  destruct (ends_of _) as [es| |]; cbn [mbind outcome_bind] in E; [|done|done].
  assert (Hm : forall l a, 0 <= a -> Forall (fun z => 0 <= z) l -> 0 <= foldl Z.min a l).
  { clear. induction l as [|y l IH]; intros a Ha Hl; [done|]. inversion Hl; subst. apply IH; [lia|done]. }
  destruct (map base _) as [|b bs]; cbn [min_of] in E; [by injection E as <-|].
  inversion Hl; subst. destruct es; cbn [max_of] in E; injection E as <-; cbn; [done|by apply Hm].
Qed.

Lemma regions_of_nonneg l : Forall (fun r => 0 <= base r) (regions_of l ++ pc_regions).
Proof using.
  apply Forall_app. split; [|repeat constructor; done]. apply Forall_forall. intros r (t & Ht & _)%list_elem_of_bind.
  destruct t; cbn in Ht; try set_solver. apply list_elem_of_fmap in Ht as ([[b n] ty] & -> & _). cbn.
  apply Z.mod_pos_bound. unfold usize_bits. lia.
Qed.

(** A window over the end of the kernel stops the memory set-up. *)
Lemma setup_in_window mm symbol s : peripheral_base mm <= 0x100000 -> 0 <= peripheral_base mm ->
  0x6400000 < peripheral_base mm + peripheral_size mm < 2 ^ 32 ->
  setup_memory_management TargetX86 mm symbol s = Panic.
Proof using.
  intros Hb H0 He. unfold setup_memory_management.
  assert (Hk : 0x100000 < get_kernel_end_address TargetX86 symbol < 0x6400000).
  { unfold get_kernel_end_address. destruct (Z.ltb_spec 0x100000 symbol), (Z.ltb_spec symbol 0x6400000); cbn [andb]; lia. }
  set (k := get_kernel_end_address TargetX86 symbol) in *. destruct (up_spec 4096 k) as [Hu Hd]; [lia|].
  assert (Hu' : up 4096 k <= 0x6400000).
  { apply Z.lt_succ_r. destruct Hd as [q Hq]. rewrite Hq in *. assert (q < 25601) by lia. lia. }
  erewrite stbind_step by (by rewrite round_page_ok by lia). cbv beta.
  unfold mbind at 1, st_bind at 1. destruct (lift (add usize_bits _ _) s) as [[re s1]| |] eqn:Er; [| done|].
  2: { unfold lift, add, arith in Er. destruct (_ && _); [|destruct debug_assertions]; done. }
  unfold mbind at 1, st_bind at 1, rassert. destruct (_ && _); [|done]. cbn [lift].
  unfold mbind at 1, st_bind at 1, assert_outside. rewrite (proj2 (Z.ltb_lt _ _)) by lia.
  rewrite add_ok by (unfold fits, usize_bits; lia). cbn [mbind outcome_bind]. unfold rassert.
  by rewrite (proj2 (Z.ltb_ge _ _)), (proj2 (Z.leb_gt _ _)) by lia.
Qed.

(** The layout asked of a PC without boot loader information. *)
Definition pc_map : MemoryMap := mkMemoryMap 0x100000 0x7f00000 0xa0000 0x60000.

Lemma pc_boot_ok symbol : boot_ok TargetX86 pc_map (get_kernel_end_address TargetX86 symbol).
Proof using.
  assert (Hk : 0x100000 < get_kernel_end_address TargetX86 symbol < 0x6400000).
  { unfold get_kernel_end_address. destruct (Z.ltb_spec 0x100000 symbol), (Z.ltb_spec symbol 0x6400000); cbn [andb]; lia. }
  set (k := get_kernel_end_address TargetX86 symbol) in *. destruct (up_spec 4096 k) as [Hu _]; [lia|].
  destruct (up_spec 4096 (up 4096 k)) as [Ht _]; [lia|].
  split; cbn [pc_map ram_start ram_size peripheral_base peripheral_size]; try lia; unfold usable_end, after_table, table_start;
    cbn [pc_map ram_start ram_size peripheral_base peripheral_size table_size]; change (4 * 1024) with 4096; try lia.
  rewrite (proj2 (Z.leb_gt _ 0xa0000)) by lia. cbn [andb Z.ltb Z.compare]. lia.
Qed.

Lemma pc_memory_map p : memory_regions p = pc_regions -> memory_map p = Ret pc_map.
Proof using. unfold memory_map. by intros ->. Qed.

End Boots.

(** ** Theorems *)

Section Claims.
Context `{Profile}.

(** From a Multiboot2 structure [init] terminates and fills the tables with
    what the tags say, in their order and up to the tables' sizes: the memory
    regions with addresses cut to 32 bits followed by the standard ones of a
    PC, the framebuffers and standard devices, the last command line that is
    UTF-8 and the first framebuffer tag. *)
Theorem multiboot_platform info l fuel midr m : info_at m info l -> load32 m info < Z.of_nat fuel -> exists s,
  init fuel TargetX86 midr m (Multiboot2 MB2_MAGIC info) (mkBoot fresh None) = Ret (Ok tt, s) /\
  memory_regions (plat s) = take 64 (regions_of l ++ pc_regions) /\
  devices_of (plat s) = take 32 (fb_devices_of l ++ pc_devices) /\
  CMDLINE (plat s) = foldl tag_cmdline None l /\ fb_tag s = foldl tag_fb None l /\
  ARCH (plat s) = X86 /\ tables_wf (plat s).
Proof.
  intros Hi Hf. destruct (init_multiboot info l fuel TargetX86 midr m Hi Hf) as (s & E & B & C & F).
  exists s. split; [done|]. destruct B. by split_and!.
Qed.

(** the region assumed for every PC is added although the boot loader has
    reported the memory: when all it reported is smaller than 127 MiB, the
    memory map promises 127 MiB from 1 MiB on, memory the machine lacks. *)
Theorem multiboot_small_memory info l fuel midr m s mm : info_at m info l -> load32 m info < Z.of_nat fuel ->
  (length (regions_of l) <= 62)%nat -> Forall (fun r => size r < 0x7f00000) (of_type Available (regions_of l)) ->
  init fuel TargetX86 midr m (Multiboot2 MB2_MAGIC info) (mkBoot fresh None) = Ret (Ok tt, s) ->
  memory_map (plat s) = Ret mm -> ram_start mm = 0x100000 /\ ram_size mm = 0x7f00000.
Proof.
  intros Hi Hf Hn Hs E Em. destruct (init_multiboot info l fuel TargetX86 midr m Hi Hf) as (s' & E' & B & _).
  rewrite E in E'. injection E' as <-. destruct (memory_map_ram _ _ Em) as (r & Er & -> & ->).
  rewrite (bt_regions _ _ _ _ B), take_ge in Er by (rewrite length_app; cbn; lia).
  rewrite of_type_app in Er. change (of_type Available pc_regions) with [mkRegion 0x100000 0x7f00000 Available] in Er.
  rewrite max_by_size_last in Er; [by injection Er as <-|]. eapply Forall_impl; [exact Hs|]. cbn. lia.
Qed.

End Claims.

(** ** Witnesses *)

#[local] Instance debug_profile : Profile := Build_Profile true.

(** A structure at 0x9000 with a command line, a memory map of a 64 MiB
    machine with ACPI memory and the BIOS, and a terminator. *)
Definition le32 (v : Z) : list Z := le_bytes32 v.
Definition demo_entry (b n ty : Z) : list Z := le32 b ++ le32 0 ++ le32 n ++ le32 0 ++ le32 ty ++ le32 0.
Definition demo_info : list Z :=
  le32 (8 + 16 + 88 + 8) ++ le32 0 ++
  le32 1 ++ le32 10 ++ [103; 0; 0; 0; 0; 0; 0; 0] ++
  le32 6 ++ le32 88 ++ le32 24 ++ le32 0 ++
  demo_entry 0x100000 0x3f00000 1 ++ demo_entry 0x7fe0000 0x20000 3 ++ demo_entry 0xfffc0000 0x40000 2 ++
  le32 0 ++ le32 8.

Definition demo_mem : mem := fun a => if a <? 0x9000 then 0 else demo_info !!! Z.to_nat (a - 0x9000).

Definition demo_tags : list mb_tag :=
  [TagCmdline [103];
   TagMemoryMap [(0x100000, 0x3f00000, 1); (0x7fe0000, 0x20000, 3); (0xfffc0000, 0x40000, 2)]].

Lemma demo_info_at : info_at demo_mem 0x9000 demo_tags.
Proof.
  split; [lia|]. split; [by vm_compute|]. split; [by vm_compute|]. unfold demo_tags.
  apply (tags_cons _ _ _ 10); [by vm_compute|by vm_compute|lia|by vm_compute| |].
  { apply at_cmdline; [by vm_compute|cbn; lia|by vm_compute|by repeat constructor|by vm_compute]. }
  apply (tags_cons _ _ _ 88); [by vm_compute|by vm_compute|lia|by vm_compute| |].
  { apply (at_memory_map _ _ _ _ 24); [by vm_compute|by vm_compute|by vm_compute|lia|by vm_compute|].
    intros i b n ty Hi. destruct i as [|[|[|i]]]; cbn in Hi; try injection Hi as <- <- <-; [by vm_compute..|done]. }
  apply tags_terminator; by vm_compute.
Qed.

Lemma multiboot_platform_witness : exists s,
  init 121 TargetX86 0 demo_mem (Multiboot2 MB2_MAGIC 0x9000) (mkBoot fresh None) = Ret (Ok tt, s) /\
  CMDLINE (plat s) = Some "g"%string.
Proof.
  destruct (multiboot_platform 0x9000 demo_tags 121 0 demo_mem demo_info_at) as (s & E & _ & _ & C & _); [by vm_compute|].
  exists s. split; [exact E|exact C].
Defined.

Lemma multiboot_small_memory_witness : exists s mm,
  init 121 TargetX86 0 demo_mem (Multiboot2 MB2_MAGIC 0x9000) (mkBoot fresh None) = Ret (Ok tt, s) /\
  memory_map (plat s) = Ret mm /\ ram_start mm = 0x100000 /\ ram_size mm = 0x7f00000.
Proof.
  destruct (init_multiboot 0x9000 demo_tags 121 TargetX86 0 demo_mem demo_info_at) as (s & E & B & _); [by vm_compute|].
  assert (Em : memory_map (plat s) = Ret (mkMemoryMap 0x100000 0x7f00000 0xa0000 0x7f60000)).
  { unfold memory_map. rewrite (bt_regions _ _ _ _ B). reflexivity. }
  exists s, (mkMemoryMap 0x100000 0x7f00000 0xa0000 0x7f60000). split; [exact E|]. split; [exact Em|].
  apply (multiboot_small_memory 0x9000 demo_tags 121 0 demo_mem s _ demo_info_at); [by vm_compute|cbn; lia| |exact E|exact Em].
  by repeat constructor.
Defined.
