(* ===== verification/Gpio.v ===== *)
(** * GPIO pins

    The GPIO traits (drivers/src/hal/gpio.rs) and the BCM2835 controller
    (drivers/src/peripheral/bcm2835/gpio.rs): pin functions, levels, pull
    resistors and event detection, as accesses to the registers of a device
    [D].  [delay_cycles] only spends time. *)
From S2P Require Import Prelude Mmio.

(** ** The HAL *)

Inductive PinLevel := Low | High.
Inductive PullMode := PullNone | PullUp | PullDown.
Inductive EdgeDetect := EdgeRising | EdgeFalling | EdgeBoth.
Inductive LevelDetect := LevelHigh | LevelLow.

#[export] Instance pin_level_eq_dec : EqDecision PinLevel.
Proof. solve_decision. Defined.

Definition level_of_bool (b : bool) : PinLevel := if b then High else Low.
Definition bool_of_level (l : PinLevel) : bool := match l with High => true | Low => false end.

(** [if level == High { Low } else { High }]. *)
Definition flip (l : PinLevel) : PinLevel := if decide (l = High) then Low else High.

Class GpioController (S Pin E : Type) := {
  gset_pull : Pin -> PullMode -> st S (result unit E);
  set_high : Pin -> st S (result unit E);
  set_low : Pin -> st S (result unit E);
  gread : Pin -> st S (result PinLevel E);
}.

Section Provided.
Context {S Pin E : Type} `{GpioController S Pin E}.

Definition set_level (pin : Pin) (l : PinLevel) : st S (result unit E) :=
  match l with High => set_high pin | Low => set_low pin end.

Definition toggle (pin : Pin) : st S (result unit E) :=
  let? l := gread pin in set_level pin (flip l).
End Provided.

(** Single pins. *)
Class InputPin (S E : Type) := { in_read : st S (result PinLevel E) }.
Class OutputPin (S E : Type) := { out_high : st S (result unit E); out_low : st S (result unit E) }.
Class StatefulOutputPin (S E : Type) := { out_pin :: OutputPin S E; out_read : st S (result PinLevel E) }.

Section Pins.
Context {S E : Type}.

Definition is_level (l : PinLevel) (r : st S (result PinLevel E)) : st S (result bool E) :=
  let? x := r in mret (Ok (bool_decide (x = l))).

Definition is_high `{InputPin S E} : st S (result bool E) := is_level High in_read.
Definition is_low `{InputPin S E} : st S (result bool E) := is_level Low in_read.

Definition out_level `{OutputPin S E} (l : PinLevel) : st S (result unit E) :=
  match l with High => out_high | Low => out_low end.
Definition set_state `{OutputPin S E} (b : bool) : st S (result unit E) := out_level (level_of_bool b).

Definition out_toggle `{StatefulOutputPin S E} : st S (result unit E) :=
  let? l := out_read in out_level (flip l).
Definition is_set_high `{StatefulOutputPin S E} : st S (result bool E) := is_level High out_read.
Definition is_set_low `{StatefulOutputPin S E} : st S (result bool E) := is_level Low out_read.
End Pins.

(** ** The BCM2835 controller *)

Inductive GpioError := InvalidPin | InvalidFunction.

Definition GPIO_BASE : Z := 0x20200000.

Inductive Function_ := Input | Output | Alt0 | Alt1 | Alt2 | Alt3 | Alt4 | Alt5.

Definition function_code (f : Function_) : Z :=
  match f with
  | Input => 0 | Output => 1 | Alt0 => 4 | Alt1 => 5 | Alt2 => 6 | Alt3 => 7 | Alt4 => 3 | Alt5 => 2
  end.

Inductive Pull := Off | Down | Up.
Definition pull_code (p : Pull) : Z := match p with Off => 0 | Down => 1 | Up => 2 end.
Definition pull_of_mode (m : PullMode) : Pull :=
  match m with PullNone => Off | PullUp => Up | PullDown => Down end.

Inductive Event := Rising | Falling | EvHigh | EvLow | AsyncRising | AsyncFalling.

#[export] Instance event_eq_dec : EqDecision Event.
Proof. solve_decision. Defined.

(** The fields of [Registers], at their offsets. *)
Definition gpfsel (i : Z) : Z := GPIO_BASE + 4 * i.
Definition gpset (i : Z) : Z := GPIO_BASE + 0x1c + 4 * i.
Definition gpclr (i : Z) : Z := GPIO_BASE + 0x28 + 4 * i.
Definition gplev (i : Z) : Z := GPIO_BASE + 0x34 + 4 * i.
Definition gped (i : Z) : Z := GPIO_BASE + 0x40 + 4 * i.
Definition gppud : Z := GPIO_BASE + 0x94.
Definition gppudclk (i : Z) : Z := GPIO_BASE + 0x98 + 4 * i.
Definition event_reg (e : Event) (i : Z) : Z :=
  GPIO_BASE + 4 * i +
  match e with
  | Rising => 0x4c | Falling => 0x58 | EvHigh => 0x64 | EvLow => 0x70 | AsyncRising => 0x7c | AsyncFalling => 0x88
  end.

Definition check_pin (pin : Z) : result unit GpioError := if pin <=? 53 then Ok tt else Err InvalidPin.

Definition pin_reg (pin : Z) : Z := pin / 32.
Definition pin_bit (pin : Z) : Z := Z.shiftl 1 (pin mod 32).

Section Driver.
Context {D : Type} `{Mmio D}.

Definition set_function (pin : Z) (func : Function_) : st D (result unit GpioError) :=
  let? _ := mret (check_pin pin) in
  let reg := pin / 10 in
  let shift := (pin mod 10) * 3 in
  let mask := Z.shiftl 7 shift in
  val ← read_volatile (gpfsel reg);
  let val := Z.lor (Z.land val (lnot 32 mask)) (Z.shiftl (function_code func) shift) in
  _ ← write_volatile (gpfsel reg) val;
  mret (Ok tt).

Definition set (pin : Z) : st D (result unit GpioError) :=
  let? _ := mret (check_pin pin) in
  _ ← write_volatile (gpset (pin_reg pin)) (pin_bit pin); mret (Ok tt).

Definition clear (pin : Z) : st D (result unit GpioError) :=
  let? _ := mret (check_pin pin) in
  _ ← write_volatile (gpclr (pin_reg pin)) (pin_bit pin); mret (Ok tt).

Definition level (pin : Z) : st D (result PinLevel GpioError) :=
  let? _ := mret (check_pin pin) in
  val ← read_volatile (gplev (pin_reg pin));
  mret (Ok (if negb (Z.land val (pin_bit pin) =? 0) then High else Low)).

Definition set_pull (pin : Z) (pull : Pull) : st D (result unit GpioError) :=
  let? _ := mret (check_pin pin) in
  _ ← write_volatile gppud (pull_code pull);
  _ ← write_volatile (gppudclk (pin_reg pin)) (pin_bit pin);
  _ ← write_volatile gppud 0;
  _ ← write_volatile (gppudclk (pin_reg pin)) 0;
  mret (Ok tt).

Definition event_status (pin : Z) : st D (result bool GpioError) :=
  let? _ := mret (check_pin pin) in
  val ← read_volatile (gped (pin_reg pin));
  mret (Ok (negb (Z.land val (pin_bit pin) =? 0))).

Definition clear_event (pin : Z) : st D (result unit GpioError) :=
  let? _ := mret (check_pin pin) in
  _ ← write_volatile (gped (pin_reg pin)) (pin_bit pin); mret (Ok tt).

Definition configure_event_detect (pin : Z) (event : Event) (enable : bool) : st D (result unit GpioError) :=
  let? _ := mret (check_pin pin) in
  let reg_ptr := event_reg event (pin_reg pin) in
  val ← read_volatile reg_ptr;
  let val := if enable then Z.lor val (pin_bit pin) else Z.land val (lnot 32 (pin_bit pin)) in
  _ ← write_volatile reg_ptr val;
  mret (Ok tt).

(** [impl Bcm2835Gpio]. *)
Definition set_alt_function (pin alt : Z) : st D (result unit GpioError) :=
  match alt with
  | 0 => set_function pin Alt0
  | 1 => set_function pin Alt1
  | 2 => set_function pin Alt2
  | 3 => set_function pin Alt3
  | 4 => set_function pin Alt4
  | 5 => set_function pin Alt5
  | _ => mret (Err InvalidFunction)
  end.

Definition set_input (pin : Z) : st D (result unit GpioError) := set_function pin Input.
Definition set_output (pin : Z) : st D (result unit GpioError) := set_function pin Output.

#[export] Instance bcm2835_gpio : GpioController D Z GpioError := {
  gset_pull pin mode := set_pull pin (pull_of_mode mode);
  set_high := set;
  set_low := clear;
  gread := level;
}.

Definition enable_edge_detect (pin : Z) (edge : EdgeDetect) : st D (result unit GpioError) :=
  match edge with
  | EdgeRising => configure_event_detect pin Rising true
  | EdgeFalling => configure_event_detect pin Falling true
  | EdgeBoth =>
      let? _ := configure_event_detect pin Rising true in
      configure_event_detect pin Falling true
  end.

Definition disable_edge_detect (pin : Z) : st D (result unit GpioError) :=
  let? _ := configure_event_detect pin Rising false in
  configure_event_detect pin Falling false.

Definition enable_level_detect (pin : Z) (l : LevelDetect) : st D (result unit GpioError) :=
  match l with
  | LevelHigh => configure_event_detect pin EvHigh true
  | LevelLow => configure_event_detect pin EvLow true
  end.

Definition disable_level_detect (pin : Z) : st D (result unit GpioError) :=
  let? _ := configure_event_detect pin EvHigh false in
  configure_event_detect pin EvLow false.
End Driver.

(** ** The device

    What the drivers rely on of the hardware: function and detection registers
    store what is written, writing ones to a set or clear register drives the
    pins of those bits, and a pin used as an output has the level it is
    driven to. *)
Definition function_of_reg (v pin : Z) : Z := (v / 2 ^ (pin mod 10 * 3)) mod 8.

Class GpioDevice (D : Type) `{Mmio D} := {
  fsel : D -> Z -> Z;           (* function registers *)
  latch : D -> Z -> bool;       (* what the pins are driven to *)
  pin_high : D -> Z -> bool;    (* the levels of the pins *)
  detect : D -> Event -> Z -> Z;
  fsel_fits d i : fits 32 (fsel d i);
  detect_fits d e i : fits 32 (detect d e i);
  read_fsel d i : 0 <= i < 6 -> read32 (gpfsel i) d = (fsel d i, d);
  write_fsel d i v : 0 <= i < 6 -> fits 32 v -> let d' := write32 (gpfsel i) v d in
    (forall j, fsel d' j = if j =? i then v else fsel d j) /\ (forall p, latch d' p = latch d p) /\
    (forall e j, detect d' e j = detect d e j);
  write_set d r v : 0 <= r < 2 -> let d' := write32 (gpset r) v d in
    (forall p, latch d' p = ((p / 32 =? r) && Z.testbit v (p mod 32)) || latch d p) /\
    (forall j, fsel d' j = fsel d j) /\ (forall e j, detect d' e j = detect d e j);
  write_clr d r v : 0 <= r < 2 -> let d' := write32 (gpclr r) v d in
    (forall p, latch d' p = negb ((p / 32 =? r) && Z.testbit v (p mod 32)) && latch d p) /\
    (forall j, fsel d' j = fsel d j) /\ (forall e j, detect d' e j = detect d e j);
  read_lev d r : 0 <= r < 2 -> exists w, read32 (gplev r) d = (w, d) /\
    forall b, 0 <= b < 32 -> Z.testbit w b = pin_high d (32 * r + b);
  output_level d p : function_of_reg (fsel d (p / 10)) p = function_code Output -> pin_high d p = latch d p;
  read_detect d e i : 0 <= i < 2 -> read32 (event_reg e i) d = (detect d e i, d);
  write_detect d e i v : 0 <= i < 2 -> fits 32 v -> let d' := write32 (event_reg e i) v d in
    (forall e' j, detect d' e' j = if bool_decide (e' = e /\ j = i) then v else detect d e' j) /\
    (forall p, latch d' p = latch d p) /\ (forall j, fsel d' j = fsel d j);
}.

Definition function_of `{GpioDevice D} (d : D) (pin : Z) : Z := function_of_reg (fsel d (pin / 10)) pin.

(** Whether [pin] reports the event. *)
Definition detects `{GpioDevice D} (d : D) (e : Event) (pin : Z) : bool :=
  Z.testbit (detect d e (pin / 32)) (pin mod 32).

(** ** Lemmas *)

(** Replacing three bits. *)
Lemma replace_field_bit v c s n : fits 32 v -> 0 <= c < 8 -> 0 <= s <= 29 -> 0 <= n ->
  Z.testbit (Z.lor (Z.land v (lnot 32 (Z.shiftl 7 s))) (Z.shiftl c s)) n =
  if (s <=? n) && (n <? s + 3) then Z.testbit c (n - s) else Z.testbit v n.
Proof.
  intros Hv Hc Hs Hn. assert (fits 32 (Z.shiftl 7 s)).
  { unfold fits. rewrite Z.shiftl_mul_pow2 by lia. pose proof (Z.pow_le_mono_r 2 s 29). lia. }
  rewrite Z.lor_spec, Z.land_spec, lnot_testbit, !Z.shiftl_spec by done.
  destruct (Z.leb_spec s n), (Z.ltb_spec n (s + 3)); cbn [andb].
  - replace (Z.testbit 7 (n - s)) with true; [by rewrite andb_false_r, andb_false_r|].
    assert (n - s = 0 \/ n - s = 1 \/ n - s = 2) as [->|[->| ->]] by lia; done.
  - rewrite (testbit_high 7 3), (testbit_high c 3) by (unfold fits; lia). rewrite orb_false_r. cbn [negb]. rewrite andb_true_r.
    destruct (Z.ltb_spec n 32); [apply andb_true_r|]. by rewrite (testbit_high v 32) by (done || lia).
  - rewrite (Z.testbit_neg_r 7), (Z.testbit_neg_r c) by lia. cbn [negb]. rewrite orb_false_r, andb_true_r.
    rewrite (proj2 (Z.ltb_lt _ _)) by lia. apply andb_true_r.
  - lia.
Qed.

Lemma field_ext v v' s : 0 <= s -> (forall n, 0 <= n < 3 -> Z.testbit v (n + s) = Z.testbit v' (n + s)) ->
  (v / 2 ^ s) mod 8 = (v' / 2 ^ s) mod 8.
Proof.
  intros Hs Hn. change 8 with (2 ^ 3). apply Z.bits_inj'. intros n Hn0. rewrite !Z.testbit_mod_pow2 by lia.
  destruct (Z.ltb_spec n 3); cbn [andb]; [|done]. rewrite !Z.div_pow2_bits by lia. by apply Hn.
Qed.

Lemma replace_field_fits v c s : fits 32 v -> 0 <= c < 8 -> 0 <= s <= 29 ->
  fits 32 (Z.lor (Z.land v (lnot 32 (Z.shiftl 7 s))) (Z.shiftl c s)).
Proof.
  intros Hv Hc Hs. set (x := Z.lor _ _). assert (x = x mod 2 ^ 32) as E.
  { apply Z.bits_inj'. intros n Hn. rewrite Z.testbit_mod_pow2 by lia. unfold x. rewrite replace_field_bit by done.
    destruct (Z.leb_spec s n), (Z.ltb_spec n (s + 3)), (Z.ltb_spec n 32); cbn [andb]; try done; try lia;
      by rewrite (testbit_high v 32) by (done || lia). }
  rewrite E. apply Z.mod_pos_bound. lia.
Qed.

Lemma function_code_range f : 0 <= function_code f < 8.
Proof. destruct f; cbn; lia. Qed.

(** The field of the pin is replaced, those of its neighbours stay. *)
Lemma replace_field_function v f pin : fits 32 v -> 0 <= pin ->
  let v' := Z.lor (Z.land v (lnot 32 (Z.shiftl 7 (pin mod 10 * 3)))) (Z.shiftl (function_code f) (pin mod 10 * 3)) in
  function_of_reg v' pin = function_code f /\
  forall p, 0 <= p -> p mod 10 <> pin mod 10 -> function_of_reg v' p = function_of_reg v p.
Proof.
  intros Hv Hp v'. pose proof (Z.mod_pos_bound pin 10). pose proof (function_code_range f) as Hc. unfold function_of_reg. split.
  - rewrite (field_ext v' (Z.shiftl (function_code f) (pin mod 10 * 3))) by
      (lia || (intros n Hn; unfold v'; rewrite replace_field_bit by (done || lia);
               rewrite (proj2 (Z.leb_le _ _)), (proj2 (Z.ltb_lt _ _)) by lia; cbn [andb];
               rewrite Z.shiftl_spec by lia; done)).
    rewrite Z.shiftl_mul_pow2, Z.div_mul by lia. by apply Z.mod_small.
  - intros p Hp0 Hne. pose proof (Z.mod_pos_bound p 10). apply field_ext; [lia|]. intros n Hn. unfold v'.
    rewrite replace_field_bit by (done || lia).
    destruct (Z.leb_spec (pin mod 10 * 3) (n + p mod 10 * 3)), (Z.ltb_spec (n + p mod 10 * 3) (pin mod 10 * 3 + 3));
      cbn [andb]; (done || lia).
Qed.

Lemma same_reg_mod p q : 0 <= p -> 0 <= q -> p <> q -> p / 10 = q / 10 -> p mod 10 <> q mod 10.
Proof. intros ? ? Hne E E'. apply Hne. rewrite (Z.div_mod p 10), (Z.div_mod q 10) by lia. lia. Qed.

Lemma pin_bit_test pin p : 0 <= pin -> 0 <= p -> (p / 32 =? pin_reg pin) && Z.testbit (pin_bit pin) (p mod 32) = (p =? pin).
Proof.
  intros Hp Hq. unfold pin_bit, pin_reg. pose proof (Z.mod_pos_bound p 32). pose proof (Z.mod_pos_bound pin 32).
  rewrite Z.shiftl_1_l, Z.pow2_bits_eqb by lia.
  pose proof (Z.div_mod p 32). pose proof (Z.div_mod pin 32).
  destruct (Z.eqb_spec p pin) as [->|]; [by rewrite !Z.eqb_refl|].
  destruct (Z.eqb_spec (p / 32) (pin / 32)), (Z.eqb_spec (pin mod 32) (p mod 32)); try done. lia.
Qed.

Lemma pin_bit_pow pin : 0 <= pin -> pin_bit pin = 2 ^ (pin mod 32).
Proof. intros. unfold pin_bit. pose proof (Z.mod_pos_bound pin 32). by rewrite Z.shiftl_1_l. Qed.

Lemma check_pin_ok pin : pin <= 53 -> check_pin pin = Ok tt.
Proof. intros. unfold check_pin. by rewrite (proj2 (Z.leb_le _ _)). Qed.

Section Device.
Context {D : Type} `{GpioDevice D}.

Lemma set_function_ok pin f d : 0 <= pin <= 53 -> exists d', set_function pin f d = Ret (Ok tt, d') /\
  function_of d' pin = function_code f /\ (forall p, 0 <= p -> p <> pin -> function_of d' p = function_of d p) /\
  (forall p, latch d' p = latch d p) /\ (forall e j, detect d' e j = detect d e j).
Proof.
  intros Hp. unfold set_function. erewrite try_step by (by rewrite check_pin_ok by lia). cbv beta zeta.
  assert (Hr : 0 <= pin / 10 < 6) by (split; [apply Z.div_pos; lia|apply Z.div_lt_upper_bound; lia]).
  erewrite stbind_step by (unfold read_volatile; by rewrite read_fsel). cbv beta.
  erewrite stbind_step by done. eexists. split; [done|].
  set (v' := Z.lor _ _). pose proof (Z.mod_pos_bound pin 10 ltac:(lia)) as Hm.
  assert (Hf : fits 32 v') by (apply replace_field_fits; [apply fsel_fits|apply function_code_range|lia]).
  destruct (write_fsel d (pin / 10) v' Hr Hf) as (Hs & Hl & Hd).
  destruct (replace_field_function (fsel d (pin / 10)) f pin (fsel_fits d _) ltac:(lia)) as [H1 H2]. fold v' in H1, H2.
  split_and!; [| |exact Hl|exact Hd].
  - unfold function_of. by rewrite Hs, Z.eqb_refl.
  - intros p Hp0 Hne. unfold function_of. rewrite Hs. destruct (Z.eqb_spec (p / 10) (pin / 10)) as [E|]; [|done].
    rewrite E. apply H2; [done|]. apply same_reg_mod; (done || lia).
Qed.

Lemma set_ok pin d : 0 <= pin <= 53 -> exists d', set pin d = Ret (Ok tt, d') /\
  (forall p, 0 <= p -> latch d' p = (p =? pin) || latch d p) /\ (forall p, function_of d' p = function_of d p) /\
  (forall e j, detect d' e j = detect d e j).
Proof.
  intros Hp. unfold set. erewrite try_step by (by rewrite check_pin_ok by lia). erewrite stbind_step by done.
  eexists. split; [done|]. assert (Hr : 0 <= pin_reg pin < 2).
  { unfold pin_reg. split; [apply Z.div_pos; lia|apply Z.div_lt_upper_bound; lia]. }
  destruct (write_set d (pin_reg pin) (pin_bit pin) Hr) as (Hl & Hs & Hd). split_and!; [|intros p; unfold function_of; by rewrite Hs|exact Hd].
  intros p Hp0. by rewrite Hl, pin_bit_test by lia.
Qed.

Lemma clear_ok pin d : 0 <= pin <= 53 -> exists d', clear pin d = Ret (Ok tt, d') /\
  (forall p, 0 <= p -> latch d' p = negb (p =? pin) && latch d p) /\ (forall p, function_of d' p = function_of d p) /\
  (forall e j, detect d' e j = detect d e j).
Proof.
  intros Hp. unfold clear. erewrite try_step by (by rewrite check_pin_ok by lia). erewrite stbind_step by done.
  eexists. split; [done|]. assert (Hr : 0 <= pin_reg pin < 2).
  { unfold pin_reg. split; [apply Z.div_pos; lia|apply Z.div_lt_upper_bound; lia]. }
  destruct (write_clr d (pin_reg pin) (pin_bit pin) Hr) as (Hl & Hs & Hd). split_and!; [|intros p; unfold function_of; by rewrite Hs|exact Hd].
  intros p Hp0. by rewrite Hl, pin_bit_test by lia.
Qed.

Lemma level_ok pin d : 0 <= pin <= 53 -> level pin d = Ret (Ok (level_of_bool (pin_high d pin)), d).
Proof.
  intros Hp. unfold level. erewrite try_step by (by rewrite check_pin_ok by lia).
  assert (Hr : 0 <= pin_reg pin < 2).
  { unfold pin_reg. split; [apply Z.div_pos; lia|apply Z.div_lt_upper_bound; lia]. }
  destruct (read_lev d (pin_reg pin) Hr) as (w & Ew & Hw). erewrite stbind_step by (unfold read_volatile; by rewrite Ew).
  pose proof (Z.mod_pos_bound pin 32 ltac:(lia)). rewrite pin_bit_pow, land_bit, negb_involutive, Hw by lia.
  unfold pin_reg. rewrite <- Z.div_mod by lia. by destruct (pin_high d pin).
Qed.

Lemma toggle_ok pin d : 0 <= pin <= 53 -> exists d', toggle pin d = Ret (Ok tt, d') /\
  (forall p, 0 <= p -> latch d' p = if p =? pin then negb (pin_high d pin) else latch d p) /\
  (forall p, function_of d' p = function_of d p).
Proof.
  intros Hp. unfold toggle. cbn [gread bcm2835_gpio]. erewrite try_step by (by apply level_ok).
  destruct (pin_high d pin); cbn [level_of_bool flip decide set_level set_high set_low bcm2835_gpio].
  - destruct (clear_ok pin d Hp) as (d' & E & Hl & Hs & _). exists d'. split_and!; [exact E| |exact Hs].
    intros p Hp0. rewrite Hl by done. by destruct (p =? pin).
  - destruct (set_ok pin d Hp) as (d' & E & Hl & Hs & _). exists d'. split_and!; [exact E| |exact Hs].
    intros p Hp0. rewrite Hl by done. by destruct (p =? pin).
Qed.

Lemma lor_bit_fits v pin : fits 32 v -> 0 <= pin -> fits 32 (Z.lor v (pin_bit pin)).
Proof.
  intros Hv Hp. rewrite pin_bit_pow by done. pose proof (Z.mod_pos_bound pin 32 ltac:(lia)).
  assert (Z.lor v (2 ^ (pin mod 32)) = Z.lor v (2 ^ (pin mod 32)) mod 2 ^ 32) as ->; [|apply Z.mod_pos_bound; lia].
  apply Z.bits_inj'. intros n Hn. rewrite Z.testbit_mod_pow2, Z.lor_spec, Z.pow2_bits_eqb by lia.
  destruct (Z.ltb_spec n 32); [done|]. rewrite (testbit_high v 32) by (done || lia).
  destruct (Z.eqb_spec (pin mod 32) n); (done || lia).
Qed.

Lemma land_bit_fits v w : fits 32 v -> fits 32 (Z.land v w).
Proof.
  intros Hv. assert (Z.land v w = Z.land v w mod 2 ^ 32) as ->; [|apply Z.mod_pos_bound; lia].
  apply Z.bits_inj'. intros n Hn. rewrite Z.testbit_mod_pow2, Z.land_spec by lia.
  destruct (Z.ltb_spec n 32); [done|]. by rewrite (testbit_high v 32) by (done || lia).
Qed.

Lemma configure_ok pin e b d : 0 <= pin <= 53 -> exists d', configure_event_detect pin e b d = Ret (Ok tt, d') /\
  (forall e' p, 0 <= p -> detects d' e' p = if bool_decide (e' = e /\ p = pin) then b else detects d e' p) /\
  (forall p, latch d' p = latch d p) /\ (forall p, function_of d' p = function_of d p).
Proof.
  intros Hp. unfold configure_event_detect. erewrite try_step by (by rewrite check_pin_ok by lia). cbv beta zeta.
  assert (Hr : 0 <= pin_reg pin < 2).
  { unfold pin_reg. split; [apply Z.div_pos; lia|apply Z.div_lt_upper_bound; lia]. }
  erewrite stbind_step by (unfold read_volatile; by rewrite read_detect). cbv beta.
  erewrite stbind_step by done. eexists. split; [done|]. set (v := detect d e (pin_reg pin)).
  set (v' := if b then Z.lor v (pin_bit pin) else Z.land v (lnot 32 (pin_bit pin))).
  assert (Hf : fits 32 v').
  { unfold v', v. destruct b; [apply lor_bit_fits; [apply detect_fits|lia]|apply land_bit_fits, detect_fits]. }
  destruct (write_detect d e (pin_reg pin) v' Hr Hf) as (Hd & Hl & Hs).
  split_and!; [|exact Hl|intros p; unfold function_of; by rewrite Hs].
  intros e' p Hp0. unfold detects. rewrite Hd. pose proof (Z.mod_pos_bound p 32 ltac:(lia)) as Hpm.
  pose proof (pin_bit_test pin p ltac:(lia) Hp0) as Hb. rewrite pin_bit_pow in Hb by lia.
  assert (Hbf : fits 32 (pin_bit pin)).
  { rewrite pin_bit_pow by lia. pose proof (Z.mod_pos_bound pin 32 ltac:(lia)). unfold fits.
    pose proof (Z.pow_lt_mono_r 2 (pin mod 32) 32). pose proof (Z.pow_pos_nonneg 2 (pin mod 32)). lia. }
  destruct (decide (e' = e)) as [->|Hne]; [|by rewrite !bool_decide_eq_false_2 by naive_solver].
  destruct (Z.eqb_spec (p / 32) (pin_reg pin)) as [E|E]; cbn [andb] in Hb.
  - rewrite bool_decide_eq_true_2 by done. rewrite E. fold v. unfold v'. rewrite <- pin_bit_pow in Hb by lia.
    destruct (Z.eqb_spec p pin) as [Ep|Ep].
    + rewrite bool_decide_eq_true_2 by done. destruct b; [by rewrite Z.lor_spec, Hb, orb_true_r|].
      rewrite Z.land_spec, lnot_testbit, Hb by (done || lia). cbn. by rewrite !andb_false_r.
    + rewrite bool_decide_eq_false_2 by naive_solver. destruct b; [by rewrite Z.lor_spec, Hb, orb_false_r|].
      rewrite Z.land_spec, lnot_testbit, Hb, (proj2 (Z.ltb_lt _ _)) by (done || lia). cbn. by rewrite andb_true_r.
  - rewrite !bool_decide_eq_false_2; [done| |naive_solver]. intros [_ ->]. by apply E.
Qed.

Lemma configure_two pin e1 e2 b d : 0 <= pin <= 53 -> exists d',
  (let? _ := configure_event_detect pin e1 b in configure_event_detect pin e2 b) d = Ret (Ok tt, d') /\
  (forall e' p, 0 <= p -> detects d' e' p = if bool_decide ((e' = e1 \/ e' = e2) /\ p = pin) then b else detects d e' p) /\
  (forall p, latch d' p = latch d p) /\ (forall p, function_of d' p = function_of d p).
Proof.
  intros Hp. destruct (configure_ok pin e1 b d Hp) as (d1 & E1 & H1 & L1 & F1).
  destruct (configure_ok pin e2 b d1 Hp) as (d2 & E2 & H2 & L2 & F2). exists d2. split_and!.
  - by erewrite try_step by exact E1.
  - intros e' p Hp0. rewrite H2, H1 by done. destruct (decide (p = pin)); [|by rewrite !bool_decide_eq_false_2 by naive_solver].
    destruct (decide (e' = e2)) as [->|]; [by rewrite !bool_decide_eq_true_2 by naive_solver|].
    rewrite (bool_decide_eq_false_2 (e' = e2 /\ _)) by naive_solver.
    destruct (decide (e' = e1)) as [->|]; [by rewrite !bool_decide_eq_true_2 by naive_solver|].
    by rewrite !bool_decide_eq_false_2 by naive_solver.
  - intros p. by rewrite L2, L1.
  - intros p. by rewrite F2, F1.
Qed.

(** Numbers past the last pin are refused by every operation. *)
Lemma invalid_pin {A} pin (k : unit -> st D (result A GpioError)) d : 53 < pin ->
  try_bind (mret (check_pin pin)) k d = Ret (Err InvalidPin, d).
Proof. intros Hp. apply try_err. unfold check_pin. by rewrite (proj2 (Z.leb_gt _ _)). Qed.
End Device.

(** ** Theorems *)

(** selecting a pin's function sets exactly that function and driving or
    toggling a pin changes exactly that pin: the functions of all other pins
    and the levels they are driven to stay; a pin used as an output reads the
    level it was given; numbers from 54 on are refused without an access. *)
Theorem gpio_pins_independent `{GpioDevice D} pin f (d : D) : 0 <= pin ->
  (pin <= 53 ->
    (exists d', set_function pin f d = Ret (Ok tt, d') /\ function_of d' pin = function_code f /\
       (forall p, 0 <= p -> p <> pin -> function_of d' p = function_of d p) /\ (forall p, latch d' p = latch d p)) /\
    (forall l, exists d', set_level pin l d = Ret (Ok tt, d') /\
       (forall p, 0 <= p -> latch d' p = if p =? pin then bool_of_level l else latch d p) /\
       (forall p, function_of d' p = function_of d p) /\
       (function_of d pin = function_code Output -> gread pin d' = Ret (Ok l, d'))) /\
    (exists d', toggle pin d = Ret (Ok tt, d') /\
       (forall p, 0 <= p -> latch d' p = if p =? pin then negb (pin_high d pin) else latch d p) /\
       (forall p, function_of d' p = function_of d p))) /\
  (53 < pin -> set_function pin f d = Ret (Err InvalidPin, d) /\ toggle pin d = Ret (Err InvalidPin, d) /\
     forall l, set_level pin l d = Ret (Err InvalidPin, d)).
Proof.
  intros Hpos. split; [intros Hp; split_and!|intros Hp].
  - destruct (set_function_ok pin f d) as (d' & E & H1 & H2 & H3 & _); [lia|]. by exists d'.
  - intros l. assert (Hd : exists d', set_level pin l d = Ret (Ok tt, d') /\
      (forall p, 0 <= p -> latch d' p = if p =? pin then bool_of_level l else latch d p) /\
      (forall p, function_of d' p = function_of d p)).
    { destruct l; cbn [set_level set_high set_low bcm2835_gpio bool_of_level].
      - destruct (clear_ok pin d) as (d' & E & H1 & H2 & _); [lia|]. exists d'. split_and!; [done| |done].
        intros p Hp0. rewrite H1 by done. by destruct (p =? pin).
      - destruct (set_ok pin d) as (d' & E & H1 & H2 & _); [lia|]. exists d'. split_and!; [done| |done].
        intros p Hp0. rewrite H1 by done. by destruct (p =? pin). }
    destruct Hd as (d' & E & H1 & H2). exists d'. split_and!; try done. intros Ho. cbn [gread bcm2835_gpio].
    rewrite level_ok by lia. rewrite output_level by (by rewrite <- Ho, <- H2). rewrite H1, Z.eqb_refl by done. by destruct l.
  - apply toggle_ok. lia.
  - split_and!; [by apply invalid_pin| |intros []; by apply invalid_pin].
    unfold toggle. apply try_err. by apply invalid_pin.
Qed.

(** enabling an edge or level event makes the pin, and no other pin, detect
    that kind of event, disabling removes both kinds, and no pin's function or
    level changes. *)
Theorem gpio_event_detection `{GpioDevice D} pin (d : D) : 0 <= pin <= 53 ->
  let changes (f : st D (result unit GpioError)) (es : list Event) (b : bool) :=
    exists d', f d = Ret (Ok tt, d') /\
      (forall e p, 0 <= p -> detects d' e p = if bool_decide (e ∈ es /\ p = pin) then b else detects d e p) /\
      (forall p, latch d' p = latch d p) /\ (forall p, function_of d' p = function_of d p) in
  changes (enable_edge_detect pin EdgeRising) [Rising] true /\
  changes (enable_edge_detect pin EdgeFalling) [Falling] true /\
  changes (enable_edge_detect pin EdgeBoth) [Rising; Falling] true /\
  changes (disable_edge_detect pin) [Rising; Falling] false /\
  changes (enable_level_detect pin LevelHigh) [EvHigh] true /\
  changes (enable_level_detect pin LevelLow) [EvLow] true /\
  changes (disable_level_detect pin) [EvHigh; EvLow] false.
Proof.
  intros Hp changes. assert (Hone : forall e b, changes (configure_event_detect pin e b) [e] b).
  { intros e b. destruct (configure_ok pin e b d Hp) as (d' & E & H1 & H2 & H3). exists d'. split_and!; try done.
    intros e' p Hp0. rewrite H1 by done. by rewrite (bool_decide_ext (e' ∈ [e] /\ p = pin) (e' = e /\ p = pin)) by set_solver. }
  assert (Htwo : forall e1 e2 b, changes (let? _ := configure_event_detect pin e1 b in configure_event_detect pin e2 b) [e1; e2] b).
  { intros e1 e2 b. destruct (configure_two pin e1 e2 b d Hp) as (d' & E & H1 & H2 & H3). exists d'. split_and!; try done.
    intros e' p Hp0. rewrite H1 by done.
    by rewrite (bool_decide_ext (e' ∈ [e1; e2] /\ p = pin) ((e' = e1 \/ e' = e2) /\ p = pin)) by set_solver. }
  split_and!; (apply Hone || apply Htwo).
Qed.

(** ** A controller *)

(** 54 pins whose inputs are fixed. *)
Record Sim := mkSim { s_fsel : Z -> Z; s_latch : Z -> bool; s_input : Z -> bool; s_detect : Event -> Z -> Z }.

Fixpoint word_of (n : nat) (f : Z -> bool) : Z :=
  match n with
  | O => 0
  | S n => Z.lor (word_of n f) (if f (Z.of_nat n) then 2 ^ Z.of_nat n else 0)
  end.

Lemma word_of_bit n f b : 0 <= b -> Z.testbit (word_of n f) b = (b <? Z.of_nat n) && f b.
Proof.
  induction n as [|n IH]; intros Hb; cbn [word_of].
  - rewrite Z.testbit_0_l. by rewrite (proj2 (Z.ltb_ge _ _)) by lia.
  - rewrite Z.lor_spec, IH by done. destruct (f (Z.of_nat n)) eqn:E.
    + rewrite Z.pow2_bits_eqb by lia. destruct (Z.eqb_spec (Z.of_nat n) b) as [<-|].
      * rewrite E, (proj2 (Z.ltb_lt _ (Z.of_nat (S n)))) by lia. by rewrite orb_true_r.
      * rewrite orb_false_r. destruct (Z.ltb_spec b (Z.of_nat n)), (Z.ltb_spec b (Z.of_nat (S n))); (done || lia).
    + rewrite Z.testbit_0_l, orb_false_r. destruct (Z.ltb_spec b (Z.of_nat n)), (Z.ltb_spec b (Z.of_nat (S n))); try done; try lia.
      replace b with (Z.of_nat n) by lia. by rewrite E.
Qed.

Definition sim_fsel (s : Sim) (i : Z) : Z := s_fsel s i mod 2 ^ 32.
Definition sim_high (s : Sim) (p : Z) : bool :=
  if function_of_reg (sim_fsel s (p / 10)) p =? 1 then s_latch s p else s_input s p.

(** The detection register at an offset. *)
Definition event_at (o : Z) : option (Event * Z) :=
  if (0x4c <=? o) && (o <? 0x94) then
    let i := (o - 0x4c) mod 12 / 4 in
    match (o - 0x4c) / 12 with
    | 0 => Some (Rising, i) | 1 => Some (Falling, i) | 2 => Some (EvHigh, i)
    | 3 => Some (EvLow, i) | 4 => Some (AsyncRising, i) | _ => Some (AsyncFalling, i)
    end
  else None.

#[export] Instance sim_mmio : Mmio Sim := {
  read32 a s :=
    let o := a - GPIO_BASE in
    if o <? 0x1c then (sim_fsel s (o / 4), s)
    else if (0x34 <=? o) && (o <? 0x3c) then (word_of 32 (fun b => sim_high s (32 * ((o - 0x34) / 4) + b)), s)
    else match event_at o with Some (e, i) => (s_detect s e i mod 2 ^ 32, s) | None => (0, s) end;
  write32 a v s :=
    let o := a - GPIO_BASE in
    if o <? 0x1c then mkSim (fun i => if i =? o / 4 then v else s_fsel s i) (s_latch s) (s_input s) (s_detect s)
    else if o <? 0x28 then
      mkSim (s_fsel s) (fun p => ((p / 32 =? (o - 0x1c) / 4) && Z.testbit v (p mod 32)) || s_latch s p) (s_input s) (s_detect s)
    else if o <? 0x34 then
      mkSim (s_fsel s) (fun p => negb ((p / 32 =? (o - 0x28) / 4) && Z.testbit v (p mod 32)) && s_latch s p) (s_input s) (s_detect s)
    else match event_at o with
         | Some (e, i) => mkSim (s_fsel s) (s_latch s) (s_input s)
             (fun e' j => if bool_decide (e' = e /\ j = i) then v else s_detect s e' j)
         | None => s
         end;
}.

#[export] Program Instance sim_device : GpioDevice Sim := {
  fsel := sim_fsel;
  latch := s_latch;
  pin_high := sim_high;
  detect s e i := s_detect s e i mod 2 ^ 32;
}.
Next Obligation. intros. apply Z.mod_pos_bound. lia. Qed.
Next Obligation. intros. apply Z.mod_pos_bound. lia. Qed.
Next Obligation.
  intros d i Hi. cbn [read32 sim_mmio]. unfold gpfsel. rewrite (proj2 (Z.ltb_lt _ _)) by lia.
  replace (GPIO_BASE + 4 * i - GPIO_BASE) with (i * 4) by lia. by rewrite Z.div_mul.
Qed.
Next Obligation.
  intros d i v Hi Hv d'. unfold d', gpfsel. cbn [write32 sim_mmio]. rewrite (proj2 (Z.ltb_lt _ _)) by lia.
  replace (GPIO_BASE + 4 * i - GPIO_BASE) with (i * 4) by lia. rewrite Z.div_mul by lia. split; [|done].
  intros j. unfold sim_fsel. cbn [s_fsel]. destruct (j =? i); [|done]. by apply Z.mod_small.
Qed.
Next Obligation.
  intros d r v Hr d'. unfold d', gpset. cbn [write32 sim_mmio]. rewrite (proj2 (Z.ltb_ge _ _)), (proj2 (Z.ltb_lt _ _)) by lia.
  replace (GPIO_BASE + 0x1c + 4 * r - GPIO_BASE - 0x1c) with (r * 4) by lia. by rewrite Z.div_mul.
Qed.
Next Obligation.
  intros d r v Hr d'. unfold d', gpclr. cbn [write32 sim_mmio]. rewrite !(proj2 (Z.ltb_ge _ _)) by lia.
  rewrite (proj2 (Z.ltb_lt _ _)) by lia.
  replace (GPIO_BASE + 0x28 + 4 * r - GPIO_BASE - 0x28) with (r * 4) by lia. by rewrite Z.div_mul.
Qed.
Next Obligation.
  intros d r Hr. unfold gplev. cbn [read32 sim_mmio]. rewrite (proj2 (Z.ltb_ge _ _)) by lia.
  rewrite (proj2 (Z.leb_le _ _)), (proj2 (Z.ltb_lt _ _)) by lia. cbn [andb]. eexists. split; [done|].
  intros b Hb. rewrite word_of_bit by lia. rewrite (proj2 (Z.ltb_lt _ _)) by lia. cbn [andb].
  replace (GPIO_BASE + 0x34 + 4 * r - GPIO_BASE - 0x34) with (r * 4) by lia. by rewrite Z.div_mul.
Qed.
Next Obligation. intros d p Ho. unfold sim_high. by rewrite Ho. Qed.
Next Obligation.
  intros d e i Hi. assert (i = 0 \/ i = 1) as [->| ->] by lia; by destruct e.
Qed.
Next Obligation.
  intros d e i v Hi Hv d'.
  assert (d' = mkSim (s_fsel d) (s_latch d) (s_input d)
    (fun e' j => if bool_decide (e' = e /\ j = i) then v else s_detect d e' j)) as ->.
  { unfold d'. assert (i = 0 \/ i = 1) as [->| ->] by lia; by destruct e. }
  split; [|done]. intros e' j. cbn [s_detect]. destruct (bool_decide _); [by apply Z.mod_small|done].
Qed.

(** ** Witnesses *)

Definition demo_sim : Sim := mkSim (fun _ => 0) (fun _ => false) (fun _ => false) (fun _ _ => 0).

Lemma gpio_pins_independent_witness :
  (exists d', set_function 16 Output demo_sim = Ret (Ok tt, d') /\ function_of d' 16 = 1) /\
  toggle 54 demo_sim = Ret (Err InvalidPin, demo_sim).
Proof.
  split.
  - destruct (gpio_pins_independent 16 Output demo_sim) as [Hok _]; [lia|].
    destruct Hok as ((d' & E & Hf & _) & _); [lia|]. exists d'. split; [exact E|exact Hf].
  - destruct (gpio_pins_independent 54 Output demo_sim) as [_ Hbad]; [lia|]. apply Hbad. lia.
Defined.

Lemma gpio_event_detection_witness : exists d', enable_edge_detect 40 EdgeBoth demo_sim = Ret (Ok tt, d') /\
  detects d' Falling 40 = true /\ detects d' Falling 41 = false.
Proof.
  destruct (gpio_event_detection 40 demo_sim) as (_ & _ & (d' & E & Hd & _) & _); [lia|].
  exists d'. split; [exact E|]. split; rewrite Hd by lia; reflexivity.
Defined.
