(* ===== verification/Vga.v ===== *)
(** * The VGA text console

    drivers/src/peripheral/x86/vga_text.rs with the console trait of
    drivers/src/hal/console.rs, and the boot log sink over it
    (kernel/src/subsystems/boot_sinks/x86.rs).  The text buffer is bytes of
    memory, the CRT controller a device behind I/O ports.  The specification is
    a terminal of 25 rows of 80 cells. *)
From S2P Require Import Prelude Memory Mmio.

(** ** [ConsoleOutput] *)

Class ConsoleOutput (S : Type) := {
  write_byte : Z -> st S unit;
  cclear : st S unit;
  cset_cursor : Z -> Z -> st S unit;
}.

(** The provided [write_str], which [DynConsoleOutput] and [fmt::Write] pass on
    to; a string is its bytes. *)
Fixpoint write_str {C : Type} `{ConsoleOutput C} (s : list Z) : st C unit :=
  match s with
  | [] => mret tt
  | b :: s => _ ← write_byte b; write_str s
  end.

(** ** [VgaText] *)

Definition VGA_COLS : Z := 80.
Definition VGA_ROWS : Z := 25.
Definition VGA_BUFFER_ADDR : Z := 0xb8000.
Definition CRTC_ADDR_PORT : Z := 0x3d4.
Definition CRTC_DATA_PORT : Z := 0x3d5.
Definition CRTC_CURSOR_HIGH : Z := 0x0e.
Definition CRTC_CURSOR_LOW : Z := 0x0f.

Inductive Color :=
  Black | Blue | Green | Cyan | Red | Magenta | Brown | LightGray | DarkGray | LightBlue | LightGreen
  | LightCyan | LightRed | Pink | Yellow | White.

Definition color_code (c : Color) : Z :=
  match c with
  | Black => 0 | Blue => 1 | Green => 2 | Cyan => 3 | Red => 4 | Magenta => 5 | Brown => 6 | LightGray => 7
  | DarkGray => 8 | LightBlue => 9 | LightGreen => 10 | LightCyan => 11 | LightRed => 12 | Pink => 13
  | Yellow => 14 | White => 15
  end.

Definition make_attr (fg bg : Color) : Z := Z.lor (wrap 8 (Z.shiftl (color_code bg) 4)) (color_code fg).

(** The driver's fields over memory and the CRT controller. *)
Record vga (D : Type) := mkVga { vmem : mem; col : Z; row : Z; attr : Z; crtc : D }.
Arguments mkVga {D}.
Arguments vmem {D}.
Arguments col {D}.
Arguments row {D}.
Arguments attr {D}.
Arguments crtc {D}.

Section Driver.
Context `{Profile} {D : Type} `{PortIo D}.

Definition with_mem (m : mem) (v : vga D) : vga D := mkVga m (col v) (row v) (attr v) (crtc v).
Definition with_cursor (c r : Z) (v : vga D) : vga D := mkVga (vmem v) c r (attr v) (crtc v).
Definition with_crtc (d : D) (v : vga D) : vga D := mkVga (vmem v) (col v) (row v) (attr v) d.

Definition cell_offset (c r : Z) : outcome Z :=
  a ← mul usize_bits r VGA_COLS; b ← add usize_bits a c; mul usize_bits b 2.

Definition write_cell (c r ch at_ : Z) : st (vga D) unit :=
  offset ← lift (cell_offset c r);
  modify (fun v => with_mem (store8 (store8 (vmem v) (VGA_BUFFER_ADDR + offset) ch) (VGA_BUFFER_ADDR + (offset + 1)) at_) v).

Definition read_char (c r : Z) : st (vga D) Z :=
  offset ← lift (cell_offset c r); gets (fun v => load8 (vmem v) (VGA_BUFFER_ADDR + offset)).

Definition read_attr (c r : Z) : st (vga D) Z :=
  offset ← lift (cell_offset c r);
  offset ← lift (add usize_bits offset 1); gets (fun v => load8 (vmem v) (VGA_BUFFER_ADDR + offset)).

(** [for col in c..c + n]. *)
Fixpoint each_col (n : nat) (c : Z) (body : Z -> st (vga D) unit) : st (vga D) unit :=
  match n with
  | O => mret tt
  | S n => _ ← body c; each_col n (c + 1) body
  end.

Definition copy_cell (r c : Z) : st (vga D) unit :=
  ch ← read_char c r; at_ ← read_attr c r;
  r' ← lift (sub usize_bits r 1); write_cell c r' ch at_.

Definition blank_cell (r c : Z) : st (vga D) unit :=
  a ← gets attr; write_cell c r 32 a.

Definition scroll_up : st (vga D) unit :=
  _ ← each_col (Z.to_nat (VGA_ROWS - 1)) 1 (fun r => each_col (Z.to_nat VGA_COLS) 0 (copy_cell r));
  each_col (Z.to_nat VGA_COLS) 0 (blank_cell (VGA_ROWS - 1)).

Definition newline : st (vga D) unit :=
  _ ← modify (fun v => with_cursor 0 (row v) v);
  v ← get;
  next ← lift (add usize_bits (row v) 1);
  if VGA_ROWS <=? next then
    _ ← scroll_up; modify (fun v => with_cursor (col v) (VGA_ROWS - 1) v)
  else
    next ← lift (add usize_bits (row v) 1); modify (fun v => with_cursor (col v) next v).

Definition advance_cursor : st (vga D) unit :=
  v ← get;
  c ← lift (add usize_bits (col v) 1);
  _ ← modify (fun v => with_cursor c (row v) v);
  if VGA_COLS <=? c then
    _ ← modify (fun v => with_cursor 0 (row v) v); newline
  else mret tt.

Definition out_crtc (p x : Z) : st (vga D) unit := modify (fun v => with_crtc (out8 p x (crtc v)) v).

Definition update_hw_cursor : st (vga D) unit :=
  v ← get;
  a ← lift (mul usize_bits (row v) VGA_COLS);
  p ← lift (add usize_bits a (col v));
  let pos := wrap 16 p in
  _ ← out_crtc CRTC_ADDR_PORT CRTC_CURSOR_HIGH;
  _ ← out_crtc CRTC_DATA_PORT (wrap 8 (Z.shiftr pos 8));
  _ ← out_crtc CRTC_ADDR_PORT CRTC_CURSOR_LOW;
  out_crtc CRTC_DATA_PORT (Z.land pos 0xff).

Definition vga_write_byte (byte : Z) : st (vga D) unit :=
  _ ← (if byte =? 10 then newline
       else if byte =? 13 then modify (fun v => with_cursor 0 (row v) v)
       else if byte =? 8 then
         v ← get;
         _ ← (if 0 <? col v then
                c ← lift (sub usize_bits (col v) 1); modify (fun v => with_cursor c (row v) v)
              else mret tt);
         v ← get;
         write_cell (col v) (row v) 32 (attr v)
       else
         v ← get;
         _ ← write_cell (col v) (row v) byte (attr v);
         advance_cursor);
  update_hw_cursor.

Definition vga_clear : st (vga D) unit :=
  _ ← each_col (Z.to_nat VGA_ROWS) 0 (fun r => each_col (Z.to_nat VGA_COLS) 0 (blank_cell r));
  _ ← modify (with_cursor 0 0);
  update_hw_cursor.

Definition vga_set_cursor (c r : Z) : st (vga D) unit :=
  _ ← modify (with_cursor (Z.min c (VGA_COLS - 1)) (Z.min r (VGA_ROWS - 1)));
  update_hw_cursor.

#[export] Instance vga_console : ConsoleOutput (vga D) := {
  write_byte := vga_write_byte;
  cclear := vga_clear;
  cset_cursor := vga_set_cursor;
}.

Definition set_color (fg bg : Color) : st (vga D) unit :=
  modify (fun v => mkVga (vmem v) (col v) (row v) (make_attr fg bg) (crtc v)).

(** [VgaText::new] over the machine's memory and controller. *)
Definition vga_new : st (vga D) unit :=
  _ ← modify (fun v => mkVga (vmem v) 0 0 (make_attr LightGray Black) (crtc v));
  vga_clear.

(** [X86BootSink::write_str]: a console of its own for every record. *)
Definition boot_sink_write (s : list Z) : st (vga D) unit := _ ← vga_new; write_str s.
End Driver.

(** ** The terminal *)

Notation cell := (Z * Z)%type (only parsing).   (* character, attribute *)

Record term := mkTerm { grid : list (list cell); tcol : nat; trow : nat; tattr : Z }.

Definition blank_row (a : Z) : list cell := replicate 80 (32, a).

Definition put_cell (g : list (list cell)) (c r : nat) (x : cell) : list (list cell) :=
  alter (fun l => <[c := x]> l) r g.

Definition term_newline (t : term) : term :=
  if decide (trow t = 24%nat) then mkTerm (drop 1 (grid t) ++ [blank_row (tattr t)]) 0 24 (tattr t)
  else mkTerm (grid t) 0 (S (trow t)) (tattr t).

Definition term_put (t : term) (ch : Z) : term :=
  let t' := mkTerm (put_cell (grid t) (tcol t) (trow t) (ch, tattr t)) (tcol t) (trow t) (tattr t) in
  if decide (tcol t = 79%nat) then term_newline t' else mkTerm (grid t') (S (tcol t)) (trow t) (tattr t).

Definition term_byte (t : term) (b : Z) : term :=
  if b =? 10 then term_newline t
  else if b =? 13 then mkTerm (grid t) 0 (trow t) (tattr t)
  else if b =? 8 then
    let c := pred (tcol t) in mkTerm (put_cell (grid t) c (trow t) (32, tattr t)) c (trow t) (tattr t)
  else term_put t b.

Definition term_write (t : term) (s : list Z) : term := foldl term_byte t s.

Definition term_clear (a : Z) : term := mkTerm (replicate 25 (blank_row a)) 0 0 a.

(** ** The screen as a terminal *)

Definition cell_addr (c r : Z) : Z := VGA_BUFFER_ADDR + (r * VGA_COLS + c) * 2.

Definition cell_at (m : mem) (c r : nat) : cell :=
  let a := cell_addr (Z.of_nat c) (Z.of_nat r) in (m a, m (a + 1)).

Definition row_of (m : mem) (r : nat) : list cell := map (fun c => cell_at m c r) (seq 0 80).
Definition screen (m : mem) : list (list cell) := map (row_of m) (seq 0 25).

Definition term_of {D} (v : vga D) : term :=
  mkTerm (screen (vmem v)) (Z.to_nat (col v)) (Z.to_nat (row v)) (attr v).

(** The cursor is on the screen. *)
Definition vga_ok {D} (v : vga D) : Prop := 0 <= col v < VGA_COLS /\ 0 <= row v < VGA_ROWS.

(** What the driver relies on of the CRT controller: the register selected
    through the index port is written through the data port. *)
Class CrtcDevice (D : Type) `{PortIo D} := {
  selected : D -> Z;
  creg : D -> Z -> Z;
  select i d : selected (out8 CRTC_ADDR_PORT i d) = i /\ forall j, creg (out8 CRTC_ADDR_PORT i d) j = creg d j;
  write_reg x d : selected (out8 CRTC_DATA_PORT x d) = selected d /\
    forall j, creg (out8 CRTC_DATA_PORT x d) j = if j =? selected d then x else creg d j;
}.

Definition hw_cursor `{CrtcDevice D} (d : D) : Z := creg d CRTC_CURSOR_HIGH * 256 + creg d CRTC_CURSOR_LOW.

(** ** Lemmas *)

Section Cells.
Context `{Profile} {D : Type} `{PortIo D}.

Lemma cell_offset_ok c r : 0 <= c < 80 -> 0 <= r < 25 -> cell_offset c r = Ret ((r * 80 + c) * 2).
Proof using.
  intros Hc Hr. unfold cell_offset. rewrite (mul_ok usize_bits r VGA_COLS) by (unfold fits, usize_bits, VGA_COLS; lia).
  cbn [mbind outcome_bind]. rewrite (add_ok usize_bits _ c) by (unfold fits, usize_bits, VGA_COLS; lia).
  cbn [mbind outcome_bind]. by rewrite mul_ok by (unfold fits, usize_bits, VGA_COLS; lia).
Qed.

Definition set_cell (m : mem) (a ch at_ : Z) : mem := store8 (store8 m a ch) (a + 1) at_.

Lemma write_cell_ok c r ch at_ (v : vga D) : 0 <= c < 80 -> 0 <= r < 25 ->
  write_cell c r ch at_ v = Ret (tt, with_mem (set_cell (vmem v) (cell_addr c r) ch at_) v).
Proof using.
  intros Hc Hr. unfold write_cell. erewrite stbind_step by (by rewrite cell_offset_ok).
  unfold modify, set_cell, cell_addr, VGA_COLS. by rewrite Z.add_assoc.
Qed.

Lemma set_cell_spec m a ch at_ x :
  set_cell m a ch at_ x = if x =? a then ch else if x =? a + 1 then at_ else m x.
Proof using.
  unfold set_cell, store8. destruct (Z.eqb_spec x (a + 1)), (Z.eqb_spec x a); (done || lia).
Qed.

Lemma copy_cell_ok r c (v : vga D) : 0 <= c < 80 -> 1 <= r < 25 ->
  copy_cell r c v = Ret (tt, with_mem (set_cell (vmem v) (cell_addr c (r - 1)) (vmem v (cell_addr c r)) (vmem v (cell_addr c r + 1))) v).
Proof using.
  intros Hc Hr. unfold copy_cell, read_char, read_attr.
  erewrite stbind_step by (erewrite stbind_step by (by rewrite cell_offset_ok by lia); done).
  erewrite stbind_step.
  2: { erewrite stbind_step by (by rewrite cell_offset_ok by lia).
       erewrite stbind_step by (by rewrite add_ok by (unfold fits, usize_bits; lia)). done. }
  erewrite stbind_step by (by rewrite sub_ok by (unfold fits, usize_bits; lia)).
  rewrite write_cell_ok by lia. unfold load8, cell_addr, VGA_COLS. do 5 f_equal. lia.
Qed.

Lemma blank_cell_ok r c (v : vga D) : 0 <= c < 80 -> 0 <= r < 25 ->
  blank_cell r c v = Ret (tt, with_mem (set_cell (vmem v) (cell_addr c r) 32 (attr v)) v).
Proof using. intros Hc Hr. unfold blank_cell. erewrite stbind_step by done. by apply write_cell_ok. Qed.

Lemma with_mem_id (v : vga D) : with_mem (vmem v) v = v.
Proof using. by destruct v. Qed.

(** Copying the cells [c..c + n] of a row moves their bytes up by a row. *)
Lemma copy_cols_ok r n : forall c (v : vga D), 1 <= r < 25 -> 0 <= c -> c + Z.of_nat n <= 80 -> exists m',
  each_col n c (copy_cell r) v = Ret (tt, with_mem m' v) /\
  forall x, m' x = if (cell_addr c (r - 1) <=? x) && (x <? cell_addr c (r - 1) + 2 * Z.of_nat n)
                   then vmem v (x + 160) else vmem v x.
Proof using.
  induction n as [|n IH]; intros c v Hr Hc Hn.
  - exists (vmem v). split; [by rewrite with_mem_id|]. intros x.
    destruct (Z.leb_spec (cell_addr c (r - 1)) x), (Z.ltb_spec x (cell_addr c (r - 1) + 2 * Z.of_nat 0)); (done || lia).
  - cbn [each_col]. erewrite stbind_step by (by rewrite copy_cell_ok by lia). set (m1 := set_cell _ _ _ _).
    destruct (IH (c + 1) (with_mem m1 v)) as (m' & E & Hm'); [lia..|]. exists m'. split; [exact E|].
    intros x. rewrite Hm'. cbn [vmem with_mem]. unfold m1. rewrite !set_cell_spec. unfold cell_addr, VGA_COLS in *.
    set (b := VGA_BUFFER_ADDR) in *. clearbody b.
    destruct (Z.leb_spec (b + ((r - 1) * 80 + (c + 1)) * 2) x), (Z.ltb_spec x (b + ((r - 1) * 80 + (c + 1)) * 2 + 2 * Z.of_nat n)),
      (Z.leb_spec (b + ((r - 1) * 80 + c) * 2) x), (Z.ltb_spec x (b + ((r - 1) * 80 + c) * 2 + 2 * Z.of_nat (S n))); cbn [andb];
      try lia; rewrite ?(proj2 (Z.eqb_neq _ _)) by lia; try done.
    destruct (Z.eqb_spec x (b + ((r - 1) * 80 + c) * 2)) as [->|]; [f_equal; lia|].
    rewrite (proj2 (Z.eqb_eq x _)) by lia. f_equal. lia.
Qed.

Lemma vga_copy_rows_ok n : forall r (v : vga D), 1 <= r -> r + Z.of_nat n <= 25 -> exists m',
  each_col n r (fun r => each_col (Z.to_nat VGA_COLS) 0 (copy_cell r)) v = Ret (tt, with_mem m' v) /\
  forall x, m' x = if (cell_addr 0 (r - 1) <=? x) && (x <? cell_addr 0 (r - 1) + 160 * Z.of_nat n)
                   then vmem v (x + 160) else vmem v x.
Proof using.
  induction n as [|n IH]; intros r v Hr Hn.
  - exists (vmem v). split; [by rewrite with_mem_id|]. intros x.
    destruct (Z.leb_spec (cell_addr 0 (r - 1)) x), (Z.ltb_spec x (cell_addr 0 (r - 1) + 160 * Z.of_nat 0)); (done || lia).
  - cbn [each_col]. destruct (copy_cols_ok r (Z.to_nat VGA_COLS) 0 v) as (m1 & E1 & Hm1); [lia|lia|unfold VGA_COLS; lia|].
    destruct (IH (r + 1) (with_mem m1 v)) as (m' & E & Hm'); [lia|lia|]. exists m'.
    split; [erewrite stbind_step by exact E1; exact E|].
    intros x. rewrite Hm'. cbn [vmem with_mem]. rewrite !Hm1. unfold cell_addr, VGA_COLS.
    set (b := VGA_BUFFER_ADDR). clearbody b. change (2 * Z.of_nat (Z.to_nat 80)) with 160. clear -Hr.
    destruct (Z.leb_spec (b + ((r + 1 - 1) * 80 + 0) * 2) x), (Z.ltb_spec x (b + ((r + 1 - 1) * 80 + 0) * 2 + 160 * Z.of_nat n)),
      (Z.leb_spec (b + ((r - 1) * 80 + 0) * 2) x), (Z.ltb_spec x (b + ((r - 1) * 80 + 0) * 2 + 160 * Z.of_nat (S n))); cbn [andb];
      try lia;
      try (rewrite (proj2 (Z.ltb_ge x _)) by lia; by rewrite ?andb_false_r);
      try (rewrite (proj2 (Z.leb_le _ _)), (proj2 (Z.ltb_lt _ _)) by lia; done).
    + rewrite (proj2 (Z.ltb_ge (x + 160) _)) by lia. by rewrite andb_false_r.
    + by rewrite (proj2 (Z.ltb_lt x _)) by lia.
Qed.

(** Blanking the cells [c..c + n] of a row. *)
Lemma blank_cols_ok r n : forall c (v : vga D), 0 <= r < 25 -> 0 <= c -> c + Z.of_nat n <= 80 -> exists m',
  each_col n c (blank_cell r) v = Ret (tt, with_mem m' v) /\
  (forall c', c <= c' < c + Z.of_nat n -> m' (cell_addr c' r) = 32 /\ m' (cell_addr c' r + 1) = attr v) /\
  same_outside (in_block (cell_addr c r) (2 * Z.of_nat n)) (vmem v) m'.
Proof using.
  induction n as [|n IH]; intros c v Hr Hc Hn.
  - exists (vmem v). split; [by rewrite with_mem_id|]. split; [intros; lia|apply same_outside_refl].
  - cbn [each_col]. erewrite stbind_step by (by rewrite blank_cell_ok by lia). set (m1 := set_cell _ _ _ _).
    destruct (IH (c + 1) (with_mem m1 v)) as (m' & E & Hm' & Hs); [lia..|]. exists m'. split; [exact E|].
    cbn [vmem with_mem attr] in *.
    assert (Hm1 : forall x, m1 x = if x =? cell_addr c r then 32 else if x =? cell_addr c r + 1 then attr v else vmem v x)
      by (intros; apply set_cell_spec).
    split.
    + intros c' Hc'. destruct (Z.eq_dec c' c) as [->|]; [|apply Hm'; lia].
      rewrite !Hs by (unfold in_block, cell_addr, VGA_COLS; lia). rewrite !Hm1, !Z.eqb_refl.
      by rewrite (proj2 (Z.eqb_neq _ _)) by lia.
    + intros x Hx. unfold in_block, cell_addr, VGA_COLS in *. rewrite Hs by lia. rewrite Hm1.
      by rewrite !(proj2 (Z.eqb_neq _ _)) by lia.
Qed.

Lemma blank_rows_ok n : forall r (v : vga D), 0 <= r -> r + Z.of_nat n <= 25 -> exists m',
  each_col n r (fun r => each_col (Z.to_nat VGA_COLS) 0 (blank_cell r)) v = Ret (tt, with_mem m' v) /\
  (forall c' r', 0 <= c' < 80 -> r <= r' < r + Z.of_nat n -> m' (cell_addr c' r') = 32 /\ m' (cell_addr c' r' + 1) = attr v) /\
  same_outside (in_block (cell_addr 0 r) (160 * Z.of_nat n)) (vmem v) m'.
Proof using.
  induction n as [|n IH]; intros r v Hr Hn.
  - exists (vmem v). split; [by rewrite with_mem_id|]. split; [intros; lia|apply same_outside_refl].
  - cbn [each_col]. destruct (blank_cols_ok r (Z.to_nat VGA_COLS) 0 v) as (m1 & E1 & Hm1 & Hs1); [lia|lia|unfold VGA_COLS; lia|].
    destruct (IH (r + 1) (with_mem m1 v)) as (m' & E & Hm' & Hs); [lia..|]. exists m'.
    cbn [vmem with_mem attr] in *. change (2 * Z.of_nat (Z.to_nat VGA_COLS)) with 160 in Hs1.
    change (Z.of_nat (Z.to_nat VGA_COLS)) with 80 in Hm1.
    split; [erewrite stbind_step by exact E1; exact E|]. split.
    + intros c' r' Hc' Hr'. destruct (Z.eq_dec r' r) as [->|]; [|apply Hm'; lia].
      rewrite !Hs by (unfold in_block, cell_addr, VGA_COLS; lia). apply Hm1. lia.
    + intros x Hx. unfold in_block, cell_addr, VGA_COLS in *. rewrite Hs by lia. apply Hs1. lia.
Qed.

(** *** Screens *)

Lemma row_of_ext m m' r r' : (forall c, (c < 80)%nat -> cell_at m' c r' = cell_at m c r) -> row_of m' r' = row_of m r.
Proof using. intros E. apply map_ext_in. intros c Hc%in_seq. apply E. lia. Qed.

Lemma row_of_blank m r a : (forall c, (c < 80)%nat -> cell_at m c r = (32, a)) -> row_of m r = blank_row a.
Proof using.
  intros E. unfold row_of, blank_row. rewrite (map_ext_in _ (fun _ => (32, a))) by (intros c Hc%in_seq; apply E; lia).
  done.
Qed.

Lemma screen_blank m a : (forall c r, (c < 80)%nat -> (r < 25)%nat -> cell_at m c r = (32, a)) ->
  screen m = replicate 25 (blank_row a).
Proof using.
  intros E. unfold screen. rewrite (map_ext_in _ (fun _ => blank_row a)); [done|].
  intros r Hr%in_seq. apply row_of_blank. intros c Hc. apply E; lia.
Qed.

Lemma screen_put m c r ch a : (c < 80)%nat -> (r < 25)%nat ->
  screen (set_cell m (cell_addr (Z.of_nat c) (Z.of_nat r)) ch a) = put_cell (screen m) c r (ch, a).
Proof using.
  intros Hc Hr. set (m' := set_cell _ _ _ _).
  assert (Hne : forall c' r', (c' < 80)%nat -> (c', r') <> (c, r) -> cell_at m' c' r' = cell_at m c' r').
  { intros c' r' Hc' Hne. unfold cell_at, m'. rewrite !set_cell_spec. unfold cell_addr, VGA_COLS.
    destruct (decide (r' = r)) as [->|]; [assert (c' <> c) by congruence|];
      by rewrite !(proj2 (Z.eqb_neq _ _)) by lia. }
  assert (Heq : cell_at m' c r = (ch, a)).
  { unfold cell_at, m'. rewrite !set_cell_spec, !Z.eqb_refl. by rewrite (proj2 (Z.eqb_neq _ _)) by lia. }
  clearbody m'. apply list_eq. intros i. unfold put_cell, screen.
  destruct (decide (i = r)) as [->|Hir].
  - rewrite list_lookup_alter_eq, !list_lookup_fmap, !lookup_seq_lt by done. cbn [fmap option_fmap option_map]. f_equal.
    apply list_eq. intros j. unfold row_of. destruct (decide (j = c)) as [->|Hjc].
    + rewrite list_lookup_insert_eq by (rewrite length_map, length_seq; done).
      rewrite list_lookup_fmap, lookup_seq_lt by done. cbn. by rewrite Heq.
    + rewrite list_lookup_insert_ne by done. rewrite !list_lookup_fmap.
      destruct (seq 0 80 !! j) as [k|] eqn:Ek; [|done]. apply lookup_seq in Ek as [-> Hj]. cbn. f_equal.
      apply Hne; [lia|congruence].
  - rewrite list_lookup_alter_ne by done. rewrite !list_lookup_fmap.
    destruct (seq 0 25 !! i) as [k|] eqn:Ek; [|done]. apply lookup_seq in Ek as [-> Hi]. cbn. f_equal.
    apply row_of_ext. intros j Hj. apply Hne; [done|congruence].
Qed.

Lemma drop_rows {A} (f : nat -> A) : drop 1 (map f (seq 0 25)) = map f (seq 1 24).
Proof using. done. Qed.

Lemma scroll_up_ok (v : vga D) : exists m', scroll_up v = Ret (tt, with_mem m' v) /\
  screen m' = drop 1 (screen (vmem v)) ++ [blank_row (attr v)] /\
  same_outside (in_block VGA_BUFFER_ADDR 4000) (vmem v) m'.
Proof using.
  destruct (vga_copy_rows_ok (Z.to_nat (VGA_ROWS - 1)) 1 v) as (m1 & E1 & Hm1); [lia|unfold VGA_ROWS; lia|].
  destruct (blank_cols_ok (VGA_ROWS - 1) (Z.to_nat VGA_COLS) 0 (with_mem m1 v)) as (m2 & E2 & Hm2 & Hs2);
    [unfold VGA_ROWS; lia|lia|unfold VGA_COLS; lia|].
  exists m2. cbn [vmem with_mem attr] in *. split; [unfold scroll_up; by erewrite stbind_step by exact E1|].
  change (Z.of_nat (Z.to_nat (VGA_ROWS - 1))) with 24 in Hm1. change (Z.of_nat (Z.to_nat VGA_COLS)) with 80 in *.
  change (VGA_ROWS - 1) with 24 in *. change (cell_addr 0 (1 - 1)) with VGA_BUFFER_ADDR in Hm1. split.
  - assert (E25 : seq 0 25 = seq 0 24 ++ [24%nat]) by done. unfold screen. rewrite E25 at 1. rewrite map_app. f_equal.
    + rewrite drop_rows, <- seq_shift, map_map. apply map_ext_in. intros r Hr%in_seq. apply row_of_ext. intros c Hc.
      unfold cell_at. rewrite !Hs2 by (unfold in_block, cell_addr, VGA_COLS; lia). rewrite !Hm1.
      unfold cell_addr, VGA_COLS. rewrite !(proj2 (Z.leb_le _ _)), !(proj2 (Z.ltb_lt _ _)) by lia. cbn [andb].
      f_equal; f_equal; lia.
    + cbn [map]. f_equal. apply row_of_blank. intros c Hc. unfold cell_at. change (Z.of_nat 24) with 24.
      destruct (Hm2 (Z.of_nat c)) as [-> ->]; [lia|done].
  - clear E1 E2. intros x Hx. rewrite Hs2, Hm1 by (unfold in_block, cell_addr, VGA_COLS in *; lia). clear Hs2 Hm2 Hm1.
    unfold in_block in Hx. set (b := VGA_BUFFER_ADDR) in *. clearbody b.
    destruct (Z.lt_ge_cases x b); [by rewrite (proj2 (Z.leb_gt _ _))|].
    rewrite (proj2 (Z.ltb_ge _ _)) by lia. by rewrite andb_false_r.
Qed.
End Cells.

Section Console.
Context `{Profile} {D : Type} `{CrtcDevice D}.

(** A console after an operation that only touches the screen. *)
Definition moved (v v' : vga D) (t : term) : Prop :=
  vga_ok v' /\ term_of v' = t /\ crtc v' = crtc v /\ same_outside (in_block VGA_BUFFER_ADDR 4000) (vmem v) (vmem v').

Lemma newline_ok v : vga_ok v -> exists v', newline v = Ret (tt, v') /\ moved v v' (term_newline (term_of v)).
Proof.
  intros [Hc Hr]. unfold VGA_COLS, VGA_ROWS in *. unfold newline. erewrite stbind_step by done.
  erewrite stbind_step by done. cbn [row with_cursor].
  erewrite stbind_step by (by rewrite add_ok by (unfold fits, usize_bits; lia)). cbv beta.
  unfold VGA_ROWS. destruct (Z.leb_spec 25 (row v + 1)).
  - destruct (scroll_up_ok (with_cursor 0 (row v) v)) as (m' & E & Hs & Hf). erewrite stbind_step by exact E.
    eexists. split; [done|]. split; [split; cbn; unfold VGA_COLS, VGA_ROWS; lia|]. split; [|split; [done|exact Hf]].
    unfold term_newline, term_of. cbn [vmem with_mem with_cursor col row attr grid tcol trow tattr] in *.
    rewrite decide_True by lia. by rewrite Hs.
  - erewrite stbind_step by (by rewrite add_ok by (unfold fits, usize_bits; lia)). eexists. split; [done|].
    split; [split; cbn; unfold VGA_COLS, VGA_ROWS; lia|]. split; [|split; [done|apply same_outside_refl]].
    unfold term_newline, term_of. cbn [vmem with_cursor col row attr grid tcol trow tattr].
    rewrite decide_False by lia. f_equal. lia.
Qed.

Lemma set_cell_frame m c r ch a : 0 <= c < 80 -> 0 <= r < 25 ->
  same_outside (in_block VGA_BUFFER_ADDR 4000) m (set_cell m (cell_addr c r) ch a).
Proof.
  intros Hc Hr x Hx. rewrite set_cell_spec. unfold in_block, cell_addr, VGA_COLS in *. set (b := VGA_BUFFER_ADDR) in *.
  clearbody b. by rewrite !(proj2 (Z.eqb_neq _ _)) by lia.
Qed.

(** The cases of [write_byte] before the hardware cursor is set. *)
Definition byte_effect (byte : Z) : st (vga D) unit :=
  if byte =? 10 then newline
  else if byte =? 13 then modify (fun v => with_cursor 0 (row v) v)
  else if byte =? 8 then
    v ← get;
    _ ← (if 0 <? col v then
           c ← lift (sub usize_bits (col v) 1); modify (fun v => with_cursor c (row v) v)
         else mret tt);
    v ← get;
    write_cell (col v) (row v) 32 (attr v)
  else
    v ← get;
    _ ← write_cell (col v) (row v) byte (attr v);
    advance_cursor.

Lemma backspace_ok v : vga_ok v -> exists v', byte_effect 8 v = Ret (tt, v') /\ moved v v' (term_byte (term_of v) 8).
Proof.
  intros [Hc Hr]. unfold VGA_COLS, VGA_ROWS in *. unfold byte_effect, term_byte. cbn [Z.eqb Pos.eqb].
  erewrite stbind_step by done. set (c' := if 0 <? col v then col v - 1 else col v).
  erewrite stbind_step.
  2: { instantiate (1 := with_cursor c' (row v) v). instantiate (1 := tt). unfold c'. destruct (Z.ltb_spec 0 (col v)).
       - by erewrite stbind_step by (by rewrite sub_ok by (unfold fits, usize_bits; lia)).
       - by destruct v. }
  assert (0 <= c' < 80) by (unfold c'; destruct (Z.ltb_spec 0 (col v)); lia).
  erewrite stbind_step by done. cbn [col row attr with_cursor]. rewrite write_cell_ok by lia.
  eexists. split; [done|]. split; [split; cbn; unfold VGA_COLS, VGA_ROWS; lia|].
  split; [|split; [done|cbn [vmem with_mem with_cursor]; by apply set_cell_frame]].
  unfold term_of. cbn [vmem with_mem with_cursor col row attr grid tcol trow tattr].
  replace (pred (Z.to_nat (col v))) with (Z.to_nat c') by (unfold c'; destruct (Z.ltb_spec 0 (col v)); lia).
  rewrite <- screen_put by lia. by rewrite !Z2Nat.id by lia.
Qed.

Lemma put_ok b v : vga_ok v -> exists v',
  (v ← get; _ ← write_cell (col v) (row v) b (attr v); advance_cursor) v = Ret (tt, v') /\ moved v v' (term_put (term_of v) b).
Proof.
  intros [Hc Hr]. unfold VGA_COLS, VGA_ROWS in *. erewrite stbind_step by done.
  erewrite stbind_step by (by rewrite write_cell_ok by lia). set (m' := set_cell _ _ _ _).
  assert (Es : screen m' = put_cell (screen (vmem v)) (Z.to_nat (col v)) (Z.to_nat (row v)) (b, attr v)).
  { unfold m'. rewrite <- screen_put by lia. by rewrite !Z2Nat.id by lia. }
  assert (Ef : same_outside (in_block VGA_BUFFER_ADDR 4000) (vmem v) m') by (by apply set_cell_frame).
  clearbody m'. unfold advance_cursor. erewrite stbind_step by done. cbn [col with_mem].
  erewrite stbind_step by (by rewrite add_ok by (unfold fits, usize_bits; lia)). erewrite stbind_step by done.
  cbv beta. unfold VGA_COLS. unfold term_put, term_of. cbn [grid tcol trow tattr]. rewrite <- Es.
  destruct (Z.leb_spec 80 (col v + 1)).
  - rewrite decide_True by lia. erewrite stbind_step by done.
    destruct (newline_ok (with_cursor 0 (row v) (with_cursor (col v + 1) (row v) (with_mem m' v)))) as (v' & E & Hv' & Et & Ecr & Hf).
    { split; cbn; unfold VGA_COLS, VGA_ROWS; lia. }
    exists v'. cbn [with_cursor with_mem col row attr vmem crtc] in *. split; [exact E|]. split; [done|].
    split; [|split; [done|by eapply same_outside_trans]]. rewrite Et. unfold term_newline, term_of. by cbn.
  - rewrite decide_False by lia. eexists. split; [done|]. split; [split; cbn; unfold VGA_COLS, VGA_ROWS; lia|].
    split; [|split; [done|exact Ef]]. unfold term_of. cbn. f_equal. lia.
Qed.

Lemma byte_effect_ok b v : vga_ok v -> exists v', byte_effect b v = Ret (tt, v') /\ moved v v' (term_byte (term_of v) b).
Proof.
  intros Hv. unfold byte_effect, term_byte. destruct (Z.eqb_spec b 10); [by apply newline_ok|].
  destruct (Z.eqb_spec b 13).
  { eexists. split; [done|]. destruct Hv as [Hc Hr]. unfold VGA_COLS, VGA_ROWS in *.
    split; [split; cbn; unfold VGA_COLS, VGA_ROWS; lia|]. split; [done|]. split; [done|apply same_outside_refl]. }
  destruct (Z.eqb_spec b 8); [|by apply put_ok]. destruct (backspace_ok v Hv) as (v' & E & M). exists v'. split; [exact E|exact M].
Qed.

Lemma update_hw_cursor_ok v : vga_ok v -> exists d', update_hw_cursor v = Ret (tt, with_crtc d' v) /\
  hw_cursor d' = row v * 80 + col v.
Proof.
  intros [Hc Hr]. unfold VGA_COLS, VGA_ROWS in *. unfold update_hw_cursor. erewrite stbind_step by done.
  erewrite stbind_step by (rewrite mul_ok by (unfold fits, usize_bits, VGA_COLS; lia); done).
  erewrite stbind_step by (rewrite add_ok by (unfold fits, usize_bits, VGA_COLS; lia); done). cbv zeta.
  do 3 erewrite stbind_step by done. eexists. split; [done|]. cbn [crtc with_crtc]. unfold VGA_COLS.
  set (p := row v * 80 + col v). assert (Hp : 0 <= p < 2000) by lia. clearbody p.
  assert (Hw : wrap 16 p = p) by (apply Z.mod_small; lia). rewrite !Hw. unfold hw_cursor.
  set (d1 := out8 CRTC_ADDR_PORT CRTC_CURSOR_HIGH (crtc v)). set (d2 := out8 CRTC_DATA_PORT _ d1).
  set (d3 := out8 CRTC_ADDR_PORT CRTC_CURSOR_LOW d2).
  destruct (select CRTC_CURSOR_HIGH (crtc v)) as [S1 _]. fold d1 in S1.
  destruct (write_reg (wrap 8 (Z.shiftr p 8)) d1) as [_ R2]. fold d2 in R2.
  destruct (select CRTC_CURSOR_LOW d2) as [S3 R3]. fold d3 in S3, R3.
  destruct (write_reg (Z.land p 0xff) d3) as [_ R4].
  rewrite !R4, S3, R3, R2, S1, Z.eqb_refl. cbn [CRTC_CURSOR_HIGH CRTC_CURSOR_LOW Z.eqb Pos.eqb].
  rewrite Z.shiftr_div_pow2 by lia. assert (Z.land p 0xff = p mod 2 ^ 8) as -> by (apply (land_mask p 8); lia). unfold wrap.
  assert (0 <= p / 2 ^ 8 < 2 ^ 8) by (split; [apply Z.div_pos; lia|apply Z.div_lt_upper_bound; lia]).
  rewrite (Z.mod_small (p / 2 ^ 8)) by done. pose proof (Z.div_mod p (2 ^ 8)). lia.
Qed.

(** What holds after a call: the cursor is on the screen, the screen shows
    [t], the hardware cursor is at the cursor, and only the buffer changed. *)
Definition shows (v v' : vga D) (t : term) : Prop :=
  vga_ok v' /\ term_of v' = t /\ hw_cursor (crtc v') = row v' * 80 + col v' /\
  same_outside (in_block VGA_BUFFER_ADDR 4000) (vmem v) (vmem v').

Lemma cursor_shows v v1 t : moved v v1 t -> exists v', update_hw_cursor v1 = Ret (tt, v') /\ shows v v' t.
Proof.
  intros (Hv & Et & _ & Hf). destruct (update_hw_cursor_ok v1 Hv) as (d' & E & Hh). exists (with_crtc d' v1).
  split; [exact E|]. split; [exact Hv|]. split; [exact Et|]. split; [exact Hh|exact Hf].
Qed.

Lemma vga_write_byte_ok b v : vga_ok v -> exists v', vga_write_byte b v = Ret (tt, v') /\ shows v v' (term_byte (term_of v) b).
Proof.
  intros Hv. destruct (byte_effect_ok b v Hv) as (v1 & E1 & M). destruct (cursor_shows v v1 _ M) as (v' & E & S).
  exists v'. split; [|exact S]. unfold vga_write_byte. fold (byte_effect b). by erewrite stbind_step by exact E1.
Qed.

Lemma vga_write_ok s : forall v, vga_ok v -> hw_cursor (crtc v) = row v * 80 + col v ->
  exists v', write_str s v = Ret (tt, v') /\ shows v v' (term_write (term_of v) s).
Proof.
  induction s as [|b s IH]; intros v Hv Hh.
  - exists v. split; [done|]. split; [done|]. split; [done|]. split; [done|apply same_outside_refl].
  - destruct (vga_write_byte_ok b v Hv) as (v1 & E1 & Hv1 & Et1 & Hh1 & Hf1).
    destruct (IH v1 Hv1 Hh1) as (v' & E & Hv' & Et & Hh' & Hf). exists v'.
    split; [cbn [write_str write_byte vga_console]; by erewrite stbind_step by exact E1|].
    split; [done|]. split; [by rewrite Et, Et1|]. split; [done|by eapply same_outside_trans].
Qed.

Lemma vga_clear_ok v : exists v', vga_clear v = Ret (tt, v') /\ shows v v' (term_clear (attr v)).
Proof.
  destruct (blank_rows_ok (Z.to_nat VGA_ROWS) 0 v) as (m' & E & Hb & Hf); [lia|unfold VGA_ROWS; lia|].
  change (Z.of_nat (Z.to_nat VGA_ROWS)) with 25 in *.
  destruct (cursor_shows v (with_cursor 0 0 (with_mem m' v)) (term_clear (attr v))) as (v' & E' & S).
  - split; [split; cbn; unfold VGA_COLS, VGA_ROWS; lia|]. split; [|split; [done|exact Hf]].
    unfold term_of, term_clear. cbn [vmem with_cursor with_mem col row attr]. f_equal.
    apply screen_blank. intros c r Hc Hr. unfold cell_at. destruct (Hb (Z.of_nat c) (Z.of_nat r)) as [-> ->]; [lia|lia|done].
  - exists v'. split; [|exact S]. unfold vga_clear. erewrite stbind_step by exact E. by erewrite stbind_step by done.
Qed.

Lemma boot_sink_ok s v : exists v', boot_sink_write s v = Ret (tt, v') /\
  shows v v' (term_write (term_clear 7) s).
Proof.
  destruct (vga_clear_ok (mkVga (vmem v) 0 0 (make_attr LightGray Black) (crtc v))) as (v1 & E1 & Hv1 & Et1 & Hh1 & Hf1).
  destruct (vga_write_ok s v1 Hv1 Hh1) as (v' & E & Hv' & Et & Hh & Hf). exists v'. split.
  - unfold boot_sink_write. erewrite stbind_step; [exact E|]. unfold vga_new. by erewrite stbind_step by done.
  - split; [done|]. split; [by rewrite Et, Et1|]. split; [done|by eapply same_outside_trans].
Qed.
End Console.

(** ** Theorems *)

Section Claims.
Context `{Profile} {D : Type} `{CrtcDevice D}.

(** C18: the console implements the terminal: from a cursor on the screen,
    writing any bytes returns, the buffer then shows what the terminal shows,
    scrolled rows, line ends, carriage returns and backspaces included, the
    hardware cursor is at the cursor, which is on the screen, and no byte
    outside the 4000 of the text buffer changes; clearing blanks every cell. *)
Theorem vga_refines_terminal s v : vga_ok v -> hw_cursor (crtc v) = row v * 80 + col v ->
  (exists v', write_str s v = Ret (tt, v') /\ shows v v' (term_write (term_of v) s)) /\
  (exists v', cclear v = Ret (tt, v') /\ shows v v' (term_clear (attr v))).
Proof. intros Hv Hh. split; [by apply vga_write_ok|by apply vga_clear_ok]. Qed.

(** the boot log loses all but its last record: after writing any number of
    records the screen shows what writing the last one alone to a blank
    screen shows. *)
Theorem boot_sink_last_record records s v : exists v' v1,
  foldl (fun k r => _ ← k; boot_sink_write r) (mret tt) (records ++ [s]) v = Ret (tt, v') /\
  boot_sink_write s v = Ret (tt, v1) /\ term_of v' = term_of v1 /\ term_of v' = term_write (term_clear 7) s.
Proof.
  assert (Hall : forall l w, exists w', foldl (fun k r => _ ← k; boot_sink_write r) (mret tt) l w = Ret (tt, w')).
  { induction l as [|r l IH] using rev_ind; intros w; [by exists w|]. rewrite foldl_app. cbn [foldl].
    destruct (IH w) as (w1 & E1). erewrite stbind_step by exact E1.
    destruct (boot_sink_ok r w1) as (w' & E & _). by exists w'. }
  destruct (Hall records v) as (v1 & E1). destruct (boot_sink_ok s v1) as (v' & E & _ & Et & _).
  destruct (boot_sink_ok s v) as (v2 & E2 & _ & Et2 & _). exists v', v2.
  split; [rewrite foldl_app; cbn [foldl]; by erewrite stbind_step by exact E1|].
  split; [done|]. split; [by rewrite Et, Et2|done].
Qed.
End Claims.

(** ** A controller *)

Record Crtc := mkCrtc { index : Z; cregs : Z -> Z }.

#[export] Instance crtc_ports : PortIo Crtc := {
  in8 p d := (0, d);
  out8 p x d :=
    if p =? CRTC_ADDR_PORT then mkCrtc x (cregs d)
    else if p =? CRTC_DATA_PORT then mkCrtc (index d) (fun j => if j =? index d then x else cregs d j)
    else d;
}.

#[export] Program Instance crtc_device : CrtcDevice Crtc := { selected := index; creg := cregs }.
Next Obligation. done. Qed.
Next Obligation. done. Qed.

(** ** Witnesses *)

#[local] Instance debug_profile : Profile := Build_Profile true.

Definition demo_vga : vga Crtc := mkVga (fun _ => 0) 79 24 7 (mkCrtc 0 (fun j => if j =? 0x0e then 7 else 207)).

Lemma vga_refines_terminal_witness : exists v', write_str [72; 105; 10] demo_vga = Ret (tt, v') /\
  term_of v' = term_write (term_of demo_vga) [72; 105; 10] /\ hw_cursor (crtc v') = row v' * 80 + col v'.
Proof.
  destruct (vga_refines_terminal [72; 105; 10] demo_vga) as [(v' & E & _ & Et & Hh & _) _];
    [split; cbn; unfold VGA_COLS, VGA_ROWS; lia|reflexivity|].
  exists v'. split; [exact E|]. split; [exact Et|exact Hh].
Defined.

Lemma boot_sink_last_record_witness : exists v' v1,
  foldl (fun k r => _ ← k; boot_sink_write r) (mret tt) ([[72]; [73]] ++ [[74; 10]]) demo_vga = Ret (tt, v') /\
  boot_sink_write [74; 10] demo_vga = Ret (tt, v1) /\ term_of v' = term_of v1 /\
  term_of v' = term_write (term_clear 7) [74; 10].
Proof. apply (boot_sink_last_record [[72]; [73]] [74; 10] demo_vga). Defined.
