(* ===== verification/Logger.v ===== *)
(** * The kernel logger (kernel/src/logger.rs, kernel/src/subsystems/boot_sinks)

    Filtering, formatting into a fixed buffer, and delivery to the boot sink
    or to the runtime sinks.  Sinks act on a world [W]; the serial sink and the
    logger's lock are in [Locks].  The [log] crate, which calls the logger, and
    its text for a level are outside. *)
From S2P Require Import Prelude Memory Mmio Utf8 BlockDev BTree Devices Vga.

(** ** The fixed-size buffer *)

Record FmtBuf := mkBuf { fbytes : list Z; pos : Z }.

Definition buf_new (n : Z) : FmtBuf := mkBuf (zeros n) 0.

Section Buffer.
Context `{Profile}.

(** [FmtBuf::as_str]: the bytes are not checked. *)
Definition as_str (b : FmtBuf) : outcome (list Z) := slice (fbytes b) 0 (pos b).

Definition buf_write_str (s : list Z) (b : FmtBuf) : outcome FmtBuf :=
  let space := saturating_sub (Z.of_nat (length (fbytes b))) (pos b) in
  let n := Z.min (Z.of_nat (length s)) space in
  bytes ← splice (fbytes b) (pos b) (take (Z.to_nat n) s);
  p ← add usize_bits (pos b) n;
  Ret (mkBuf bytes p).

Fixpoint write_pieces (pieces : list (list Z)) (b : FmtBuf) : outcome FmtBuf :=
  match pieces with
  | [] => Ret b
  | s :: pieces => b ← buf_write_str s b; write_pieces pieces b
  end.
End Buffer.

(** ** The logger *)

Definition level_from_u8 (v : Z) : Z := if (0 <=? v) && (v <=? 4) then v else 5.

(** A record: its level, from 1 (error) to 5 (trace), its target, and the
    pieces its arguments format to. *)
Record record := mkRecord { rlevel : Z; target : list Z; args : list (list Z) }.

Section Logger.
Context `{Profile} {W : Type}.
Context (level_text : Z -> list Z) (boot_console : list Z -> st W unit).

Definition sink : Type := list Z -> st W unit.

Inductive LoggerMode := Boot | Runtime (sinks : list sink).

Record KernelLogger := mkLogger { mode : LoggerMode; max_level : Z }.

Definition LOGGER : KernelLogger := mkLogger Boot 3.

(** [set_logger] fails when a logger is installed already. *)
Definition init (installed : bool) (level : Z) : st (KernelLogger * W) unit :=
  _ ← modify (fun '(_, w) => (mkLogger Boot level, w));
  if installed then panic else mret tt.

Definition attach_runtime (sinks : list sink) : st (KernelLogger * W) unit :=
  modify (fun '(l, w) => (mkLogger (Runtime sinks) (max_level l), w)).

Definition enabled (l : KernelLogger) (level : Z) : bool := level <=? level_from_u8 (max_level l).

(** [write!(buf, "[{:<5} {}] {}\n", ..)]; the level's text is padded. *)
Definition line_pieces (r : record) : list (list Z) :=
  [[91]; level_text (rlevel r); [32]; target r; [93; 32]] ++ args r ++ [[10]].

Definition format_record (r : record) : outcome (list Z) := b ← write_pieces (line_pieces r) (buf_new 512); as_str b.

Fixpoint each_sink (sinks : list sink) (s : list Z) : st W unit :=
  match sinks with
  | [] => mret tt
  | sink :: sinks => _ ← sink s; each_sink sinks s
  end.

Definition log (r : record) : st (KernelLogger * W) unit := fun '(l, w) =>
  if negb (enabled l (rlevel r)) then Ret (tt, (l, w))
  else
    match (s ← lift (format_record r);
           match mode l with Boot => boot_console s | Runtime sinks => each_sink sinks s end) w with
    | Ret (_, w) => Ret (tt, (l, w))
    | Panic => Panic
    | OutOfFuel => OutOfFuel
    end.
End Logger.
Arguments LoggerMode : clear implicits.
Arguments KernelLogger : clear implicits.

(** ** Sinks *)

(** [todo!()] and [NullSink]; the x86 sink is [Vga.boot_sink_write]. *)
Definition arm_boot_sink {W} (s : list Z) : st W unit := panic.
Definition null_sink {W} (s : list Z) : st W unit := mret tt.

(** ** Lemmas *)

(** Well-formed bytes before bytes leave those to be checked. *)
Lemma utf8_app n : forall a b, (length a <= n)%nat -> is_utf8 a = true -> is_utf8 (a ++ b) = is_utf8 b.
Proof.
  induction n as [|n IH]; intros a b Hl Ha; [by destruct a; [|cbn in Hl; lia]|].
  destruct a as [|b0 a]; [done|]. cbn [app is_utf8 length] in *. destruct (b0 <? 0x80); [apply IH; [lia|done]|].
  destruct a as [|c1 a]; [done|]. cbn [app length] in *. destruct (between 0xc2 b0 0xdf).
  { apply andb_true_iff in Ha as [-> Ha]. apply IH; [lia|done]. }
  destruct a as [|c2 a]; [done|]. cbn [app length] in *. destruct (between 0xe0 b0 0xef).
  { apply andb_true_iff in Ha as [[-> ->]%andb_true_iff Ha]. apply IH; [lia|done]. }
  destruct a as [|c3 a]; [done|]. cbn [app length] in *.
  apply andb_true_iff in Ha as [[[[-> ->]%andb_true_iff ->]%andb_true_iff ->]%andb_true_iff Ha]. apply IH; [lia|done].
Qed.

Lemma utf8_concat pieces : Forall (fun s => is_utf8 s = true) pieces -> is_utf8 (concat pieces) = true.
Proof. induction 1 as [|s l Hs _ IH]; [done|]. cbn [concat]. by erewrite utf8_app. Qed.

Section Format.
Context `{Profile}.

(** A buffer that holds what fits of the text so far. *)
Definition holds (n : Z) (b : FmtBuf) (text : list Z) : Prop :=
  length (fbytes b) = Z.to_nat n /\ pos b = Z.min n (Z.of_nat (length text)) /\
  take (Z.to_nat (pos b)) (fbytes b) = take (Z.to_nat n) text.

Lemma write_str_ok n b text s : 0 <= n < 2 ^ 31 -> holds n b text ->
  exists b', buf_write_str s b = Ret b' /\ holds n b' (text ++ s).
Proof.
  intros Hn (Hl & Hp & Ht). unfold buf_write_str. rewrite Hl, Z2Nat.id by lia.
  assert (saturating_sub n (pos b) = n - pos b) as -> by (unfold saturating_sub; lia).
  set (k := Z.min (Z.of_nat (length s)) (n - pos b)). assert (0 <= k <= n - pos b) as Hk by lia.
  assert (length (take (Z.to_nat k) s) = Z.to_nat k) as Hlk by (rewrite length_take; lia).
  unfold splice. rewrite Hlk, Hl, (proj2 (Z.leb_le 0 _)), (proj2 (Z.leb_le _ _)) by lia. cbn [andb mbind outcome_bind].
  rewrite add_ok by (unfold fits, usize_bits; lia). cbn [mbind outcome_bind]. eexists. split; [done|].
  assert (length (take (Z.to_nat (pos b)) (fbytes b)) = Z.to_nat (pos b)) as Hlp by (rewrite length_take; lia).
  unfold holds. cbn [fbytes pos]. split; [|split].
  - rewrite !length_app, length_drop, Hlk, Hlp. lia.
  - rewrite length_app. lia.
  - replace (Z.to_nat (pos b + k)) with (Z.to_nat (pos b) + Z.to_nat k)%nat by lia.
    rewrite app_assoc, take_app_length' by (rewrite length_app, Hlp, Hlk; done). rewrite Ht, take_app.
    f_equal. destruct (Z.le_gt_cases n (Z.of_nat (length text))).
    + replace (Z.to_nat k) with 0%nat by lia. by replace (Z.to_nat n - length text)%nat with 0%nat by lia.
    + replace (Z.to_nat n - length text)%nat with (Z.to_nat (n - pos b)) by lia.
      destruct (Z.le_gt_cases (Z.of_nat (length s)) (n - pos b)).
      * rewrite !take_ge by lia. done.
      * by replace (Z.to_nat k) with (Z.to_nat (n - pos b)) by lia.
Qed.

Lemma write_pieces_ok n pieces : forall b text, 0 <= n < 2 ^ 31 -> holds n b text ->
  exists b', write_pieces pieces b = Ret b' /\ holds n b' (text ++ concat pieces).
Proof.
  induction pieces as [|s pieces IH]; intros b text Hn Hb; cbn [write_pieces concat].
  { exists b. by rewrite app_nil_r. }
  destruct (write_str_ok n b text s Hn Hb) as (b1 & E1 & Hb1). rewrite E1. cbn [mbind outcome_bind].
  destruct (IH b1 (text ++ s) Hn Hb1) as (b' & E & Hb'). exists b'. split; [done|]. by rewrite <- app_assoc in Hb'.
Qed.

(** The line is what fits of the pieces. *)
Lemma format_record_ok level_text r : format_record level_text r = Ret (take 512 (concat (line_pieces level_text r))).
Proof.
  unfold format_record. destruct (write_pieces_ok 512 (line_pieces level_text r) (buf_new 512) []) as (b & E & Hl & Hp & Ht);
    [lia|done|]. rewrite E. cbn [mbind outcome_bind]. unfold as_str, slice. cbn [app] in *.
  rewrite Hl, (proj2 (Z.leb_le 0 (pos b))), (proj2 (Z.leb_le (pos b) _)) by lia. cbn [Z.leb Z.compare andb Z.to_nat].
  rewrite drop_0, Z.sub_0_r, Ht. done.
Qed.
End Format.

(** ** Theorems *)

Section Claims.
Context `{Profile}.

(** A record above the level of the logger changes nothing; any other is
    formatted into its line, cut to 512 bytes, and the line goes to the boot
    console in boot mode and to every runtime sink in turn afterwards.  The
    level is read back from its byte, everything from 5 up as trace. *)
Theorem log_delivery {W : Type} level_text (boot_console : list Z -> st W unit) l r w :
  let line := take 512 (concat (line_pieces level_text r)) in
  log level_text boot_console r (l, w) =
  if level_from_u8 (max_level l) <? rlevel r then Ret (tt, (l, w))
  else
    match (match mode l with Boot => boot_console line | Runtime sinks => each_sink sinks line end) w with
    | Ret (_, w') => Ret (tt, (l, w'))
    | Panic => Panic
    | OutOfFuel => OutOfFuel
    end.
Proof.
  cbn zeta. unfold log, enabled. rewrite <- Z.ltb_antisym. destruct (level_from_u8 (max_level l) <? rlevel r); [done|].
  unfold mbind, st_bind, lift. by rewrite format_record_ok.
Qed.

(** The bytes the logger takes for a string without checking them are
    well-formed UTF-8 whenever the line fits into its buffer; a line that does
    not fit can be cut inside a character, and then they are not. *)
Theorem log_line_utf8 level_text : is_utf8 (level_text 3) = true -> length (level_text 3) = 5%nat ->
  (forall r, is_utf8 (level_text (rlevel r)) = true -> is_utf8 (target r) = true -> Forall (fun s => is_utf8 s = true) (args r) ->
     (length (concat (line_pieces level_text r)) <= 512)%nat ->
     exists s, format_record level_text r = Ret s /\ is_utf8 s = true) /\
  (exists r s, is_utf8 (target r) = true /\ Forall (fun s => is_utf8 s = true) (args r) /\
     format_record level_text r = Ret s /\ is_utf8 s = false).
Proof.
  intros Hu Hl5. split.
  - intros r Hlv Ht Ha Hl. eexists. split; [apply format_record_ok|]. rewrite take_ge by lia.
    apply utf8_concat. unfold line_pieces. apply Forall_app. split; [by repeat constructor|].
    apply Forall_app. split; [done|]. by repeat constructor.
  - (* 502 letters and an e with an acute accent *)
    set (msg := replicate 502 97 ++ [0xc3; 0xa9]). exists (mkRecord 3 [] [msg]). eexists. split; [done|].
    split; [constructor; [by vm_compute|constructor]|]. split; [apply format_record_ok|].
    unfold line_pieces. cbn [rlevel target args app concat].
    assert (Hcat : take 512 (91 :: level_text 3 ++ 32 :: 93 :: 32 :: (msg ++ [10])) =
      ([91] ++ level_text 3 ++ [32; 93; 32] ++ replicate 502 97) ++ [0xc3]).
    { destruct (level_text 3) as [|a0 [|a1 [|a2 [|a3 [|a4 [|]]]]]]; try done. }
    rewrite Hcat. rewrite (utf8_app (length ([91] ++ level_text 3 ++ [32; 93; 32] ++ replicate 502 97))); [by vm_compute|done|].
    apply (utf8_concat [[91]; level_text 3; [32; 93; 32]; replicate 502 97] ltac:(by repeat constructor)).
Qed.

(** C36: The boot log on a PC: after any number of records the screen shows
    the line of the last enabled one alone, from the top of a blank screen. *)
Theorem boot_log_screen {D : Type} `{CrtcDevice D} level_text records r (v : vga D) :
  let l := mkLogger (W := vga D) Boot 3 in rlevel r <= 3 ->
  exists v', foldl (fun k q => _ ← k; log level_text boot_sink_write q) (mret tt) (records ++ [r]) (l, v) = Ret (tt, (l, v')) /\
    term_of v' = term_write (term_clear 7) (take 512 (concat (line_pieces level_text r))).
Proof.
  intros l Hr. assert (Hlog : forall q w, exists w', log level_text boot_sink_write q (l, w) = Ret (tt, (l, w')) /\
    (rlevel q <= 3 -> term_of w' = term_write (term_clear 7) (take 512 (concat (line_pieces level_text q))))).
  { intros q w. unfold log, enabled. change (level_from_u8 (max_level l)) with 3.
    destruct (Z.leb_spec (rlevel q) 3); cbn [negb]; [|exists w; split; [done|lia]].
    unfold mbind, st_bind, lift. rewrite format_record_ok. cbn [mode l].
    destruct (boot_sink_ok (take 512 (concat (line_pieces level_text q))) w) as (w' & -> & _ & Et & _). by exists w'. }
  assert (Hall : forall qs w, exists w', foldl (fun k q => _ ← k; log level_text boot_sink_write q) (mret tt) qs (l, w) = Ret (tt, (l, w'))).
  { induction qs as [|q qs IH] using rev_ind; intros w; [by exists w|]. rewrite foldl_app. cbn [foldl].
    destruct (IH w) as (w1 & E1). destruct (Hlog q w1) as (w' & E & _). exists w'. by erewrite stbind_step by exact E1. }
  destruct (Hall records v) as (v1 & E1). destruct (Hlog r v1) as (v' & E & Et). exists v'.
  split; [|by apply Et]. rewrite foldl_app. cbn [foldl]. by erewrite stbind_step by exact E1.
Qed.
End Claims.

(** ** Witnesses *)

#[local] Instance debug_profile : Profile := Build_Profile true.

(** The [log] crate's names, padded to five characters. *)
Definition log_level_text (l : Z) : list Z :=
  if l =? 1 then [69; 82; 82; 79; 82] else if l =? 2 then [87; 65; 82; 78; 32] else if l =? 3 then [73; 78; 70; 79; 32]
  else if l =? 4 then [68; 69; 66; 85; 71] else [84; 82; 65; 67; 69].

Lemma log_line_utf8_witness : exists s, format_record log_level_text (mkRecord 3 [107] [[104; 105]]) = Ret s /\ is_utf8 s = true.
Proof.
  destruct (log_line_utf8 log_level_text eq_refl eq_refl) as [Hf _].
  apply Hf; [done|done|by repeat constructor|]. apply Nat.leb_le. by vm_compute.
Defined.

Lemma boot_log_screen_witness : exists v',
  foldl (fun k q => _ ← k; log log_level_text boot_sink_write q) (mret tt) ([mkRecord 1 [107] [[104]]] ++ [mkRecord 3 [107] [[105]]])
    (mkLogger Boot 3, demo_vga) = Ret (tt, (mkLogger Boot 3, v')) /\
  term_of v' = term_write (term_clear 7) (take 512 (concat (line_pieces log_level_text (mkRecord 3 [107] [[105]])))).
Proof. apply (boot_log_screen log_level_text [mkRecord 1 [107] [[104]]] (mkRecord 3 [107] [[105]]) demo_vga). cbn. lia. Defined.
