(* ===== verification/Locks.v ===== *)
(** * The locks of the running kernel

    The device manager, the mode of the logger and every device object sit
    behind a [spin::Mutex] of their own (kernel/src/subsystems/mod.rs,
    kernel/src/logger.rs, drivers/src/device_manager.rs).  This file has the
    accessors that take them, the runtime sink of the logger
    (kernel/src/subsystems/log_sinks) and logging with its lock; a lock that
    is taken is spun on until the fuel is gone.  Code that runs below a lock is
    written against [KernelOps], the operations on the shared state, of which
    [kernel] here is the implementation and [Trace] has one that also records
    what is done. *)
From S2P Require Import Prelude Devices Logger.

(** ** Definitions *)

Section Locks.
Context {H : Type} `{EqDecision H}.

(** Each handle is an [Arc<Mutex<..>>] with a lock of its own. *)
Inductive lock_id := ManagerLock | LoggerLock | ObjectLock (h : H).

#[export] Instance lock_id_eq_dec : EqDecision lock_id.
Proof. solve_decision. Defined.

Context {D : Type}.

(** The locks that are taken, the device manager once [init_devices] has made
    it, and the devices. *)
Record kernel := mkKernel { taken : list lock_id; manager : option (DeviceManager H); dev : D }.

Definition with_taken (f : list lock_id -> list lock_id) (s : kernel) : kernel :=
  mkKernel (f (taken s)) (manager s) (dev s).

(** [spin::Mutex::lock]. *)
Fixpoint acquire (fuel : nat) (l : lock_id) : st kernel unit := fun s =>
  match fuel with
  | O => OutOfFuel
  | S fuel => if decide (l ∈ taken s) then acquire fuel l s else Ret (tt, with_taken (cons l) s)
  end.

(** Dropping the guard. *)
Definition release (l : lock_id) : st kernel unit := modify (with_taken (filter (fun k => k <> l))).

Definition on_dev {A} (f : st D A) : st kernel A := fun s =>
  match f (dev s) with
  | Ret (a, d) => Ret (a, mkKernel (taken s) (manager s) d)
  | Panic => Panic
  | OutOfFuel => OutOfFuel
  end.
End Locks.
Arguments lock_id : clear implicits.
Arguments kernel : clear implicits.

(** What code does to the shared state: it takes and drops locks, reads the
    cell of the device manager, and runs code of the devices. *)
Class KernelOps (H D K : Type) := {
  k_acquire : nat -> lock_id H -> st K unit;
  k_release : lock_id H -> st K unit;
  k_cell : st K (option (DeviceManager H));
  k_dev {A} : st D A -> st K A;
}.

#[export] Instance kernel_ops {H D : Type} `{EqDecision H} : KernelOps H D (kernel H D) := {|
  k_acquire := acquire;
  k_release := release;
  k_cell := s ← Prelude.get; mret (manager s);
  k_dev A := on_dev (A := A);
|}.

(** The state of code that logs. *)
Definition running (H D : Type) : Type := KernelLogger (kernel H D) * kernel H D.

Definition on_kernel {K A} (f : st K A) : st (KernelLogger K * K) A := fun '(l, s) =>
  match f s with
  | Ret (a, s) => Ret (a, (l, s))
  | Panic => Panic
  | OutOfFuel => OutOfFuel
  end.

Section Accessors.
Context {H D K : Type} {Ops : KernelOps H D K}.

(** A body that runs while a temporary guard lives. *)
Definition locked {A} (fuel : nat) (l : lock_id H) (body : st K A) : st K A :=
  _ ← k_acquire fuel l; a ← body; _ ← k_release l; mret a.

(** [device_manager()]: the cell must have been set. *)
Definition device_manager : st K (DeviceManager H) :=
  c ← k_cell; match c with Some dm => mret dm | None => panic end.

(** [serial_console], [system_timer] and [irq_controller] of [subsystems]: the
    manager is locked while it looks the device up. *)
Definition lookup_device (fuel : nat) (f : DeviceManager H -> option H) : st K (option H) :=
  dm ← device_manager; locked fuel ManagerLock (mret (f dm)).

Definition get_serial_console (fuel : nat) : st K (option H) := lookup_device fuel serial_console.
Definition get_system_timer (fuel : nat) : st K (option H) := lookup_device fuel system_timer.
Definition get_irq_controller (fuel : nat) : st K (option H) := lookup_device fuel irq_controller.

Section Logging.
Context `{Profile} {E : Type} (port_write : H -> list Z -> st D (result Z E)).
Context (level_text : Z -> list Z) (boot_console : list Z -> st D unit).

(** [SerialLogSink::write_str]; errors of the port are dropped. *)
Definition serial_log_sink (fuel : nat) (s : list Z) : st K unit :=
  console ← get_serial_console fuel;
  match console with
  | Some port => _ ← locked fuel (ObjectLock port) (k_dev (port_write port s)); mret tt
  | None => mret tt
  end.

(** [KernelLogger::log]: the mode is locked while the line is delivered. *)
Definition log_record (fuel : nat) (r : record) : st (KernelLogger K * K) unit :=
  '(l, _) ← Prelude.get;
  if enabled l (rlevel r) then
    _ ← on_kernel (k_acquire fuel LoggerLock);
    _ ← log level_text (fun s => k_dev (boot_console s)) r;
    on_kernel (k_release LoggerLock)
  else mret tt.

(** [log::info!] of a module. *)
Definition info (fuel : nat) (target : list Z) (args : list (list Z)) : st (KernelLogger K * K) unit :=
  log_record fuel (mkRecord 3 target args).

(** [logger::attach_runtime(vec![&SERIAL_SINK])] of [kernel_init]. *)
Definition attach_serial_sink (fuel : nat) : st (KernelLogger K * K) unit :=
  _ ← on_kernel (k_acquire fuel LoggerLock);
  _ ← attach_runtime [serial_log_sink fuel];
  on_kernel (k_release LoggerLock).
End Logging.
End Accessors.

(** On the plain state the operations are those above. *)
Ltac plain := cbn [k_acquire k_release k_cell k_dev kernel_ops].

(** ** Lemmas *)

Section Lemmas.
Context {H : Type} `{EqDecision H} {D : Type}.

Lemma acquire_free fuel l (s : kernel H D) : (0 < fuel)%nat -> l ∉ taken s ->
  acquire fuel l s = Ret (tt, with_taken (cons l) s).
Proof using. intros Hf Hl. destruct fuel; [lia|]. cbn. by rewrite decide_False. Qed.

Lemma acquire_taken fuel l (s : kernel H D) : l ∈ taken s -> acquire fuel l s = OutOfFuel.
Proof using. intros Hl. induction fuel as [|fuel IH]; [done|]. cbn. by rewrite decide_True. Qed.

(** What a lock does to a state, whatever was taken before. *)
Lemma acquire_inv fuel l (s : kernel H D) r : acquire fuel l s = r ->
  r = OutOfFuel \/ (l ∉ taken s /\ r = Ret (tt, with_taken (cons l) s)).
Proof using.
  intros <-. destruct fuel as [|fuel]; [by left|]. destruct (decide (l ∈ taken s)) as [Hl|Hl].
  - left. by apply acquire_taken.
  - right. split; [done|]. apply acquire_free; [lia|done].
Qed.

Lemma release_taken l (s : kernel H D) : l ∉ taken s ->
  release l (with_taken (cons l) s) = Ret (tt, s).
Proof using.
  intros Hl. unfold release, modify, with_taken. cbn [taken manager dev]. destruct s as [t m d]. cbn [taken] in *.
  rewrite filter_cons_False by auto. do 2 f_equal. f_equal. induction t as [|k t IH]; [done|].
  rewrite filter_cons_True by set_solver. f_equal. apply IH. set_solver.
Qed.

(** A body that leaves the locks as it finds them. *)
Lemma locked_ok {A} fuel l (body : st (kernel H D) A) s a m d : (0 < fuel)%nat -> l ∉ taken s ->
  body (with_taken (cons l) s) = Ret (a, mkKernel (l :: taken s) m d) ->
  locked fuel l body s = Ret (a, mkKernel (taken s) m d).
Proof using.
  intros Hf Hl Hb. unfold locked. plain. erewrite stbind_step by (by apply acquire_free).
  erewrite stbind_step by exact Hb. erewrite stbind_step; [done|].
  apply (release_taken l (mkKernel (taken s) m d) Hl).
Qed.
End Lemmas.

Section Delivery.
Context {H : Type} `{EqDecision H} {D E : Type} `{Profile} (port_write : H -> list Z -> st D (result Z E)).
Context (level_text : Z -> list Z) (boot_console : list Z -> st D unit).

Lemma lookup_device_ok fuel f (s : kernel H D) dm : (0 < fuel)%nat -> manager s = Some dm -> ManagerLock ∉ taken s ->
  lookup_device fuel f s = Ret (f dm, s).
Proof using.
  intros Hf Hm Hl. unfold lookup_device, device_manager. erewrite stbind_step.
  2: { erewrite stbind_step by reflexivity. cbv beta. rewrite Hm. reflexivity. }
  destruct s as [t m d]. cbn [manager] in Hm. subst m. by apply locked_ok.
Qed.

Lemma lookup_device_blocks fuel f (s : kernel H D) dm : manager s = Some dm -> ManagerLock ∈ taken s ->
  lookup_device fuel f s = OutOfFuel.
Proof using.
  intros Hm Hl. unfold lookup_device, device_manager. erewrite stbind_step.
  2: { erewrite stbind_step by reflexivity. cbv beta. rewrite Hm. reflexivity. }
  unfold locked, mbind, st_bind. plain. by rewrite acquire_taken.
Qed.

Lemma lookup_device_keeps fuel f (s : kernel H D) a s' : lookup_device fuel f s = Ret (a, s') ->
  manager s' = manager s.
Proof using.
  unfold lookup_device, device_manager, locked. plain. unfold mbind, st_bind, Prelude.get. intros E1. cbn in E1.
  destruct (manager s) as [dm|] eqn:Em; [|done]. cbn in E1.
  destruct (acquire_inv fuel ManagerLock s _ eq_refl) as [Ea|[_ Ea]]; rewrite Ea in E1; [done|].
  cbn in E1. injection E1 as <- <-. exact Em.
Qed.

Lemma serial_sink_ok fuel line (s : kernel H D) dm : (0 < fuel)%nat -> manager s = Some dm -> ManagerLock ∉ taken s ->
  match serial_console dm with
  | None => serial_log_sink port_write fuel line s = Ret (tt, s)
  | Some port => forall v d, ObjectLock port ∉ taken s -> port_write port line (dev s) = Ret (v, d) ->
      serial_log_sink port_write fuel line s = Ret (tt, mkKernel (taken s) (manager s) d)
  end.
Proof using.
  intros Hf Hm Hl. unfold serial_log_sink, get_serial_console. destruct (serial_console dm) as [port|] eqn:Ec.
  - intros v d Hp Hw. erewrite stbind_step by (by apply lookup_device_ok). rewrite Ec.
    erewrite stbind_step; [reflexivity|]. apply (locked_ok _ _ _ _ v); [done|done|].
    plain. unfold on_dev. cbn [dev with_taken]. by rewrite Hw.
  - erewrite stbind_step by (by apply lookup_device_ok). by rewrite Ec.
Qed.

(** A caller that holds the manager or the console waits for itself. *)
Lemma serial_sink_blocks fuel line (s : kernel H D) dm : manager s = Some dm ->
  ManagerLock ∈ taken s \/ (exists port, serial_console dm = Some port /\ ObjectLock port ∈ taken s) ->
  serial_log_sink port_write fuel line s = OutOfFuel.
Proof using.
  intros Hm Hl. unfold serial_log_sink, get_serial_console.
  destruct (decide (ManagerLock ∈ taken s)) as [Hin|Hin].
  { unfold mbind at 1, st_bind at 1. by erewrite lookup_device_blocks. }
  destruct Hl as [?|(port & Ec & Hp)]; [done|]. destruct fuel as [|fuel].
  { unfold mbind at 1, st_bind at 1, lookup_device, device_manager. erewrite stbind_step; [reflexivity|].
    erewrite stbind_step by reflexivity. cbv beta. by rewrite Hm. }
  erewrite stbind_step by (apply lookup_device_ok; [lia|done|done]). rewrite Ec.
  unfold mbind, st_bind, locked, mbind, st_bind. plain. by rewrite acquire_taken.
Qed.

(** Delivering a record changes the locks and the devices only. *)
Lemma log_keeps_manager fuel fuel' r lv (s : kernel H D) l' s' :
  log_record level_text boot_console fuel r (mkLogger (Runtime [serial_log_sink port_write fuel']) lv, s) = Ret (tt, (l', s')) ->
  l' = mkLogger (Runtime [serial_log_sink port_write fuel']) lv /\ manager s' = manager s.
Proof using.
  unfold log_record. plain. unfold mbind at 1, st_bind at 1, Prelude.get. cbv beta iota.
  destruct (enabled _ (rlevel r)) eqn:En; [|by intros [= <- <-]].
  unfold mbind at 1, st_bind at 1, on_kernel at 1. destruct (acquire_inv fuel LoggerLock s _ eq_refl) as [Ea|[_ Ea]]; rewrite Ea; [done|].
  unfold mbind at 1, st_bind at 1, log. rewrite En. cbn [negb mode each_sink]. unfold lift, mbind, st_bind.
  rewrite format_record_ok. destruct (serial_log_sink _ _ _ _) as [[[] s1]| |] eqn:Es; [|done..].
  cbn. intros [= <- <-]. split; [done|]. cbn. revert Es. unfold serial_log_sink, mbind at 1, st_bind at 1.
  destruct (get_serial_console fuel' _) as [[c s2]| |] eqn:Ec; [|done..].
  apply lookup_device_keeps in Ec. cbn in Ec. rewrite <- Ec. destruct c as [port|]; [|by intros [= <-]].
  unfold locked, mbind, st_bind. plain. destruct (acquire_inv fuel' (ObjectLock port) s2 _ eq_refl) as [Ep|[_ Ep]]; rewrite Ep; [done|].
  unfold on_dev. cbn. destruct (port_write port _ _) as [[v d]| |]; [|done..]. by intros [= <-].
Qed.
End Delivery.

(** ** Theorems *)

Section Claims.
Context {H : Type} `{EqDecision H} {D E : Type} `{Profile} (port_write : H -> list Z -> st D (result Z E)).
Context (level_text : Z -> list Z) (boot_console : list Z -> st D unit).

(** The logger of the runtime phase. *)
#[local] Notation runtime fuel lv := (mkLogger (Runtime [serial_log_sink port_write fuel]) lv).

(** In the runtime phase a record of an enabled level reaches the serial
    console as its line, cut to the buffer, and every lock the delivery takes
    is free again; without a serial device nothing happens. *)
Theorem runtime_log_delivery fuel fuel' r (s : kernel H D) dm lv :
  let line := take 512 (concat (line_pieces level_text r)) in
  (0 < fuel)%nat -> (0 < fuel')%nat -> manager s = Some dm -> rlevel r <= level_from_u8 lv ->
  LoggerLock ∉ taken s -> ManagerLock ∉ taken s ->
  match serial_console dm with
  | None => log_record level_text boot_console fuel r (runtime fuel' lv, s) = Ret (tt, (runtime fuel' lv, s))
  | Some port => forall v d, ObjectLock port ∉ taken s -> port_write port line (dev s) = Ret (v, d) ->
      log_record level_text boot_console fuel r (runtime fuel' lv, s) =
        Ret (tt, (runtime fuel' lv, mkKernel (taken s) (manager s) d))
  end.
Proof using.
  cbv zeta. intros Hf Hf' Hm Hr Hlog Hman.
  pose proof (serial_sink_ok port_write fuel' (take 512 (concat (line_pieces level_text r)))
    (with_taken (cons LoggerLock) s) dm Hf' Hm ltac:(cbn; set_solver)) as Hs.
  assert (Hgo : forall s1, serial_log_sink port_write fuel' (take 512 (concat (line_pieces level_text r)))
      (with_taken (cons LoggerLock) s) = Ret (tt, with_taken (cons LoggerLock) s1) -> LoggerLock ∉ taken s1 ->
    log_record level_text boot_console fuel r (runtime fuel' lv, s) = Ret (tt, (runtime fuel' lv, s1))).
  { intros s1 E1 Hs1. unfold log_record. plain. erewrite stbind_step by reflexivity. cbv beta iota.
    assert (En : enabled (runtime fuel' lv) (rlevel r) = true) by (by apply Z.leb_le). rewrite En.
    erewrite stbind_step by (unfold on_kernel; rewrite acquire_free by done; reflexivity).
    erewrite stbind_step.
    2: { unfold log. rewrite En. cbn [negb mode each_sink]. unfold mbind, st_bind, lift. rewrite format_record_ok, E1. reflexivity. }
    unfold on_kernel. by rewrite release_taken. }
  destruct (serial_console dm) as [port|].
  - intros v d Hp Hw. apply Hgo; [|done]. rewrite (Hs v d); [done|cbn; set_solver|done].
  - by apply Hgo.
Qed.

(** A caller of [log::info!] that holds the device manager, the serial console
    or the logger waits for itself: no amount of fuel is enough. *)
Theorem runtime_log_blocks fuel fuel' r (s : kernel H D) dm lv : manager s = Some dm -> rlevel r <= level_from_u8 lv ->
  LoggerLock ∈ taken s \/ ManagerLock ∈ taken s \/ (exists port, serial_console dm = Some port /\ ObjectLock port ∈ taken s) ->
  log_record level_text boot_console fuel r (runtime fuel' lv, s) = OutOfFuel.
Proof using.
  intros Hm Hr Hl. unfold log_record. plain. erewrite stbind_step by reflexivity. cbv beta iota.
  assert (En : enabled (runtime fuel' lv) (rlevel r) = true) by (by apply Z.leb_le). rewrite En.
  destruct (acquire_inv fuel LoggerLock s _ eq_refl) as [Ea|[Hfree Ea]].
  { unfold mbind at 1, st_bind at 1, on_kernel. by rewrite Ea. }
  erewrite stbind_step by (unfold on_kernel; rewrite Ea; reflexivity).
  unfold mbind at 1, st_bind at 1, log. rewrite En. cbn [negb mode each_sink]. unfold mbind, st_bind, lift. rewrite format_record_ok.
  rewrite (serial_sink_blocks port_write _ _ _ dm); [done|done|].
  destruct Hl as [?|[?|(port & Ec & Hp)]]; [done|left; cbn; set_solver|right; exists port; cbn; set_solver].
Qed.
End Claims.
