(* ===== verification/Nest.v ===== *)
(** * Nested interrupts and the locks of the kernel

    [dispatch] (kernel/src/irq/dispatch.rs) turns interrupts on while a handler
    runs, the handlers (kernel/src/irq/handlers.rs) and [kernel_main] take plain
    [spin::Mutex]es, and there is one processor: whoever is interrupted waits
    below the handler on the same stack.  Code is here the list of its actions
    on locks, lines and the interrupt flag, a machine is the stack of the code
    that runs and the code it has interrupted, and interrupts arrive whenever
    the flag and the controller let them. *)
From S2P Require Import Prelude Devices Logger Locks.

(** ** Definitions *)

Section Machine.
Context {H : Type} `{EqDecision H}.

(** [Use] is a call of the object behind a lock, [Mask] and [Unmask] are the
    calls of the interrupt controller.  A line is one of those the controller
    has, 0 to 79, for which these calls succeed ([Irq.ic_disable_ok] and
    [Irq.ic_enable_ok]); they fail for other numbers, which no interrupt has. *)
Inductive act :=
  | Acquire (l : lock_id H)
  | Release (l : lock_id H)
  | Use (l : lock_id H)
  | Mask (irq : Z)
  | Unmask (irq : Z)
  | EnableIrqs
  | DisableIrqs.

(** *** The code as actions *)

(** The handles of the serial console, the system timer and the interrupt
    controller, all registered; the logger is in its runtime phase. *)
Context (console sys_timer irqctl : H).

Definition guarded (l : lock_id H) (body : list act) : list act := [Acquire l] ++ body ++ [Release l].

(** [serial_console()], [system_timer()] and [irq_controller()]. *)
Definition lookup : list act := guarded ManagerLock [].

(** [SerialLogSink::write_str]. *)
Definition sink_actions : list act := lookup ++ guarded (ObjectLock console) [Use (ObjectLock console)].

(** [KernelLogger::log] of an enabled record, with the serial sink. *)
Definition log_line : list act := guarded LoggerLock sink_actions.

(** [handlers::timer]: stop and clear, the message, start. *)
Definition timer_actions : list act :=
  lookup ++
  guarded (ObjectLock sys_timer) [Use (ObjectLock sys_timer); Use (ObjectLock sys_timer)] ++
  lookup ++ guarded (ObjectLock console) [Use (ObjectLock console)] ++
  guarded (ObjectLock sys_timer) [Use (ObjectLock sys_timer)].

Definition uart_actions : list act := [].

(** [IRQ_HANDLERS]. *)
Context (handlers : Z -> option (list act)).

Definition handler_actions (irq : Z) : list act :=
  match handlers irq with Some h => h | None => log_line end.

Definition entry_actions (irq : Z) : list act :=
  lookup ++ guarded (ObjectLock irqctl) [Mask irq] ++ [EnableIrqs].
Definition exit_actions (irq : Z) : list act :=
  [DisableIrqs] ++ guarded (ObjectLock irqctl) [Unmask irq].

Definition dispatch_actions (irq : Z) : list act :=
  entry_actions irq ++ handler_actions irq ++ exit_actions irq.

(** The drawing of [kernel_main] on a framebuffer. *)
Definition drawing_actions (fb : H) : list act :=
  guarded ManagerLock (guarded (ObjectLock fb) [Use (ObjectLock fb)]).

(** [UartFile::read] and [UartFile::write]: the manager stays locked while the
    port is used. *)
Definition uart_file_actions : list act :=
  guarded ManagerLock (guarded (ObjectLock console) [Use (ObjectLock console)]).

(** The kernel's own code: looking a device up, logging, drawing, and reading
    or writing the console's file, in any order and any number of times. *)
Definition kernel_code (fb : H) (code : list act) : Prop := exists pieces, code = concat pieces /\
  Forall (fun k => k = lookup \/ k = log_line \/ k = drawing_actions fb \/ k = uart_file_actions) pieces.

(** *** The machine *)

(** What is left to do, the locks whose guards are live, and the line whose
    dispatch this is. *)
Record frame := mkFrame { todo : list act; own : list (lock_id H); line : option Z }.

(** The frames, the running one first; the flag; the lines the controller has
    enabled. *)
Record machine := mkMachine { stack : list frame; irqs : bool; line_on : Z -> bool }.

Definition owns (fs : list frame) : list (lock_id H) := fs ≫= own.

Definition set_line (irq : Z) (b : bool) (e : Z -> bool) : Z -> bool := fun n => if n =? irq then b else e n.

(** The next action of the running frame; [None] while it spins on a lock, and
    for the idle loop.  A handler returns to the code it has interrupted, which
    had interrupts on. *)
Definition exec (m : machine) : option machine :=
  match stack m with
  | [] => None
  | f :: below =>
      match todo f with
      | [] =>
          match line f with
          | Some _ => Some (mkMachine below true (line_on m))
          | None => None
          end
      | a :: k =>
          let next own' irqs' on := Some (mkMachine (mkFrame k own' (line f) :: below) irqs' on) in
          match a with
          | Acquire l => if decide (l ∈ owns (stack m)) then None else next (l :: own f) (irqs m) (line_on m)
          | Release l => next (filter (fun x => x <> l) (own f)) (irqs m) (line_on m)
          | Use _ => next (own f) (irqs m) (line_on m)
          | Mask n => next (own f) (irqs m) (set_line n false (line_on m))
          | Unmask n => next (own f) (irqs m) (set_line n true (line_on m))
          | EnableIrqs => next (own f) true (line_on m)
          | DisableIrqs => next (own f) false (line_on m)
          end
      end
  end.

(** An interrupt of a line: the processor turns interrupts off. *)
Definition interrupt (irq : Z) (m : machine) : option machine :=
  if irqs m && line_on m irq then
    Some (mkMachine (mkFrame (dispatch_actions irq) [] (Some irq) :: stack m) false (line_on m))
  else None.

Inductive step (m m' : machine) : Prop :=
  | run_step : exec m = Some m' -> step m m'
  | interrupt_step irq : interrupt irq m = Some m' -> step m m'.

(** Interrupts that wait until no lock is held, as [IrqMutex] makes them. *)
Definition patient_step (m m' : machine) : Prop :=
  exec m = Some m' \/ (owns (stack m) = [] /\ exists irq, interrupt irq m = Some m').

(** The frames [fs] never run again. *)
Definition never_resume (m : machine) (fs : list frame) : Prop :=
  forall m', rtc step m m' -> exists f up, stack m' = up ++ f :: fs.

(** The lines being served, innermost first. *)
Definition serving (m : machine) : list Z := omap line (stack m).

(** The kernel's own code, before any interrupt. *)
Definition booted (code : list act) (on : Z -> bool) : machine := mkMachine [mkFrame code [] None] true on.
End Machine.

Arguments act : clear implicits.
Arguments frame : clear implicits.
Arguments machine : clear implicits.

(** *** What makes code well behaved *)

Section Discipline.
Context {H : Type} `{EqDecision H} (irqctl : H).

(** The guards that are live after the code, if every object is used under its
    lock; with [once], also no lock is taken while its guard is live. *)
Fixpoint guards (once : bool) (own : list (lock_id H)) (k : list (act H)) : option (list (lock_id H)) :=
  match k with
  | [] => Some own
  | Acquire l :: k => if once && bool_decide (l ∈ own) then None else guards once (l :: own) k
  | Release l :: k => guards once (filter (fun x => x <> l) own) k
  | Use l :: k => if bool_decide (l ∈ own) then guards once own k else None
  | (Mask _ | Unmask _) :: k => if bool_decide (ObjectLock irqctl ∈ own) then guards once own k else None
  | (EnableIrqs | DisableIrqs) :: k => guards once own k
  end.

(** Every guard is dropped in the end. *)
Definition disciplined (once : bool) (k : list (act H)) : bool := bool_decide (guards once [] k = Some []).

(** Neither the lines nor the interrupt flag. *)
Definition quiet (a : act H) : bool :=
  match a with Acquire _ | Release _ | Use _ => true | _ => false end.

(** From the flag and the state of line [n], the code is never open to an
    interrupt of [n], and it ends with interrupts off. *)
Fixpoint shielded (n : Z) (irqs on : bool) (k : list (act H)) : bool :=
  negb (irqs && on) &&
  match k with
  | [] => negb irqs
  | Mask m :: k => shielded n irqs (if m =? n then false else on) k
  | Unmask m :: k => shielded n irqs (if m =? n then true else on) k
  | EnableIrqs :: k => shielded n true on k
  | DisableIrqs :: k => shielded n false on k
  | _ :: k => shielded n irqs on k
  end.
End Discipline.

(** ** Lemmas *)

Section Blocked.
Context {H : Type} `{EqDecision H} (console sys_timer irqctl : H) (handlers : Z -> option (list (act H))).
#[local] Notation step := (step console irqctl handlers).
#[local] Notation dispatch_actions := (dispatch_actions console irqctl handlers).

(** A frame that waits for a lock held by itself or by code it has
    interrupted, and everything below it. *)
Definition waits_below (f : frame H) (below : list (frame H)) : Prop :=
  exists l k, todo f = Acquire l :: k /\ l ∈ owns (f :: below).

Lemma blocked_step m m' up f below : stack m = up ++ f :: below -> waits_below f below -> step m m' ->
  exists up', stack m' = up' ++ f :: below.
Proof using.
  intros Hs (l & k & Hf & Hl) [E|irq E].
  - unfold exec in E. rewrite Hs in E. destruct up as [|g up]; cbn [app] in E.
    { rewrite Hf, decide_True in E by exact Hl. done. }
    destruct (todo g) as [|a k'].
    { destruct (line g); simplify_eq. by exists up. }
    destruct a; [destruct (decide _)|..]; simplify_eq; by eexists (_ :: up).
  - unfold interrupt in E. destruct (irqs m && line_on m irq); simplify_eq. rewrite Hs. by eexists (_ :: up).
Qed.

Lemma blocked_for_ever m m' up f below : stack m = up ++ f :: below -> waits_below f below -> rtc step m m' ->
  exists up', stack m' = up' ++ f :: below.
Proof using.
  intros Hs Hw Hr. revert up Hs. induction Hr as [m|m m1 m' H1 _ IH]; intros up Hs; [by exists up|].
  destruct (blocked_step _ _ _ _ _ Hs Hw H1) as (up' & Hs'). by apply IH in Hs'.
Qed.

Lemma dispatch_waits irq below : ManagerLock ∈ owns below ->
  waits_below (mkFrame (dispatch_actions irq) [] (Some irq)) below.
Proof using. intros Hl. eexists ManagerLock, _. split; [reflexivity|]. exact Hl. Qed.
End Blocked.

(** *** Lines *)

Section Lines.
Context {H : Type} `{EqDecision H} (console sys_timer irqctl : H) (handlers : Z -> option (list (act H))).
#[local] Notation step := (step console irqctl handlers).
#[local] Notation dispatch_actions := (dispatch_actions console irqctl handlers).

(** The handlers leave the lines and the flag alone, as those of the source
    do. *)
Context (handlers_quiet : forall irq h, handlers irq = Some h -> forallb quiet h = true).

Lemma handler_quiet irq : forallb quiet (handler_actions console handlers irq) = true.
Proof using handlers_quiet.
  unfold handler_actions. destruct (handlers irq) as [h|] eqn:E; [by eapply handlers_quiet|done].
Qed.

Lemma shielded_quiet n irqs on h k : forallb quiet h = true -> shielded n irqs on k = true ->
  shielded (H := H) n irqs on (h ++ k) = true.
Proof using.
  intros Hh Hk. induction h as [|a h IH]; [done|]. cbn in Hh. apply andb_true_iff in Hh as [Ha Hh].
  assert (Hp : negb (irqs && on) = true) by (destruct k; cbn in Hk; by apply andb_true_iff in Hk as [? _]).
  destruct a; try done; cbn; rewrite Hp; by apply IH.
Qed.

Lemma shielded_now n irqs on k : shielded (H := H) n irqs on k = true -> irqs = true -> on = false.
Proof using. intros Hk ->. destruct k; cbn in Hk; apply andb_true_iff in Hk as [Hk _]; by destruct on. Qed.

Lemma dispatch_shielded n : shielded n false true (dispatch_actions n) = true.
Proof using handlers_quiet.
  unfold dispatch_actions. cbn -[handler_actions exit_actions]. rewrite Z.eqb_refl. cbn -[handler_actions exit_actions].
  by apply shielded_quiet; [apply handler_quiet|].
Qed.

(** An action belongs to the dispatch of a line, or is quiet. *)
Definition belongs (ln : option Z) (a : act H) : Prop :=
  match a with
  | Mask p | Unmask p => ln = Some p
  | EnableIrqs | DisableIrqs => ln <> None
  | _ => True
  end.

Lemma quiet_belongs ln h : forallb quiet h = true -> Forall (belongs ln) h.
Proof using. intros Hq. apply Forall_forall. intros a Ha. rewrite forallb_forall in Hq. specialize (Hq a). destruct a; try done;
  by rewrite <- list_elem_of_In in Hq; specialize (Hq Ha). Qed.

Lemma dispatch_belongs n : Forall (belongs (Some n)) (dispatch_actions n).
Proof using handlers_quiet.
  unfold dispatch_actions. repeat apply Forall_app_2; try (by repeat constructor). apply quiet_belongs, handler_quiet.
Qed.

Definition shields (f : frame H) (irqs : bool) (on : Z -> bool) : Prop :=
  forall n, line f = Some n -> shielded n irqs (on n) (todo f) = true.

(** Every frame in dispatch is shielded, with the flag it runs or will resume
    with; no line is served twice. *)
Record serving_inv (m : machine H) : Prop := mkServing {
  si_run : forall f below, stack m = f :: below ->
    shields f (irqs m) (line_on m) /\ Forall (fun g => shields g true (line_on m)) below;
  si_belongs : Forall (fun f => Forall (belongs (line f)) (todo f)) (stack m);
  si_nodup : NoDup (serving m);
}.

Lemma booted_inv code on : forallb quiet code = true -> serving_inv (booted code on).
Proof using.
  intros Hq. split; cbn.
  - intros f below [= <- <-]. split; [by intros n|constructor].
  - constructor; [by apply quiet_belongs|constructor].
  - constructor.
Qed.

Lemma interrupt_inv m irq m' : serving_inv m -> interrupt console irqctl handlers irq m = Some m' -> serving_inv m'.
Proof using handlers_quiet.
  intros [Hr Hb Hn] E. unfold interrupt in E. destruct (irqs m) eqn:Ei; [|done]. destruct (line_on m irq) eqn:Eo; [|done].
  cbn in E. injection E as <-.
  assert (Hall : Forall (fun g => shields g true (line_on m)) (stack m)).
  { destruct (stack m) as [|f below] eqn:Es; [constructor|]. destruct (Hr f below eq_refl). by constructor. }
  split; cbn [stack irqs line_on serving omap list_omap line].
  - intros f below [= <- <-]. split; [|done]. intros n [= <-]. cbn [todo]. rewrite Eo. apply dispatch_shielded.
  - constructor; [apply dispatch_belongs|done].
  - constructor; [|done]. intros Hin. apply list_elem_of_omap in Hin as (g & Hg & El).
    rewrite Forall_forall in Hall. specialize (Hall g Hg irq El). by rewrite (shielded_now _ _ _ _ Hall eq_refl) in Eo.
Qed.

(** Running one action keeps the shield of its own line. *)
Lemma shields_next f a k own' irqs' on : todo f = a :: k -> Forall (belongs (line f)) (todo f) -> shields f irqs' on ->
  shields (mkFrame k own' (line f))
    (match a with EnableIrqs => true | DisableIrqs => false | _ => irqs' end)
    (match a with Mask p => set_line p false on | Unmask p => set_line p true on | _ => on end).
Proof using.
  intros Ek Hb Hs n Hn. cbn in Hn |- *. specialize (Hs n Hn). rewrite Ek in Hs, Hb. cbn in Hs.
  apply Forall_cons in Hb as [Hb _]. destruct a; apply andb_true_iff in Hs as [_ Hs]; try done; cbn in Hb;
    unfold set_line; rewrite Hn in Hb; injection Hb as ->; by rewrite Z.eqb_refl in *.
Qed.

(** Another line's mask is out of reach. *)
Lemma shields_other g p b irqs' on : line g <> Some p -> shields g irqs' on -> shields g irqs' (set_line p b on).
Proof using.
  intros Hp Hs n Hn. unfold set_line. destruct (Z.eqb_spec n p); [congruence|]. by apply Hs.
Qed.

Lemma exec_inv m m' : serving_inv m -> exec m = Some m' -> serving_inv m'.
Proof using.
  intros [Hr Hb Hn] E. unfold exec in E. unfold serving in Hn. destruct (stack m) as [|f below]; [done|].
  destruct (Hr f below eq_refl) as [Hf Hbelow]. apply Forall_cons in Hb as [Hbf Hbb].
  destruct (todo f) as [|a k] eqn:Ek.
  { destruct (line f) as [p|] eqn:El; [|done]. injection E as <-. cbn in Hn. rewrite El in Hn. apply NoDup_cons in Hn as [_ Hn].
    split; [|done|done]. cbn. intros g rest ->. by apply Forall_cons in Hbelow. }
  rewrite <- Ek in Hbf. pose proof (fun own' => shields_next f a k own' _ _ Ek Hbf Hf) as Hnext.
  assert (Hlines : forall p b, belongs (line f) (Mask p) -> Forall (fun g => shields g true (set_line p b (line_on m))) below).
  { cbn. intros p b Hp. apply Forall_forall. intros g Hg. rewrite Forall_forall in Hbelow. apply shields_other; [|by apply Hbelow].
    cbn in Hn. rewrite Hp in Hn. apply NoDup_cons in Hn as [Hn _]. intros Hg'. apply Hn. apply list_elem_of_omap. by exists g. }
  assert (Hsplit : forall own' irqs' on', shields (mkFrame k own' (line f)) irqs' on' -> Forall (fun g => shields g true on') below ->
    serving_inv (mkMachine (mkFrame k own' (line f) :: below) irqs' on')).
  { intros own' irqs' on' H1 H2. split; [by intros ? ? [= <- <-]| |done]. constructor; [|done]. cbn. rewrite Ek in Hbf.
    by apply Forall_cons in Hbf as [_ ?]. }
  rewrite Ek in Hbf. apply Forall_cons in Hbf as [Ha _].
  destruct a; [destruct (decide _); [done|]|..]; injection E as <-; apply Hsplit; try apply Hnext; try done; by apply Hlines.
Qed.

Lemma serving_reachable m m' : serving_inv m -> rtc step m m' -> serving_inv m'.
Proof using handlers_quiet.
  intros Hi Hr. induction Hr as [m|m m1 m' [E|irq E] _ IH]; [done|..]; apply IH;
    [by eapply exec_inv|by eapply interrupt_inv].
Qed.
End Lines.

(** *** Locks *)

Section Guards.
Context {H : Type} `{EqDecision H} (console sys_timer irqctl : H) (once : bool).
#[local] Notation guards := (guards irqctl once).

Lemma guards_app own k1 k2 : guards own (k1 ++ k2) = guards own k1 ≫= fun own' => guards own' k2.
Proof using.
  revert own. induction k1 as [|a k1 IH]; intros own; [done|]. destruct a; cbn; try apply IH;
    [destruct (once && _); [done|apply IH]|destruct (bool_decide _); [apply IH|done]..].
Qed.

Lemma drop_guard l (own : list (lock_id H)) : l ∉ own -> filter (fun x => x <> l) (l :: own) = own.
Proof using.
  intros Hl. rewrite filter_cons_False by auto. induction own as [|x own IH]; [done|].
  rewrite filter_cons_True by set_solver. f_equal. apply IH. set_solver.
Qed.

Lemma guards_guarded l own body : l ∉ own -> guards (l :: own) body = Some (l :: own) ->
  guards own (guarded l body) = Some own.
Proof using.
  intros Hl Hb. unfold guarded. cbn [app Nest.guards]. rewrite (bool_decide_eq_false_2 _ Hl), andb_false_r.
  rewrite guards_app, Hb. cbn [mbind option_bind Nest.guards]. by rewrite drop_guard.
Qed.

Lemma guards_use l own k : l ∈ own -> guards own (Use l :: k) = guards own k.
Proof using. intros Hl. cbn. by rewrite bool_decide_eq_true_2. Qed.

Lemma guards_lookup own : ManagerLock ∉ own -> guards own lookup = Some own.
Proof using. intros Hl. by apply guards_guarded. Qed.

Lemma guards_console own : ObjectLock console ∉ own ->
  guards own (guarded (ObjectLock console) [Use (ObjectLock console)]) = Some own.
Proof using. intros Hl. apply guards_guarded; [done|]. by rewrite guards_use by set_solver. Qed.

Lemma log_line_disciplined : guards [] (log_line console) = Some [].
Proof using.
  apply guards_guarded; [set_solver|]. unfold sink_actions. rewrite guards_app, guards_lookup by set_solver. apply guards_console. set_solver.
Qed.

Lemma timer_disciplined : guards [] (timer_actions console sys_timer) = Some [].
Proof using.
  unfold timer_actions. repeat (rewrite guards_app; first
    [rewrite guards_lookup by set_solver|rewrite guards_console by set_solver
    |rewrite guards_guarded; [|set_solver|by rewrite !guards_use by set_solver]]; cbn [mbind option_bind]).
  apply guards_guarded; [set_solver|]. by rewrite guards_use by set_solver.
Qed.

Lemma drawing_disciplined fb : guards [] (drawing_actions fb) = Some [].
Proof using.
  apply guards_guarded; [set_solver|]. apply guards_guarded; [set_solver|]. by rewrite guards_use by set_solver.
Qed.

Lemma uart_file_disciplined : guards [] (uart_file_actions console) = Some [].
Proof using. apply guards_guarded; [set_solver|]. apply guards_console. set_solver. Qed.

Lemma line_change own n b : ObjectLock irqctl ∈ own -> guards own [if b : bool then Mask n else Unmask n] = Some own.
Proof using. intros Hl. destruct b; cbn; by rewrite bool_decide_eq_true_2. Qed.

Lemma entry_guards n : guards [] (entry_actions irqctl n) = Some [].
Proof using.
  unfold entry_actions. rewrite guards_app, guards_lookup by set_solver. cbn [mbind option_bind].
  rewrite guards_app, guards_guarded; [done|set_solver|]. apply (line_change _ n true). set_solver.
Qed.

Lemma exit_guards n : guards [] (exit_actions irqctl n) = Some [].
Proof using. apply guards_guarded; [set_solver|]. apply (line_change _ n false). set_solver. Qed.

(** The handlers behave, as those of the source do. *)
Context (handlers : Z -> option (list (act H))).
Context (handlers_disciplined : forall irq h, handlers irq = Some h -> disciplined irqctl once h = true).

Lemma dispatch_disciplined n : guards [] (dispatch_actions console irqctl handlers n) = Some [].
Proof using handlers_disciplined.
  unfold dispatch_actions. rewrite guards_app, entry_guards. cbn [mbind option_bind]. rewrite guards_app.
  replace (guards [] (handler_actions console handlers n)) with (Some (@nil (lock_id H))).
  - cbn [mbind option_bind]. apply exit_guards.
  - unfold handler_actions. destruct (handlers n) as [h|] eqn:E; [|by rewrite log_line_disciplined].
    symmetry. specialize (handlers_disciplined n h E). by apply bool_decide_eq_true in handlers_disciplined.
Qed.
End Guards.

(** *** Machines whose code is disciplined *)

Section Invariant.
Context {H : Type} `{EqDecision H} (console sys_timer irqctl : H) (handlers : Z -> option (list (act H))) (once : bool).
#[local] Notation guards := (guards irqctl once).
Context (handlers_disciplined : forall irq h, handlers irq = Some h -> disciplined irqctl once h = true).

(** Every frame will drop its guards, and no lock has two. *)
Definition guards_inv (m : machine H) : Prop :=
  Forall (fun f => guards (own f) (todo f) = Some []) (stack m) /\ NoDup (owns (stack m)).

Lemma booted_guards code on : disciplined irqctl once code = true -> guards_inv (booted code on).
Proof using.
  intros Hc. apply bool_decide_eq_true in Hc. split; [by repeat constructor|constructor].
Qed.

Lemma interrupt_guards m irq m' : guards_inv m -> interrupt console irqctl handlers irq m = Some m' -> guards_inv m'.
Proof using handlers_disciplined.
  intros [Hg Hn] E. unfold interrupt in E. destruct (irqs m && line_on m irq); [|done]. injection E as <-.
  split; [|done]. constructor; [|done]. by apply dispatch_disciplined.
Qed.

Lemma exec_guards m m' : guards_inv m -> exec m = Some m' -> guards_inv m'.
Proof using.
  intros [Hg Hn] E. unfold exec in E. destruct (stack m) as [|f below] eqn:Es; [done|].
  apply Forall_cons in Hg as [Hf Hb]. change (owns (f :: below)) with (own f ++ owns below) in Hn, E.
  apply NoDup_app in Hn as (Hn1 & Hn2 & Hn3). destruct (todo f) as [|a k].
  { destruct (line f); [|done]. injection E as <-. done. }
  assert (Hnext : forall own' i on, guards own' k = Some [] -> NoDup own' -> (forall l, l ∈ own' -> l ∉ owns below) ->
    guards_inv (mkMachine (mkFrame k own' (line f) :: below) i on)).
  { intros own' i on H1 H2 H3. split; [by constructor|]. by apply NoDup_app. }
  destruct a as [l|l|l|p|p| |]; cbn in Hf.
  - destruct (decide _) as [|Hl]; [done|]. injection E as <-. apply not_elem_of_app in Hl as [Hl1 Hl2]. apply Hnext.
    + by destruct (once && _).
    + by constructor.
    + intros x [->|Hx]%elem_of_cons; [done|by apply Hn2].
  - injection E as <-. apply Hnext; [done|by apply NoDup_filter|]. intros x Hx. apply list_elem_of_filter in Hx as [_ Hx]. by apply Hn2.
  - injection E as <-. apply Hnext; [by destruct (bool_decide _)|done|done].
  - injection E as <-. apply Hnext; [by destruct (bool_decide _)|done|done].
  - injection E as <-. apply Hnext; [by destruct (bool_decide _)|done|done].
  - injection E as <-. by apply Hnext.
  - injection E as <-. by apply Hnext.
Qed.

Lemma guards_reachable m m' : guards_inv m -> rtc (step console irqctl handlers) m m' -> guards_inv m'.
Proof using handlers_disciplined.
  intros Hi Hr. induction Hr as [m|m m1 m' [E|irq E] _ IH]; [done|..]; apply IH;
    [by eapply exec_guards|by eapply interrupt_guards].
Qed.
End Invariant.

(** *** Patient interrupts *)

Section Patience.
Context {H : Type} `{EqDecision H} (console irqctl : H) (handlers : Z -> option (list (act H))).

(** All code but the kernel's own is the dispatch of a line, and interrupted
    code holds no lock. *)
Definition waiting_free (m : machine H) : Prop :=
  exists up base, stack m = up ++ [base] /\ line base = None /\ Forall (fun f => is_Some (line f)) up /\
    owns (tail (stack m)) = [].

Lemma patient_waiting m m' : guards_inv irqctl true m -> waiting_free m ->
  patient_step console irqctl handlers m m' -> waiting_free m'.
Proof using.
  intros [Hg _] (up & base & Hs & Hl & Hup & Ho) [E|[Hno (irq & E)]].
  - unfold exec in E. rewrite Hs in E, Ho, Hg. destruct up as [|f up]; cbn [app tail] in *.
    + destruct (todo base) as [|a k]; [by rewrite Hl in E|]. exists [].
      destruct a; [destruct (decide _); [done|]|..]; injection E as <-; by eexists (mkFrame _ _ _).
    + apply Forall_cons in Hup as [Hf Hup]. destruct (todo f) as [|a k].
      { destruct (line f); [|done]. injection E as <-. exists up, base. split; [done|]. split; [done|]. split; [done|].
        cbn [stack]. destruct up as [|g up]; [done|]. cbn [app tail] in *.
        change (owns (g :: up ++ [base])) with (own g ++ owns (up ++ [base])) in Ho. by apply app_eq_nil in Ho as [_ ?]. }
      destruct a; [destruct (decide _); [done|]|..]; injection E as <-; eexists (_ :: up), base;
        (split; [reflexivity|]); (split; [done|]); (split; [by constructor|done]).
  - unfold interrupt in E. destruct (irqs m && line_on m irq); [|done]. injection E as <-.
    exists (mkFrame (dispatch_actions console irqctl handlers irq) [] (Some irq) :: up), base. cbn [stack tail]. rewrite Hs. split; [done|]. split; [done|].
    split; [|by rewrite <- Hs]. constructor; [by eexists|done].
Qed.
End Patience.

(** *** Running code without interrupts *)

Section Running.
Context {H : Type} `{EqDecision H} (irqctl : H).

Definition runs (m m' : machine H) : Prop := exec m = Some m'.

Definition flag_after (k : list (act H)) (i : bool) : bool :=
  foldl (fun i a => match a with EnableIrqs => true | DisableIrqs => false | _ => i end) i k.
Definition lines_after (k : list (act H)) (on : Z -> bool) : Z -> bool :=
  foldl (fun on a => match a with Mask n => set_line n false on | Unmask n => set_line n true on | _ => on end) on k.

(** Code that takes no lock twice, nor one of the code below, runs. *)
Lemma run_code k1 : forall k2 own1 own2 ln below i on, guards irqctl true own1 k1 = Some own2 ->
  (forall l, l ∈ owns below -> Acquire l ∉ k1) ->
  rtc runs (mkMachine (mkFrame (k1 ++ k2) own1 ln :: below) i on)
    (mkMachine (mkFrame k2 own2 ln :: below) (flag_after k1 i) (lines_after k1 on)).
Proof using.
  induction k1 as [|a k1 IH]; intros k2 own1 own2 ln below i on Hg Hb.
  { injection Hg as ->. apply rtc_refl. }
  assert (Hb' : forall l, l ∈ owns below -> Acquire l ∉ k1) by (intros l Hl; specialize (Hb l Hl); set_solver).
  destruct a as [l|l|l|p|p| |]; cbn in Hg |- *.
  - destruct (bool_decide (l ∈ own1)) eqn:El; [done|]. apply bool_decide_eq_false in El.
    eapply rtc_l; [|by apply IH]. unfold runs, exec. cbn [stack todo own]. rewrite decide_False; [done|].
    change (owns _) with (own1 ++ owns below). intros [?|Hl]%elem_of_app; [done|]. apply (Hb l Hl). set_solver.
  - eapply rtc_l; [|by apply IH]. done.
  - destruct (bool_decide (l ∈ own1)); [|done]. eapply rtc_l; [|by apply IH]. done.
  - destruct (bool_decide _); [|done]. eapply rtc_l; [|by apply IH]. done.
  - destruct (bool_decide _); [|done]. eapply rtc_l; [|by apply IH]. done.
  - eapply rtc_l; [|by apply IH]. done.
  - eapply rtc_l; [|by apply IH]. done.
Qed.

Lemma lines_quiet h on : forallb quiet h = true -> lines_after h on = on.
Proof using.
  revert on. induction h as [|a h IH]; intros on Hq; [done|]. cbn in Hq. apply andb_true_iff in Hq as [Ha Hq].
  destruct a; try done; by apply IH.
Qed.

Lemma flag_quiet h i : forallb quiet h = true -> flag_after h i = i.
Proof using.
  revert i. induction h as [|a h IH]; intros i Hq; [done|]. cbn in Hq. apply andb_true_iff in Hq as [Ha Hq].
  destruct a; try done; by apply IH.
Qed.
End Running.

(** ** Theorems *)

Section Claims.
Context {H : Type} `{EqDecision H} (console sys_timer irqctl : H) (handlers : Z -> option (list (act H))).
#[local] Notation step := (step console irqctl handlers).
#[local] Notation interrupt := (interrupt console irqctl handlers).
#[local] Notation dispatch_actions := (dispatch_actions console irqctl handlers).

Lemma runs_steps m m' : rtc runs m m' -> rtc step m m'.
Proof using. intros Hr. induction Hr as [|m m1 m' E _ IH]; [done|]. eapply rtc_l; [by apply run_step|done]. Qed.

Lemma manager_interrupted m irq : ManagerLock ∈ owns (stack m) -> irqs m = true -> line_on m irq = true ->
  exists m1, interrupt irq m = Some m1 /\ never_resume console irqctl handlers m1 (stack m).
Proof using.
  intros Hl Hi Ho. unfold Nest.interrupt. rewrite Hi, Ho. eexists. split; [done|]. intros m' Hr.
  eapply (blocked_for_ever _ _ _ _ _ []) in Hr as (up & Hs); [|done|by apply dispatch_waits]. by eexists _, up.
Qed.

(** C7: An interrupt that arrives while any code holds the device manager
    stops the kernel: its dispatcher spins on the manager, and the interrupted
    code, which would give it back, never runs again.  This happens to
    [kernel_main] while it draws, and to the timer handler, which runs with
    interrupts on, when a second line fires. *)
Theorem nested_interrupt_deadlocks :
  (forall m irq, ManagerLock ∈ owns (stack m) -> irqs m = true -> line_on m irq = true ->
     exists m1, interrupt irq m = Some m1 /\ never_resume console irqctl handlers m1 (stack m)) /\
  (forall fb on irq, on irq = true -> exists m base, rtc step (booted (drawing_actions fb) on) m /\
     todo base <> [] /\ never_resume console irqctl handlers m [base]) /\
  (forall on irq1 irq2, on irq1 = true -> on irq2 = true -> irq1 <> irq2 ->
     handlers irq1 = Some (timer_actions console sys_timer) -> exists m h base, rtc step (booted [] on) m /\
     line h = Some irq1 /\ todo h <> [] /\ never_resume console irqctl handlers m [h; base]).
Proof using.
  split; [exact manager_interrupted|]. split.
  - intros fb on irq Ho.
    destruct (manager_interrupted (mkMachine [mkFrame (tail (drawing_actions fb)) [ManagerLock] None] true on) irq)
      as (m1 & E & Hn); [cbn; set_solver|done|done|].
    eexists m1, _. split; [|split; [|exact Hn]]; [|done].
    eapply rtc_l; [by apply run_step; cbn; rewrite decide_False by set_solver|].
    eapply rtc_l; [by eapply interrupt_step|done].
  - intros on irq1 irq2 Ho1 Ho2 Hne Eh. set (base := mkFrame (H := H) [] [] None).
    set (rest := tail (timer_actions console sys_timer) ++ exit_actions irqctl irq1).
    destruct (manager_interrupted (mkMachine [mkFrame rest [ManagerLock] (Some irq1); base] true
      (set_line irq1 false on)) irq2) as (m1 & E & Hn); [cbn; set_solver|done| |].
    { cbn. unfold set_line. by rewrite (proj2 (Z.eqb_neq irq2 irq1)) by done. }
    eexists m1, _, base. split; [|split; [|split; [|exact Hn]]]; [|done|done].
    eapply rtc_l; [eapply (interrupt_step _ _ _ _ _ irq1); unfold Nest.interrupt, booted; cbn [irqs line_on]; by rewrite Ho1|].
    eapply rtc_trans; [apply runs_steps|eapply rtc_l; [by eapply interrupt_step|done]].
    unfold Nest.dispatch_actions, handler_actions. rewrite Eh, app_assoc. cbn [stack line_on booted].
    replace ((entry_actions irqctl irq1 ++ timer_actions console sys_timer) ++ exit_actions irqctl irq1)
      with ((entry_actions irqctl irq1 ++ [Acquire ManagerLock]) ++ rest) by (unfold rest; by rewrite <- !app_assoc).
    apply (run_code irqctl (entry_actions irqctl irq1 ++ [Acquire ManagerLock]) rest [] [ManagerLock]).
    + by rewrite guards_app, entry_guards.
    + set_solver.
Qed.

(** C6: No line is served twice: while the dispatch of a line is on the
    stack, that line stays masked whenever the processor takes interrupts, so
    no reachable machine has two dispatches of one line. *)
Theorem dispatch_no_reentry code on m :
  (forall irq h, handlers irq = Some h -> forallb quiet h = true) -> forallb quiet code = true ->
  rtc step (booted code on) m ->
  NoDup (serving m) /\ (irqs m = true -> forall irq, irq ∈ serving m -> line_on m irq = false).
Proof using.
  intros Hh Hc Hr. assert (Hi := serving_reachable console irqctl handlers Hh _ _ (booted_inv code on Hc) Hr).
  destruct Hi as [Hi _ Hn]. split; [done|]. intros Hirq irq Hin.
  apply list_elem_of_omap in Hin as (f & Hf & El). destruct (stack m) as [|g below]; [set_solver|].
  destruct (Hi g below eq_refl) as [H1 H2]. rewrite Hirq in H1. pose proof (Forall_cons_2 (fun f => shields f true (line_on m)) _ _ H1 H2) as Hall.
  rewrite Forall_forall in Hall. apply (shielded_now _ _ _ _ (Hall f Hf irq El) eq_refl).
Qed.

Lemma kernel_code_disciplined once fb code : kernel_code console fb code -> disciplined irqctl once code = true.
Proof using.
  intros (pieces & -> & Hp). apply bool_decide_eq_true. induction Hp as [|k pieces Hk _ IH]; [done|]. cbn [concat].
  rewrite guards_app. replace (guards irqctl once [] k) with (Some (@nil (lock_id H))); [exact IH|].
  destruct Hk as [->|[->|[->| ->]]]; symmetry;
    [by apply guards_lookup, not_elem_of_nil|apply log_line_disciplined|apply drawing_disciplined|apply uart_file_disciplined].
Qed.

(** C5: Whatever interrupts arrive, and in whatever order, while the kernel
    looks devices up, logs, draws and uses the console, with the handlers of
    the source for any lines: no lock ever has two owners, code that uses a
    device object, or sets a line of the controller, owns its lock, which the
    code it has interrupted does not, and code that has ended, a handler that
    is about to return among it, has given every lock back. *)
Theorem objects_exclusive fb code on m :
  (forall irq h, handlers irq = Some h -> h = timer_actions console sys_timer \/ h = uart_actions) -> kernel_code console fb code ->
  rtc step (booted code on) m ->
  NoDup (owns (stack m)) /\
  (forall f below l k, stack m = f :: below -> todo f = Use l :: k \/
    (l = ObjectLock irqctl /\ exists irq, todo f = Mask irq :: k \/ todo f = Unmask irq :: k) ->
    l ∈ own f /\ l ∉ owns below) /\
  (forall f, f ∈ stack m -> todo f = [] -> own f = []).
Proof using.
  intros Hh Hc Hr. assert (Hd : forall irq h, handlers irq = Some h -> disciplined irqctl false h = true).
  { intros irq h Eh. apply bool_decide_eq_true. destruct (Hh irq h Eh) as [->| ->]; [apply timer_disciplined|done]. }
  destruct (guards_reachable console irqctl handlers false Hd _ _
    (booted_guards irqctl false code on (kernel_code_disciplined false fb code Hc)) Hr) as [Hg Hn].
  split; [done|]. split.
  2: { intros f Hf Ek. rewrite Forall_forall in Hg. specialize (Hg f Hf). rewrite Ek in Hg. cbn in Hg. by injection Hg. }
  intros f below l k Hs Hk. rewrite Hs in Hg, Hn. apply Forall_cons in Hg as [Hf _].
  change (owns (f :: below)) with (own f ++ owns below) in Hn. apply NoDup_app in Hn as (_ & Hn & _).
  assert (l ∈ own f); [|by auto]. destruct Hk as [Ek|(-> & irq & [Ek|Ek])]; rewrite Ek in Hf; cbn in Hf;
    (destruct (bool_decide _) eqn:Hb; [|done]); by apply bool_decide_eq_true in Hb.
Qed.

(** A dispatch that no further interrupt disturbs, and whose locks the
    interrupted code does not hold, runs to its end: it returns with
    interrupts on and with its line, and no other, enabled. *)
Theorem dispatch_returns irq below on : (forall h, handlers irq = Some h -> disciplined irqctl true h = true /\ forallb quiet h = true) ->
  (forall l, l ∈ owns below -> Acquire l ∉ dispatch_actions irq) ->
  exists on', rtc runs (mkMachine (mkFrame (dispatch_actions irq) [] (Some irq) :: below) false on)
      (mkMachine below true on') /\ on' irq = true /\ forall n, n <> irq -> on' n = on n.
Proof using.
  intros Hh Hb. assert (Hd : guards irqctl true [] (dispatch_actions irq) = Some []).
  { assert (Hk : guards irqctl true [] (handler_actions console handlers irq) = Some []).
    { unfold handler_actions. destruct (handlers irq) as [h|]; [|apply log_line_disciplined].
      destruct (Hh h eq_refl) as [Hd _]. by apply bool_decide_eq_true in Hd. }
    unfold Nest.dispatch_actions. rewrite guards_app, entry_guards. cbn [mbind option_bind]. rewrite guards_app, Hk. apply exit_guards. }
  assert (Hq : forallb quiet (handler_actions console handlers irq) = true).
  { unfold handler_actions. destruct (handlers irq) as [h|]; [by apply Hh|done]. }
  exists (lines_after (dispatch_actions irq) on). split.
  { eapply (rtc_r _ (mkMachine (mkFrame [] [] (Some irq) :: below) _ _)); [|reflexivity].
    rewrite <- (app_nil_r (dispatch_actions irq)) at 1. by eapply run_code. }
  pose proof (lines_quiet _ (set_line irq false on) Hq) as Hl. unfold lines_after in Hl |- *.
  unfold Nest.dispatch_actions. rewrite !foldl_app. cbn -[handler_actions]. rewrite Hl. unfold set_line.
  split; [by rewrite Z.eqb_refl|]. intros n Hn. by rewrite (proj2 (Z.eqb_neq n irq)) by done.
Qed.

(** If interrupts waited until no lock is held, as the source's [IrqMutex]
    makes them, no code would ever spin: every reachable machine can run on or
    is idle, for code and handlers that take no lock twice. *)
Theorem patient_interrupts_progress code on m :
  (forall irq h, handlers irq = Some h -> disciplined irqctl true h = true) -> disciplined irqctl true code = true ->
  rtc (patient_step console irqctl handlers) (booted code on) m ->
  is_Some (exec m) \/ exists f, stack m = [f] /\ todo f = [] /\ line f = None.
Proof using.
  intros Hh Hc Hr.
  assert (Hi : guards_inv irqctl true m /\ waiting_free m).
  { assert (Hb : guards_inv irqctl true (booted code on)) by (by apply booted_guards).
    assert (Hw : waiting_free (booted code on)) by (exists [], (mkFrame code [] None); by repeat constructor).
    clear Hc. induction Hr as [m|m0 m1 m Hs _ IH]; [done|]. apply IH; [|by eapply patient_waiting].
    destruct Hs as [E|[_ (irq & E)]]; [by eapply exec_guards|by eapply interrupt_guards]. }
  destruct Hi as ([Hg _] & (up & base & Hs & Hl & Hup & Ho)). unfold exec. destruct (stack m) as [|f below]; [by destruct up|].
  apply Forall_cons in Hg as [Hf _]. cbn [tail] in Ho. destruct (todo f) as [|a k] eqn:Ek.
  { destruct up as [|g up]; injection Hs as -> ->; [right; by exists base|]. apply Forall_cons in Hup as [[p ->] _]. by left; eexists. }
  left. destruct a; [|by eexists..]. rewrite decide_False; [by eexists|].
  change (owns (f :: below)) with (own f ++ owns below). rewrite Ho, app_nil_r. intros Hin. cbn in Hf.
  by rewrite bool_decide_eq_true_2 in Hf.
Qed.
End Claims.

(** ** Witnesses *)

(** The handlers of the source for the timer's line and the serial port's, on
    objects that are numbers. *)
Definition demo_handlers (irq : Z) : option (list (act nat)) :=
  if irq =? 1 then Some (timer_actions 1%nat 2%nat) else if irq =? 57 then Some uart_actions else None.

(** The kernel draws, and both lines are enabled. *)
Definition demo_lines (irq : Z) : bool := (irq =? 1) || (irq =? 57).
Definition demo_nest : machine nat := booted (drawing_actions 4%nat) demo_lines.

Lemma demo_disciplined once irq h : demo_handlers irq = Some h -> disciplined 3%nat once h = true.
Proof.
  unfold demo_handlers. destruct (irq =? 1); [|destruct (irq =? 57); [|done]]; intros [= <-]; by destruct once.
Qed.

Lemma demo_quiet irq h : demo_handlers irq = Some h -> forallb quiet h = true.
Proof. unfold demo_handlers. destruct (irq =? 1); [|destruct (irq =? 57); [|done]]; by intros [= <-]. Qed.

Lemma demo_interrupted : exists m, interrupt 1%nat 3%nat demo_handlers 1 demo_nest = Some m /\
  rtc (step 1%nat 3%nat demo_handlers) demo_nest m.
Proof.
  eexists. split; [reflexivity|]. eapply rtc_l; [by apply (interrupt_step _ _ _ _ _ 1)|done].
Qed.

Lemma nested_interrupt_deadlocks_witness : exists m h base,
  rtc (step 1%nat 3%nat demo_handlers) (booted [] demo_lines) m /\ line h = Some 1 /\ todo h <> [] /\
  never_resume 1%nat 3%nat demo_handlers m [h; base].
Proof.
  destruct (nested_interrupt_deadlocks 1%nat 2%nat 3%nat demo_handlers) as (_ & _ & Ht).
  by apply (Ht demo_lines 1 57).
Defined.

Lemma dispatch_no_reentry_witness : exists m, rtc (step 1%nat 3%nat demo_handlers) demo_nest m /\
  serving m = [1] /\ NoDup (serving m).
Proof.
  destruct demo_interrupted as (m & E & Hr). exists m. split; [exact Hr|]. split.
  - unfold interrupt in E. cbn in E. by injection E as <-.
  - by destruct (dispatch_no_reentry 1%nat 3%nat demo_handlers (drawing_actions 4%nat) demo_lines m demo_quiet eq_refl Hr).
Defined.

(** The kernel draws when the timer fires. *)
Lemma objects_exclusive_witness : exists m, rtc (step 1%nat 3%nat demo_handlers) demo_nest m /\ serving m = [1] /\ NoDup (owns (stack m)).
Proof.
  destruct demo_interrupted as (m & E & Hr). exists m. split; [exact Hr|]. split.
  - unfold interrupt in E. cbn in E. by injection E as <-.
  - destruct (objects_exclusive 1%nat 2%nat 3%nat demo_handlers 4%nat (drawing_actions 4%nat) demo_lines m) as [Hn _]; [| |exact Hr|exact Hn].
    + unfold demo_handlers. intros irq h. destruct (irq =? 1); [|destruct (irq =? 57); [|done]]; intros [= <-]; auto.
    + exists [drawing_actions 4%nat]. split; [reflexivity|]. constructor; [by auto|constructor].
Defined.

Lemma dispatch_returns_witness : exists on',
  rtc runs (mkMachine (mkFrame (dispatch_actions 1%nat 3%nat demo_handlers 1) [] (Some 1) :: [mkFrame [] [] None]) false demo_lines)
    (mkMachine [mkFrame [] [] None] true on') /\ on' 1 = true /\ forall n, n <> 1 -> on' n = demo_lines n.
Proof.
  apply (dispatch_returns 1%nat 3%nat demo_handlers 1 [mkFrame [] [] None] demo_lines).
  - intros h E. split; [exact (demo_disciplined true 1 h E)|exact (demo_quiet 1 h E)].
  - cbn. intros l Hl. by apply not_elem_of_nil in Hl.
Defined.

Lemma patient_interrupts_progress_witness : is_Some (exec demo_nest) \/ exists f, stack demo_nest = [f] /\ todo f = [] /\ line f = None.
Proof.
  apply (patient_interrupts_progress 1%nat 3%nat demo_handlers (drawing_actions 4%nat) demo_lines demo_nest
    (demo_disciplined true) eq_refl). apply rtc_refl.
Defined.
