(* ===== verification/Trace.v ===== *)
(** * What the code of the kernel does, in order

    An implementation of [KernelOps] whose state also holds a record of the
    locks that were taken and dropped and of every change to the devices, in
    order.  Code that is written against [KernelOps] runs on it as it does on
    the plain state, and [follows] relates it to a list of the actions of
    [Nest]: the code spins for ever when the actions take a lock that is held,
    and otherwise it returns after having done them, one by one. *)
From S2P Require Import Prelude Devices Timer Logger Locks Nest.

(** ** Definitions *)

Section Traced.
Context {H : Type} `{EqDecision H} {D : Type}.

(** A change of the devices has the devices before and after it. *)
Inductive event := Acquired (l : lock_id H) | Released (l : lock_id H) | Changed (before after : D).

(** The kernel, and what its code has done so far. *)
Definition traced : Type := kernel H D * list event.

Definition noting {A} (m : st (kernel H D) A) (e : kernel H D -> kernel H D -> event) : st traced A := fun '(s, tr) =>
  match m s with
  | Ret (a, s') => Ret (a, (s', tr ++ [e s s']))
  | Panic => Panic
  | OutOfFuel => OutOfFuel
  end.

Definition traced_ops : KernelOps H D traced := {|
  k_acquire fuel l := noting (acquire fuel l) (fun _ _ => Acquired l);
  k_release l := noting (release l) (fun _ _ => Released l);
  k_cell := fun '(s, tr) => Ret (manager s, (s, tr));
  k_dev A f := noting (on_dev f) (fun s s' => Changed (dev s) (dev s'));
|}.

(** The event an action is, for [means], what an action does to the devices. *)
Context (means : act H -> D -> D -> Prop).

Definition shows (a : act H) (e : event) : Prop :=
  match a, e with
  | Acquire l, Acquired l' | Release l, Released l' => l = l'
  | (Use _ | Mask _ | Unmask _ | EnableIrqs | DisableIrqs), Changed d d' => means a d d'
  | _, _ => False
  end.

(** The locks that are taken after actions; [None] if one is taken already. *)
Fixpoint locks_after (own : list (lock_id H)) (k : list (act H)) : option (list (lock_id H)) :=
  match k with
  | [] => Some own
  | Acquire l :: k => if decide (l ∈ own) then None else locks_after (l :: own) k
  | Release l :: k => locks_after (filter (fun x => x <> l) own) k
  | _ :: k => locks_after own k
  end.
End Traced.
Arguments event : clear implicits.
Arguments traced : clear implicits.

(** ** Lemmas *)

(** *** The record changes nothing *)

Section Same.
Context {H D : Type} `{EqDecision H}.

(** Code on states [X] does what code on states [Y] does, for states that are
    related by [R]. *)
Definition same {X Y A} (R : X -> Y -> Prop) (m : st X A) (m0 : st Y A) : Prop := forall x y, R x y ->
  match m0 y with
  | Ret (a, y') => exists x', m x = Ret (a, x') /\ R x' y'
  | Panic => m x = Panic
  | OutOfFuel => m x = OutOfFuel
  end.

Lemma same_bind {X Y A B} (R : X -> Y -> Prop) (m : st X A) m0 (f : A -> st X B) f0 :
  same R m m0 -> (forall a, same R (f a) (f0 a)) -> same R (m ≫= f) (m0 ≫= f0).
Proof using.
  intros Hm Hf x y Hr. specialize (Hm x y Hr). unfold mbind, st_bind. destruct (m0 y) as [[a y']| |]; [|by rewrite Hm..].
  destruct Hm as (x' & -> & Hr'). by apply Hf.
Qed.

Lemma same_ret {X Y A} (R : X -> Y -> Prop) (a : A) : same R (mret a) (mret a).
Proof using. intros x y Hr. by exists x. Qed.

Lemma same_panic {X Y A} (R : X -> Y -> Prop) : same (A := A) R panic panic.
Proof using. by intros x y Hr. Qed.

Definition plainly (x : traced H D) (y : kernel H D) : Prop := x.1 = y.

Lemma same_noting {A} (m : st (kernel H D) A) e : same plainly (noting m e) m.
Proof using.
  intros [s tr] y E. unfold plainly in E. cbn in E. subst y. unfold noting. destruct (m s) as [[a s']| |]; [|done..]. by eexists.
Qed.

Lemma same_locked {A} fuel l (m : st (traced H D) A) m0 : same plainly m m0 ->
  same plainly (locked (Ops := traced_ops) fuel l m) (locked fuel l m0).
Proof using.
  intros Hm. apply same_bind; [apply same_noting|]. intros _. apply same_bind; [done|]. intros a.
  apply same_bind; [apply same_noting|]. intros _. apply same_ret.
Qed.

Lemma same_device_manager : same plainly (device_manager (Ops := traced_ops)) (device_manager (K := kernel H D)).
Proof using.
  apply same_bind; [intros [s tr] y E; unfold plainly in E; cbn in E; subst y; by eexists|]. intros [dm|]; [apply same_ret|apply same_panic].
Qed.

Lemma same_lookup fuel f :
  same plainly (lookup_device (Ops := traced_ops) fuel f) (lookup_device (K := kernel H D) fuel f).
Proof using. apply same_bind; [apply same_device_manager|]. intros dm. apply same_locked, same_ret. Qed.

(** With loggers that deliver to the same sinks. *)
Definition logging (lt : KernelLogger (traced H D)) (lp : KernelLogger (kernel H D)) x y : Prop :=
  x.1 = lt /\ y.1 = lp /\ plainly x.2 y.2.

Lemma same_on_kernel {A} lt lp (m : st (traced H D) A) m0 : same plainly m m0 -> same (logging lt lp) (on_kernel m) (on_kernel m0).
Proof using.
  intros Hm [l x] [l0 y] (E1 & E2 & Hr). cbn in E1, E2, Hr. subst l l0. specialize (Hm x y Hr). unfold on_kernel.
  destruct (m0 y) as [[a y']| |]; [|by rewrite Hm..]. destruct Hm as (x' & -> & Hr'). by eexists.
Qed.

Section Logging.
Context `{Profile} {E : Type} (port_write : H -> list Z -> st D (result Z E)).
Context (level_text : Z -> list Z) (boot_console : list Z -> st D unit) (fuel : nat) (lv : Z).

Lemma same_sink s :
  same plainly (serial_log_sink (Ops := traced_ops) port_write fuel s) (serial_log_sink port_write fuel s).
Proof using.
  apply same_bind; [apply same_lookup|]. intros [port|]; [|apply same_ret].
  apply same_bind; [apply same_locked, same_noting|]. intros _. apply same_ret.
Qed.

Lemma same_log r :
  same (logging (mkLogger (Runtime [serial_log_sink (Ops := traced_ops) port_write fuel]) lv)
                (mkLogger (Runtime [serial_log_sink port_write fuel]) lv))
    (log_record (Ops := traced_ops) level_text boot_console fuel r) (log_record level_text boot_console fuel r).
Proof using.
  intros [lt x] [lp y] (E1 & E2 & Hr). cbn [fst snd] in E1, E2, Hr. subst lt lp. unfold log_record.
  erewrite !stbind_step by reflexivity. cbv beta iota. change (enabled _ _) with (rlevel r <=? level_from_u8 lv).
  destruct (rlevel r <=? level_from_u8 lv) eqn:En; [|by eexists].
  apply same_bind with (R := logging _ _); [apply same_on_kernel, same_noting| |done]. intros _.
  apply same_bind; [|intros _; apply same_on_kernel, same_noting].
  clear x y Hr. intros [lt x] [lp y] (E1 & E2 & Hr). cbn [fst snd] in E1, E2, Hr. subst lt lp. unfold log.
  change (enabled _ _) with (rlevel r <=? level_from_u8 lv). rewrite En. cbn [negb mode each_sink].
  unfold mbind, st_bind, lift. rewrite format_record_ok.
  pose proof (same_sink (take 512 (concat (line_pieces level_text r))) x y Hr) as Hs.
  destruct (serial_log_sink (K := kernel H D) _ _ _ _) as [[[] y']| |]; [|by rewrite Hs..].
  destruct Hs as (x' & -> & Hr'). by eexists.
Qed.
End Logging.
End Same.

(** *** Code and actions *)

Section Follows.
Context {H D : Type} `{EqDecision H} (means : act H -> D -> D -> Prop).
Context (dm : DeviceManager H) (fuel : nat) (fuel_pos : (0 < fuel)%nat).
#[local] Existing Instance traced_ops.
#[local] Notation K := (traced H D).

(** The record grows by the events of actions. *)
Definition did (k : list (act H)) (s s' : K) : Prop := exists events, s'.2 = s.2 ++ events /\ Forall2 (shows means) k events.

Lemma did_nil s : did [] s s.
Proof using. exists []. by rewrite app_nil_r. Qed.

Lemma did_app k1 k2 s1 s2 s3 : did k1 s1 s2 -> did k2 s2 s3 -> did (k1 ++ k2) s1 s3.
Proof using.
  intros (e1 & E1 & F1) (e2 & E2 & F2). exists (e1 ++ e2). rewrite E2, E1, app_assoc. split; [done|]. by apply Forall2_app.
Qed.

Lemma did_one a e s s' tr : shows means a e -> did [a] (s, tr) (s', tr ++ [e]).
Proof using. intros Ha. exists [e]. split; [done|]. by repeat constructor. Qed.

Lemma locks_after_app (own : list (lock_id H)) k1 k2 : locks_after own (k1 ++ k2) = locks_after own k1 ≫= fun own' => locks_after own' k2.
Proof using. revert own. induction k1 as [|[] k1 IH]; intros own; cbn; try apply IH; [done|]. destruct (decide _); [done|apply IH]. Qed.

(** Code on a state [X] that has the kernel in it: it spins if the actions take
    a lock that is held, and otherwise does the actions and returns.  [keeps]
    is what is known of the rest of the state, and [good] of the result. *)
Definition follows {X A} (proj : X -> K) (keeps : X -> Prop) (k : list (act H)) (good : A -> Prop) (m : st X A) : Prop :=
  forall x, keeps x -> manager (proj x).1 = Some dm ->
    match locks_after (taken (proj x).1) k with
    | Some t => exists a x', m x = Ret (a, x') /\ good a /\ keeps x' /\ taken (proj x').1 = t /\
        manager (proj x').1 = Some dm /\ did k (proj x) (proj x')
    | None => m x = OutOfFuel
    end.

Section Composed.
Context {X : Type} (proj : X -> K) (keeps : X -> Prop).
#[local] Notation follows := (follows proj keeps).

Lemma follows_bind {A B} k1 k2 good1 good2 (m : st X A) (f : A -> st X B) :
  follows k1 good1 m -> (forall a, good1 a -> follows k2 good2 (f a)) -> follows (k1 ++ k2) good2 (m ≫= f).
Proof using.
  intros Hm Hf x Hx Hd. specialize (Hm x Hx Hd). rewrite locks_after_app.
  destruct (locks_after (taken (proj x).1) k1) as [t|]; cbn [mbind option_bind].
  - destruct Hm as (a & x1 & E & Ha & Hx1 & <- & Hd1 & D1). specialize (Hf a Ha x1 Hx1 Hd1).
    rewrite (stbind_step _ _ _ _ _ E). destruct (locks_after _ k2); [|done].
    destruct Hf as (b & x2 & E2 & Hb & Hx2 & Ht & Hd2 & D2). exists b, x2. split_and!; try done. by eapply did_app.
  - unfold mbind, st_bind. by rewrite Hm.
Qed.

Lemma follows_ret {A} (good : A -> Prop) a : good a -> follows [] good (mret a).
Proof using. intros Ha x Hx Hd. exists a, x. split_and!; try done. apply did_nil. Qed.

Lemma follows_expect {A} (a : A) o : o = Some a -> follows [] (fun b => b = a) (expect_some o).
Proof using. intros ->. by apply follows_ret. Qed.

Lemma follows_then {A B} k1 k2 good (m : st X A) (m' : st X B) :
  follows k1 (fun _ => True) m -> follows k2 good m' -> follows (k1 ++ k2) good (_ ← m; m').
Proof using. intros Hm Hf. by eapply follows_bind. Qed.
End Composed.

#[local] Notation steps := (follows (fun s : K => s) (fun _ => True)).

Lemma follows_acquire l : steps [Acquire l] (fun _ => True) (k_acquire fuel l).
Proof using fuel_pos.
  intros [s tr] _ Hd. cbn in *. destruct (decide _); [by rewrite acquire_taken|]. rewrite acquire_free by done.
  eexists tt, _. split_and!; try done. by apply did_one.
Qed.

Lemma follows_release l : steps [Release l] (fun _ => True) (k_release l).
Proof using. intros [s tr] _ Hd. cbn. eexists tt, _. split_and!; try done. by apply did_one. Qed.

(** One call of a device. *)
Lemma follows_dev {A} a (f : st D A) (good : A -> Prop) :
  (forall d, exists x d', f d = Ret (x, d') /\ good x /\ shows means a (Changed d d')) -> steps [a] good (k_dev f).
Proof using.
  intros Hf [s tr] _ Hd. destruct (Hf (dev s)) as (x & d' & E & Hx & Hs). cbn [fst] in *.
  replace (locks_after _ _) with (Some (taken s)) by by destruct a.
  eexists x, _. split; [cbn; unfold on_dev; rewrite E; reflexivity|]. split_and!; try done. by apply did_one.
Qed.

Lemma follows_locked {A} l body (good : A -> Prop) (m : st K A) : steps body good m ->
  steps (guarded l body) good (locked fuel l m).
Proof using fuel_pos.
  intros Hm. unfold locked, guarded. apply follows_then; [apply follows_acquire|].
  apply (follows_bind _ _ _ _ good); [done|]. intros a Ha. rewrite <- (app_nil_r [Release l]).
  apply follows_then; [apply follows_release|by apply follows_ret].
Qed.

Lemma follows_lookup f : steps lookup (fun a => a = f dm) (lookup_device fuel f).
Proof using fuel_pos.
  unfold lookup_device, device_manager. apply (follows_bind _ _ [] _ (fun a => a = dm)).
  - intros s _ Hd. destruct s as [s tr]. cbn in Hd. exists dm, (s, tr). split; [unfold mbind, st_bind; cbn; by rewrite Hd|].
    split_and!; try done. apply did_nil.
  - intros ? ->. by apply follows_locked, follows_ret.
Qed.

Lemma follows_on_kernel {A} k (good : A -> Prop) (m : st K A) (l : KernelLogger K) :
  steps k good m -> follows snd (fun r => r.1 = l) k good (on_kernel m).
Proof using.
  intros Hm [l' s] E Hd. cbn in *. subst l'. specialize (Hm s I Hd). destruct (locks_after _ _) as [t|].
  - destruct Hm as (a & s' & E & Ha & _ & Ht & Hd' & Hdid). exists a, (l, s'). unfold on_kernel. rewrite E. by split_and!.
  - unfold on_kernel. by rewrite Hm.
Qed.

(** *** A line of the log *)

Section Logging.
Context `{Profile} {E : Type} (port_write : H -> list Z -> st D (result Z E)).
Context (level_text : Z -> list Z) (boot_console : list Z -> st D unit) (port : H) (is_console : serial_console dm = Some port).
Context (writes : forall line d, exists v d', port_write port line d = Ret (v, d') /\ means (Use (ObjectLock port)) d d').

Lemma follows_sink s : steps (sink_actions port) (fun _ => True) (serial_log_sink port_write fuel s).
Proof using All.
  unfold serial_log_sink, get_serial_console, sink_actions.
  apply (follows_bind _ _ _ _ (fun a => a = Some port)); [rewrite <- is_console; apply follows_lookup|]. intros ? ->.
  rewrite <- (app_nil_r (guarded _ _)). apply follows_then; [|by apply follows_ret].
  apply follows_locked, follows_dev. intros d. destruct (writes s d) as (v & d' & Ew & Hm). by exists v, d'.
Qed.

Lemma follows_log r lv : rlevel r <= level_from_u8 lv ->
  let logger := mkLogger (Runtime [serial_log_sink (K := K) port_write fuel]) lv in
  follows snd (fun r => r.1 = logger) (log_line port) (fun _ => True) (log_record level_text boot_console fuel r).
Proof using All.
  intros Hr logger. assert (En : enabled logger (rlevel r) = true) by by apply Z.leb_le.
  unfold log_record. apply (follows_bind _ _ [] (log_line port) (fun x => x.1 = logger)).
  { intros x Hx Hd. exists x, x. split_and!; try done. apply did_nil. }
  intros [l0 s0] El. cbn [fst] in El. subst l0. cbv beta iota. rewrite En.
  change (log_line port) with ([Acquire LoggerLock] ++ sink_actions port ++ [Release LoggerLock]).
  apply follows_then; [apply follows_on_kernel, follows_acquire|].
  apply follows_then; [|apply follows_on_kernel, follows_release].
  intros [l s] El Hd. cbn in El. subst l. pose proof (follows_sink (take 512 (concat (line_pieces level_text r))) s I Hd) as Hs.
  cbn [snd] in *. unfold log. rewrite En. cbn [negb mode each_sink logger]. unfold mbind, st_bind, lift.
  rewrite format_record_ok. destruct (locks_after _ _) as [t|]; [|by rewrite Hs].
  destruct Hs as ([] & s' & -> & _ & _ & Ht & Hd' & Hdid). exists tt, (logger, s'). by split_and!.
Qed.
End Logging.
End Follows.
