(* ===== verification/Mailbox.v ===== *)
(** * The VideoCore mailbox (drivers/src/peripheral/bcm2835/mailbox.rs)

    Messages to the graphics processor and its answers, over a device [D] whose
    registers and memory are read and written through [Mmio]: the processor
    answers a request by changing the request's words in memory.  Physical and
    virtual addresses are the same.  Waiting takes fuel. *)
From S2P Require Import Prelude Mmio.

(** ** Definitions *)

Definition MAILBOX_BASE : Z := 0x2000b880.
Definition REG_READ : Z := 0.
Definition REG_STATUS : Z := 0x18.
Definition REG_WRITE : Z := 0x20.
Definition STATUS_EMPTY : Z := 2 ^ 30.
Definition STATUS_FULL : Z := 2 ^ 31.
Definition CHANNEL_MASK : Z := 0xf.
Definition DATA_MASK : Z := 0xfffffff0.

Inductive Channel := Power | Framebuffer | VirtualUart | Vchiq | Leds | Buttons | Touchscreen | Unused | Property_.

Definition channel_code (c : Channel) : Z :=
  match c with
  | Power => 0 | Framebuffer => 1 | VirtualUart => 2 | Vchiq => 3 | Leds => 4 | Buttons => 5
  | Touchscreen => 6 | Unused => 7 | Property_ => 8
  end.

(** [response] and [tags]. *)
Definition SUCCESS : Z := 0x80000000.
Definition GET_FIRMWARE_REVISION : Z := 0x1.
Definition GET_BOARD_SERIAL : Z := 0x10004.
Definition GET_ARM_MEMORY : Z := 0x10005.
Definition GET_VC_MEMORY : Z := 0x10006.
Definition ALLOCATE_BUFFER : Z := 0x40001.
Definition SET_PHYSICAL_SIZE : Z := 0x48003.
Definition SET_VIRTUAL_SIZE : Z := 0x48004.
Definition SET_DEPTH : Z := 0x48005.
Definition SET_PIXEL_ORDER : Z := 0x48006.
Definition GET_PITCH : Z := 0x40008.

Inductive MailboxError := UnalignedBuffer | CallFailed | InvalidResponse.

Record Mailbox := mkMailbox { base : Z }.
Definition new : Mailbox := mkMailbox MAILBOX_BASE.
Definition with_base (b : Z) : Mailbox := mkMailbox b.

Section Driver.
Context `{Profile} {D : Type} `{Mmio D} (mb : Mailbox).

Definition reg_at (off : Z) : outcome Z := add usize_bits (base mb) off.

Definition read_status : st D Z := a ← lift (reg_at REG_STATUS); read_volatile a.
Definition read_data : st D Z := a ← lift (reg_at REG_READ); read_volatile a.
Definition write_data (value : Z) : st D unit := a ← lift (reg_at REG_WRITE); write_volatile a value.

(** [wait_for_write] and [wait_for_read]. *)
Fixpoint wait_for (flag : Z) (fuel : nat) : st D unit :=
  match fuel with
  | O => out_of_fuel
  | S fuel => s ← read_status; if negb (Z.land s flag =? 0) then wait_for flag fuel else mret tt
  end.
Definition wait_for_write : nat -> st D unit := wait_for STATUS_FULL.
Definition wait_for_read : nat -> st D unit := wait_for STATUS_EMPTY.

(** The loop that takes messages until one is for the channel. *)
Fixpoint call_loop (wait fuel : nat) (channel buffer_phys : Z) : st D bool :=
  match fuel with
  | O => out_of_fuel
  | S fuel =>
      _ ← wait_for_read wait;
      resp ← read_data;
      if Z.land resp CHANNEL_MASK =? channel then
        let resp_addr := Z.land resp DATA_MASK in
        if negb (resp_addr =? Z.land buffer_phys DATA_MASK) then mret false
        else
          a ← lift (add usize_bits buffer_phys 4);
          response_code ← read_volatile a;
          mret (response_code =? SUCCESS)
      else call_loop wait fuel channel buffer_phys
  end.

Definition call (wait fuel : nat) (channel : Channel) (buffer_phys : Z) : st D bool :=
  _ ← lift (debug_assert (Z.land buffer_phys 0xf =? 0));
  let msg := Z.lor (Z.land buffer_phys DATA_MASK) (Z.land (channel_code channel) CHANNEL_MASK) in
  _ ← wait_for_write wait;
  _ ← write_data (wrap 32 msg);
  call_loop wait fuel (channel_code channel) buffer_phys.

(** [call_with_buffer]; [buffer_ptr] is the address of the slice. *)
Definition call_with_buffer (wait fuel : nat) (channel : Channel) (buffer_ptr : Z) : st D (result unit MailboxError) :=
  if negb (Z.land buffer_ptr 0xf =? 0) then mret (Err UnalignedBuffer)
  else ok ← call wait fuel channel buffer_ptr; mret (if (ok : bool) then Ok tt else Err CallFailed).
End Driver.

(** The requests of the queries, as the words of their statics; a struct is
    padded to its alignment of 16 bytes. *)
Definition memory_request (tag : Z) : list Z := [32; 0; tag; 8; 0; 0; 0; 0].
Definition arm_memory_request : list Z := memory_request GET_ARM_MEMORY.
Definition vc_memory_request : list Z := memory_request GET_VC_MEMORY.
Definition firmware_request : list Z := [32; 0; GET_FIRMWARE_REVISION; 4; 0; 0; 0].
Definition serial_request : list Z := memory_request GET_BOARD_SERIAL.

Section Queries.
Context `{Profile} {D : Type} `{Mmio D} (wait fuel : nat).

(** [req] is the address of the static. *)
Definition query_pair (req : Z) : st D (option (Z * Z)) :=
  ok ← call new wait fuel Property_ req;
  if (ok : bool) then
    a ← read_volatile (req + 20); b ← read_volatile (req + 24); mret (Some (a, b))
  else mret None.

Definition get_arm_memory (req : Z) : st D (option (Z * Z)) := query_pair req.
Definition get_vc_memory (req : Z) : st D (option (Z * Z)) := query_pair req.

Definition get_firmware_revision (req : Z) : st D (option Z) :=
  ok ← call new wait fuel Property_ req;
  if (ok : bool) then v ← read_volatile (req + 20); mret (Some v) else mret None.

Definition get_board_serial (req : Z) : st D (option Z) :=
  ok ← call new wait fuel Property_ req;
  if (ok : bool) then
    low ← read_volatile (req + 20); high ← read_volatile (req + 24);
    mret (Some (Z.lor (Z.shiftl high 32) low))
  else mret None.
End Queries.

(** ** The device

    What the driver relies on: reading the status leaves the messages alone,
    a flag that is up goes down after finitely many reads as long as there is
    something to wait for, and reading data takes the first message. *)
Class MailboxDevice (D : Type) `{Mmio D} := {
  inbox : D -> list Z;            (* the answers to come, in order *)
  read_polls : D -> nat;          (* status reads until the next is there *)
  write_polls : D -> nat;         (* status reads until there is room *)
  memory : D -> gmap Z Z;
  gpu : gmap Z Z -> Z -> gmap Z Z * list Z;  (* what a message makes of the memory, and the answers *)
  poll d : exists w d', read32 (MAILBOX_BASE + REG_STATUS) d = (w, d') /\
    (Z.testbit w 31 = negb (write_polls d =? 0)%nat) /\
    (Z.testbit w 30 = (match inbox d with [] => true | _ => false end || negb (read_polls d =? 0)%nat)) /\
    inbox d' = inbox d /\ read_polls d' = pred (read_polls d) /\ write_polls d' = pred (write_polls d) /\
    memory d' = memory d;
  take_message d x q : inbox d = x :: q -> read_polls d = 0%nat ->
    exists d', read32 (MAILBOX_BASE + REG_READ) d = (x, d') /\ inbox d' = q /\ memory d' = memory d;
  submit d v : write_polls d = 0%nat -> let d' := write32 (MAILBOX_BASE + REG_WRITE) v d in
    inbox d' = inbox d ++ (gpu (memory d) v).2 /\ memory d' = (gpu (memory d) v).1;
  write_word d a v : a < MAILBOX_BASE \/ MAILBOX_BASE + 0x24 <= a -> let d' := write32 a v d in
    inbox d' = inbox d /\ memory d' = <[a := v]> (memory d);
  read_word d a : a < MAILBOX_BASE \/ MAILBOX_BASE + 0x24 <= a -> read32 a d = (default 0 (memory d !! a), d);
}.

(** ** Lemmas *)

Lemma testbit_flag w n : 0 <= n -> negb (Z.land w (2 ^ n) =? 0) = Z.testbit w n.
Proof. intros. by rewrite land_bit, negb_involutive. Qed.

Lemma low_mask x : Z.land x CHANNEL_MASK = x mod 16.
Proof. apply (land_mask x 4). lia. Qed.

Lemma data_mask x : fits 32 x -> Z.land x DATA_MASK = x - x mod 16.
Proof. intros Hx. apply (land_lnot_mask 32 x 4); [lia|done]. Qed.

Lemma channel_code_small c : 0 <= channel_code c < 16.
Proof. destruct c; cbn; lia. Qed.

Section Calls.
Context `{Profile} {D : Type} `{MailboxDevice D}.

Lemma reg_step {B} off (k : Z -> st D B) (d : D) : fits 32 (MAILBOX_BASE + off) ->
  (lift (reg_at new off) ≫= k) d = k (MAILBOX_BASE + off) d.
Proof. intros Hf. unfold mbind, st_bind, lift, reg_at. cbn [base new]. by rewrite add_ok. Qed.

Lemma read_status_ok (d : D) w d' : read32 (MAILBOX_BASE + REG_STATUS) d = (w, d') -> read_status new d = Ret (w, d').
Proof. intros E. unfold read_status. rewrite reg_step by done. unfold read_volatile. by rewrite E. Qed.

(** Waiting ends in one state, with however much fuel it takes. *)
Lemma wait_write_ok n : forall d, write_polls d = n -> exists d',
  (forall wait, (n < wait)%nat -> wait_for_write new wait d = Ret (tt, d')) /\
  write_polls d' = 0%nat /\ inbox d' = inbox d /\ memory d' = memory d.
Proof.
  induction n as [|n IH]; intros d Hn; destruct (poll d) as (w & d' & E & Hf & _ & Hb & _ & Hp & Hm).
  - exists d'. split; [|repeat split; (done || congruence || lia)]. intros [|wait] Hw; [lia|].
    unfold wait_for_write. cbn [wait_for]. erewrite stbind_step by (by apply read_status_ok). cbv beta.
    unfold STATUS_FULL. rewrite testbit_flag, Hf, Hn by lia. done.
  - destruct (IH d' ltac:(lia)) as (d2 & E2 & Hz & Hb2 & Hm2). exists d2.
    split; [|repeat split; (done || congruence)]. intros [|wait] Hw; [lia|].
    unfold wait_for_write. cbn [wait_for]. erewrite stbind_step by (by apply read_status_ok). cbv beta.
    unfold STATUS_FULL. rewrite testbit_flag, Hf, Hn by lia. apply E2. lia.
Qed.

Lemma write_short wait : forall d, (wait <= write_polls d)%nat -> wait_for_write new wait d = OutOfFuel.
Proof.
  induction wait as [|wait IH]; intros d Hw; [done|]. unfold wait_for_write. cbn [wait_for].
  destruct (poll d) as (w & d' & E & Hf & _ & _ & _ & Hp & _). erewrite stbind_step by (by apply read_status_ok).
  cbv beta. unfold STATUS_FULL. rewrite testbit_flag, Hf by lia.
  destruct (write_polls d) as [|n]; [lia|]. apply IH. lia.
Qed.

Lemma wait_read_ok n : forall d, read_polls d = n -> inbox d <> [] -> exists d',
  (forall wait, (n < wait)%nat -> wait_for_read new wait d = Ret (tt, d')) /\
  inbox d' = inbox d /\ read_polls d' = 0%nat /\ memory d' = memory d.
Proof.
  induction n as [|n IH]; intros d Hn Hi; destruct (poll d) as (w & d' & E & _ & Hf & Hb & Hp & _ & Hm).
  - exists d'. split; [|repeat split; (done || lia)]. intros [|wait] Hw; [lia|].
    unfold wait_for_read. cbn [wait_for]. erewrite stbind_step by (by apply read_status_ok). cbv beta.
    unfold STATUS_EMPTY. rewrite testbit_flag, Hf, Hn by lia. by destruct (inbox d).
  - destruct (IH d' ltac:(lia) ltac:(by rewrite Hb)) as (d2 & E2 & Hb2 & Hp2 & Hm2). exists d2.
    split; [|repeat split; (done || congruence)]. intros [|wait] Hw; [lia|].
    unfold wait_for_read. cbn [wait_for]. erewrite stbind_step by (by apply read_status_ok). cbv beta.
    unfold STATUS_EMPTY. rewrite testbit_flag, Hf, Hn, orb_true_r by lia. apply E2. lia.
Qed.

(** While nothing comes, waiting goes on. *)
Lemma wait_read_empty wait : forall d, inbox d = [] -> wait_for_read new wait d = OutOfFuel.
Proof.
  induction wait as [|wait IH]; intros d Hi; [done|]. unfold wait_for_read. cbn [wait_for].
  destruct (poll d) as (w & d' & E & _ & Hf & Hb & _). erewrite stbind_step by (by apply read_status_ok).
  cbv beta. unfold STATUS_EMPTY. rewrite testbit_flag, Hf, Hi by lia. cbn [orb]. apply IH. congruence.
Qed.

Lemma wait_short wait : forall d, (wait <= read_polls d)%nat -> wait_for_read new wait d = OutOfFuel.
Proof.
  induction wait as [|wait IH]; intros d Hw; [done|]. unfold wait_for_read. cbn [wait_for].
  destruct (poll d) as (w & d' & E & _ & Hf & _ & Hp & _). erewrite stbind_step by (by apply read_status_ok).
  cbv beta. unfold STATUS_EMPTY. rewrite testbit_flag, Hf by lia.
  destruct (read_polls d) as [|n]; [lia|]. rewrite orb_true_r. apply IH. lia.
Qed.

Lemma read_data_ok (d : D) x q : inbox d = x :: q -> read_polls d = 0%nat ->
  exists d', read_data new d = Ret (x, d') /\ inbox d' = q /\ memory d' = memory d.
Proof.
  intros Hi Hp. destruct (take_message d x q Hi Hp) as (d' & E & Hq & Hm). exists d'. split; [|done].
  unfold read_data. rewrite reg_step by done. unfold read_volatile. by rewrite E.
Qed.

(** One message is waited for and taken. *)
Lemma next_message (d : D) x q : inbox d = x :: q -> exists N d', inbox d' = q /\ memory d' = memory d /\
  forall wait, (N <= wait)%nat -> forall B (k : Z -> st D B),
    (wait_for_read new wait ≫= (fun _ => read_data new ≫= k)) d = k x d'.
Proof.
  intros Hi. destruct (wait_read_ok (read_polls d) d eq_refl ltac:(by rewrite Hi)) as (d1 & E1 & Hi1 & Hp1 & Hm1).
  destruct (read_data_ok d1 x q ltac:(by rewrite Hi1) Hp1) as (d2 & E2 & Hq & Hm2).
  exists (S (read_polls d)), d2. repeat split; [done|congruence|]. intros wait Hw B k.
  erewrite stbind_step by (apply E1; lia). by erewrite stbind_step by (exact E2).
Qed.

(** The messages before the first for the channel are taken and ignored. *)
Lemma call_loop_ok ch buf pre : forall d x post, inbox d = pre ++ x :: post ->
  Forall (fun y => y mod 16 <> ch) pre -> x mod 16 = ch -> fits 32 x -> fits 32 (buf + 4) -> fits 32 buf -> buf mod 16 = 0 ->
  (buf + 4 < MAILBOX_BASE \/ MAILBOX_BASE + 0x24 <= buf + 4) ->
  exists N d', inbox d' = post /\ memory d' = memory d /\ forall wait fuel, (N <= wait)%nat -> (length pre < fuel)%nat ->
    call_loop new wait fuel ch buf d = Ret ((x - ch =? buf) && (default 0 (memory d !! (buf + 4)) =? SUCCESS), d').
Proof.
  induction pre as [|y pre IH]; intros d x post Hi Hpre Hx Hfx Hf4 Hfb Hb Ha; destruct (next_message d _ _ Hi) as (N & d1 & Hi1 & Hm1 & E).
  - exists N, d1. do 2 (split; [done|]). intros wait [|fuel] Hw Hf; [cbn in Hf; lia|]. cbn [call_loop].
    rewrite E by done. rewrite low_mask, Hx, Z.eqb_refl. cbn zeta. rewrite !data_mask, Hx, Hb, Z.sub_0_r by done.
    destruct (x - ch =? buf); [|done]. cbn [negb andb]. unfold lift, mbind, st_bind. rewrite (add_ok _ buf 4 Hf4).
    unfold read_volatile. rewrite read_word by done. by rewrite Hm1.
  - inversion Hpre as [|? ? Hy Hpre']; subst. destruct (IH d1 x post Hi1 Hpre' eq_refl Hfx Hf4 Hfb Hb Ha) as (N2 & d2 & Hi2 & Hm2 & E2).
    exists (max N N2), d2. split; [done|]. split; [congruence|].
    intros wait [|fuel] Hw Hf; [cbn in Hf; lia|]. cbn [call_loop]. rewrite E by lia.
    rewrite low_mask, (proj2 (Z.eqb_neq _ _) Hy). rewrite E2 by (cbn in Hf; lia). by rewrite Hm1.
Qed.

(** With no message for the channel the loop goes on for ever. *)
Lemma call_loop_empty wait ch buf pre : forall d fuel, inbox d = pre ->
  Forall (fun y => y mod 16 <> ch) pre -> call_loop new wait fuel ch buf d = OutOfFuel.
Proof.
  induction pre as [|y pre IH]; intros d [|fuel] Hi Hpre; [done| |done|]; cbn [call_loop].
  - unfold mbind at 1, st_bind. by rewrite wait_read_empty.
  - inversion Hpre as [|? ? Hy Hpre']; subst.
    destruct (wait_read_ok (read_polls d) d eq_refl ltac:(by rewrite Hi)) as (d1 & E1 & Hi1 & Hp1 & Hm1).
    destruct (decide (read_polls d < wait)%nat) as [Hw|Hw].
    + erewrite stbind_step by (apply E1; lia). cbv beta.
      destruct (read_data_ok d1 y pre ltac:(by rewrite Hi1) Hp1) as (d2 & E2 & Hq & Hm2).
      erewrite stbind_step by (exact E2). cbv beta. rewrite low_mask, (proj2 (Z.eqb_neq _ _) Hy). by apply IH.
    + unfold mbind at 1, st_bind. rewrite wait_short; [done|lia].
Qed.

(** What a call hands to the processor. *)
Lemma call_start ch buf (d : D) : fits 32 buf -> buf mod 16 = 0 -> exists N d1,
  inbox d1 = inbox d ++ (gpu (memory d) (buf + channel_code ch)).2 /\
  memory d1 = (gpu (memory d) (buf + channel_code ch)).1 /\
  (forall wait, (wait < N)%nat -> forall fuel, call new wait fuel ch buf d = OutOfFuel) /\
  forall wait, (N <= wait)%nat -> forall fuel, call new wait fuel ch buf d = call_loop new wait fuel (channel_code ch) buf d1.
Proof.
  intros Hf Hb. pose proof (channel_code_small ch) as Hc.
  destruct (wait_write_ok (write_polls d) d eq_refl) as (d0 & E0 & Hp0 & Hi0 & Hm0).
  assert (wrap 32 (Z.lor (Z.land buf DATA_MASK) (Z.land (channel_code ch) CHANNEL_MASK)) = buf + channel_code ch) as Emsg.
  { rewrite low_mask, data_mask, Hb, Z.sub_0_r, (Z.mod_small (channel_code ch)) by (done || lia).
    rewrite (lor_low buf (channel_code ch) 4); [|lia|by apply Z.mod_divide|lia].
    apply Z.mod_small. unfold fits in Hf. apply Z.mod_divide in Hb as [q ->]; lia. }
  destruct (submit d0 (buf + channel_code ch) Hp0) as [Hi1 Hm1]. rewrite Hi0, Hm0 in Hi1. rewrite Hm0 in Hm1.
  exists (S (write_polls d)), (write32 (MAILBOX_BASE + REG_WRITE) (buf + channel_code ch) d0).
  do 2 (split; [done|]).
  assert (lift (debug_assert (Z.land buf 15 =? 0)) d = Ret (tt, d)) as Ea.
  { change (Z.land buf 15) with (Z.land buf CHANNEL_MASK). rewrite low_mask, Hb. unfold debug_assert. by destruct debug_assertions. }
  split; intros wait Hw fuel; unfold call; erewrite stbind_step by (exact Ea); cbv beta zeta.
  - unfold mbind at 1, st_bind. by rewrite write_short by lia.
  - erewrite stbind_step by (apply E0; lia). rewrite Emsg. unfold mbind at 1, st_bind, write_data.
    by rewrite reg_step.
Qed.

(** C32: A mailbox call hands the processor the buffer's address or-ed with
    the channel, drops every answer for another channel and reports success
    exactly when the first answer for its channel carries the buffer's address
    and the processor has put the success code into the buffer; with enough
    polls it returns, and when no answer for its channel comes it never does. *)
Theorem mailbox_call_result ch buf (d : D) : fits 32 (buf + 4) -> fits 32 buf -> buf mod 16 = 0 ->
  (buf + 4 < MAILBOX_BASE \/ MAILBOX_BASE + 0x24 <= buf + 4) ->
  let code := channel_code ch in let '(m, ans) := gpu (memory d) (buf + code) in
  (forall pre x post, inbox d ++ ans = pre ++ x :: post -> Forall (fun y => y mod 16 <> code) pre ->
     x mod 16 = code -> fits 32 x ->
     exists N d', inbox d' = post /\ memory d' = m /\ forall wait fuel, (N <= wait)%nat -> (length pre < fuel)%nat ->
       call new wait fuel ch buf d = Ret ((x - code =? buf) && (default 0 (m !! (buf + 4)) =? SUCCESS), d')) /\
  (Forall (fun y => y mod 16 <> code) (inbox d ++ ans) -> forall wait fuel, call new wait fuel ch buf d = OutOfFuel).
Proof.
  intros Hf4 Hf Hb Ha. cbn zeta. destruct (call_start ch buf d Hf Hb) as (N & d1 & Hi & Hm & Hshort & E).
  destruct (gpu (memory d) (buf + channel_code ch)) as [m ans]. cbn [fst snd] in *. split.
  - intros pre x post Hans Hpre Hx Hfx. rewrite Hans in Hi.
    destruct (call_loop_ok (channel_code ch) buf pre d1 x post Hi Hpre Hx Hfx Hf4 Hf Hb Ha) as (N2 & d2 & Hi2 & Hm2 & E2).
    exists (max N N2), d2. split; [done|]. split; [congruence|]. intros wait fuel Hw Hl.
    rewrite E, E2 by lia. by rewrite Hm.
  - intros Hall wait fuel. destruct (decide (wait < N)%nat) as [Hlt|]; [by apply Hshort|].
    rewrite E by lia. apply call_loop_empty with (pre := inbox d ++ ans); done.
Qed.
End Calls.

(** ** Queries *)

Section QueryLaws.
Context `{Profile} {D : Type} `{MailboxDevice D}.

Lemma query_step {A} wait fuel req (d : D) ok d' (k : bool -> st D A) :
  call new wait fuel Property_ req d = Ret (ok, d') -> (call new wait fuel Property_ req ≫= k) d = k ok d'.
Proof. intros E. by erewrite stbind_step by (exact E). Qed.

Lemma word_step {A} a (k : Z -> st D A) (d : D) : a < MAILBOX_BASE \/ MAILBOX_BASE + 0x24 <= a ->
  (read_volatile a ≫= k) d = k (default 0 (memory d !! a)) d.
Proof. intros Ha. unfold mbind, st_bind, read_volatile. by rewrite read_word. Qed.

(** When the processor answers a query on the property channel with the
    request's address and the success code, the memory queries return the two
    words it has put into the value buffer, the revision query the first and
    the serial number query both as one 64-bit number; any other answer on the
    channel gives [None]. *)
Theorem mailbox_queries req (d : D) x pre post : fits 32 (req + 24) -> 0 <= req -> req mod 16 = 0 ->
  req + 24 < MAILBOX_BASE -> let m := (gpu (memory d) (req + 8)).1 in
  let w i := default 0 (m !! (req + i)) in
  inbox d ++ (gpu (memory d) (req + 8)).2 = pre ++ x :: post -> Forall (fun y => y mod 16 <> 8) pre ->
  x mod 16 = 8 -> fits 32 x -> fits 32 (w 20) -> fits 32 (w 24) ->
  let answered := bool_decide (x = req + 8 /\ w 4 = SUCCESS) in
  exists N d', inbox d' = post /\ forall wait fuel, (N <= wait)%nat -> (length pre < fuel)%nat ->
    get_arm_memory wait fuel req d = Ret (if answered then Some (w 20, w 24) else None, d') /\
    get_vc_memory wait fuel req d = Ret (if answered then Some (w 20, w 24) else None, d') /\
    get_firmware_revision wait fuel req d = Ret (if answered then Some (w 20) else None, d') /\
    get_board_serial wait fuel req d = Ret (if answered then Some (w 20 + 2 ^ 32 * w 24) else None, d').
Proof.
  intros Hf Hpos Hb Ha m w Hans Hpre Hx Hfx Hlo Hhi answered.
  assert (fits 32 req) as Hfr by (unfold fits in *; lia).
  destruct (call_start Property_ req d Hfr Hb) as (N & d1 & Hi & Hm & _ & E). cbn [channel_code] in *.
  rewrite Hans in Hi. fold m in Hm.
  destruct (call_loop_ok 8 req pre d1 x post Hi Hpre Hx Hfx ltac:(unfold fits in *; lia) Hfr Hb ltac:(lia)) as (N2 & d2 & Hi2 & Hm2 & E2).
  exists (max N N2), d2. split; [done|]. intros wait fuel Hw Hl.
  assert (call new wait fuel Property_ req d = Ret (answered, d2)) as Ec.
  { rewrite E, E2, Hm by lia. do 2 f_equal. unfold answered. apply eq_true_iff_eq.
    rewrite bool_decide_eq_true, andb_true_iff, !Z.eqb_eq. fold (w 4). lia. }
  unfold get_arm_memory, get_vc_memory, query_pair, get_firmware_revision, get_board_serial.
  rewrite !(query_step _ _ _ _ _ _ _ Ec). destruct answered; [|done].
  rewrite !word_step by lia. rewrite Hm2, Hm. repeat split. fold (w 20) (w 24).
  assert (Z.lor (Z.shiftl (w 24) 32) (w 20) = w 20 + 2 ^ 32 * w 24) as ->; [|done].
  rewrite Z.shiftl_mul_pow2, (lor_low _ _ 32) by (done || lia || by apply Z.divide_factor_r). lia.
Qed.
End QueryLaws.

(** ** A device *)

Record Sim := mkSim { s_inbox : list Z; s_read : nat; s_write : nat; s_memory : gmap Z Z }.

(** The processor grants a framebuffer to a request for one and puts two values
    into any other; it answers on another channel first. *)
Definition sim_gpu (m : gmap Z Z) (msg : Z) : gmap Z Z * list Z :=
  let buf := msg - msg mod 16 in
  let m := <[buf + 4 := SUCCESS]> m in
  (if default 0 (m !! (buf + 8)) =? SET_PHYSICAL_SIZE
   then <[buf + 92 := 0xc0004100]> (<[buf + 96 := 2560 * 480]> (<[buf + 112 := 2560]> m))
   else <[buf + 20 := 0x1000]> (<[buf + 24 := 0x2000]> m), [0x31; msg]).

Definition status_word (d : Sim) : Z :=
  (if (s_write d =? 0)%nat then 0 else STATUS_FULL) +
  (if match s_inbox d with [] => true | _ => false end || negb (s_read d =? 0)%nat then STATUS_EMPTY else 0).

#[export] Instance sim_mmio : Mmio Sim := {
  read32 a d :=
    if a =? MAILBOX_BASE + REG_STATUS then (status_word d, mkSim (s_inbox d) (pred (s_read d)) (pred (s_write d)) (s_memory d))
    else if a =? MAILBOX_BASE + REG_READ then
      match s_inbox d with x :: q => (x, mkSim q 2 (s_write d) (s_memory d)) | [] => (0, d) end
    else (default 0 (s_memory d !! a), d);
  write32 a v d :=
    if a =? MAILBOX_BASE + REG_WRITE then
      mkSim (s_inbox d ++ (sim_gpu (s_memory d) v).2) 1 (s_write d) (sim_gpu (s_memory d) v).1
    else mkSim (s_inbox d) (s_read d) (s_write d) (<[a := v]> (s_memory d));
}.

#[export] Program Instance sim_mailbox : MailboxDevice Sim := {
  inbox := s_inbox; read_polls := s_read; write_polls := s_write; memory := s_memory; gpu := sim_gpu;
}.
Next Obligation.
  intros d. do 2 eexists. split; [done|]. destruct d as [b r w m]. unfold status_word. cbn [s_inbox s_read s_write s_memory].
  destruct b, r, w; cbn; repeat split.
Qed.
Next Obligation. intros d x q Hi _. cbn in *. rewrite Hi. by eexists. Qed.
Next Obligation. intros d v _. cbn. done. Qed.
Next Obligation.
  intros d a v Ha. unfold write32, sim_mmio. change REG_WRITE with 0x20.
  by destruct (Z.eqb_spec a (MAILBOX_BASE + 0x20)); [lia|].
Qed.
Next Obligation.
  intros d a Ha. unfold read32, sim_mmio. change REG_STATUS with 0x18. change REG_READ with 0.
  destruct (Z.eqb_spec a (MAILBOX_BASE + 0x18)); [lia|]. destruct (Z.eqb_spec a (MAILBOX_BASE + 0)); [lia|done].
Qed.

Definition sim_start : Sim := mkSim [0x27] 3 2 ∅.

Lemma mailbox_call_result_witness : let P := Build_Profile true in exists N d', forall wait fuel, (N <= wait)%nat -> (2 < fuel)%nat ->
  call new wait fuel Property_ 0x8000 sim_start = Ret (true, d').
Proof.
  intros P. pose proof (@mailbox_call_result P Sim _ _ Property_ 0x8000 sim_start ltac:(by vm_compute) ltac:(by vm_compute) eq_refl ltac:(by left)) as Hc.
  cbn zeta in Hc. destruct (gpu (memory sim_start) (0x8000 + channel_code Property_)) as [m ans] eqn:Eg.
  vm_compute in Eg. injection Eg as <- <-. destruct Hc as [Hc _].
  destruct (Hc [0x27; 0x31] 0x8008 [] ltac:(by vm_compute) ltac:(repeat constructor; by vm_compute) ltac:(by vm_compute) ltac:(by vm_compute))
    as (N & d' & _ & _ & E). exists N, d'. intros wait fuel Hw Hf. rewrite (E wait fuel Hw ltac:(cbn; lia)). by vm_compute.
Defined.

Lemma mailbox_queries_witness : let P := Build_Profile false in exists N d', forall wait fuel, (N <= wait)%nat -> (2 < fuel)%nat ->
  get_board_serial wait fuel 0x8000 sim_start = Ret (Some 0x200000001000, d').
Proof.
  intros P. pose proof (@mailbox_queries P Sim _ _ 0x8000 sim_start 0x8008 [0x27; 0x31] [] ltac:(by vm_compute) ltac:(by vm_compute)
    eq_refl ltac:(by vm_compute) ltac:(by vm_compute) ltac:(repeat constructor; by vm_compute) ltac:(by vm_compute) ltac:(by vm_compute)
    ltac:(by vm_compute) ltac:(by vm_compute)) as Hq.
  destruct Hq as (N & d' & _ & E). exists N, d'. intros wait fuel Hw Hf. destruct (E wait fuel Hw ltac:(cbn; lia)) as (_ & _ & _ & ->).
  by vm_compute.
Defined.
