(* ===== verification/BcmFb.v ===== *)
(** * The VideoCore framebuffer (drivers/src/peripheral/bcm2835/framebuffer.rs)

    The request for a framebuffer through the mailbox, and drawing into the
    words the processor has allocated.  The slice over the framebuffer is an
    address and a number of words. *)
From S2P Require Import Prelude Memory Mmio Fb FbFill Mailbox.

(** ** Definitions *)

Record Bcm2835Framebuffer := mkBcm {
  info : FrameBufferInfo;
  buffer_ptr : Z;
  buffer_len : Z;
  pixel_format : PixelFormat;
}.

(** The fields of [FbRequest] in order; its 30 words are padded to 128 bytes. *)
Definition fb_request : list Z :=
  [128; 0;
   SET_PHYSICAL_SIZE; 8; 0; 0; 0;
   SET_VIRTUAL_SIZE; 8; 0; 0; 0;
   SET_DEPTH; 4; 0; 0;
   SET_PIXEL_ORDER; 4; 0; 1;
   ALLOCATE_BUFFER; 8; 0; 0; 0;
   GET_PITCH; 4; 0; 0;
   0].

Section Init.
Context `{Profile} {D : Type} `{Mmio D}.

Fixpoint write_words (a : Z) (ws : list Z) : st D unit :=
  match ws with
  | [] => mret tt
  | w :: ws => _ ← write_volatile a w; write_words (a + 4) ws
  end.

(** [req] is the address of the request on the stack. *)
Definition new (wait fuel : nat) (req : Z) (config : FrameBufferConfig)
  : st D (result Bcm2835Framebuffer FrameBufferError) :=
  _ ← write_words req fb_request;
  _ ← write_volatile (req + 20) (cwidth config);
  _ ← write_volatile (req + 24) (cheight config);
  _ ← write_volatile (req + 40) (virtual_width config);
  _ ← write_volatile (req + 44) (virtual_height config);
  _ ← write_volatile (req + 60) (cdepth config);
  ok ← call Mailbox.new wait fuel Property_ req;
  if negb ok then mret (Err MailboxFailed)
  else
    fb_addr ← read_volatile (req + 92);
    fb_size ← read_volatile (req + 96);
    p ← read_volatile (req + 112);
    pixel_order ← read_volatile (req + 76);
    if (fb_addr =? 0) || (fb_size =? 0) then mret (Err AllocationFailed)
    else
      let fb_addr := Z.land fb_addr 0x3fffffff in
      let format := if pixel_order =? 0 then Bgr else Rgb in
      mret (Ok (mkBcm (mkInfo (cwidth config) (cheight config) p (cdepth config) format fb_addr fb_size)
                  fb_addr (fb_size / 4) format)).
End Init.

Section Draw.
Context `{Profile} (f : Bcm2835Framebuffer).

Definition bcm_bytes_per_pixel : Z := depth (info f) / 8.

Definition pixel_offset (x y : Z) : outcome (option Z) :=
  if (width (info f) <=? x) || (height (info f) <=? y) then Ret None
  else
    row ← mul 32 y (pitch (info f) / 4);
    offset ← add 32 row x;
    Ret (if offset <? buffer_len f then Some offset else None).

Definition bcm_clear (color : Z) : st mem unit := fill_words (Z.to_nat (buffer_len f)) (buffer_ptr f) color.

Definition bcm_set_pixel (x y color : Z) : st mem bool :=
  o ← lift (pixel_offset x y);
  match o with
  | Some offset => _ ← modify (fun m => store32 m (buffer_ptr f + 4 * offset) color); mret true
  | None => mret false
  end.

Definition bcm_get_pixel (x y : Z) : st mem (option Z) :=
  o ← lift (pixel_offset x y);
  match o with
  | Some offset => m ← Prelude.get; mret (Some (load32 m (buffer_ptr f + 4 * offset)))
  | None => mret None
  end.

(** [self.buffer[start..end].fill(color)] panics out of range. *)
Definition fill_range (start last color : Z) : st mem unit :=
  if (start <=? last) && (last <=? buffer_len f) then
    fill_words (Z.to_nat (last - start)) (buffer_ptr f + 4 * start) color
  else panic.

Definition bcm_draw_hline (x1 x2 y color : Z) : st mem unit :=
  if height (info f) <=? y then mret tt
  else
    w ← lift (sub 32 (width (info f)) 1);
    let x1 := Z.min x1 w in
    let x2 := Z.min x2 w in
    let '(x1, x2) := if x1 <=? x2 then (x1, x2) else (x2, x1) in
    o ← lift (pixel_offset x1 y);
    match o with
    | Some start =>
        d ← lift (sub 32 x2 x1);
        len ← lift (add 32 d 1);
        last ← lift (add usize_bits start len);
        fill_range start last color
    | None => mret tt
    end.

Definition bcm_draw_vline (x y1 y2 color : Z) : st mem unit :=
  if width (info f) <=? x then mret tt
  else
    h ← lift (sub 32 (height (info f)) 1);
    let y1 := Z.min y1 h in
    let y2 := Z.min y2 h in
    let '(y1, y2) := if y1 <=? y2 then (y1, y2) else (y2, y1) in
    each_row (Z.to_nat (y2 - y1 + 1)) y1 (fun y => _ ← bcm_set_pixel x y color; mret tt).

Definition bcm_draw_rect (x y w h color : Z) : st mem unit :=
  let x2 := Z.min (saturating_add 32 x w) (width (info f)) in
  let y2 := Z.min (saturating_add 32 y h) (height (info f)) in
  each_row (Z.to_nat (y2 - y)) y (fun py => l ← lift (sub 32 x2 1); bcm_draw_hline x l py color).

(** [impl FrameBuffer for Bcm2835Framebuffer]. *)
Definition bcm_framebuffer : FrameBuffer mem := {|
  fb_width := width (info f);
  fb_height := height (info f);
  fb_bytes_per_pixel := bcm_bytes_per_pixel;
  fb_clear := bcm_clear;
  set_pixel := bcm_set_pixel;
  get_pixel := bcm_get_pixel;
  draw_hline := bcm_draw_hline;
  draw_vline := bcm_draw_vline;
  draw_rect := bcm_draw_rect;
|}.
End Draw.

(** ** Lemmas *)

(** What the processor answers: rows of whole words that hold the width, and a
    buffer that holds the rows. *)
Record bcm_ok (f : Bcm2835Framebuffer) : Prop := {
  bo_width : 0 < width (info f);
  bo_height : 0 < height (info f);
  bo_pitch : width (info f) <= pitch (info f) / 4;
  bo_size : height (info f) * (pitch (info f) / 4) <= buffer_len f;
  bo_len : buffer_len f < 2 ^ 30;
}.

Section Drawing.
Context `{Profile} (f : Bcm2835Framebuffer) (Hf : bcm_ok f).

Definition word_index (x y : Z) : Z := y * (pitch (info f) / 4) + x.
Definition word_addr (x y : Z) : Z := buffer_ptr f + 4 * word_index x y.
Definition on_fb (x y : Z) : Prop := 0 <= x < width (info f) /\ 0 <= y < height (info f).

Lemma word_index_bounds x y : on_fb x y ->
  0 <= word_index x y /\ word_index x y - x + width (info f) <= buffer_len f.
Proof using Hf.
  intros [Hx Hy]. pose proof (bo_pitch _ Hf). pose proof (bo_size _ Hf). pose proof (bo_width _ Hf). unfold word_index. nia.
Qed.

Lemma pixel_offset_ok x y : on_fb x y -> pixel_offset f x y = Ret (Some (word_index x y)).
Proof using Hf.
  intros Hs. pose proof (word_index_bounds x y Hs) as Hb. pose proof (bo_len _ Hf). destruct Hs as [Hx Hy].
  pose proof (bo_pitch _ Hf). unfold pixel_offset. rewrite !(proj2 (Z.leb_gt _ _)) by lia. cbn [orb].
  assert (0 <= y * (pitch (info f) / 4)) by nia. unfold word_index in *.
  rewrite mul_ok by (unfold fits; lia). cbn [mbind outcome_bind]. rewrite add_ok by (unfold fits; lia).
  cbn [mbind outcome_bind]. by rewrite (proj2 (Z.ltb_lt _ _)) by lia.
Qed.

Lemma pixel_offset_off x y : 0 <= x -> 0 <= y -> ~ on_fb x y -> pixel_offset f x y = Ret None.
Proof using.
  intros Hx Hy Hn. unfold pixel_offset, on_fb in *. destruct (Z.leb_spec (width (info f)) x); [done|].
  destruct (Z.leb_spec (height (info f)) y); [done|lia].
Qed.

Lemma set_pixel_bcm x y c m : on_fb x y -> bcm_set_pixel f x y c m = Ret (true, store32 m (word_addr x y) c).
Proof using Hf. intros Hs. unfold bcm_set_pixel. by erewrite stbind_step by (by rewrite pixel_offset_ok). Qed.

Lemma get_pixel_bcm x y m : on_fb x y -> bcm_get_pixel f x y m = Ret (Some (load32 m (word_addr x y)), m).
Proof using Hf. intros Hs. unfold bcm_get_pixel. by erewrite stbind_step by (by rewrite pixel_offset_ok). Qed.

Lemma words_apart x y x' y' : on_fb x y -> on_fb x' y' -> (x', y') <> (x, y) ->
  word_addr x y + 4 <= word_addr x' y' \/ word_addr x' y' + 4 <= word_addr x y.
Proof using Hf.
  intros [Hx Hy] [Hx' Hy'] Hne. pose proof (bo_pitch _ Hf). unfold word_addr, word_index.
  destruct (Z.lt_trichotomy y y') as [|[->|]]; [nia| |nia].
  assert (x' <> x) by congruence. lia.
Qed.

#[local] Notation plot := (plot (H := bcm_framebuffer f)).

(** A run of words is a run of pixels. *)
Lemma fill_words_points c y n : forall x m, 0 <= x -> x + Z.of_nat n <= width (info f) -> 0 <= y < height (info f) ->
  fill_words n (word_addr x y) c m = plot (row_points x (x + Z.of_nat n) y) c m.
Proof using Hf.
  unfold row_points. induction n as [|n IH]; intros x m Hx Hn Hy.
  - replace (x + Z.of_nat 0 - x) with 0 by lia. done.
  - replace (x + Z.of_nat (S n) - x) with (Z.of_nat (S n)) by lia. rewrite seqZ_S. cbn [fmap list_fmap Fb.plot fill_words].
    cbn [set_pixel bcm_framebuffer]. erewrite stbind_step by done.
    erewrite (stbind_step (bcm_set_pixel f x y c)) by (rewrite set_pixel_bcm by (unfold on_fb; lia); done).
    replace (word_addr x y + 4) with (word_addr (x + 1) y) by (unfold word_addr, word_index; lia).
    rewrite IH by lia. by replace (x + 1 + Z.of_nat n - (x + 1)) with (Z.of_nat n) by lia.
Qed.

Lemma hline_points x1 x2 y c m : 0 <= x1 -> 0 <= x2 -> 0 <= y ->
  let a := Z.min x1 (width (info f) - 1) in let b := Z.min x2 (width (info f) - 1) in
  bcm_draw_hline f x1 x2 y c m =
  plot (if y <? height (info f) then row_points (Z.min a b) (Z.max a b + 1) y else []) c m.
Proof using Hf.
  intros Hx1 Hx2 Hy a b. pose proof (bo_width _ Hf). pose proof (bo_len _ Hf). unfold bcm_draw_hline.
  destruct (Z.leb_spec (height (info f)) y); [by rewrite (proj2 (Z.ltb_ge _ _))|]. rewrite (proj2 (Z.ltb_lt _ _)) by lia.
  assert (width (info f) < 2 ^ 30).
  { pose proof (bo_pitch _ Hf). pose proof (bo_size _ Hf). pose proof (bo_height _ Hf). nia. }
  erewrite stbind_step by (by rewrite sub_ok by (unfold fits; lia)). cbv beta zeta. fold a b.
  replace (if a <=? b then (a, b) else (b, a)) with (Z.min a b, Z.max a b) by (destruct (Z.leb_spec a b); f_equal; lia).
  assert (0 <= Z.min a b <= Z.max a b /\ Z.max a b < width (info f)) as Hab by lia.
  set (lo := Z.min a b) in *. set (hi := Z.max a b) in *. clearbody lo hi.
  assert (on_fb lo y) as Hon by (unfold on_fb; lia). pose proof (word_index_bounds _ _ Hon) as Hb.
  erewrite stbind_step by (by rewrite (pixel_offset_ok _ _ Hon)). cbv beta iota.
  erewrite stbind_step by (by rewrite sub_ok by (unfold fits; lia)).
  erewrite stbind_step by (by rewrite add_ok by (unfold fits; lia)).
  erewrite stbind_step by (by rewrite add_ok by (unfold fits, usize_bits; lia)). cbv beta.
  unfold fill_range. rewrite !(proj2 (Z.leb_le _ _)) by lia. cbn [andb]. fold (word_addr lo y).
  set (n := Z.to_nat _). assert (Z.of_nat n = hi - lo + 1) as Hn by lia. clearbody n.
  rewrite fill_words_points by lia. by replace (lo + Z.of_nat n) with (hi + 1) by lia.
Qed.

Lemma vline_points x y1 y2 c m : 0 <= x -> 0 <= y1 -> 0 <= y2 ->
  let a := Z.min y1 (height (info f) - 1) in let b := Z.min y2 (height (info f) - 1) in
  bcm_draw_vline f x y1 y2 c m =
  plot (if x <? width (info f) then rect_points x (x + 1) (Z.min a b) (Z.max a b + 1) else []) c m.
Proof using Hf.
  intros Hx Hy1 Hy2 a b. pose proof (bo_height _ Hf). pose proof (bo_len _ Hf). unfold bcm_draw_vline.
  destruct (Z.leb_spec (width (info f)) x); [by rewrite (proj2 (Z.ltb_ge _ _))|]. rewrite (proj2 (Z.ltb_lt _ _)) by lia.
  assert (height (info f) < 2 ^ 30).
  { pose proof (bo_pitch _ Hf). pose proof (bo_size _ Hf). pose proof (bo_width _ Hf). nia. }
  erewrite stbind_step by (by rewrite sub_ok by (unfold fits; lia)). cbv beta zeta. fold a b.
  replace (if a <=? b then (a, b) else (b, a)) with (Z.min a b, Z.max a b) by (destruct (Z.leb_spec a b); f_equal; lia).
  assert (0 <= Z.min a b <= Z.max a b /\ Z.max a b < height (info f)) as Hab by lia.
  set (lo := Z.min a b) in *. set (hi := Z.max a b) in *. clearbody lo hi. cbv beta iota.
  rewrite (each_row_points (H := bcm_framebuffer f) c x (x + 1)); [by replace (lo + Z.of_nat (Z.to_nat (hi - lo + 1))) with (hi + 1) by lia|].
  intros y m' Hy. unfold row_points. replace (x + 1 - x) with (Z.of_nat 1) by lia. by rewrite seqZ_S.
Qed.

(** Each row of a rectangle is a horizontal line to the column before [x2]. *)
Lemma rect_points_ok x y w h c m : 0 <= x -> 0 <= y -> 0 <= w -> 0 <= h -> 1 <= x + w ->
  let a := Z.min x (width (info f) - 1) in let b := Z.min (x + w) (width (info f)) - 1 in
  bcm_draw_rect f x y w h c m = plot (rect_points (Z.min a b) (Z.max a b + 1) y (Z.min (y + h) (height (info f)))) c m.
Proof using Hf.
  intros Hx Hy Hw Hh Hxw a b. pose proof (bo_width _ Hf). pose proof (bo_len _ Hf). pose proof (bo_height _ Hf).
  assert (width (info f) < 2 ^ 30 /\ height (info f) < 2 ^ 30) as [Hw30 Hh30].
  { pose proof (bo_pitch _ Hf). pose proof (bo_size _ Hf). split; nia. }
  unfold bcm_draw_rect, saturating_add.
  replace (Z.min (Z.min (2 ^ 32 - 1) (x + w)) (width (info f))) with (b + 1) by lia.
  replace (Z.min (Z.min (2 ^ 32 - 1) (y + h)) (height (info f))) with (Z.min (y + h) (height (info f))) by lia.
  set (ye := Z.min (y + h) (height (info f))). assert (ye <= height (info f)) by lia.
  rewrite (each_row_points (H := bcm_framebuffer f) c (Z.min a b) (Z.max a b + 1)).
  - destruct (Z.le_gt_cases y ye); [by replace (y + Z.of_nat (Z.to_nat (ye - y))) with ye by lia|].
    unfold rect_points. rewrite !seqZ_nil by lia. done.
  - intros y' m' Hy'. erewrite stbind_step by (by rewrite sub_ok by (unfold fits; lia)). cbv beta.
    rewrite hline_points by lia. rewrite (proj2 (Z.ltb_lt _ _)) by lia. cbv zeta. fold a.
    by replace (Z.min (b + 1 - 1) (width (info f) - 1)) with b by lia.
Qed.
End Drawing.

(** *** The request in memory *)

(** Words stored one after the other. *)
Fixpoint store_words (m : gmap Z Z) (a : Z) (ws : list Z) : gmap Z Z :=
  match ws with
  | [] => m
  | w :: ws => store_words (<[a := w]> m) (a + 4) ws
  end.

(** The request for a configuration: the five fields filled in. *)
Definition request_words (c : FrameBufferConfig) : list Z :=
  [128; 0;
   SET_PHYSICAL_SIZE; 8; 0; cwidth c; cheight c;
   SET_VIRTUAL_SIZE; 8; 0; virtual_width c; virtual_height c;
   SET_DEPTH; 4; 0; cdepth c;
   SET_PIXEL_ORDER; 4; 0; 1;
   ALLOCATE_BUFFER; 8; 0; 0; 0;
   GET_PITCH; 4; 0; 0;
   0].

Lemma store_words_before ws : forall m a b v, b < a -> <[b := v]> (store_words m a ws) = store_words (<[b := v]> m) a ws.
Proof.
  induction ws as [|w ws IH]; intros m a b v Hb; [done|]. cbn [store_words]. rewrite IH by lia.
  by rewrite insert_insert_ne by lia.
Qed.

Lemma store_words_field ws : forall m a i v, (i < length ws)%nat ->
  <[a + 4 * Z.of_nat i := v]> (store_words m a ws) = store_words m a (<[i := v]> ws).
Proof.
  induction ws as [|w ws IH]; intros m a i v Hi; [cbn in Hi; lia|]. destruct i as [|i].
  - rewrite Z.add_0_r. cbn [store_words insert list_insert]. rewrite store_words_before by lia. by rewrite insert_insert_eq.
  - cbn [store_words]. replace (a + 4 * Z.of_nat (S i)) with (a + 4 + 4 * Z.of_nat i) by lia.
    rewrite IH by (cbn in Hi; lia). done.
Qed.

Section Requests.
Context `{Profile} {D : Type} `{MailboxDevice D}.

Lemma write_field (m0 : gmap Z Z) ws a i v (d : D) : memory d = store_words m0 a ws -> (i < length ws)%nat ->
  a + 4 * Z.of_nat i < MAILBOX_BASE ->
  exists d', write_volatile (a + 4 * Z.of_nat i) v d = Ret (tt, d') /\ inbox d' = inbox d /\
    memory d' = store_words m0 a (<[i := v]> ws).
Proof.
  intros Hm Hi Ha. eexists. split; [done|]. destruct (write_word d (a + 4 * Z.of_nat i) v (or_introl Ha)) as [Hb Hm'].
  split; [exact Hb|]. by rewrite Hm', Hm, store_words_field.
Qed.

Lemma write_words_ok ws : forall a (d : D), a + 4 * Z.of_nat (length ws) <= MAILBOX_BASE ->
  exists d', write_words a ws d = Ret (tt, d') /\ inbox d' = inbox d /\ memory d' = store_words (memory d) a ws.
Proof.
  induction ws as [|w ws IH]; intros a d Ha; [by exists d|]. cbn [length] in Ha.
  destruct (write_word d a w) as [Hb Hm]; [lia|].
  destruct (IH (a + 4) (write32 a w d)) as (d' & E & Hb' & Hm'); [lia|]. exists d'. split; [exact E|]. split; [congruence|].
  cbn [store_words]. by rewrite Hm', Hm.
Qed.

(** The request as the processor sees it, before the call. *)
Lemma request_ok req c (d : D) : req + 128 <= MAILBOX_BASE -> exists d1,
  inbox d1 = inbox d /\ memory d1 = store_words (memory d) req (request_words c) /\
  forall A (k : st D A), (_ ← write_words req fb_request; _ ← write_volatile (req + 20) (cwidth c);
    _ ← write_volatile (req + 24) (cheight c); _ ← write_volatile (req + 40) (virtual_width c);
    _ ← write_volatile (req + 44) (virtual_height c); _ ← write_volatile (req + 60) (cdepth c); k) d = k d1.
Proof.
  intros Hr. destruct (write_words_ok fb_request req d) as (d0 & E0 & Hb0 & Hm0); [cbn [length fb_request]; lia|].
  destruct (write_field _ _ _ 5 (cwidth c) d0 Hm0) as (d1 & E1 & Hb1 & Hm1); [cbn; lia|lia|].
  destruct (write_field _ _ _ 6 (cheight c) d1 Hm1) as (d2 & E2 & Hb2 & Hm2); [cbn; lia|lia|].
  destruct (write_field _ _ _ 10 (virtual_width c) d2 Hm2) as (d3 & E3 & Hb3 & Hm3); [cbn; lia|lia|].
  destruct (write_field _ _ _ 11 (virtual_height c) d3 Hm3) as (d4 & E4 & Hb4 & Hm4); [cbn; lia|lia|].
  destruct (write_field _ _ _ 15 (cdepth c) d4 Hm4) as (d5 & E5 & Hb5 & Hm5); [cbn; lia|lia|].
  exists d5. split; [congruence|]. split; [exact Hm5|]. intros A k.
  erewrite stbind_step by exact E0. erewrite stbind_step by exact E1. erewrite stbind_step by exact E2.
  erewrite stbind_step by exact E3. erewrite stbind_step by exact E4. by erewrite stbind_step by exact E5.
Qed.
End Requests.

(** ** Theorems *)

Section Claims.
Context `{Profile}.

(** Initialising the framebuffer sends the processor the request filled
    in from the configuration; the answer decides the result: no matching or
    successful answer is [MailboxFailed], a null address or size is
    [AllocationFailed], and otherwise the framebuffer has the configured
    dimensions, the pitch and pixel order of the answer and the words of the
    allocated buffer at its physical address. *)
Theorem bcm_framebuffer_new `{MailboxDevice D} req c (d : D) x pre post : 0 <= req -> req mod 16 = 0 ->
  req + 128 <= MAILBOX_BASE -> let sent := store_words (memory d) req (request_words c) in
  let m := (gpu sent (req + 8)).1 in let w i := default 0 (m !! (req + i)) in
  inbox d ++ (gpu sent (req + 8)).2 = pre ++ x :: post -> Forall (fun y => y mod 16 <> 8) pre ->
  x mod 16 = 8 -> fits 32 x -> fits 32 (w 92) ->
  exists N d', inbox d' = post /\ forall wait fuel, (N <= wait)%nat -> (length pre < fuel)%nat ->
    new wait fuel req c d = Ret (
      if negb ((x =? req + 8) && (w 4 =? SUCCESS)) then Err MailboxFailed
      else if (w 92 =? 0) || (w 96 =? 0) then Err AllocationFailed
      else
        let a := w 92 mod 2 ^ 30 in let format := if w 76 =? 0 then Bgr else Rgb in
        Ok (mkBcm (mkInfo (cwidth c) (cheight c) (w 112) (cdepth c) format a (w 96)) a (w 96 / 4) format), d').
Proof.
  intros Hpos Hb Ha sent m w Hans Hpre Hx Hfx Hfa. assert (MAILBOX_BASE < 2 ^ 30) by done.
  destruct (request_ok req c d Ha) as (d1 & Hi1 & Hm1 & E). fold sent in Hm1.
  destruct (call_start Property_ req d1) as (N & d2 & Hi2 & Hm2 & _ & Ec); [unfold fits; lia|done|]. cbn [channel_code] in *.
  rewrite Hi1, Hm1, Hans in Hi2. rewrite Hm1 in Hm2. fold m in Hm2.
  destruct (call_loop_ok 8 req pre d2 x post Hi2 Hpre Hx Hfx) as (N2 & d3 & Hi3 & Hm3 & El);
    [unfold fits; lia|unfold fits; lia|done|lia|].
  exists (max N N2), d3. split; [done|]. intros wait fuel Hw Hl. unfold new. rewrite E.
  assert (call Mailbox.new wait fuel Property_ req d1 = Ret ((x =? req + 8) && (w 4 =? SUCCESS), d3)) as Ecall.
  { rewrite Ec, El, Hm2 by lia. do 3 f_equal. apply eq_true_iff_eq. rewrite !Z.eqb_eq. lia. }
  rewrite (query_step _ _ _ _ _ _ _ Ecall). destruct ((x =? req + 8) && _); [|done]. cbn [negb].
  rewrite !word_step by lia. rewrite Hm3, Hm2. fold (w 92) (w 96) (w 112) (w 76).
  destruct ((w 92 =? 0) || (w 96 =? 0)); [done|].
  assert (Z.land (w 92) 0x3fffffff = w 92 mod 2 ^ 30) as -> by (apply (land_mask _ 30); lia). done.
Qed.

(** A pixel set on the VideoCore framebuffer reads back as its whole
    32-bit value, every other pixel and every byte outside its word is
    unchanged, and the word lies inside the buffer; off the screen setting
    fails, reading gives [None] and nothing is written. *)
Theorem bcm_pixel_roundtrip f x y c m : bcm_ok f -> 0 <= x -> 0 <= y -> fits 32 c ->
  (on_fb f x y -> exists m', bcm_set_pixel f x y c m = Ret (true, m') /\ bcm_get_pixel f x y m' = Ret (Some c, m') /\
     (forall x' y', on_fb f x' y' -> (x', y') <> (x, y) -> exists v,
        bcm_get_pixel f x' y' m = Ret (Some v, m) /\ bcm_get_pixel f x' y' m' = Ret (Some v, m')) /\
     same_outside (in_block (word_addr f x y) 4) m m' /\
     buffer_ptr f <= word_addr f x y /\ word_addr f x y + 4 <= buffer_ptr f + 4 * buffer_len f) /\
  (~ on_fb f x y -> bcm_set_pixel f x y c m = Ret (false, m) /\ bcm_get_pixel f x y m = Ret (None, m)).
Proof.
  intros Hf Hx Hy Hc. split; intros Hs.
  - exists (store32 m (word_addr f x y) c). rewrite set_pixel_bcm, get_pixel_bcm, load32_store32_eq by done.
    do 2 (split; [done|]). split; [|split; [apply store32_same_outside|]].
    + intros x' y' Hs' Hne. eexists. rewrite !get_pixel_bcm by done. split; [done|].
      pose proof (words_apart f Hf _ _ _ _ Hs Hs' Hne). by rewrite load32_store32_ne by lia.
    + pose proof (word_index_bounds f Hf x y Hs). destruct Hs. unfold word_addr. lia.
  - unfold bcm_set_pixel, bcm_get_pixel.
    split; by erewrite stbind_step by (by rewrite pixel_offset_off).
Qed.

(** The lines and rectangles of the VideoCore framebuffer, drawn by
    filling slices, are equivalent to setting one by one the pixels of the
    span or rectangle clipped to the screen, whatever the order of the end
    points; in particular no slice is out of range. *)
Theorem bcm_fills_plot f c m : bcm_ok f -> let w := width (info f) in let h := height (info f) in
  let plot := plot (H := bcm_framebuffer f) in
  (forall x1 x2 y, 0 <= x1 -> 0 <= x2 -> 0 <= y -> bcm_draw_hline f x1 x2 y c m =
     plot (if y <? h then row_points (Z.min (Z.min x1 x2) (w - 1)) (Z.min (Z.max x1 x2) (w - 1) + 1) y else []) c m) /\
  (forall x y1 y2, 0 <= x -> 0 <= y1 -> 0 <= y2 -> bcm_draw_vline f x y1 y2 c m =
     plot (if x <? w then rect_points x (x + 1) (Z.min (Z.min y1 y2) (h - 1)) (Z.min (Z.max y1 y2) (h - 1) + 1) else []) c m) /\
  (forall x y rw rh, 0 <= x < w -> 0 <= y -> 0 < rw -> 0 <= rh -> bcm_draw_rect f x y rw rh c m =
     plot (rect_points x (Z.min (x + rw) w) y (Z.min (y + rh) h)) c m).
Proof.
  intros Hf w h pl. split_and!.
  - intros x1 x2 y H1 H2 H3. rewrite hline_points by done. cbv zeta. fold w h. unfold pl.
    by replace (Z.min (Z.min x1 (w - 1)) (Z.min x2 (w - 1))) with (Z.min (Z.min x1 x2) (w - 1)) by lia;
      replace (Z.max (Z.min x1 (w - 1)) (Z.min x2 (w - 1))) with (Z.min (Z.max x1 x2) (w - 1)) by lia.
  - intros x y1 y2 H1 H2 H3. rewrite vline_points by done. cbv zeta. fold w h. unfold pl.
    by replace (Z.min (Z.min y1 (h - 1)) (Z.min y2 (h - 1))) with (Z.min (Z.min y1 y2) (h - 1)) by lia;
      replace (Z.max (Z.min y1 (h - 1)) (Z.min y2 (h - 1))) with (Z.min (Z.max y1 y2) (h - 1)) by lia.
  - intros x y rw rh H1 H2 H3 H4. rewrite rect_points_ok by (done || lia). cbv zeta. fold w h. unfold pl.
    replace (Z.min (Z.min x (w - 1)) (Z.min (x + rw) w - 1)) with x by lia.
    by replace (Z.max (Z.min x (w - 1)) (Z.min (x + rw) w - 1) + 1) with (Z.min (x + rw) w) by lia.
Qed.

(** [draw_rect] paints outside its rectangle: a rectangle of width zero
    paints the column at [x] and the one before it, and a rectangle that
    starts right of the screen paints the last column. *)
Theorem bcm_draw_rect_overdraws f c m y h : bcm_ok f -> 0 <= y -> 0 <= h ->
  let w := width (info f) in let ye := Z.min (y + h) (height (info f)) in let plot := plot (H := bcm_framebuffer f) in
  (forall x, 1 <= x < w -> bcm_draw_rect f x y 0 h c m = plot (rect_points (x - 1) (x + 1) y ye) c m) /\
  (forall x rw, w <= x -> 0 <= rw -> bcm_draw_rect f x y rw h c m = plot (rect_points (w - 1) w y ye) c m).
Proof.
  intros Hf Hy Hh w ye pl. pose proof (bo_width _ Hf) as Hw. split.
  - intros x Hx. rewrite rect_points_ok by (done || lia). cbv zeta. fold w ye. unfold pl.
    replace (Z.min (Z.min x (w - 1)) (Z.min (x + 0) w - 1)) with (x - 1) by lia.
    by replace (Z.max (Z.min x (w - 1)) (Z.min (x + 0) w - 1)) with x by lia.
  - intros x rw Hx Hrw. fold w in Hw. rewrite rect_points_ok by (done || lia). cbv zeta. fold w ye. unfold pl.
    replace (Z.min (Z.min x (w - 1)) (Z.min (x + rw) w - 1)) with (w - 1) by lia.
    by replace (Z.max (Z.min x (w - 1)) (Z.min (x + rw) w - 1) + 1) with w by lia.
Qed.
End Claims.

(** ** Witnesses *)

#[local] Instance debug_profile : Profile := Build_Profile true.

Definition demo_bcm : Bcm2835Framebuffer :=
  mkBcm (mkInfo 640 480 2560 32 Rgb 0x4100 (2560 * 480)) 0x4100 (640 * 480) Rgb.

Lemma demo_bcm_ok : bcm_ok demo_bcm.
Proof. split; vm_compute; congruence. Qed.

Lemma bcm_framebuffer_new_witness : exists N d', forall wait fuel, (N <= wait)%nat -> (2 < fuel)%nat ->
  new wait fuel 0x8000 (mkConfig 640 480 640 480 32) sim_start = Ret (Ok demo_bcm, d').
Proof.
  destruct (bcm_framebuffer_new 0x8000 (mkConfig 640 480 640 480 32) sim_start 0x8008 [0x27; 0x31] []
    ltac:(by vm_compute) eq_refl ltac:(by vm_compute) ltac:(by vm_compute) ltac:(repeat constructor; by vm_compute)
    eq_refl ltac:(by vm_compute) ltac:(by vm_compute)) as (N & d' & _ & E).
  exists N, d'. intros wait fuel Hw Hf. rewrite E by (cbn; lia). by vm_compute.
Defined.

Lemma bcm_pixel_roundtrip_witness : exists m', bcm_set_pixel demo_bcm 5 7 0x12345678 (fun _ => 0) = Ret (true, m') /\
  bcm_get_pixel demo_bcm 5 7 m' = Ret (Some 0x12345678, m').
Proof.
  destruct (bcm_pixel_roundtrip demo_bcm 5 7 0x12345678 (fun _ => 0) demo_bcm_ok) as [Hs _]; [lia|lia|done|].
  destruct Hs as (m' & E1 & E2 & _); [unfold on_fb; cbn; lia|]. exists m'. split; [exact E1|exact E2].
Defined.

Lemma bcm_fills_plot_witness : bcm_draw_hline demo_bcm 700 630 5 7 (fun _ => 0) =
  plot (H := bcm_framebuffer demo_bcm) (row_points 630 640 5) 7 (fun _ => 0).
Proof.
  destruct (bcm_fills_plot demo_bcm 7 (fun _ => 0) demo_bcm_ok) as (Hl & _ & _).
  apply (Hl 700 630 5); lia.
Defined.

Lemma bcm_draw_rect_overdraws_witness : bcm_draw_rect demo_bcm 10 20 0 1 7 (fun _ => 0) =
  plot (H := bcm_framebuffer demo_bcm) (rect_points 9 11 20 21) 7 (fun _ => 0).
Proof.
  destruct (bcm_draw_rect_overdraws demo_bcm 7 (fun _ => 0) 20 1 demo_bcm_ok) as [Hr _]; [lia|lia|].
  apply (Hr 10). cbn. lia.
Defined.
