(* ===== verification/Main.v ===== *)
(** * Kernel entry (kernel/src/main.rs and the rest of kernel/src/subsystems/mod.rs)

    What [kernel_main] does before it idles, with the locks it takes: listing
    the devices in the log and drawing on the framebuffer if one is
    registered; setting up the boot loader's framebuffer; and the panic
    handler's message on the text screen. *)
From stdpp Require Import pretty.
From S2P Require Import Prelude Memory BTree Devices Logger Locks Fb FbFill.

(** ** Definitions *)

Section Draw.
Context `{Profile} {D : Type} `{FrameBuffer D}.

(** The picture [kernel_main] draws. *)
Definition draw_screen : st D unit :=
  _ ← fb_clear 0x00001a;
  cx ← lift (sub usize_bits (fb_width / 2) 50);
  cy ← lift (sub usize_bits (fb_height / 2) 50);
  _ ← draw_rect cx cy 100 100 0xffffff;
  right ← lift (sub 32 (as_u32 fb_width) 1);
  _ ← draw_hline 0 right (as_u32 fb_height / 2) 0xff0000;
  bottom ← lift (sub 32 (as_u32 fb_height) 1);
  draw_vline (as_u32 fb_width / 2) 0 bottom 0x00ff00.
End Draw.

(** *** Listing the devices and entering the kernel *)

Definition text (s : string) : list Z :=
  map (fun c => Z.of_N (Ascii.N_of_ascii c)) (String.list_ascii_of_string s).

Definition kind_name (k : Devices.kind) : string :=
  match k with
  | Devices.Serial => "Serial"
  | Devices.Block => "Block"
  | Devices.FrameBuffer => "FrameBuffer"
  | Devices.Timer => "Timer"
  | Devices.InterruptController => "InterruptController"
  end.

(** The records of [print_devices]: its heading and a line per device. *)
Definition heading (n : nat) : list (list Z) :=
  [text "Registered Devices ("; text (pretty (N.of_nat n)); text " total):"; [10]].
Definition device_line (name : string) (k : Devices.kind) : list (list Z) :=
  [text "  "; text name; text " ("; text (kind_name k); text ")"; [10]].

Section Entry.
Context {H D : Type} `{EqDecision H} `{Profile}.
Context (level_text : Z -> list Z) (boot_console : list Z -> st D unit).

#[local] Notation info := (info level_text boot_console).

Fixpoint describe (fuel : nat) (dm : DeviceManager H) (names : list string) : st (running H D) unit :=
  match names with
  | [] => mret tt
  | n :: names =>
      match Devices.get dm n with
      | Some d => _ ← info fuel (text "kernel::subsystems") (device_line n (dkind d)); describe fuel dm names
      | None => panic
      end
  end.

(** [print_devices]: the guard of the manager lives to the end. *)
Definition print_devices (fuel : nat) : st (running H D) unit :=
  dm ← on_kernel device_manager;
  _ ← on_kernel (acquire fuel ManagerLock);
  _ ← info fuel (text "kernel::subsystems") (heading (count dm));
  _ ← describe fuel dm (list_names dm);
  on_kernel (release ManagerLock).

(** [kernel_main] up to its idle loop; [draw] is [draw_screen] on the
    framebuffer behind a handle.  The guard of the manager is a temporary of
    the condition and lives as long as the drawing. *)
Definition kernel_main (draw : H -> st D unit) (platform_name : string) (fuel : nat) : st (running H D) unit :=
  _ ← info fuel (text "kernel") [text "Booting "; text platform_name; text " kernel"];
  _ ← print_devices fuel;
  dm ← on_kernel device_manager;
  on_kernel (locked fuel ManagerLock
    (match Devices.get dm "framebuffer" with
     | Some d =>
         match dkind d with
         | Devices.FrameBuffer => locked fuel (ObjectLock (handle d)) (on_dev (draw (handle d)))
         | _ => mret tt
         end
     | None => mret tt
     end)).
End Entry.

Definition fb_error_name (e : FrameBufferError) : string :=
  match e with
  | MailboxFailed => "MailboxFailed"
  | AllocationFailed => "AllocationFailed"
  | InvalidConfig => "InvalidConfig"
  | NotSupported => "NotSupported"
  end.

(** [enable_graphical_framebuffer]: the tag of the boot loader, if any, as the
    device named framebuffer. *)
Definition enable_graphical_framebuffer `{Profile} (tag : option Mb2FbTag) (dm : DeviceManager Mb2Fb)
  : outcome (result (DeviceManager Mb2Fb) string) :=
  match tag with
  | None => Ret (Err "No graphical framebuffer available"%string)
  | Some tag =>
      r ← mb2fb_new tag;
      Ret (match r with
           | Err e => Err ("Framebuffer init failed: " ++ fb_error_name e)%string
           | Ok fb => register_framebuffer "framebuffer" fb dm
           end)
  end.

(** The panic handler on a PC: white cells from the top left corner on. *)
Definition put_panic_cell (col byte : Z) (m : mem) : mem :=
  let v := Z.lor 0x0f00 byte in
  store8 (store8 m (0xb8000 + 2 * col) (v mod 256)) (0xb8000 + 2 * col + 1) ((v / 256) mod 256).

Fixpoint panic_write_str (s : list Z) : st (Z * mem) unit :=
  match s with
  | [] => mret tt
  | b :: s => _ ← modify (fun '(col, m) => if col <? 80 * 25 then (col + 1, put_panic_cell col b m) else (col, m)); panic_write_str s
  end.

(** [write!(VgaPanic { col: 0 }, "PANIC: {}", info)]: the pieces one by one. *)
Fixpoint panic_pieces (pieces : list (list Z)) : st (Z * mem) unit :=
  match pieces with
  | [] => mret tt
  | s :: pieces => _ ← panic_write_str s; panic_pieces pieces
  end.

Definition panic_screen (info : list (list Z)) : st mem unit := fun m =>
  match panic_pieces ([80; 65; 78; 73; 67; 58; 32] :: info) (0, m) with
  | Ret (_, (_, m)) => Ret (tt, m)
  | Panic => Panic
  | OutOfFuel => OutOfFuel
  end.

(** ** Lemmas *)

Lemma panic_write_str_ok s : forall col m, 0 <= col <= 2000 -> exists m',
  panic_write_str s (col, m) = Ret (tt, (Z.min 2000 (col + Z.of_nat (length s)), m')) /\
  (forall i b, s !! i = Some b -> col + Z.of_nat i < 2000 -> 0 <= b < 256 ->
     m' (0xb8000 + 2 * (col + Z.of_nat i)) = b /\ m' (0xb8000 + 2 * (col + Z.of_nat i) + 1) = 0x0f) /\
  same_outside (fun a => 0xb8000 + 2 * col <= a < 0xb8000 + 2 * Z.min 2000 (col + Z.of_nat (length s))) m m'.
Proof.
  induction s as [|b s IH]; intros col m Hc; cbn [panic_write_str length].
  { exists m. replace (Z.min 2000 (col + Z.of_nat 0)) with col by lia. split; [done|]. split; [done|apply same_outside_refl]. }
  destruct (Z.ltb_spec col 2000) as [Hlt|Hge].
  - destruct (IH (col + 1) (put_panic_cell col b m)) as (m' & E & Hin & Hout); [lia|]. exists m'. split; [|split].
    + erewrite stbind_step; [|unfold modify; cbn beta iota; change (80 * 25) with 2000; rewrite (proj2 (Z.ltb_lt col 2000) Hlt); done].
      rewrite E. do 3 f_equal. lia.
    + intros [|i] b' Hb Hi H8.
      * cbn in Hb. injection Hb as ->. rewrite Z.add_0_r. rewrite !Hout by lia.
        assert (Z.lor 0xf00 b' = 0xf00 + b') as Ev by (apply (lor_low _ _ 8); [lia|by exists 15|lia]).
        unfold put_panic_cell, store8. rewrite Ev. rewrite (proj2 (Z.eqb_neq _ _)), !Z.eqb_refl by lia. split.
        -- symmetry. apply Z.mod_unique with 15; lia.
        -- replace ((0xf00 + b') / 256) with 15 by (apply Z.div_unique with b'; lia). done.
      * destruct (Hin i b' Hb) as [H1 H2]; [lia|done|].
        by replace (col + Z.of_nat (S i)) with (col + 1 + Z.of_nat i) by lia.
    + intros x Hx. rewrite Hout by lia. unfold put_panic_cell, store8. by rewrite !(proj2 (Z.eqb_neq _ _)) by lia.
  - destruct (IH col m Hc) as (m' & E & Hin & Hout). exists m'. split; [|split].
    + erewrite stbind_step; [|unfold modify; cbn beta iota; change (80 * 25) with 2000; rewrite (proj2 (Z.ltb_ge col 2000) Hge); done].
      rewrite E. do 3 f_equal. lia.
    + intros i b' _ Hi. lia.
    + intros x Hx. apply Hout. lia.
Qed.

Lemma panic_write_str_app s1 : forall s2 w, panic_write_str (s1 ++ s2) w = (_ ← panic_write_str s1; panic_write_str s2) w.
Proof.
  induction s1 as [|b s1 IH]; intros s2 w; [done|]. cbn [app panic_write_str]. unfold mbind at 1 2 3, st_bind at 1 2 3.
  destruct (modify _ w) as [[[] w']| |]; [|done|done]. apply IH.
Qed.

Lemma panic_pieces_concat pieces : forall w, panic_pieces pieces w = panic_write_str (concat pieces) w.
Proof.
  induction pieces as [|s pieces IH]; intros w; [done|]. cbn [panic_pieces concat]. rewrite panic_write_str_app.
  unfold mbind, st_bind. destruct (panic_write_str s w) as [[[] w']| |]; [|done|done]. apply IH.
Qed.

(** *** What a plot leaves on the screen *)

Section Plots.
Context `{Profile} (f : Mb2Fb) (Hf : fb_ok f).

(** The pixel at a point of the screen. *)
Definition pixel (m : mem) (x y : Z) : Z := 0xff000000 + pixel_word f m (pixel_addr f x y) mod 2 ^ 24.

Lemma plot_pixels_ok c pts : forall m, mem_ok m -> 0 <= c < 2 ^ 32 -> Forall (fun p => on_screen f p.1 p.2) pts ->
  exists m', plot_pixels f pts c m = Ret (tt, m') /\ mem_ok m' /\
    forall x y, on_screen f x y -> pixel m' x y = if decide ((x, y) ∈ pts) then 0xff000000 + c mod 2 ^ 24 else pixel m x y.
Proof using Hf.
  unfold plot_pixels. pose proof (fo_bytes _ Hf) as Hbytes.
  induction pts as [|[x0 y0] pts IH]; intros m Hm Hc Hpts.
  { exists m. split; [done|]. split; [done|]. intros x y _. by rewrite decide_False by set_solver. }
  inversion Hpts as [|? ? Hon Hrest]; subst. cbn [fst snd] in Hon.
  pose proof (Z.mod_pos_bound c (2 ^ 24) ltac:(lia)) as Hcm.
  destruct (write_pixel_ok f x0 y0 (c mod 2 ^ 24) m Hf Hon Hcm) as (m1 & E1 & Hw & Hso).
  assert (Hm1 : mem_ok m1) by (apply (write_pixel_bytes f x0 y0 (c mod 2 ^ 24) m m1); (done || lia)).
  destruct (IH m1 Hm1 Hc Hrest) as (m' & E & Hm' & Hp). exists m'. split; [|split; [done|]].
  - cbn [plot set_pixel mb2_framebuffer]. erewrite stbind_step; [exact E|]. rewrite (set_pixel_raw f Hf) by done.
    by erewrite stbind_step by exact E1.
  - intros x y Hxy. rewrite Hp by done. destruct (decide ((x, y) ∈ pts)) as [Hin|Hnin].
    { by rewrite decide_True by set_solver. }
    destruct (decide ((x, y) = (x0, y0))) as [[= -> ->]|Hne].
    + rewrite decide_True by set_solver. unfold pixel. by rewrite Hw, Z.mod_mod by lia.
    + rewrite decide_False by set_solver. unfold pixel. f_equal. f_equal.
      apply (pixel_word_frame f m m1 _ _ Hso); [|done]. intros z Hz Hz'. unfold in_block in *.
      pose proof (pixels_apart f x y x0 y0 Hf Hxy Hon Hne). lia.
Qed.

Lemma elem_of_row_points x y x1 x2 y0 : (x, y) ∈ row_points x1 x2 y0 <-> x1 <= x < x2 /\ y = y0.
Proof using.
  unfold row_points. rewrite list_elem_of_fmap. split.
  - intros (x' & [= -> ->] & Hx). apply elem_of_seqZ in Hx. lia.
  - intros [Hx ->]. exists x. split; [done|]. apply elem_of_seqZ. lia.
Qed.

Lemma elem_of_rect_points x y x1 x2 y1 y2 : (x, y) ∈ rect_points x1 x2 y1 y2 <-> x1 <= x < x2 /\ y1 <= y < y2.
Proof using.
  unfold rect_points. rewrite list_elem_of_bind. split.
  - intros (y' & Hr & Hy). apply elem_of_row_points in Hr. apply elem_of_seqZ in Hy. lia.
  - intros [Hx Hy]. exists y. split; [by apply elem_of_row_points|]. apply elem_of_seqZ. lia.
Qed.

Lemma rect_on_screen x1 x2 y1 y2 : 0 <= x1 -> x2 <= mwidth f -> 0 <= y1 -> y2 <= mheight f ->
  Forall (fun p => on_screen f p.1 p.2) (rect_points x1 x2 y1 y2).
Proof using.
  intros H1 H2 H3 H4. apply Forall_forall. intros [x y] Hin%elem_of_rect_points. unfold on_screen. cbn. lia.
Qed.

(** A shape drawn as a plot of a rectangle of the screen. *)
Lemma plotted c x1 x2 y1 y2 m (op : st mem unit) : op m = plot_pixels f (rect_points x1 x2 y1 y2) c m ->
  0 <= c < 2 ^ 24 -> mem_ok m -> 0 <= x1 -> x2 <= mwidth f -> 0 <= y1 -> y2 <= mheight f ->
  exists m', op m = Ret (tt, m') /\ mem_ok m' /\ forall x y, on_screen f x y ->
    pixel m' x y = if decide (x1 <= x < x2 /\ y1 <= y < y2) then 0xff000000 + c else pixel m x y.
Proof using Hf.
  intros Eop Hc Hm H1 H2 H3 H4.
  destruct (plot_pixels_ok c (rect_points x1 x2 y1 y2) m Hm ltac:(lia) (rect_on_screen _ _ _ _ H1 H2 H3 H4)) as (m' & E & Hm' & Hp).
  exists m'. split; [congruence|]. split; [done|]. intros x y Hxy. rewrite Hp by done.
  assert ((x, y) ∈ rect_points x1 x2 y1 y2 <-> x1 <= x < x2 /\ y1 <= y < y2) as Hin by apply elem_of_rect_points.
  destruct (decide ((x, y) ∈ rect_points x1 x2 y1 y2)), (decide (x1 <= x < x2 /\ y1 <= y < y2)); try tauto.
  by rewrite Z.mod_small by lia.
Qed.
End Plots.

(** ** Theorems *)

Section Claims.
Context `{Profile}.

Lemma row_rect x1 x2 y : row_points x1 x2 y = rect_points x1 x2 y (y + 1).
Proof. unfold rect_points. replace (y + 1 - y) with (Z.of_nat 1) by lia. rewrite seqZ_S. cbn. by rewrite app_nil_r. Qed.

(** On a framebuffer of at least 100 by 100 pixels [kernel_main] draws
    its whole picture without a panic: a green column through the middle over
    a red row through the middle over a white square of 100 pixels in the
    middle over dark blue, pixel by pixel.  A narrower framebuffer stops a
    debug build, since the left edge of the square is computed unsigned. *)
Theorem main_screen f m : fb_ok f -> mem_ok m -> let w := mwidth f in let h := mheight f in
  (100 <= w -> 100 <= h -> exists m', draw_screen (H0 := mb2_framebuffer f) m = Ret (tt, m') /\
     forall x y, on_screen f x y -> mb2_get_pixel f x y m' = Ret (Some (0xff000000 +
       (if decide (x = w / 2) then 0x00ff00
        else if decide (y = h / 2) then 0xff0000
        else if decide (w / 2 - 50 <= x < w / 2 + 50 /\ h / 2 - 50 <= y < h / 2 + 50) then 0xffffff
        else 0x00001a)), m')) /\
  (w < 100 -> debug_assertions = true -> draw_screen (H0 := mb2_framebuffer f) m = Panic).
Proof.
  intros Hf Hm w h. pose proof (fo_width _ Hf) as Hw0. pose proof (fo_height _ Hf) as Hh0. fold w in Hw0. fold h in Hh0.
  assert (Hw32 : w < 2 ^ 32 /\ h < 2 ^ 32).
  { pose proof (fo_size _ Hf). pose proof (fo_pitch _ Hf). pose proof (fo_bytes _ Hf). unfold w, h in *. split; nia. }
  assert (Hu : forall z, 0 <= z < 2 ^ 32 -> as_u32 z = z) by (intros; by apply Z.mod_small).
  destruct (plotted f Hf 0x1a 0 w 0 h m (mb2_clear f 0x1a)) as (m1 & E1 & Hm1 & P1); try (done || lia); [by apply clear_plot|].
  assert (w / 2 * 2 <= w < w / 2 * 2 + 2 /\ h / 2 * 2 <= h < h / 2 * 2 + 2) as [Hw2 Hh2].
  { pose proof (Z.div_mod w 2). pose proof (Z.mod_pos_bound w 2). pose proof (Z.div_mod h 2). pose proof (Z.mod_pos_bound h 2). lia. }
  split; unfold draw_screen; cbn [fb_width fb_height fb_clear draw_rect draw_hline draw_vline mb2_framebuffer]; fold w h.
  - intros Hw Hh. rewrite !Hu by lia.
    destruct (plotted f Hf 0xffffff (w / 2 - 50) (w / 2 + 50) (h / 2 - 50) (h / 2 + 50) m1
      (mb2_draw_rect f (w / 2 - 50) (h / 2 - 50) 100 100 0xffffff)) as (m2 & E2 & Hm2 & P2); try (done || lia).
    { rewrite (rect_inside f Hf) by lia. f_equal; f_equal; lia. }
    destruct (plotted f Hf 0xff0000 0 w (h / 2) (h / 2 + 1) m2 (mb2_draw_hline f 0 (w - 1) (h / 2) 0xff0000))
      as (m3 & E3 & Hm3 & P3); try (done || lia).
    { rewrite (hline_inside f Hf), row_rect by lia. f_equal; f_equal; lia. }
    destruct (plotted f Hf 0x00ff00 (w / 2) (w / 2 + 1) 0 h m3 (mb2_draw_vline f (w / 2) 0 (h - 1) 0x00ff00))
      as (m4 & E4 & Hm4 & P4); try (done || lia).
    { rewrite (vline_plot f Hf) by lia. fold w h. rewrite (proj2 (Z.ltb_lt _ _)) by lia. f_equal; f_equal; lia. }
    exists m4. split.
    + erewrite stbind_step by exact E1. do 2 erewrite stbind_step by (by rewrite sub_ok by (unfold fits, usize_bits; lia)).
      cbv beta. erewrite stbind_step by exact E2. erewrite stbind_step by (by rewrite sub_ok by (unfold fits; lia)). cbv beta.
      erewrite stbind_step by exact E3. by erewrite stbind_step by (by rewrite sub_ok by (unfold fits; lia)).
    + intros x y Hxy. rewrite get_pixel_ok by done. fold (pixel f m4 x y). do 3 f_equal.
      rewrite P4, P3, P2, P1 by done. destruct Hxy as [Hx Hy]. fold w h in Hx, Hy.
      repeat case_decide; lia.
  - intros Hw Hd. erewrite stbind_step by exact E1. unfold mbind at 1, st_bind at 1, lift, sub, arith.
    rewrite (proj2 (Z.leb_gt 0 (w / 2 - 50))) by lia. cbn [andb]. by rewrite Hd.
Qed.

(** The panic handler shows the message from the top left corner of the
    text screen, white on black, as much of it as the 2000 cells hold, and
    changes no byte outside the cells it writes. *)
Theorem panic_screen_shows info m : let msg := [80; 65; 78; 73; 67; 58; 32] ++ concat info in
  exists m', panic_screen info m = Ret (tt, m') /\
    (forall i b, msg !! i = Some b -> (i < 2000)%nat -> 0 <= b < 256 ->
       m' (0xb8000 + 2 * Z.of_nat i) = b /\ m' (0xb8000 + 2 * Z.of_nat i + 1) = 0x0f) /\
    same_outside (in_block 0xb8000 (2 * Z.min 2000 (Z.of_nat (length msg)))) m m'.
Proof.
  intros msg. destruct (panic_write_str_ok msg 0 m) as (m' & E & Hin & Hout); [lia|]. exists m'. split; [|split].
  - unfold panic_screen. rewrite panic_pieces_concat. cbn [concat]. fold msg. by rewrite E.
  - intros i b Hb Hi H8. apply (Hin i b Hb); [lia|done].
  - intros x Hx. apply Hout. unfold in_block in Hx. lia.
Qed.

End Claims.

(** *** The locks of the listing *)

Section Listing.
Context {H D E : Type} `{EqDecision H} `{Profile} (port_write : H -> list Z -> st D (result Z E)).
Context (level_text : Z -> list Z) (boot_console : list Z -> st D unit).

(** The line of a record of [subsystems], and the console printing lines. *)
Definition subsystems_line (args : list (list Z)) : list Z :=
  take 512 (concat (line_pieces level_text (mkRecord 3 (text "kernel::subsystems") args))).

Definition print_lines (lines : list (list Z)) : st D unit :=
  foldr (fun line k => _ ← boot_console line; k) (mret tt) lines.

(** Runs on the devices, with the logger and the locks as they are. *)
Definition printing (f : st D unit) (l : KernelLogger (kernel H D)) (s : kernel H D) : outcome (unit * running H D) :=
  match f (dev s) with
  | Ret (_, d) => Ret (tt, (l, mkKernel (taken s) (manager s) d))
  | Panic => Panic
  | OutOfFuel => OutOfFuel
  end.

Lemma printing_bind (m : st (running H D) unit) k f g l s : m (l, s) = printing f l s ->
  (forall d, k tt (l, mkKernel (taken s) (manager s) d) = printing g l (mkKernel (taken s) (manager s) d)) ->
  (x ← m; k x) (l, s) = printing (_ ← f; g) l s.
Proof using.
  intros E1 E2. unfold mbind, st_bind. rewrite E1. unfold printing at 1 2. destruct (f (dev s)) as [[[] d]| |]; [|done..].
  rewrite E2. done.
Qed.

(** Giving a lock back after printing. *)
Lemma printing_release k f l s : k ∉ taken s ->
  (_ ← (fun '(l, s) => printing f l s); on_kernel (release k)) (l, with_taken (cons k) s) = printing f l s.
Proof using.
  intros Hk. unfold mbind, st_bind, printing. cbn [dev with_taken taken manager].
  destruct (f (dev s)) as [[[] d]| |]; [|done..]. unfold on_kernel.
  pose proof (release_taken k (mkKernel (taken s) (manager s) d) Hk) as E1.
  unfold with_taken in E1. cbn [taken manager dev] in E1. by rewrite E1.
Qed.

Lemma boot_info fuel args (s : kernel H D) lv : (0 < fuel)%nat -> LoggerLock ∉ taken s -> 3 <= level_from_u8 lv ->
  info level_text boot_console fuel (text "kernel::subsystems") args (mkLogger Boot lv, s) =
  printing (boot_console (subsystems_line args)) (mkLogger Boot lv) s.
Proof using.
  intros Hf Hl Hv. unfold info, log_record. plain. erewrite stbind_step by reflexivity. cbv beta iota.
  assert (En : enabled (mkLogger (W := kernel H D) Boot lv) 3 = true) by (by apply Z.leb_le).
  cbn [rlevel]. rewrite En. erewrite stbind_step by (unfold on_kernel; rewrite acquire_free by done; reflexivity).
  rewrite <- (printing_release LoggerLock) by done. unfold mbind, st_bind. unfold log. cbn [rlevel]. rewrite En.
  cbn [negb mode]. unfold mbind, st_bind, lift. rewrite format_record_ok. unfold on_dev, printing. cbn [dev with_taken].
  fold (subsystems_line args). by destruct (boot_console (subsystems_line args) (dev s)) as [[[] d]| |].
Qed.

Lemma describe_ok fuel dm names lv : (0 < fuel)%nat -> 3 <= level_from_u8 lv ->
  (forall n, n ∈ names -> exists d, Devices.get dm n = Some d) ->
  exists rows, map fst rows = names /\
    (forall n k, (n, k) ∈ rows -> exists d, Devices.get dm n = Some d /\ dkind d = k) /\
    forall s, LoggerLock ∉ taken s ->
      describe level_text boot_console fuel dm names (mkLogger Boot lv, s) =
      printing (print_lines (map (fun '(n, k) => subsystems_line (device_line n k)) rows)) (mkLogger Boot lv) s.
Proof using.
  intros Hf Hv. induction names as [|n names IH]; intros Hn.
  { exists []. split; [done|]. split; [set_solver|]. intros [t m d] _. done. }
  destruct IH as (rows & Hm & Hk & IH); [intros; apply Hn; set_solver|].
  destruct (Hn n) as (d & Ed); [set_solver|]. exists ((n, dkind d) :: rows).
  split; [cbn; by rewrite Hm|]. split.
  { intros n' k [[= -> ->]|Hin]%elem_of_cons; [by exists d|by apply Hk]. }
  intros s Hl. cbn [describe map print_lines foldr]. rewrite Ed. fold (print_lines (map (fun '(n, k) => subsystems_line (device_line n k)) rows)).
  apply printing_bind; [by apply boot_info|]. intros d'. by apply IH.
Qed.
End Listing.

Section Entry.
Context {H D E : Type} `{EqDecision H} `{Profile} (port_write : H -> list Z -> st D (result Z E)).
Context (level_text : Z -> list Z) (boot_console : list Z -> st D unit).

(** In the runtime phase [print_devices] holds the manager when it logs its
    first line, and so waits for itself. *)
Lemma print_devices_stuck fuel fuel' (s : kernel H D) dm lv : manager s = Some dm -> 3 <= level_from_u8 lv ->
  print_devices level_text boot_console fuel (mkLogger (Runtime [serial_log_sink port_write fuel']) lv, s) = OutOfFuel.
Proof using.
  intros Hm Hv. unfold print_devices, device_manager. erewrite stbind_step.
  2: { unfold on_kernel. erewrite stbind_step by reflexivity. cbv beta. rewrite Hm. reflexivity. }
  destruct (acquire_inv fuel ManagerLock s _ eq_refl) as [Ea|[_ Ea]].
  - unfold mbind at 1, st_bind at 1, on_kernel. by rewrite Ea.
  - erewrite stbind_step by (unfold on_kernel; rewrite Ea; reflexivity).
    unfold mbind at 1, st_bind at 1. unfold info. rewrite (runtime_log_blocks _ _ _ _ _ _ _ dm); [done|done|done|].
    right. left. cbn. set_solver.
Qed.

Lemma kernel_main_stuck fuel fuel' draw platform (s : kernel H D) dm lv : manager s = Some dm -> 3 <= level_from_u8 lv ->
  forall r, kernel_main level_text boot_console draw platform fuel
    (mkLogger (Runtime [serial_log_sink port_write fuel']) lv, s) <> Ret r.
Proof using.
  intros Hm Hv r. unfold kernel_main, mbind at 1, st_bind at 1.
  destruct (info _ _ _ _ _ _) as [[[] [l' s']]| |] eqn:Ei; [|done..].
  destruct (log_keeps_manager port_write _ _ _ _ _ _ _ _ _ Ei) as [-> Hm']. rewrite Hm in Hm'.
  unfold mbind at 1, st_bind at 1. by rewrite (print_devices_stuck _ _ _ dm).
Qed.

(** In the runtime phase, which [kernel_init] leaves the logger in,
    [print_devices] never ends: it holds the manager while it logs, and the
    serial sink takes the manager to find the console, on every platform and
    with any devices.  So [kernel_main] never gets to its drawing. *)
Theorem print_devices_deadlocks fuel fuel' draw platform (s : kernel H D) dm lv :
  manager s = Some dm -> 3 <= level_from_u8 lv ->
  let l := mkLogger (Runtime [serial_log_sink port_write fuel']) lv in
  print_devices level_text boot_console fuel (l, s) = OutOfFuel /\
  forall r, kernel_main level_text boot_console draw platform fuel (l, s) <> Ret r.
Proof using.
  intros Hm Hv. split; [by apply (print_devices_stuck _ _ _ dm)|by apply (kernel_main_stuck _ _ _ _ _ dm)].
Qed.

(** In the boot phase [print_devices] lists every registered device once, in
    order and under the kind it is registered with, after a heading with their
    number, and leaves the locks free: the [unwrap] never fails. *)
Theorem print_devices_lists fuel (s : kernel H D) dm lv : (0 < fuel)%nat -> manager s = Some dm -> 3 <= level_from_u8 lv ->
  LoggerLock ∉ taken s -> ManagerLock ∉ taken s ->
  exists rows, map fst rows = list_names dm /\
    (forall n k, (n, k) ∈ rows -> exists d, Devices.get dm n = Some d /\ dkind d = k) /\
    print_devices level_text boot_console fuel (mkLogger Boot lv, s) =
      printing (print_lines boot_console (map (subsystems_line level_text)
        (heading (count dm) :: map (fun '(n, k) => device_line n k) rows))) (mkLogger Boot lv) s.
Proof using.
  intros Hf Hm Hv Hl Hn. destruct (describe_ok level_text boot_console fuel dm (list_names dm) lv) as (rows & Hr & Hk & Hd);
    [done|done| |].
  { intros n Hin. by apply bt_get_keys. }
  exists rows. split; [done|]. split; [done|]. unfold print_devices, device_manager. erewrite stbind_step.
  2: { unfold on_kernel. erewrite stbind_step by reflexivity. cbv beta. rewrite Hm. reflexivity. }
  erewrite stbind_step by (unfold on_kernel; rewrite acquire_free by done; reflexivity).
  rewrite <- (printing_release ManagerLock) by done.
  assert (Hp : (_ ← info level_text boot_console fuel (text "kernel::subsystems") (heading (count dm));
      describe level_text boot_console fuel dm (list_names dm)) (mkLogger Boot lv, with_taken (cons ManagerLock) s) =
    printing (print_lines boot_console (map (subsystems_line level_text)
      (heading (count dm) :: map (fun '(n, k) => device_line n k) rows))) (mkLogger Boot lv) (with_taken (cons ManagerLock) s)).
  { cbn [map print_lines foldr]. rewrite map_map.
    rewrite (map_ext (fun x => subsystems_line level_text (let '(n, k) := x in device_line n k))
      (fun '(n, k) => subsystems_line level_text (device_line n k))) by (by intros []).
    apply printing_bind; [apply boot_info; [done|cbn; set_solver|done]|].
    intros d. apply Hd. cbn. set_solver. }
  unfold mbind, st_bind in Hp |- *. rewrite <- Hp. by destruct (info _ _ _ _ _ _) as [[[] ?]| |].
Qed.
End Entry.

(** ** Witnesses *)

#[local] Instance debug_profile : Profile := Build_Profile true.

Lemma main_screen_witness : exists m', draw_screen (H0 := mb2_framebuffer demo_fb) (fun _ => 0) = Ret (tt, m') /\
  mb2_get_pixel demo_fb 5 240 m' = Ret (Some 0xffff0000, m').
Proof.
  destruct (main_screen demo_fb (fun _ => 0) demo_fb_ok) as [Hs _]; [intros x; unfold fits; lia|].
  destruct Hs as (m' & E & Hp); [by vm_compute|by vm_compute|]. exists m'. split; [exact E|].
  rewrite Hp by (unfold on_screen; cbn; lia). by vm_compute.
Defined.

(** A manager with one serial port, whose lines are recorded. *)
Definition demo_devices : DeviceManager nat :=
  Devices.register "uart0" (Devices.mkDevice Devices.Serial 7%nat) Devices.new.
Definition demo_port (_ : nat) (line : list Z) : st (list (list Z)) (result Z unit) :=
  _ ← modify (cons line); mret (Ok 0).
Definition demo_console (line : list Z) : st (list (list Z)) unit := modify (cons line).
Definition demo_kernel : kernel nat (list (list Z)) := mkKernel [] (Some demo_devices) [].

Lemma print_devices_deadlocks_witness : exists s,
  log_record log_level_text demo_console 5 (mkRecord 3 (text "kernel") [text "ok"])
    (mkLogger (Runtime [serial_log_sink demo_port 5]) 3, demo_kernel) = Ret (tt, s) /\ length (dev s.2) = 1%nat /\
  print_devices log_level_text demo_console 5 (mkLogger (Runtime [serial_log_sink demo_port 5]) 3, demo_kernel) = OutOfFuel.
Proof.
  eexists. split; [vm_compute; reflexivity|]. split; [reflexivity|].
  apply (print_devices_deadlocks demo_port log_level_text demo_console 5 5 (fun _ => mret tt) "PC" demo_kernel demo_devices 3);
    [reflexivity|vm_compute; congruence].
Defined.

Lemma print_devices_lists_witness : exists s,
  print_devices log_level_text demo_console 5 (mkLogger Boot 3, demo_kernel) = Ret (tt, s) /\ length (dev s.2) = 2%nat.
Proof.
  destruct (print_devices_lists log_level_text demo_console 5 demo_kernel demo_devices 3) as (rows & Hr & _ & E);
    [lia|reflexivity|vm_compute; congruence|cbn; set_solver|cbn; set_solver|].
  eexists. split; [vm_compute; reflexivity|reflexivity].
Defined.
