(* ===== verification/Tick.v ===== *)
(** * The timer interrupt of the running kernel

    [dispatch] (kernel/src/irq/dispatch.rs) and the handlers
    (kernel/src/irq/handlers.rs) once more, now over the whole machine: the
    device manager and its locks ([Locks]), the interrupt controller ([Irq]),
    the system timer ([Timer]) and the console ([Serial]).  [Irq] shows what
    [dispatch] does to the controller for any handler, [Timer] what the handler
    does to the timer; here an interrupt runs from the dispatcher to the wire
    and back, and the actions of [Nest] are shown to be those of this code. *)
From stdpp Require Import pretty.
From S2P Require Import Prelude Mmio Devices Irq Timer Serial Logger Locks Nest Trace Main.

(** ** Definitions *)

Section Machine.
Context {H : Type} `{EqDecision H} `{Profile}.
Context {C T TM Handle TE U UE : Type} `{InterruptController C} `{Timer T TM Handle TE} `{SerialPort U UE}.

(** The controller, the timer, the console, and the interrupt flag of the
    processor. *)
Record soc := mkSoc { intc : C; clock : T; uart : U; irq_flag : bool }.

Definition part {P A} (get : soc -> P) (set : P -> soc -> soc) (f : st P A) : st soc A := fun s =>
  match f (get s) with
  | Ret (a, p) => Ret (a, set p s)
  | Panic => Panic
  | OutOfFuel => OutOfFuel
  end.

Definition on_intc {A} : st C A -> st soc A := part intc (fun c s => mkSoc c (clock s) (uart s) (irq_flag s)).
Definition on_clock {A} : st T A -> st soc A := part clock (fun t s => mkSoc (intc s) t (uart s) (irq_flag s)).
Definition on_uart {A} : st U A -> st soc A := part uart (fun u s => mkSoc (intc s) (clock s) u (irq_flag s)).
Definition set_flag (b : bool) : st soc unit := modify (fun s => mkSoc (intc s) (clock s) (uart s) b).

(** [fuel] is for locks, [polls] for the console; the code runs on any
    implementation of the shared state. *)
Context (the_timer : TM) (fuel polls : nat).
Context (level_text : Z -> list Z) (boot_console : list Z -> st soc unit).
Context {K : Type} {Ops : KernelOps H soc K}.

Definition port_write (_ : H) (line : list Z) : st soc (result Z SerialError) := on_uart (dyn_write polls line).

(** [DeviceManager::sys_timer_channel()] is a cell of its own. *)
Definition get_channel : st K (option Z) :=
  c ← k_cell; mret (c ≫= sys_timer_channel).

(** A call of the timer's driver. *)
Definition call_timer (f : st T (result unit TimerError)) : st K unit := k_dev (on_clock (expect_ok f)).

(** [handlers::timer]. *)
Definition timer : st K unit :=
  channel ← get_channel;
  channel ← expect_some channel;
  sys_timer ← get_system_timer fuel;
  sys_timer ← expect_some sys_timer;
  _ ← locked fuel (ObjectLock sys_timer) (
        _ ← call_timer (dyn_stop the_timer channel);
        call_timer (dyn_clear_interrupt the_timer channel));
  console ← get_serial_console fuel;
  console ← expect_some console;
  _ ← locked fuel (ObjectLock console) (k_dev (port_write console tick_message));
  locked fuel (ObjectLock sys_timer) (call_timer (dyn_start the_timer channel 1000000)).

(** The functions a table entry can point to, and [IRQ_HANDLERS]. *)
Inductive IrqHandler := TimerFn | UartFn.

Definition call (h : IrqHandler) : st K unit := match h with TimerFn => timer | UartFn => mret tt end.

(** [handlers::register]. *)
Definition register (irq : Z) (h : IrqHandler) (table : list (option IrqHandler)) : outcome (list (option IrqHandler)) :=
  index_set table irq (Some h).

Context (IRQ_HANDLERS : list (option IrqHandler)).

Definition unhandled_line (irq : Z) : list (list Z) := [text "Unhandled IRQ: "; text (pretty (Z.to_N irq))].

Definition with_intc {A} (irqctl : H) (f : st C A) : st (KernelLogger K * K) A :=
  on_kernel (locked fuel (ObjectLock irqctl) (k_dev (on_intc f))).

Definition dispatch (irq : Z) : st (KernelLogger K * K) unit :=
  irqctl ← on_kernel (get_irq_controller fuel);
  irqctl ← expect_some irqctl;
  _ ← with_intc irqctl (ic_disable irq);
  _ ← on_kernel (k_dev (set_flag true));
  handler ← lift (index IRQ_HANDLERS irq);
  _ ← (match handler with
       | Some h => on_kernel (call h)
       | None => info level_text boot_console fuel (text "kernel::irq::dispatch") (unhandled_line irq)
       end);
  _ ← on_kernel (k_dev (set_flag false));
  _ ← with_intc irqctl (ic_enable irq);
  mret tt.

(** The table as it is linked; [register] is called nowhere. *)
Definition no_handlers : list (option IrqHandler) := replicate 128 None.

(** One interrupt of a line after another; between two of them the devices
    go on by themselves, as the functions of the list say. *)
Fixpoint interrupts (irq : Z) (between : list (soc -> soc)) : st (KernelLogger K * K) unit :=
  match between with
  | [] => mret tt
  | e :: between => _ ← on_kernel (k_dev (modify e)); _ ← dispatch irq; interrupts irq between
  end.
End Machine.
Arguments soc : clear implicits.
Arguments mkSoc {C T U}.

(** ** Lemmas *)

(** *** The code of an interrupt, step by step *)

Section Steps.
Context {H : Type} `{EqDecision H} {D : Type}.

Lemma locked_dev {A} fuel l (f : st D A) (s : kernel H D) a d : (0 < fuel)%nat -> l ∉ taken s -> f (dev s) = Ret (a, d) ->
  locked fuel l (k_dev f) s = Ret (a, mkKernel (taken s) (manager s) d).
Proof using. intros Hf Hl E. apply locked_ok; [done|done|]. plain. unfold on_dev. cbn [dev with_taken]. by rewrite E. Qed.

(** Two calls under one guard. *)
Lemma locked_devs {A B} fuel l (f : st D A) (g : st D B) (s : kernel H D) a d b d' : (0 < fuel)%nat -> l ∉ taken s ->
  f (dev s) = Ret (a, d) -> g d = Ret (b, d') ->
  locked fuel l (_ ← k_dev f; k_dev g) s = Ret (b, mkKernel (taken s) (manager s) d').
Proof using.
  intros Hf Hl E1 E2. apply locked_ok; [done|done|]. plain. unfold mbind, st_bind, on_dev. cbn [dev with_taken].
  rewrite E1. cbn [dev]. by rewrite E2.
Qed.

Lemma on_kernel_ok {A} (m : st (kernel H D) A) (l : KernelLogger (kernel H D)) s a s' :
  m s = Ret (a, s') -> on_kernel m (l, s) = Ret (a, (l, s')).
Proof using. intros E. unfold on_kernel. by rewrite E. Qed.
End Steps.

#[local] Existing Instance Irq.Bcm2835.controller.

Section Tick.
Context {H : Type} `{EqDecision H} `{Profile}.
Context {C T U UE : Type} `{Bcm2835.IntcHw C} `{SysTimer T} (P : SerialPort U UE) `{!SerialLaws U UE P}.
Context (fuel : nat) (fuel_pos : (0 < fuel)%nat).
Context (level_text : Z -> list Z) (boot_console : list Z -> st (soc C T U) unit).
Context (IRQ_HANDLERS : list (option IrqHandler)).
Implicit Types (s : kernel H (soc C T U)) (d : soc C T U) (dm : DeviceManager H).

(** The devices an interrupt of the timer uses, all registered. *)
Record tick_devices dm (ic ti ua : H) (ch : Z) : Prop := {
  td_irq : irq_controller dm = Some ic;
  td_timer : system_timer dm = Some ti;
  td_console : serial_console dm = Some ua;
  td_channel : sys_timer_channel dm = Some ch;
}.

(** No code holds a lock that the interrupt takes. *)
Definition locks_free (ic ti ua : H) s : Prop :=
  ManagerLock ∉ taken s /\ ObjectLock ic ∉ taken s /\ ObjectLock ti ∉ taken s /\ ObjectLock ua ∉ taken s.

Lemma dyn_write_sends bytes (u : U) : Forall (fits 8) bytes -> exists u',
  dyn_write enough bytes u = Ret (Ok (Z.of_nat (length bytes)), u') /\ sent u' = sent u ++ bytes.
Proof using All.
  intros Hb. destruct (write_each_sends P bytes u Hb) as (u' & E & S1). exists u'. split; [|exact S1].
  unfold dyn_write, st_map_err, write. by rewrite (try_step _ _ _ _ _ E).
Qed.

Lemma tick_bytes : Forall (fits 8) tick_message.
Proof using. apply (bool_decide_unpack _). by vm_compute. Qed.

(** The calls of the timer's driver through [DynTimer]. *)
Lemma clear_calls ch (x y : T) : Bcm2835.clear (Bcm2835.channel_of ch) x = Ret (tt, y) ->
  expect_ok (dyn_stop Bcm2835.TheTimer ch) x = Ret (tt, y) /\
  expect_ok (dyn_clear_interrupt Bcm2835.TheTimer ch) x = Ret (tt, y).
Proof using.
  intros E. unfold expect_ok, dyn_stop, dyn_clear_interrupt, st_map_err.
  cbn [Timer.stop Timer.clear_interrupt handle_of_usize Bcm2835.bcm_timer]. unfold mbind, st_bind. by rewrite E.
Qed.

Lemma start_call ch us (x y : T) : Bcm2835.start_timer (Bcm2835.channel_of ch) us x = Ret (tt, y) ->
  expect_ok (dyn_start Bcm2835.TheTimer ch us) x = Ret (tt, y).
Proof using.
  intros E. unfold expect_ok, dyn_start, st_map_err. cbn [Timer.start handle_of_usize Bcm2835.bcm_timer].
  unfold mbind, st_bind. by rewrite E.
Qed.

(** What the handler leaves of the devices. *)
Definition ticked (ch : Z) d d' : Prop :=
  intc d' = intc d /\ irq_flag d' = irq_flag d /\ sent (uart d') = sent (uart d) ++ tick_message /\
  (exists t, counter (clock d) <= t <= counter (clock d') /\
     compare (clock d') (Bcm2835.channel_of ch) = (t + 1000000) mod 2 ^ 32) /\
  forall k, Bcm2835.irq_number k <> Bcm2835.irq_number (Bcm2835.channel_of ch) -> compare (clock d') k = compare (clock d) k.

Lemma timer_ok dm ic ti ua ch s : manager s = Some dm -> tick_devices dm ic ti ua ch -> locks_free ic ti ua s ->
  exists d', timer Bcm2835.TheTimer fuel enough s = Ret (tt, mkKernel (taken s) (Some dm) d') /\ ticked ch (dev s) d'.
Proof using All.
  intros Hm [_ Ht Hc Hch] (L1 & _ & L3 & L4). set (k := Bcm2835.channel_of ch).
  destruct s as [tk m [i c u b]]. cbn [manager taken dev] in *. subst m.
  destruct (timer_clear_ok k c) as (ca & Ea & _ & Ta & Ka). destruct (timer_clear_ok k ca) as (cb & Eb & _ & Tb & Kb).
  destruct (start_ok k 1000000 cb) as (cc & t & Ec & Tc & Kc & Oc).
  destruct (dyn_write_sends tick_message u tick_bytes) as (u' & Eu & Su).
  exists (mkSoc i cc u' b). split.
  - unfold timer. erewrite stbind_step by (unfold get_channel; erewrite stbind_step by reflexivity; reflexivity).
    cbn [manager mbind option_bind]. rewrite Hch. erewrite stbind_step by reflexivity.
    erewrite stbind_step by (by apply lookup_device_ok). rewrite Ht. erewrite stbind_step by reflexivity.
    erewrite stbind_step.
    2: { eapply locked_devs; [done|done| |]; unfold on_clock, part; cbn [dev].
         - cbn [clock]. rewrite (proj1 (clear_calls ch _ _ Ea)). reflexivity.
         - cbn [clock]. rewrite (proj2 (clear_calls ch _ _ Eb)). reflexivity. }
    cbn [taken manager]. erewrite stbind_step by (by apply lookup_device_ok). rewrite Hc. erewrite stbind_step by reflexivity.
    erewrite stbind_step.
    2: { apply locked_dev; [done|done|]. unfold port_write, on_uart, part. cbn [dev uart]. by rewrite Eu. }
    cbn [taken manager]. apply locked_dev; [done|done|]. unfold on_clock, part. cbn [dev clock].
    by rewrite (start_call ch _ _ _ Ec).
  - cbn. split_and!; try done.
    + exists t. split; [cbn; lia|done].
    + intros k' Hk'. by rewrite Oc, Kb, Ka.
Qed.

#[local] Notation dispatch := (dispatch Bcm2835.TheTimer fuel enough level_text boot_console IRQ_HANDLERS).
#[local] Notation interrupts := (interrupts Bcm2835.TheTimer fuel enough level_text boot_console IRQ_HANDLERS).

(** A call of the controller under its lock. *)
Lemma with_intc_ok {A} (f : st C A) ic (l : KernelLogger _) s a c : ObjectLock ic ∉ taken s -> f (intc (dev s)) = Ret (a, c) ->
  with_intc fuel ic f (l, s) =
    Ret (a, (l, mkKernel (taken s) (manager s) (mkSoc c (clock (dev s)) (uart (dev s)) (irq_flag (dev s))))).
Proof using fuel_pos.
  intros Hl E. apply on_kernel_ok, locked_dev; [done|done|]. unfold on_intc, part. by rewrite E.
Qed.

Lemma set_flag_ok b (l : KernelLogger (kernel H (soc C T U))) s :
  on_kernel (k_dev (set_flag b)) (l, s) =
    Ret (tt, (l, mkKernel (taken s) (manager s) (mkSoc (intc (dev s)) (clock (dev s)) (uart (dev s)) b))).
Proof using. done. Qed.

Lemma dispatch_ok dm ic ti ua ch irq (l : KernelLogger _) s : manager s = Some dm -> tick_devices dm ic ti ua ch ->
  locks_free ic ti ua s -> 0 <= irq < 80 -> IRQ_HANDLERS !! Z.to_nat irq = Some (Some TimerFn) ->
  exists d', dispatch irq (l, s) = Ret (tt, (l, mkKernel (taken s) (Some dm) d')) /\
    irq_flag d' = false /\ Bcm2835.line_enabled (intc d') irq = true /\
    (forall n, 0 <= n < 96 -> n <> irq -> Bcm2835.line_enabled (intc d') n = Bcm2835.line_enabled (intc (dev s)) n) /\
    exists d1 d2, clock d1 = clock (dev s) /\ uart d1 = uart (dev s) /\ ticked ch d1 d2 /\ clock d' = clock d2 /\ uart d' = uart d2.
Proof using All.
  intros Hm Hd Hl Hi Ht. pose proof Hl as (L1 & L2 & _ & _). destruct s as [tk m d0]. cbn [manager taken dev] in *. subst m.
  destruct (ic_disable_ok irq (intc d0) Hi) as (c1 & E1 & O1).
  set (d1 := mkSoc c1 (clock d0) (uart d0) true).
  destruct (timer_ok dm ic ti ua ch (mkKernel tk (Some dm) d1) eq_refl Hd Hl) as (d2 & E2 & Td).
  cbn [taken dev] in E2, Td. pose proof Td as (Ic & _).
  destruct (ic_enable_ok irq (intc d2) Hi) as (c3 & E3 & O3).
  exists (mkSoc c3 (clock d2) (uart d2) false). split_and!; cbn [intc irq_flag]; try done.
  - unfold Tick.dispatch. erewrite stbind_step by (by apply on_kernel_ok, lookup_device_ok). rewrite (td_irq _ _ _ _ _ Hd).
    erewrite stbind_step by reflexivity. erewrite stbind_step by (by apply with_intc_ok).
    erewrite stbind_step by apply set_flag_ok. cbn [taken manager dev intc clock uart].
    erewrite stbind_step by (unfold lift; by rewrite (index_ok _ _ _ (proj1 Hi) Ht)).
    erewrite stbind_step by (by apply on_kernel_ok).
    erewrite stbind_step by apply set_flag_ok. cbn [taken manager dev intc clock uart].
    by erewrite stbind_step by (by apply with_intc_ok).
  - rewrite O3, Z.eqb_refl by lia. apply orb_true_r.
  - intros n Hn Hne. rewrite O3, Ic by done. cbn [intc d1]. rewrite O1, (proj2 (Z.eqb_neq _ _)) by done.
    by rewrite orb_false_r, andb_true_r.
  - by exists d1, d2.
Qed.

(** ** Theorems *)

(** An interrupt of the timer's line that finds the locks free runs to its end:
    the message goes out on the console's wire, the channel is set to fire a
    second after a time within the interrupt, the other channels and lines are
    as before, the line is enabled again, and every lock is free. *)
Theorem timer_tick dm ic ti ua ch irq (l : KernelLogger _) s : manager s = Some dm -> tick_devices dm ic ti ua ch ->
  locks_free ic ti ua s -> 0 <= irq < 80 -> IRQ_HANDLERS !! Z.to_nat irq = Some (Some TimerFn) ->
  exists d' t, dispatch irq (l, s) = Ret (tt, (l, mkKernel (taken s) (Some dm) d')) /\
    sent (uart d') = sent (uart (dev s)) ++ tick_message /\
    counter (clock (dev s)) <= t <= counter (clock d') /\
    compare (clock d') (Bcm2835.channel_of ch) = (t + 1000000) mod 2 ^ 32 /\
    (forall k, Bcm2835.irq_number k <> Bcm2835.irq_number (Bcm2835.channel_of ch) ->
       compare (clock d') k = compare (clock (dev s)) k) /\
    irq_flag d' = false /\ Bcm2835.line_enabled (intc d') irq = true /\
    forall n, 0 <= n < 96 -> n <> irq -> Bcm2835.line_enabled (intc d') n = Bcm2835.line_enabled (intc (dev s)) n.
Proof using All.
  intros Hm Hd Hl Hi Ht. destruct (dispatch_ok dm ic ti ua ch irq l s Hm Hd Hl Hi Ht) as
    (d' & E & F1 & F2 & F3 & d1 & d2 & C1 & U1 & (_ & _ & S1 & (t & T1 & T2) & O1) & C2 & U2).
  exists d', t. rewrite C2, U2. rewrite C1 in T1. rewrite U1 in S1. split_and!; try done; try lia.
  intros k Hk. by rewrite O1, C1.
Qed.

(** One interrupt of the timer after another, with the handler registered. *)
Lemma ticking dm ic ti ua ch irq (l : KernelLogger _) s between : manager s = Some dm ->
  tick_devices dm ic ti ua ch -> locks_free ic ti ua s -> 0 <= irq < 80 ->
  IRQ_HANDLERS !! Z.to_nat irq = Some (Some TimerFn) ->
  Forall (fun e => forall d, sent (uart (e d)) = sent (uart d)) between ->
  exists d', interrupts irq between (l, s) = Ret (tt, (l, mkKernel (taken s) (Some dm) d')) /\
    sent (uart d') = sent (uart (dev s)) ++ concat (replicate (length between) tick_message) /\
    (between <> [] -> Bcm2835.line_enabled (intc d') irq = true /\ exists t, t <= counter (clock d') /\
       compare (clock d') (Bcm2835.channel_of ch) = (t + 1000000) mod 2 ^ 32).
Proof using All.
  intros Hm Hd Hl Hi Ht Hb. revert s Hm Hl. induction Hb as [|e between He _ IH]; intros [tk m d0] Hm Hl; cbn in Hm; subst m.
  { exists d0. split; [done|]. split; [by rewrite app_nil_r|done]. }
  destruct (dispatch_ok dm ic ti ua ch irq l (mkKernel tk (Some dm) (e d0)) eq_refl Hd Hl Hi Ht) as
    (d1 & E1 & _ & F2 & _ & da & db & C1 & U1 & (_ & _ & S1 & (t & T1 & T2) & _) & C2 & U2).
  destruct (IH (mkKernel tk (Some dm) d1) eq_refl Hl) as (d' & E2 & S2 & R2). exists d'. split; [|split].
  - cbn [Tick.interrupts]. erewrite stbind_step by reflexivity. by erewrite stbind_step by exact E1.
  - cbn [dev taken length replicate concat] in *. by rewrite S2, U2, S1, U1, He, <- app_assoc.
  - intros _. destruct between as [|e' between]; [|by apply R2]. injection E2 as <-. cbn [dev] in *.
    split; [done|]. exists t. rewrite C2. split; [lia|done].
Qed.

(** Without a handler an interrupt of the timer is answered by a log line
    alone: the channel's match is not cleared, its compare register not set,
    and the line is enabled, so the same interrupt is pending again at once. *)
Theorem unregistered_timer dm ic ti ua ch irq lv s : manager s = Some dm -> tick_devices dm ic ti ua ch ->
  locks_free ic ti ua s -> LoggerLock ∉ taken s -> 0 <= irq < 80 ->
  IRQ_HANDLERS !! Z.to_nat irq = Some None -> 3 <= level_from_u8 lv ->
  Forall (fits 8) (concat (line_pieces level_text (mkRecord 3 (text "kernel::irq::dispatch") (unhandled_line irq)))) ->
  let l := mkLogger (Runtime [serial_log_sink (port_write (H := H) (C := C) (T := T) (U := U) enough) fuel]) lv in
  exists d', dispatch irq (l, s) =
      Ret (tt, (l, mkKernel (taken s) (Some dm) d')) /\
    clock d' = clock (dev s) /\ Bcm2835.line_enabled (intc d') irq = true /\
    sent (uart d') = sent (uart (dev s)) ++
      take 512 (concat (line_pieces level_text (mkRecord 3 (text "kernel::irq::dispatch") (unhandled_line irq)))).
Proof using All.
  intros Hm Hd (L1 & L2 & _ & L4) L5 Hi Ht Hlv Hb l. destruct s as [tk m d0]. cbn [manager taken dev] in *. subst m.
  set (line := take 512 _). destruct (ic_disable_ok irq (intc d0) Hi) as (c1 & E1 & _).
  destruct (ic_enable_ok irq c1 Hi) as (c3 & E3 & O3).
  destruct (dyn_write_sends line (uart d0)) as (u' & Eu & Su); [by apply Forall_take|].
  exists (mkSoc c3 (clock d0) u' false). split; [|split; [done|split; [|done]]].
  - unfold Tick.dispatch. erewrite stbind_step by (by apply on_kernel_ok, lookup_device_ok). rewrite (td_irq _ _ _ _ _ Hd).
    erewrite stbind_step by reflexivity. erewrite stbind_step by (by apply with_intc_ok).
    erewrite stbind_step by apply set_flag_ok. cbn [taken manager dev intc clock uart].
    erewrite stbind_step by (unfold lift; by rewrite (index_ok _ _ _ (proj1 Hi) Ht)).
    erewrite stbind_step.
    2: { pose proof (runtime_log_delivery (port_write (H := H) (C := C) (T := T) (U := U) enough) level_text boot_console fuel fuel
           (mkRecord 3 (text "kernel::irq::dispatch") (unhandled_line irq)) (mkKernel tk (Some dm) (mkSoc c1 (clock d0) (uart d0) true))
           dm lv fuel_pos fuel_pos eq_refl Hlv L5 L1) as Hlog.
         rewrite (td_console _ _ _ _ _ Hd) in Hlog. eapply Hlog; [done|]. unfold port_write, on_uart, part. cbn [dev uart].
         fold line. by rewrite Eu. }
    erewrite stbind_step by apply set_flag_ok. cbn [taken manager dev intc clock uart].
    by erewrite stbind_step by (by apply with_intc_ok).
  - cbn. rewrite O3, Z.eqb_refl by lia. apply orb_true_r.
Qed.

(** One after another. *)
Lemma unanswered dm ic ti ua ch irq lv s between : manager s = Some dm -> tick_devices dm ic ti ua ch ->
  locks_free ic ti ua s -> LoggerLock ∉ taken s -> 0 <= irq < 80 ->
  IRQ_HANDLERS !! Z.to_nat irq = Some None -> 3 <= level_from_u8 lv ->
  Forall (fits 8) (concat (line_pieces level_text (mkRecord 3 (text "kernel::irq::dispatch") (unhandled_line irq)))) ->
  Forall (fun e => forall d, sent (uart (e d)) = sent (uart d)) between ->
  let l := mkLogger (Runtime [serial_log_sink (port_write (H := H) (C := C) (T := T) (U := U) enough) fuel]) lv in
  let line := take 512 (concat (line_pieces level_text (mkRecord 3 (text "kernel::irq::dispatch") (unhandled_line irq)))) in
  exists d', interrupts irq between (l, s) = Ret (tt, (l, mkKernel (taken s) (Some dm) d')) /\
    sent (uart d') = sent (uart (dev s)) ++ concat (replicate (length between) line) /\
    (between <> [] -> Bcm2835.line_enabled (intc d') irq = true) /\
    forall Q : T -> Prop, Forall (fun e => forall d, Q (clock d) -> Q (clock (e d))) between -> Q (clock (dev s)) -> Q (clock d').
Proof using All.
  intros Hm Hd Hl Hlog Hi Ht Hlv Hb8 Hb l line. revert s Hm Hl Hlog.
  induction Hb as [|e between He _ IH]; intros [tk m d0] Hm Hl Hlog; cbn in Hm; subst m.
  { exists d0. split; [done|]. split; [by rewrite app_nil_r|done]. }
  destruct (unregistered_timer dm ic ti ua ch irq lv (mkKernel tk (Some dm) (e d0)) eq_refl Hd Hl Hlog Hi Ht Hlv Hb8)
    as (d1 & E1 & C1 & F1 & S1).
  destruct (IH (mkKernel tk (Some dm) d1) eq_refl Hl Hlog) as (d' & E2 & S2 & F2 & Q2). exists d'. split; [|split; [|split]].
  - cbn [Tick.interrupts]. erewrite stbind_step by reflexivity. by erewrite stbind_step by exact E1.
  - cbn [dev taken length replicate concat] in *. by rewrite S2, S1, He, <- app_assoc.
  - intros _. destruct between as [|e' between]; [|by apply F2]. by injection E2 as <-.
  - intros Q [HQ HQs]%Forall_cons HQ0. apply Q2; [done|]. cbn [dev] in *. rewrite C1. by apply HQ.
Qed.
End Tick.

Section Linked.
Context {H : Type} `{EqDecision H} `{Profile}.
Context {C T U UE : Type} `{Bcm2835.IntcHw C} `{SysTimer T} (P : SerialPort U UE) `{!SerialLaws U UE P}.
Context (fuel : nat) (fuel_pos : (0 < fuel)%nat).
Context (level_text : Z -> list Z) (boot_console : list Z -> st (soc C T U) unit).

#[local] Notation interrupts table := (interrupts Bcm2835.TheTimer fuel enough level_text boot_console table).
#[local] Notation line_of irq :=
  (concat (line_pieces level_text (mkRecord 3 (text "kernel::irq::dispatch") (unhandled_line irq)))).

End Linked.

(** *** The actions of [Nest] and the code *)

Section Actions.
Context {H : Type} `{EqDecision H} `{Profile}.
Context {C T U UE : Type} `{Bcm2835.IntcHw C} `{SysTimer T} (P : SerialPort U UE).
Context (fuel polls : nat) (fuel_pos : (0 < fuel)%nat).
Context (writes : forall line u, exists r u', dyn_write polls line u = Ret (r, u')).
Context (level_text : Z -> list Z) (boot_console : list Z -> st (soc C T U) unit).
Context (IRQ_HANDLERS : list (option IrqHandler)).
Context (dm : DeviceManager H) (ic ti ua : H) (ch : Z) (devs : tick_devices dm ic ti ua ch).
#[local] Existing Instance traced_ops.
#[local] Notation K := (traced H (soc C T U)).

(** What an action of [Nest] does to the devices: a call of the timer or of the
    console changes that device alone, masking changes one line of the
    controller alone, and the flag is set or cleared alone. *)
Definition effect (a : act H) (d d' : soc C T U) : Prop :=
  match a with
  | Use l => intc d' = intc d /\ irq_flag d' = irq_flag d /\
      (l <> ObjectLock ti -> clock d' = clock d) /\ (l <> ObjectLock ua -> uart d' = uart d)
  | Mask n => clock d' = clock d /\ uart d' = uart d /\ irq_flag d' = irq_flag d /\
      forall k, 0 <= k < 96 -> Bcm2835.line_enabled (intc d') k = Bcm2835.line_enabled (intc d) k && negb (k =? n)
  | Unmask n => clock d' = clock d /\ uart d' = uart d /\ irq_flag d' = irq_flag d /\
      forall k, 0 <= k < 96 -> Bcm2835.line_enabled (intc d') k = Bcm2835.line_enabled (intc d) k || (k =? n)
  | EnableIrqs => d' = mkSoc (intc d) (clock d) (uart d) true
  | DisableIrqs => d' = mkSoc (intc d) (clock d) (uart d) false
  | Acquire _ | Release _ => False
  end.

#[local] Notation steps := (follows effect dm (fun s : K => s) (fun _ => True)).
#[local] Notation runs l := (follows effect dm snd (fun r : KernelLogger K * K => r.1 = l)).

Lemma follows_timer_call (f : st T (result unit TimerError)) : (forall x, exists y, expect_ok f x = Ret (tt, y)) ->
  steps [Use (ObjectLock ti)] (fun _ => True) (call_timer f).
Proof using.
  intros Hf. apply follows_dev. intros d. destruct (Hf (clock d)) as (y & E). exists tt. eexists.
  split; [unfold on_clock, part; by rewrite E|]. by split.
Qed.

Lemma port_writes line (d : soc C T U) : exists r d', port_write polls ua line d = Ret (r, d') /\ effect (Use (ObjectLock ua)) d d'.
Proof using writes.
  destruct (writes line (uart d)) as (r & u' & E). exists r. eexists. unfold port_write, on_uart, part. rewrite E. by split_and!.
Qed.

Lemma timer_follows : steps (timer_actions ua ti) (fun _ => True) (timer (C := C) Bcm2835.TheTimer fuel polls).
Proof using All.
  destruct devs as [_ Ht Hc Hch]. unfold timer, timer_actions.
  apply (follows_bind _ _ _ _ [] _ (fun a => a = Some ch)).
  { intros [s tr] _ Hd. cbn in Hd. exists (Some ch), (s, tr). unfold get_channel, mbind, st_bind. cbn. rewrite Hd. cbn.
    rewrite Hch. split_and!; try done. apply did_nil. }
  intros ? ->. apply (follows_bind _ _ _ _ [] _ (fun a => a = ch)); [by apply follows_expect|]. intros ? ->.
  apply (follows_bind _ _ _ _ lookup _ (fun a => a = Some ti)); [rewrite <- Ht; by apply follows_lookup|]. intros ? ->.
  apply (follows_bind _ _ _ _ [] _ (fun a => a = ti)); [by apply follows_expect|]. intros ? ->.
  apply (follows_then _ _ _ _ (guarded _ _)).
  { apply follows_locked; [done|]. apply (follows_then _ _ _ _ [_] [_]); apply follows_timer_call; intros x;
      destruct (timer_clear_ok (Bcm2835.channel_of ch) x) as (y & Ey & _); exists y; by apply (clear_calls ch). }
  apply (follows_bind _ _ _ _ lookup _ (fun a => a = Some ua)); [rewrite <- Hc; by apply follows_lookup|]. intros ? ->.
  apply (follows_bind _ _ _ _ [] _ (fun a => a = ua)); [by apply follows_expect|]. intros ? ->.
  apply (follows_then _ _ _ _ (guarded _ _)).
  { apply follows_locked; [done|]. apply follows_dev. intros d. destruct (port_writes tick_message d) as (r & d' & E & He).
    by exists r, d'. }
  apply follows_locked; [done|]. apply follows_timer_call. intros x.
  destruct (start_ok (Bcm2835.channel_of ch) 1000000 x) as (y & t & Ey & _). exists y. by apply start_call.
Qed.

(** The table of [Nest] that this table is. *)
Definition action_table (irq : Z) : option (list (act H)) :=
  match IRQ_HANDLERS !! Z.to_nat irq with
  | Some (Some TimerFn) => Some (timer_actions ua ti)
  | Some (Some UartFn) => Some uart_actions
  | _ => None
  end.

Lemma follows_intc a (f : st C (result unit InterruptError)) l :
  (forall d, exists c, f (intc d) = Ret (Ok tt, c) /\ shows effect a (Changed d (mkSoc c (clock d) (uart d) (irq_flag d)))) ->
  runs l (guarded (ObjectLock ic) [a]) (fun _ => True) (with_intc (T := T) (U := U) fuel ic f).
Proof using fuel_pos.
  intros Hf. apply follows_on_kernel, follows_locked; [done|]. apply follows_dev. intros d.
  destruct (Hf d) as (c & E & Hs). exists (Ok tt). eexists. unfold on_intc, part. rewrite E. by split_and!.
Qed.

Lemma follows_flag b l :
  runs l [if b : bool then EnableIrqs else DisableIrqs] (fun _ => True) (on_kernel (k_dev (set_flag (C := C) (T := T) (U := U) b))).
Proof using. apply follows_on_kernel, follows_dev. intros d. eexists tt, _. split; [done|]. by destruct b. Qed.

(** The loggers of the runtime phase, on the two states. *)
Definition traced_logger : KernelLogger K := mkLogger (Runtime [serial_log_sink (port_write polls) fuel]) 3.
Definition plain_logger : KernelLogger (kernel H (soc C T U)) := mkLogger (Runtime [serial_log_sink (port_write polls) fuel]) 3.

Lemma dispatch_follows irq : 0 <= irq < 80 -> (Z.to_nat irq < length IRQ_HANDLERS)%nat ->
  runs traced_logger (dispatch_actions ua ic action_table irq) (fun _ => True)
    (dispatch Bcm2835.TheTimer fuel polls level_text boot_console IRQ_HANDLERS irq).
Proof using All.
  intros Hi Hlen. destruct (lookup_lt_is_Some_2 IRQ_HANDLERS (Z.to_nat irq) Hlen) as (h & Eh).
  unfold dispatch, dispatch_actions, entry_actions, exit_actions. rewrite <- !app_assoc.
  apply (follows_bind _ _ _ _ lookup _ (fun a => a = Some ic)).
  { rewrite <- (td_irq _ _ _ _ _ devs). by apply follows_on_kernel, follows_lookup. }
  intros ? ->. apply (follows_bind _ _ _ _ [] _ (fun a => a = ic)); [by apply follows_expect|]. intros ? ->.
  apply (follows_then _ _ _ _ (guarded _ _)).
  { apply follows_intc. intros d. destruct (ic_disable_ok irq (intc d) Hi) as (c & E & O). exists c. by split_and!. }
  apply (follows_then _ _ _ _ [EnableIrqs]); [by apply (follows_flag true)|].
  apply (follows_bind _ _ _ _ [] _ (fun a => a = h)).
  { intros r Hr Hd. exists h, r. unfold lift. rewrite (index_ok _ _ _ (proj1 Hi) Eh). split_and!; try done. apply did_nil. }
  intros ? ->. apply (follows_then _ _ _ _ (handler_actions _ _ _)).
  { unfold handler_actions, action_table. rewrite Eh. destruct h as [[]|].
    - apply follows_on_kernel, timer_follows.
    - apply follows_on_kernel. by apply follows_ret.
    - apply follows_log; [done|by apply (td_console _ _ _ _ _ devs)| |by vm_compute]. exact port_writes. }
  apply (follows_then _ _ _ _ [DisableIrqs]); [by apply (follows_flag false)|].
  rewrite <- (app_nil_r (guarded _ _)). apply (follows_then _ _ _ _ (guarded _ _)); [|by apply follows_ret].
  apply follows_intc. intros d. destruct (ic_enable_ok irq (intc d) Hi) as (c & E & O). exists c. by split_and!.
Qed.

(** The dispatcher does the same with and without the record. *)
Lemma same_timer : same plainly (timer Bcm2835.TheTimer fuel polls (K := K)) (timer Bcm2835.TheTimer fuel polls (K := kernel H (soc C T U))).
Proof using.
  assert (Hcall : forall f, same plainly (call_timer (K := K) f) (call_timer (K := kernel H (soc C T U)) f)).
  { intros f. apply same_noting. }
  assert (Hx : forall A (o : option A), same plainly (expect_some (S := K) o) (expect_some o)).
  { intros A []; [apply same_ret|apply same_panic]. }
  unfold timer. apply same_bind.
  { unfold get_channel. apply same_bind; [|intros; apply same_ret]. intros [s tr] y E. unfold plainly in E. cbn in E. subst y. by eexists. }
  intros o. apply same_bind; [apply Hx|]. intros channel. apply same_bind; [apply same_lookup|]. intros oti.
  apply same_bind; [apply Hx|]. intros sys_timer.
  apply same_bind; [apply same_locked, same_bind; [apply Hcall|intros; apply Hcall]|]. intros _.
  apply same_bind; [apply same_lookup|]. intros oua. apply same_bind; [apply Hx|]. intros console.
  apply same_bind; [apply same_locked, same_noting|]. intros _. apply same_locked, Hcall.
Qed.

Lemma same_dispatch irq : same (logging traced_logger plain_logger)
  (dispatch Bcm2835.TheTimer fuel polls level_text boot_console IRQ_HANDLERS irq)
  (dispatch Bcm2835.TheTimer fuel polls level_text boot_console IRQ_HANDLERS irq).
Proof using.
  assert (Hintc : forall h A (f : st C A), same (logging traced_logger plain_logger)
    (with_intc (T := T) (U := U) fuel h f) (with_intc (K := kernel H (soc C T U)) fuel h f)).
  { intros h A f. apply same_on_kernel, same_locked, same_noting. }
  assert (Hflag : forall b, same (logging traced_logger plain_logger)
    (on_kernel (K := K) (k_dev (set_flag (C := C) (T := T) (U := U) b))) (on_kernel (K := kernel H (soc C T U)) (k_dev (set_flag b)))).
  { intros b. apply same_on_kernel, same_noting. }
  unfold dispatch. apply same_bind; [apply same_on_kernel, same_lookup|]. intros o.
  apply same_bind; [destruct o; [apply same_ret|apply same_panic]|]. intros irqctl.
  apply same_bind; [apply Hintc|]. intros _. apply same_bind; [apply Hflag|]. intros _.
  apply same_bind.
  { intros x y Hr. unfold lift. destruct (index IRQ_HANDLERS irq); [by eexists|done..]. }
  intros h. apply same_bind.
  { destruct h as [[]|]; [apply same_on_kernel, same_timer|apply same_on_kernel, same_ret|apply same_log]. }
  intros _. apply same_bind; [apply Hflag|]. intros _. apply same_bind; [apply Hintc|]. intros _. apply same_ret.
Qed.

(** C8: The actions that [Nest] gives to [dispatch] are what its code does, in
    that order.  From any set of locks that are taken, [dispatch] spins for
    ever when its actions take a lock of the set.  Otherwise it returns, and
    run on the state that keeps a record it returns with the same kernel and a
    record in which each action is there in its place: each lock taken and
    dropped, the call of the timer or of the console that changes that device
    alone, the line of the interrupt, and no other, masked and later unmasked
    in the controller, and interrupts enabled and disabled; with the timer's
    handler, the empty one, or none. *)
Theorem dispatch_follows_code irq s : 0 <= irq < 80 -> (Z.to_nat irq < length IRQ_HANDLERS)%nat -> manager s = Some dm ->
  let actions := dispatch_actions ua ic action_table irq in
  let run := dispatch Bcm2835.TheTimer fuel polls level_text boot_console IRQ_HANDLERS irq in
  match locks_after (taken s) actions with
  | Some t => exists d' events,
      dispatch Bcm2835.TheTimer fuel polls level_text boot_console IRQ_HANDLERS irq (plain_logger, s) =
        Ret (tt, (plain_logger, mkKernel t (Some dm) d')) /\
      run (traced_logger, (s, [])) = Ret (tt, (traced_logger, (mkKernel t (Some dm) d', events))) /\
      Forall2 (shows effect) actions events
  | None => dispatch Bcm2835.TheTimer fuel polls level_text boot_console IRQ_HANDLERS irq (plain_logger, s) = OutOfFuel
  end.
Proof using All.
  intros Hi Hlen Hm actions run. pose proof (dispatch_follows irq Hi Hlen (traced_logger, (s, [])) eq_refl Hm) as Hf.
  pose proof (same_dispatch irq (traced_logger, (s, [])) (plain_logger, s) (conj eq_refl (conj eq_refl eq_refl))) as Hs.
  fold run actions in Hf, Hs. cbn [snd fst] in Hf.
  destruct (dispatch _ _ _ _ _ _ irq (plain_logger, s)) as [[[] [lp s']]| |];
    [destruct Hs as ([lt [s1 ev]] & E & E1 & E2 & E3); unfold plainly in E3; cbn in E1, E2, E3; subst lt lp s1|..];
    destruct (locks_after _ _) as [t|].
  - destruct Hf as ([] & [l1 [[tk m d] tr]] & E' & _ & _ & Ht & Hd & (events & Ee & F)). rewrite E in E'.
    injection E' as <- -> ->. cbn in Ht, Hd, Ee. subst tk m events. by exists d, tr.
  - by rewrite E in Hf.
  - destruct Hf as ([] & ? & E & _). by rewrite Hs in E.
  - by rewrite Hs in Hf.
  - destruct Hf as ([] & ? & E & _). by rewrite Hs in E.
  - done.
Qed.
End Actions.

(** ** Witnesses *)

#[local] Instance debug_profile : Profile := Build_Profile true.

(** A controller with line 1 enabled, the system timer at 5000, a PL011, and
    the timer's handler on line 1; the objects are numbers. *)
#[local] Instance demo_port : SerialPort UartSim Pl011.PL011Error := Pl011.port 0x20201000.
#[local] Instance demo_laws : SerialLaws UartSim Pl011.PL011Error demo_port :=
  pl011_laws (D := UartSim) 0x20201000 ltac:(by vm_compute) ltac:(lia).

Definition demo_soc : soc IntcSim Timer.Sim UartSim :=
  mkSoc (Irq.mkSim 2 0 0 2 0 0) (Timer.mkSim 5000 (fun _ => 0) (fun _ => true)) (mkUart [] 0) true.
Definition demo_dm : DeviceManager nat :=
  mkManager [("console"%string, mkDevice Devices.Serial 1%nat); ("intc"%string, mkDevice Devices.InterruptController 3%nat);
    ("timer"%string, mkDevice Devices.Timer 2%nat)] (Some 1).
Definition demo_table : list (option IrqHandler) := [None; Some TimerFn] ++ replicate 126 None.
Definition demo_kernel (tk : list (lock_id nat)) : kernel nat (soc IntcSim Timer.Sim UartSim) := mkKernel tk (Some demo_dm) demo_soc.
Definition demo_logger : KernelLogger (kernel nat (soc IntcSim Timer.Sim UartSim)) :=
  mkLogger (Runtime [serial_log_sink (H := nat) (port_write 3) 1]) 3.

Lemma demo_devices : tick_devices demo_dm 3%nat 2%nat 1%nat 1.
Proof. by split; vm_compute. Qed.

Lemma demo_free : locks_free 3%nat 2%nat 1%nat (demo_kernel []).
Proof. split_and!; apply not_elem_of_nil. Qed.

Lemma demo_writes line (u : UartSim) : exists r u', dyn_write 3 line u = Ret (r, u').
Proof.
  unfold dyn_write, st_map_err. assert (Hw : exists r u', write_each (sp_write_byte 3) line u = Ret (r, u')).
  { revert u. induction line as [|b line IH]; intros u; [by eexists _, _|]. cbn [write_each].
    assert (Hb : exists u1, sp_write_byte 3 b u = Ret (Ok tt, u1)) by (destruct u as [o [|[|[|w]]]]; by eexists).
    destruct Hb as (u1 & E). destruct (IH u1) as (r & u' & E'). exists r, u'. by erewrite try_step by exact E. }
  destruct Hw as ([[]|e] & u' & E); unfold write; [rewrite (try_step _ _ _ _ _ E)|rewrite (try_err _ _ _ _ _ E)]; by eexists _, _.
Qed.

Lemma timer_tick_witness : exists d' t,
  dispatch Bcm2835.TheTimer 1 3 (fun _ => []) (fun _ => mret tt) demo_table 1 (demo_logger, demo_kernel []) =
    Ret (tt, (demo_logger, mkKernel [] (Some demo_dm) d')) /\
  out_ (uart d') = tick_message /\ compares (clock d') Bcm2835.Channel1 = (t + 1000000) mod 2 ^ 32.
Proof.
  destruct (timer_tick (H := nat) demo_port 1 ltac:(lia) (fun _ => []) (fun _ => mret tt) demo_table demo_dm 3%nat 2%nat 1%nat 1 1
    demo_logger (demo_kernel []) eq_refl demo_devices demo_free ltac:(lia) eq_refl) as (d' & t & E & S1 & _ & C1 & _).
  exists d', t. split; [exact E|]. split; [exact S1|exact C1].
Defined.

(** A second passes between two interrupts. *)
Definition a_second (d : soc IntcSim Timer.Sim UartSim) : soc IntcSim Timer.Sim UartSim :=
  mkSoc (intc d) (Timer.mkSim (ticks (clock d) + 1000000) (compares (clock d)) (fun _ => true)) (uart d) true.

Lemma demo_line : Forall (fits 8) (concat (line_pieces (fun _ => []) (mkRecord 3 (text "kernel::irq::dispatch") (unhandled_line 1)))).
Proof. apply (bool_decide_unpack _). by vm_compute. Qed.


(** While the manager is locked, the dispatcher spins; with the locks free, its
    record begins with the manager's lock and has an entry per action. *)
Lemma dispatch_follows_code_witness :
  dispatch Bcm2835.TheTimer 1 3 (fun _ => []) (fun _ => mret tt) demo_table 1 (demo_logger, demo_kernel [ManagerLock]) = OutOfFuel /\
  exists d' events,
    dispatch Bcm2835.TheTimer 1 3 (fun _ => []) (fun _ => mret tt) demo_table 1 (demo_logger, demo_kernel []) =
      Ret (tt, (demo_logger, mkKernel [] (Some demo_dm) d')) /\
    head events = Some (Acquired (H := nat) (D := soc IntcSim Timer.Sim UartSim) ManagerLock) /\ length events = 24%nat.
Proof.
  split.
  - exact (dispatch_follows_code (H := nat) demo_port 1 3 ltac:(lia) demo_writes (fun _ => []) (fun _ => mret tt) demo_table
      demo_dm 3%nat 2%nat 1%nat 1 demo_devices 1 (demo_kernel [ManagerLock]) ltac:(lia) ltac:(cbn; lia) eq_refl).
  - destruct (dispatch_follows_code (H := nat) demo_port 1 3 ltac:(lia) demo_writes (fun _ => []) (fun _ => mret tt) demo_table
      demo_dm 3%nat 2%nat 1%nat 1 demo_devices 1 (demo_kernel []) ltac:(lia) ltac:(cbn; lia) eq_refl) as (d' & events & E & _ & F).
    exists d', events. split; [exact E|]. split; [|symmetry; exact (Forall2_length _ _ _ F)].
    destruct (Forall2_cons_inv_l _ (Acquire ManagerLock) _ _ F) as (e & es & He & _ & ->). clear E F.
    destruct e; [by rewrite He|destruct He..].
Defined.

Lemma unregistered_timer_witness : exists d',
  dispatch Bcm2835.TheTimer 1 3 (fun _ => []) (fun _ => mret tt) no_handlers 1 (demo_logger, demo_kernel []) =
    Ret (tt, (demo_logger, mkKernel [] (Some demo_dm) d')) /\ clock d' = clock demo_soc.
Proof.
  destruct (unregistered_timer (H := nat) demo_port 1 ltac:(lia) (fun _ => []) (fun _ => mret tt) no_handlers demo_dm 3%nat 2%nat 1%nat 1 1 3
    (demo_kernel []) eq_refl demo_devices demo_free (not_elem_of_nil _) ltac:(lia) eq_refl ltac:(vm_compute; congruence)) as (d' & E & Ec & _).
  - apply (bool_decide_unpack _). by vm_compute.
  - exists d'. split; [exact E|exact Ec].
Defined.
