(* ===== verification/Init.v ===== *)
(** * Kernel initialisation (kernel/src/kcore/init.rs)

    [kernel_init] from the boot loader's words to the last line of the boot
    log: discovery ([Boot]), the logger and its sinks ([Logger], [Locks]), the
    memory set-up ([KInit]) and the registration of devices ([Platform]), over
    the state they share, with what is logged and where it goes.  The numbers
    of a line are formatted here as [core::fmt] does; the text of a level, the
    console of the boot phase and the ports behind the handles of the devices
    are arguments. *)
From stdpp Require Import pretty.
From S2P Require Import Prelude Memory Utf8 BTree Devices Buddy Heap Pages BlockDev Emmc Platform Serial Fb KInit.
From S2P Require Import Boot Logger Locks Main.

(** ** Text of a log line *)

(** [{}] of an unsigned number, [{:08x}] and [{:#x}] of a [usize], and [{:12}]
    of a string. *)
Definition dec (z : Z) : list Z := text (pretty (Z.to_N z)).
Definition hex_digit (n : Z) : Z := if n <? 10 then 48 + n else 87 + n.
Definition hex8 (z : Z) : list Z := map (fun i => hex_digit (Z.land (Z.shiftr z (4 * i)) 15)) [7; 6; 5; 4; 3; 2; 1; 0].
Fixpoint strip_zeros (s : list Z) : list Z :=
  match s with
  | c :: (_ :: _) as s' => if c =? 48 then strip_zeros s' else s
  | _ => s
  end.
Definition hex_alt (z : Z) : list Z := text "0x" ++ strip_zeros (hex8 z).
Definition pad12 (s : list Z) : list Z := s ++ replicate (12 - length s) 32.

Definition mem_type_name (t : MemoryType) : string :=
  match t with
  | Available => "Available"
  | Reserved => "Reserved"
  | Mmio => "MMIO"
  | Kernel => "Kernel"
  | Framebuffer => "Framebuffer"
  end.

(** ** State *)

#[export] Instance driver_eq_dec : EqDecision driver.
Proof.
  assert (EqDecision CsdVersion) by solve_decision. assert (EqDecision CardType) by solve_decision.
  assert (EqDecision Csd) by solve_decision. assert (EqDecision Cid) by solve_decision.
  assert (EqDecision Emmc.Emmc) by solve_decision. solve_decision.
Defined.

Section Init.
Context `{Profile} {D E : Type} (port_write : driver -> list Z -> st D (result Z E)).
Context (level_text : Z -> list Z) (x86_boot_sink : list Z -> st D unit).

(** The tables of the platform, memory and its allocators, the logger with the
    locks, the device manager and the devices; and whether the [log] crate has
    its logger. *)
Record system := mkSystem {
  boot : bstate;
  kern : kstate;
  run : running driver D;
  logger_set : bool;
}.

Definition on_boot {A} (f : st bstate A) : st system A := fun s =>
  match f (boot s) with
  | Ret (a, b) => Ret (a, mkSystem b (kern s) (run s) (logger_set s))
  | Panic => Panic
  | OutOfFuel => OutOfFuel
  end.

Definition on_kern {A} (f : st kstate A) : st system A := fun s =>
  match f (kern s) with
  | Ret (a, k) => Ret (a, mkSystem (boot s) k (run s) (logger_set s))
  | Panic => Panic
  | OutOfFuel => OutOfFuel
  end.

Definition on_run {A} (f : st (running driver D) A) : st system A := fun s =>
  match f (run s) with
  | Ret (a, r) => Ret (a, mkSystem (boot s) (kern s) r (logger_set s))
  | Panic => Panic
  | OutOfFuel => OutOfFuel
  end.

(** ** Operations *)

(** [boot_console()]. *)
Definition boot_console (t : KInit.target) : list Z -> st D unit :=
  match t with TargetX86 => x86_boot_sink | TargetArm => arm_boot_sink end.

Section Target.
Context (t : KInit.target).

(** [log::info!] in [kcore::init]. *)
Definition say (fuel : nat) (args : list (list Z)) : st system unit :=
  on_run (info level_text (boot_console t) fuel (text "kernel::kcore::init") args).

(** [logger::init(LevelFilter::Info)]. *)
Definition logger_init (fuel : nat) : st system unit :=
  s ← Prelude.get;
  _ ← on_run (on_kernel (acquire fuel LoggerLock));
  _ ← on_run (Logger.init (logger_set s) 3);
  _ ← on_run (on_kernel (release LoggerLock));
  modify (fun s => mkSystem (boot s) (kern s) (run s) true).

(** The strings [Platform::init_devices] knows. *)
Definition known (c : string) : bool :=
  one_of c ["arm,pl011"; "arm,primecell"; "16550a-uart"; "ns16550a"; "brcm,bcm2835-system-timer";
    "arm,armv7-timer"; "arm,armv8-timer"; "i8254-pit"; "intel,8254";
    "brcm,bcm2835-armctrl-ic"; "brcm,bcm2836-armctrl-ic"; "arm,gic-400"; "arm,cortex-a15-gic"; "arm,gic-v3";
    "i8259-pic"; "intel,8259"; "multiboot2-fb"; "simple-framebuffer";
    "brcm,bcm2835-sdhost"; "brcm,bcm2711-emmc2"; "vga-text"]%string.

Definition unknown_device (d : DeviceInfo) : list (list Z) :=
  [text "Unknown device '"; text (Platform.name d); text "' (compatible: '"; text (compatible d); text "') at ";
   hex_alt (base_addr d); text " (size: "; hex_alt (dsize d); text ")"].

Definition set_manager (dm : DeviceManager driver) : st (running driver D) unit :=
  modify (fun '(l, k) => (l, mkKernel (taken k) (Some dm) (dev k))).

(** [Platform::init_devices] on the manager in its cell. *)
Fixpoint register_each (fuel : nat) (l : list DeviceInfo) : st (running driver D) (result unit string) :=
  match l with
  | [] => mret (Ok tt)
  | d :: l =>
      let? _ :=
        (if known (compatible d) then
           dm ← on_kernel Locks.device_manager;
           match init_device d dm with
           | Ok dm => _ ← set_manager dm; mret (Ok tt)
           | Err e => mret (Err e)
           end
         else
           _ ← log_record level_text (boot_console t) fuel (mkRecord 2 (text "drivers::platform") (unknown_device d));
           mret (Ok tt)) in
      register_each fuel l
  end.

(** [subsystems::init_devices]; the guard of the manager is a temporary of the
    call that registers the devices. *)
Definition init_devices (fuel : nat) : st system unit :=
  s ← Prelude.get;
  match manager (run s).2 with
  | Some _ => panic
  | None =>
      _ ← on_run (set_manager Devices.new);
      _ ← on_run (on_kernel (acquire fuel ManagerLock));
      r ← on_run (register_each fuel (devices_of (plat (boot s))));
      _ ← lift (expect r);
      on_run (on_kernel (release ManagerLock))
  end.

Definition log_memory_layout (fuel : nat) (l : MemoryLayout) : st system unit :=
  _ ← say fuel [text "Memory Layout:"];
  _ ← say fuel [text "  Kernel End:     0x"; hex8 (kernel_end l)];
  pt ← lift (sub usize_bits (page_table l).2 (page_table l).1);
  _ ← say fuel [text "  Page Table:     0x"; hex8 (page_table l).1; text " - 0x"; hex8 (page_table l).2;
                text " ("; dec pt; text " B)"];
  h ← lift (sub usize_bits (heap_end l) (heap_start l));
  _ ← say fuel [text "  Heap:           0x"; hex8 (heap_start l); text " - 0x"; hex8 (heap_end l);
                text " ("; dec (h / 1024); text " KB)"];
  p ← lift (sub usize_bits (page_alloc_end l) (page_alloc_start l));
  say fuel [text "  Page Allocator: 0x"; hex8 (page_alloc_start l); text " - 0x"; hex8 (page_alloc_end l);
            text " ("; dec (p / (1024 * 1024)); text " MB)"].

Definition log_system_info (fuel : nat) : st system unit :=
  s ← Prelude.get;
  let p := plat (boot s) in
  _ ← say fuel [text "System Information:"];
  _ ← say fuel [text "  Platform:     "; text (PLATFORM_NAME p)];
  _ ← say fuel [text "  Architecture: "; text (arch_name p)];
  ram ← lift (total_ram p);
  _ ← say fuel [text "  Total RAM:    "; dec (ram / (1024 * 1024)); text " MB"];
  match CMDLINE p with
  | Some cmdline => say fuel [text "  Command Line: "; text cmdline]
  | None => mret tt
  end.

Fixpoint log_regions (fuel : nat) (l : list MemoryRegion) : st system unit :=
  match l with
  | [] => mret tt
  | r :: l =>
      end_ ← lift (add usize_bits (base r) (size r));
      _ ← say fuel [text "    "; pad12 (text (mem_type_name (mem_type r))); text " : 0x"; hex8 (base r); text " - 0x";
                    hex8 end_; text " ("; dec (size r / 1024); text " KB)"];
      log_regions fuel l
  end.

Definition device_args (d : DeviceInfo) : list (list Z) :=
  [text "    "; text (Platform.name d); text " ("; text (compatible d); text ") @ 0x"; hex8 (base_addr d)] ++
  match irq d with Some irq => [text " IRQ "; dec irq] | None => [] end.

(** Lines whose arguments cannot overflow. *)
Fixpoint say_all (fuel : nat) (ls : list (list (list Z))) : st system unit :=
  match ls with
  | [] => mret tt
  | args :: ls => _ ← say fuel args; say_all fuel ls
  end.

Definition log_discovered_hardware (fuel : nat) : st system unit :=
  s ← Prelude.get;
  let p := plat (boot s) in
  _ ← say fuel [text "Discovered Hardware:"];
  _ ← say fuel [text "  Memory Regions:"];
  _ ← log_regions fuel (memory_regions p);
  _ ← say fuel [text "  Devices:"];
  say_all fuel (map device_args (devices_of p)).

(** The names are copied under the lock, which is free again when they are
    logged. *)
Definition log_available_devices (fuel : nat) : st system unit :=
  names ← on_run (on_kernel (dm ← Locks.device_manager; locked fuel ManagerLock (mret (list_names dm))));
  _ ← say fuel [text "Registered Devices:"];
  say_all fuel (map (fun n => [text "  - "; text n]) names).

(** [midr] is the main ID register of an ARM processor, [symbol] the end of the
    kernel image. *)
Definition kernel_init (fuel : nat) (midr symbol machine_type atags_addr : Z) : st system unit :=
  s ← Prelude.get;
  let m := ram (kern s) in
  r ← on_boot (Boot.init fuel t midr m (determine_boot_info t m machine_type atags_addr));
  _ ← lift (expect r);
  _ ← logger_init fuel;
  s ← Prelude.get;
  mm ← lift (memory_map (plat (boot s)));
  layout ← on_kern (setup_memory_management t mm symbol);
  _ ← init_devices fuel;
  _ ← say fuel [text "Kernel Early Initialization Complete"; [10]];
  _ ← on_run (attach_serial_sink port_write fuel);
  _ ← say fuel [text "Runtime logger attached"; [10]];
  _ ← log_memory_layout fuel layout;
  _ ← log_system_info fuel;
  _ ← log_discovered_hardware fuel;
  log_available_devices fuel.

(** The two calls of the start-up code. *)
Definition run_kernel (draw : driver -> st D unit) (fuel : nat) (midr symbol machine_type atags_addr : Z) : st system unit :=
  _ ← kernel_init fuel midr symbol machine_type atags_addr;
  s ← Prelude.get;
  on_run (Main.kernel_main level_text (boot_console t) draw (PLATFORM_NAME (plat (boot s))) fuel).
End Target.

(** The machine as it is powered on, with memory [m] and devices [d]. *)
Definition power_on (m : mem) (d : D) : system :=
  mkSystem (mkBoot fresh None) (KInit.mkKernel None None m 0) (LOGGER, mkKernel [] None d) false.

(** ** What a boot logs *)

(** The line of a record of [kcore::init], and lines going to a port. *)
Definition line_of (args : list (list Z)) : list Z :=
  take 512 (concat (line_pieces level_text (mkRecord 3 (text "kernel::kcore::init") args))).

Fixpoint deliver (port : driver) (lines : list (list Z)) : st D unit :=
  match lines with
  | [] => mret tt
  | line :: lines => _ ← port_write port line; deliver port lines
  end.
End Init.
Arguments system : clear implicits.

(** The lines of the runtime phase, as they describe the layout, the tables
    and the devices. *)
Definition layout_lines (l : MemoryLayout) : list (list (list Z)) :=
  [[text "Memory Layout:"];
   [text "  Kernel End:     0x"; hex8 (kernel_end l)];
   [text "  Page Table:     0x"; hex8 (page_table l).1; text " - 0x"; hex8 (page_table l).2; text " (";
    dec ((page_table l).2 - (page_table l).1); text " B)"];
   [text "  Heap:           0x"; hex8 (heap_start l); text " - 0x"; hex8 (heap_end l); text " (";
    dec ((heap_end l - heap_start l) / 1024); text " KB)"];
   [text "  Page Allocator: 0x"; hex8 (page_alloc_start l); text " - 0x"; hex8 (page_alloc_end l); text " (";
    dec ((page_alloc_end l - page_alloc_start l) / (1024 * 1024)); text " MB)"]].

Definition system_lines (p : platform) : list (list (list Z)) :=
  [[text "System Information:"];
   [text "  Platform:     "; text (PLATFORM_NAME p)];
   [text "  Architecture: "; text (arch_name p)];
   [text "  Total RAM:    "; dec (foldl Z.add 0 (map size (of_type Available (memory_regions p))) / (1024 * 1024)); text " MB"]] ++
  match CMDLINE p with Some c => [[text "  Command Line: "; text c]] | None => [] end.

Definition region_line (r : MemoryRegion) : list (list Z) :=
  [text "    "; pad12 (text (mem_type_name (mem_type r))); text " : 0x"; hex8 (base r); text " - 0x";
   hex8 (base r + size r); text " ("; dec (size r / 1024); text " KB)"].

Definition hardware_lines (p : platform) : list (list (list Z)) :=
  [[text "Discovered Hardware:"]; [text "  Memory Regions:"]] ++ map region_line (memory_regions p) ++
  [[text "  Devices:"]] ++ map device_args (devices_of p).

Definition boot_log (l : MemoryLayout) (p : platform) (names : list string) : list (list (list Z)) :=
  [[text "Runtime logger attached"; [10]]] ++ layout_lines l ++ system_lines p ++ hardware_lines p ++
  [[text "Registered Devices:"]] ++ map (fun n => [text "  - "; text n]) names.

(** ** Lemmas *)

Section Lemmas.
Context `{Profile} {D E : Type} (port_write : driver -> list Z -> st D (result Z E)).
Context (level_text : Z -> list Z) (x86_boot_sink : list Z -> st D unit) (t : KInit.target).
Context (fuel : nat) (Hfuel : (0 < fuel)%nat).

#[local] Notation system := (system D).
#[local] Notation say := (say level_text x86_boot_sink t fuel).
#[local] Notation line_of := (line_of level_text).
#[local] Notation deliver := (deliver port_write).

Definition with_dev (d : D) (s : system) : system :=
  mkSystem (boot s) (kern s) ((run s).1, mkKernel (taken (run s).2) (manager (run s).2) d) (logger_set s).

(** *** The boot phase *)

Lemma say_boot args s d : (run s).1 = mkLogger Logger.Boot 3 -> LoggerLock ∉ taken (run s).2 ->
  boot_console x86_boot_sink t (line_of args) (dev (run s).2) = Ret (tt, d) -> say args s = Ret (tt, with_dev d s).
Proof using Hfuel.
  intros El Ht Ec. destruct s as [b k [l [tk mg d0]] g]. cbn [run fst snd taken manager dev] in El, Ht, Ec. subst l.
  unfold Init.say, on_run, info, log_record. plain. cbn [run]. erewrite stbind_step by reflexivity. cbv beta iota.
  change (enabled _ _) with true. cbv iota.
  erewrite stbind_step by (unfold on_kernel; rewrite acquire_free by done; reflexivity).
  erewrite stbind_step.
  2: { unfold log. change (enabled _ _) with true. cbn [negb mode]. unfold mbind, st_bind, lift. rewrite format_record_ok.
       fold (line_of args). unfold on_dev, with_taken. cbn [dev]. rewrite Ec. reflexivity. }
  unfold on_kernel. pose proof (release_taken LoggerLock (mkKernel tk mg d) Ht) as Er. unfold with_taken in Er. cbn [taken manager dev] in *.
  rewrite Er. reflexivity.
Qed.

(** *** The runtime phase *)

Context (dm : DeviceManager driver) (port : driver) (Hport : serial_console dm = Some port) (b : bstate).

Record runtime (s : system) : Prop := {
  rt_boot : boot s = b;
  rt_logger : (run s).1 = mkLogger (Runtime [serial_log_sink port_write fuel]) 3;
  rt_taken : taken (run s).2 = [];
  rt_manager : manager (run s).2 = Some dm;
}.

Lemma runtime_with_dev s d : runtime s -> runtime (with_dev d s).
Proof using. intros []. by split. Qed.

(** [f] logs the lines [ls] and does nothing else. *)
Definition logs (f : st system unit) (ls : list (list (list Z))) : Prop := forall s d, runtime s ->
  deliver port (map line_of ls) (dev (run s).2) = Ret (tt, d) -> f s = Ret (tt, with_dev d s).

Lemma deliver_app a : forall c d d', deliver port (a ++ c) d = Ret (tt, d') ->
  exists d1, deliver port a d = Ret (tt, d1) /\ deliver port c d1 = Ret (tt, d').
Proof using.
  induction a as [|l a IH]; intros c d d' Ed; [by exists d|]. cbn [app Init.deliver] in *.
  apply stbind_Ret in Ed as (v & d1 & E1 & E2). destruct (IH c d1 d' E2) as (d2 & E3 & E4).
  exists d2. split; [by erewrite stbind_step by exact E1|done].
Qed.

Lemma logs_nothing : logs (mret tt) [].
Proof using. intros [b0 k [l [tk mg d0]] g] d _ Ed. cbn in Ed. injection Ed as <-. done. Qed.

Lemma logs_bind f g a c : logs f a -> logs g c -> logs (_ ← f; g) (a ++ c).
Proof using.
  intros Hf Hg s d Hs Ed. rewrite map_app in Ed. apply deliver_app in Ed as (d1 & E1 & E2).
  erewrite stbind_step by (by apply Hf). by rewrite (Hg (with_dev d1 s) d) by (by first [apply runtime_with_dev|exact E2]).
Qed.

Lemma logs_lift {A} (o : outcome A) v k ls : o = Ret v -> logs (k v) ls -> logs (x ← lift o; k x) ls.
Proof using. intros -> Hk s d Hs Ed. by rewrite <- (Hk s d Hs Ed). Qed.

Lemma logs_get k ls : (forall s, runtime s -> logs (k s) ls) -> logs (s ← Prelude.get; k s) ls.
Proof using. intros Hk s d Hs Ed. by apply (Hk s Hs). Qed.

Lemma logs_say args : logs (say args) [args].
Proof using Hfuel Hport.
  intros s d [Eb El Et Em] Ed. destruct s as [b0 k [l [tk mg d0]] g]. cbn [boot run fst snd taken manager dev map] in Eb, El, Et, Em, Ed. subst b0 l tk mg.
  unfold Init.deliver in Ed. apply stbind_Ret in Ed as (v & d1 & E1 & [= <-]).
  unfold Init.say, on_run, info. cbn [run].
  pose proof (runtime_log_delivery port_write level_text (boot_console x86_boot_sink t) fuel fuel
    (mkRecord 3 (text "kernel::kcore::init") args) (mkKernel [] (Some dm) d0) dm 3 Hfuel Hfuel eq_refl) as Hl.
  rewrite Hport in Hl. rewrite (Hl ltac:(done) ltac:(set_solver) ltac:(set_solver) v d1); [done|set_solver|exact E1].
Qed.

Lemma logs_cons args f ls : logs f ls -> logs (_ ← say args; f) (args :: ls).
Proof using Hfuel Hport. intros Hf. apply (logs_bind _ _ [args]); [apply logs_say|done]. Qed.

Lemma logs_say_all ls : logs (say_all level_text x86_boot_sink t fuel ls) ls.
Proof using Hfuel Hport. induction ls as [|args ls IH]; [apply logs_nothing|]. by apply logs_cons. Qed.

Lemma logs_log_memory_layout l : 0 <= (page_table l).1 <= (page_table l).2 -> (page_table l).2 < 2 ^ 32 ->
  0 <= heap_start l <= heap_end l -> heap_end l < 2 ^ 32 -> 0 <= page_alloc_start l <= page_alloc_end l ->
  page_alloc_end l < 2 ^ 32 ->
  logs (log_memory_layout level_text x86_boot_sink t fuel l) (layout_lines l).
Proof using Hfuel Hport.
  intros H1 H2 H3 H4 H5 H6. unfold log_memory_layout, layout_lines. do 2 apply logs_cons.
  eapply logs_lift; [apply sub_ok; unfold fits, usize_bits; lia|]. apply logs_cons.
  eapply logs_lift; [apply sub_ok; unfold fits, usize_bits; lia|]. apply logs_cons.
  eapply logs_lift; [apply sub_ok; unfold fits, usize_bits; lia|]. apply logs_say.
Qed.

Lemma logs_log_system_info : total_ram (plat b) = Ret (foldl Z.add 0 (map size (of_type Available (memory_regions (plat b))))) ->
  logs (log_system_info level_text x86_boot_sink t fuel) (system_lines (plat b)).
Proof using Hfuel Hport.
  intros Hr. unfold log_system_info. apply logs_get. intros s Hs. rewrite (rt_boot _ Hs). cbv zeta. unfold system_lines. cbn [app].
  do 3 apply logs_cons. eapply logs_lift; [exact Hr|]. apply logs_cons.
  destruct (CMDLINE (plat b)); [apply logs_say|apply logs_nothing].
Qed.

Lemma logs_log_regions l : Forall (fun r => fits usize_bits (base r + size r)) l ->
  logs (log_regions level_text x86_boot_sink t fuel l) (map region_line l).
Proof using Hfuel Hport.
  induction 1 as [|r l Hr _ IH]; [apply logs_nothing|]. cbn [log_regions map].
  eapply logs_lift; [by apply add_ok|]. by apply logs_cons.
Qed.

Lemma logs_log_discovered_hardware : Forall (fun r => fits usize_bits (base r + size r)) (memory_regions (plat b)) ->
  logs (log_discovered_hardware level_text x86_boot_sink t fuel) (hardware_lines (plat b)).
Proof using Hfuel Hport.
  intros Hr. unfold log_discovered_hardware. apply logs_get. intros s Hs. rewrite (rt_boot _ Hs). cbv zeta.
  unfold hardware_lines. cbn [app]. do 2 apply logs_cons. apply logs_bind; [by apply logs_log_regions|].
  apply logs_cons, logs_say_all.
Qed.

Lemma logs_log_available_devices :
  logs (log_available_devices level_text x86_boot_sink t fuel)
    ([[text "Registered Devices:"]] ++ map (fun n => [text "  - "; text n]) (list_names dm)).
Proof using Hfuel Hport.
  unfold log_available_devices. intros s d Hs Ed. pose proof Hs as [Eb El Et Em].
  erewrite stbind_step; [exact (logs_cons _ _ _ (logs_say_all _) s d Hs Ed)|].
  unfold on_run, on_kernel, Locks.device_manager. destruct s as [b0 k [l [tk mg d0]] g].
  cbn [run fst snd taken manager dev boot] in *. subst l tk mg. erewrite stbind_step by reflexivity.
  rewrite (locked_ok fuel ManagerLock _ _ (list_names dm) (Some dm) d0); [done|done|set_solver|done].
Qed.

(** The runtime part of [kernel_init]. *)
Lemma logs_boot_log l : 0 <= (page_table l).1 <= (page_table l).2 -> (page_table l).2 < 2 ^ 32 ->
  0 <= heap_start l <= heap_end l -> heap_end l < 2 ^ 32 -> 0 <= page_alloc_start l <= page_alloc_end l ->
  page_alloc_end l < 2 ^ 32 ->
  total_ram (plat b) = Ret (foldl Z.add 0 (map size (of_type Available (memory_regions (plat b))))) ->
  Forall (fun r => fits usize_bits (base r + size r)) (memory_regions (plat b)) ->
  logs (_ ← say [text "Runtime logger attached"; [10]];
        _ ← log_memory_layout level_text x86_boot_sink t fuel l;
        _ ← log_system_info level_text x86_boot_sink t fuel;
        _ ← log_discovered_hardware level_text x86_boot_sink t fuel;
        log_available_devices level_text x86_boot_sink t fuel)
    (boot_log l (plat b) (list_names dm)).
Proof using Hfuel Hport.
  intros. unfold boot_log. cbn [app]. apply logs_cons. apply logs_bind; [by apply logs_log_memory_layout|].
  apply logs_bind; [by apply logs_log_system_info|]. apply logs_bind; [by apply logs_log_discovered_hardware|].
  apply logs_log_available_devices.
Qed.
End Lemmas.

(** *** Stages of [kernel_init] *)

Section Stages.
Context `{Profile} {D E : Type} (port_write : driver -> list Z -> st D (result Z E)).
Context (level_text : Z -> list Z) (x86_boot_sink : list Z -> st D unit) (t : KInit.target).
Context (fuel : nat).

#[local] Notation system := (system D).
#[local] Notation say := (say level_text x86_boot_sink t fuel).
#[local] Notation kernel_init := (kernel_init port_write level_text x86_boot_sink t fuel).

(** What follows the first line of the runtime phase. *)
Definition rest_of_log (layout : MemoryLayout) : st system unit :=
  _ ← say [text "Runtime logger attached"; [10]];
  _ ← log_memory_layout level_text x86_boot_sink t fuel layout;
  _ ← log_system_info level_text x86_boot_sink t fuel;
  _ ← log_discovered_hardware level_text x86_boot_sink t fuel;
  log_available_devices level_text x86_boot_sink t fuel.

Definition after_discovery (symbol : Z) (b : bstate) : st system unit :=
  mm ← lift (memory_map (plat b));
  layout ← on_kern (setup_memory_management t mm symbol);
  _ ← init_devices level_text x86_boot_sink t fuel;
  _ ← say [text "Kernel Early Initialization Complete"; [10]];
  _ ← on_run (attach_serial_sink port_write fuel);
  rest_of_log layout.

(** After discovery: the logger is in its boot phase and no lock is taken. *)
Lemma kernel_init_booted midr symbol mt atags m d b : (0 < fuel)%nat ->
  Boot.init fuel t midr m (determine_boot_info t m mt atags) (mkBoot fresh None) = Ret (Ok tt, b) ->
  kernel_init midr symbol mt atags (power_on m d) =
  after_discovery symbol b (mkSystem b (KInit.mkKernel None None m 0) (mkLogger Logger.Boot 3, mkKernel [] None d) true).
Proof using.
  intros Hf Ei. unfold Init.kernel_init. erewrite stbind_step by reflexivity. cbv beta zeta. cbn [power_on kern ram].
  erewrite stbind_step by (unfold on_boot; cbn [power_on boot kern run logger_set]; rewrite Ei; reflexivity).
  erewrite stbind_step by reflexivity. erewrite stbind_step.
  2: { unfold logger_init. erewrite stbind_step by reflexivity. cbv beta. cbn [logger_set power_on run].
       erewrite stbind_step.
       2: { unfold on_run, on_kernel. cbn [run]. rewrite acquire_free by (done || set_solver). reflexivity. }
       erewrite stbind_step by reflexivity. erewrite stbind_step by reflexivity. reflexivity. }
  erewrite stbind_step by reflexivity. reflexivity.
Qed.

Lemma init_each_known l : forall lg tk d dm dm', Forall (fun d => known (compatible d) = true) l -> init_each l dm = Ok dm' ->
  register_each level_text x86_boot_sink t fuel l (lg, mkKernel tk (Some dm) d) = Ret (Ok tt, (lg, mkKernel tk (Some dm') d)).
Proof using.
  induction l as [|i l IH]; intros lg tk d dm dm' Hk E1; cbn [init_each register_each] in *.
  { by injection E1 as <-. }
  apply Forall_cons in Hk as [Hk Hl]. destruct (init_device i dm) as [dm1|e] eqn:Ed; [|done].
  erewrite try_step; [by apply IH|]. rewrite Hk. erewrite stbind_step by reflexivity. cbv beta. by rewrite Ed.
Qed.

Lemma init_devices_ok b k lg d g dm : (0 < fuel)%nat -> Forall (fun d => known (compatible d) = true) (devices_of (plat b)) ->
  Platform.init_devices (plat b) Devices.new = Ok dm ->
  init_devices level_text x86_boot_sink t fuel (mkSystem b k (lg, mkKernel [] None d) g) =
    Ret (tt, mkSystem b k (lg, mkKernel [] (Some dm) d) g).
Proof using.
  intros Hf Hk Ed. unfold init_devices. erewrite stbind_step by reflexivity. cbv beta. cbn [run snd manager boot].
  erewrite stbind_step by reflexivity. erewrite stbind_step.
  2: { unfold on_run, on_kernel. cbn [run]. rewrite acquire_free by (done || set_solver). reflexivity. }
  erewrite stbind_step.
  2: { unfold on_run, with_taken. cbn [run taken manager dev]. rewrite (init_each_known _ _ _ _ _ dm) by done. reflexivity. }
  by erewrite stbind_step by reflexivity.
Qed.

(** [kernel_init] comes to its end with what it logged on the port. *)
Lemma kernel_init_ok midr symbol mt atags m b mm dm port : (0 < fuel)%nat ->
  Boot.init fuel t midr m (determine_boot_info t m mt atags) (mkBoot fresh None) = Ret (Ok tt, b) ->
  memory_map (plat b) = Ret mm -> boot_ok t mm (get_kernel_end_address t symbol) ->
  Forall (fun d => known (compatible d) = true) (devices_of (plat b)) ->
  Platform.init_devices (plat b) Devices.new = Ok dm -> serial_console dm = Some port ->
  total_ram (plat b) = Ret (foldl Z.add 0 (map size (of_type Available (memory_regions (plat b))))) ->
  Forall (fun r => fits usize_bits (base r + size r)) (memory_regions (plat b)) ->
  exists l hb pb m' fl, kernel_end l = get_kernel_end_address t symbol /\ kernel_end l <= (page_table l).1 /\
    (page_table l).2 = heap_start l /\ heap_start l <= heap_end l <= page_alloc_start l /\
    page_alloc_start l < page_alloc_end l <= ram_start mm + ram_size mm /\
    heap_ok (heap_start l) (region_end HEAP_LOG (heap_end l)) ((Some hb, m'), ∅) /\ pages_ok (Some pb, m') fl /\
    forall d0 d1 d2,
      boot_console x86_boot_sink t (line_of level_text [text "Kernel Early Initialization Complete"; [10]]) d0 = Ret (tt, d1) ->
      deliver port_write port (map (line_of level_text) (boot_log l (plat b) (list_names dm))) d1 = Ret (tt, d2) ->
      kernel_init midr symbol mt atags (power_on m d0) = Ret (tt,
        mkSystem b (KInit.mkKernel (Some hb) (Some pb) m' (page_table l).1)
          (mkLogger (Runtime [serial_log_sink port_write fuel]) 3, mkKernel [] (Some dm) d2) true).
Proof using.
  intros Hf Ei Em Hok Hk Hdm Hport Hram Hfit.
  destruct (setup_layout_ok t mm symbol m Hok)
    as (l & hb & pb & m' & fl & Es & Hke & Hkt & _ & Hts & Hth & Hh & Hp & Hpe & _ & _ & Hheap & Hpages & _).
  pose proof (bo_kernel _ _ _ Hok) as Hk0. pose proof (bo_limit _ _ _ Hok) as Hlim.
  assert (Hsz : table_size t <= 16384 /\ 0 < table_size t) by (destruct t; cbn; lia).
  exists l, hb, pb, m', fl. split_and!; try done; try lia. intros d0 d1 d2 Ec Ed.
  rewrite (kernel_init_booted _ _ _ _ _ _ b Hf Ei). unfold after_discovery.
  erewrite stbind_step by (rewrite Em; reflexivity).
  erewrite stbind_step by (unfold on_kern; cbn [kern boot run logger_set]; rewrite Es; reflexivity).
  erewrite stbind_step by (by apply init_devices_ok).
  erewrite stbind_step by (by apply say_boot; [done|done|set_solver|exact Ec]).
  unfold with_dev. cbn [boot kern run fst snd taken manager logger_set].
  erewrite stbind_step.
  2: { unfold on_run, attach_serial_sink. plain. cbn [run]. erewrite stbind_step.
       2: { unfold on_kernel. rewrite acquire_free by (done || set_solver). reflexivity. }
       erewrite stbind_step by reflexivity. reflexivity. }
  refine (eq_trans (logs_boot_log port_write level_text x86_boot_sink t fuel Hf dm port Hport b l _ _ _ _ _ _ _ _ _ d2 _ _) _);
    [lia..|done|done|by split|exact Ed|reflexivity].
Qed.
End Stages.

(** *** No boot gets past the listing of devices *)

Section Phases.
Context `{Profile} {D E : Type} (port_write : driver -> list Z -> st D (result Z E)).
Context (level_text : Z -> list Z) (x86_boot_sink : list Z -> st D unit) (t : KInit.target).
Context (fuel : nat).

#[local] Notation system := (system D).
#[local] Notation say := (say level_text x86_boot_sink t fuel).
#[local] Notation serial_logger := (mkLogger (Runtime [serial_log_sink port_write fuel]) 3).
#[local] Notation logger := (KernelLogger (kernel driver D)).

(** The logger, with a manager in its cell. *)
Definition phase (lg : logger) (r : running driver D) : Prop := r.1 = lg /\ is_Some (manager r.2).

Definition kept {S A} (P : S -> Prop) (f : st S A) : Prop := forall s a s', f s = Ret (a, s') -> P s -> P s'.

Lemma kept_bind {S A B} (P : S -> Prop) (f : st S A) (g : A -> st S B) :
  kept P f -> (forall a, kept P (g a)) -> kept P (x ← f; g x).
Proof using. intros Hf Hg s a s' (x & s1 & E1 & E2)%stbind_Ret Hs. eapply Hg; [exact E2|]. by eapply Hf. Qed.

Lemma kept_ret {S A} (P : S -> Prop) (a : A) : kept P (mret a).
Proof using. by intros s b s' [= _ <-]. Qed.

Lemma kept_get {S} (P : S -> Prop) : kept P (Prelude.get (S := S)).
Proof using. by intros s b s' [= _ <-]. Qed.

Lemma kept_lift {S A} (P : S -> Prop) (o : outcome A) : kept P (lift o).
Proof using. intros s b s' [_ ->]%lift_Ret. done. Qed.

Lemma kept_run {A} lg (f : st (running driver D) A) : kept (phase lg) f -> kept (fun s => phase lg (run s)) (on_run f).
Proof using.
  intros Hf s a s'. unfold on_run. destruct (f (run s)) as [[b r]| |] eqn:Ef; [|done..]. intros [= -> <-] Hs. by eapply Hf.
Qed.

Lemma kept_on_kernel {A} lg (f : st (kernel driver D) A) : (forall s a s', f s = Ret (a, s') -> manager s' = manager s) ->
  kept (phase lg) (on_kernel f).
Proof using.
  intros Hf [l k] a s'. unfold on_kernel. destruct (f k) as [[b k']| |] eqn:Ef; [|done..]. intros [= -> <-] [Hl Hm].
  split; [done|]. cbn in *. by rewrite (Hf _ _ _ Ef).
Qed.

Lemma acquire_manager l s a s' : acquire fuel l s = Ret (a, s') -> manager (D := D) (H := driver) s' = manager s.
Proof using. destruct (acquire_inv fuel l s _ eq_refl) as [Ea|[_ Ea]]; rewrite Ea; [done|]. by intros [= _ <-]. Qed.

Lemma kept_log lg r : lg = mkLogger Logger.Boot 3 \/ lg = serial_logger ->
  kept (phase lg) (log_record level_text (boot_console x86_boot_sink t) fuel r).
Proof using.
  intros [->| ->] [l k] [] [l' k'] E1 [Hl Hm]; cbn [fst snd] in *; subst l.
  - revert E1. unfold log_record. plain. unfold mbind at 1, st_bind at 1, Prelude.get. cbv beta iota.
    destruct (enabled _ (rlevel r)) eqn:En; [|by intros [= <- <-]]. intros E1.
    apply stbind_Ret in E1 as ([] & [l1 k1] & E1 & E2). apply stbind_Ret in E2 as ([] & [l2 k2] & E2 & E3).
    unfold on_kernel in E1, E3. destruct (acquire fuel LoggerLock k) as [[[] k3]| |] eqn:Ea; [|done..]. injection E1 as <- <-.
    apply acquire_manager in Ea. cbn in E3. injection E3 as <- <-. unfold log in E2. rewrite En in E2. cbn [negb mode] in E2.
    unfold lift, mbind, st_bind in E2. rewrite format_record_ok in E2. unfold on_dev in E2.
    destruct (boot_console _ _ _ _) as [[[] d]| |] in E2; [|done..]. injection E2 as <- <-.
    split; [done|]. cbn. by rewrite Ea.
  - destruct (log_keeps_manager port_write _ _ _ _ _ _ _ _ _ E1) as [-> Hm']. split; [done|]. cbn. by rewrite Hm'.
Qed.

Lemma kept_say lg args : lg = mkLogger Logger.Boot 3 \/ lg = serial_logger -> kept (fun s => phase lg (run s)) (say args).
Proof using. intros Hl. apply kept_run. by apply kept_log. Qed.

Lemma kept_rest_of_log layout : kept (fun s => phase serial_logger (run s)) (rest_of_log level_text x86_boot_sink t fuel layout).
Proof using.
  assert (Hsay : forall args, kept (fun s => phase serial_logger (run s)) (say args)) by (intros; apply kept_say; by right).
  assert (Hall : forall ls, kept (fun s => phase serial_logger (run s)) (say_all level_text x86_boot_sink t fuel ls)).
  { induction ls as [|args ls IH]; [apply kept_ret|]. apply kept_bind; [apply Hsay|done]. }
  unfold rest_of_log, log_memory_layout, log_system_info, log_discovered_hardware, log_available_devices.
  repeat first [apply Hsay | apply Hall | apply kept_get | apply kept_lift | apply kept_ret | apply kept_bind; [|intros ?]].
  - destruct (CMDLINE _); [apply Hsay|apply kept_ret].
  - induction (memory_regions _) as [|r l IH]; [apply kept_ret|]. cbn [log_regions].
    repeat first [apply Hsay | apply kept_lift | apply IH | apply kept_bind; [|intros ?]].
  - apply kept_run, kept_on_kernel. intros s x s' E1. unfold Locks.device_manager in E1.
    apply stbind_Ret in E1 as (dm & s1 & E1 & E2). apply stbind_Ret in E1 as (s0 & s2 & [= <- <-] & E1).
    assert (s1 = s) as -> by (destruct (manager s); [by injection E1 as _ <-|done]).
    unfold locked in E2. apply stbind_Ret in E2 as ([] & s3 & Ea%acquire_manager & E2).
    apply stbind_Ret in E2 as (b & s4 & [= _ <-] & E2). apply stbind_Ret in E2 as ([] & s5 & [= <-] & [= _ <-]). exact Ea.
Qed.

Lemma device_manager_keeps s dm s' : Locks.device_manager (H := driver) (D := D) s = Ret (dm, s') -> s' = s.
Proof using.
  unfold Locks.device_manager. intros (s0 & s1 & [= <- <-] & E1)%stbind_Ret.
  by destruct (manager s); [injection E1 as _ <-|].
Qed.

Lemma kept_register lg l : lg = mkLogger Logger.Boot 3 \/ lg = serial_logger ->
  kept (phase lg) (register_each level_text x86_boot_sink t fuel l).
Proof using.
  intros Hl. induction l as [|i l IH]; [apply kept_ret|]. cbn [register_each].
  intros s a s' E1 Hs. unfold try_bind in E1. apply stbind_Ret in E1 as (r & s1 & E1 & E2).
  assert (Hs1 : phase lg s1).
  { destruct (known (compatible i)).
    - apply stbind_Ret in E1 as (dm & s2 & E0 & E1). assert (Hs2 : phase lg s2).
      { eapply kept_on_kernel; [|exact E0|exact Hs]. by intros ? ? ? ->%device_manager_keeps. }
      destruct (init_device i dm); [|by injection E1 as _ <-].
      apply stbind_Ret in E1 as ([] & s3 & E3 & [= _ <-]). destruct s2 as [l2 k2]. injection E3 as <-. by split; [apply Hs2|eexists].
    - apply stbind_Ret in E1 as ([] & s2 & E0 & [= _ <-]). by eapply kept_log. }
  destruct r; [by eapply IH|by injection E2 as _ <-].
Qed.

Lemma init_devices_phase s a s' : init_devices level_text x86_boot_sink t fuel s = Ret (a, s') ->
  (run s).1 = mkLogger Logger.Boot 3 -> phase (mkLogger Logger.Boot 3) (run s').
Proof using port_write.
  unfold init_devices. intros (s0 & s1 & [= <- <-] & E1)%stbind_Ret Hl. destruct (manager (run s).2) as [?|] eqn:Em; [done|].
  apply stbind_Ret in E1 as ([] & s2 & E2 & E1).
  assert (Hs2 : phase (mkLogger Logger.Boot 3) (run s2)).
  { unfold on_run in E2. destruct (run s) as [l k]. cbn in E2, Hl. injection E2 as <-. by split; [|eexists]. }
  apply stbind_Ret in E1 as ([] & s3 & E3 & E1).
  assert (Hs3 : phase (mkLogger Logger.Boot 3) (run s3)).
  { eapply (kept_run _ (on_kernel _)); [|exact E3|exact Hs2]. apply kept_on_kernel. apply acquire_manager. }
  apply stbind_Ret in E1 as (r & s4 & E4 & E1).
  assert (Hs4 : phase (mkLogger Logger.Boot 3) (run s4)).
  { eapply (kept_run _ (register_each _ _ _ _ _)); [|exact E4|exact Hs3]. apply kept_register. by left. }
  apply stbind_Ret in E1 as ([] & s5 & [_ ->]%lift_Ret & E1).
  eapply (kept_run _ (on_kernel _)); [|exact E1|exact Hs4]. apply kept_on_kernel. by intros ? ? ? [= _ <-].
Qed.

Lemma logger_init_phase (s : system) a (s' : system) : logger_init fuel s = Ret (a, s') -> (run s').1 = mkLogger Logger.Boot 3.
Proof using.
  unfold logger_init. intros (s0 & s1 & [= <- <-] & E1)%stbind_Ret. apply stbind_Ret in E1 as ([] & s2 & _ & E1).
  apply stbind_Ret in E1 as ([] & s3 & E3 & E1). apply stbind_Ret in E1 as ([] & s4 & E4 & E1). injection E1 as _ <-. cbn [run].
  assert (H3 : (run s3).1 = mkLogger Logger.Boot 3).
  { unfold on_run in E3. destruct (Logger.init _ _ (run s2)) as [[[] r]| |] eqn:Ei; [|done..]. injection E3 as <-. cbn [run].
    unfold Logger.init in Ei. apply stbind_Ret in Ei as ([] & r1 & E0 & Ei). destruct (run s2) as [l2 k2]. injection E0 as <-.
    destruct (logger_set s); [done|by injection Ei as <-]. }
  unfold on_run, on_kernel in E4. destruct (run s3) as [l3 k3]. cbn in E4. injection E4 as <-. exact H3.
Qed.

(** Whatever it starts from, a [kernel_init] that returns leaves the logger
    with the serial sink. *)
Lemma kernel_init_phase midr symbol mt atags s a s' :
  kernel_init port_write level_text x86_boot_sink t fuel midr symbol mt atags s = Ret (a, s') -> phase serial_logger (run s').
Proof using.
  unfold kernel_init. intros (s0 & s1 & [= <- <-] & E1)%stbind_Ret. apply stbind_Ret in E1 as (r & s2 & _ & E1).
  apply stbind_Ret in E1 as (r' & s3 & _ & E1). apply stbind_Ret in E1 as ([] & s4 & El%logger_init_phase & E1).
  apply stbind_Ret in E1 as (s5 & s6 & [= <- <-] & E1). apply stbind_Ret in E1 as (mm & s7 & [_ ->]%lift_Ret & E1).
  apply stbind_Ret in E1 as (layout & s8 & E8 & E1).
  assert (H8 : run s8 = run s4).
  { unfold on_kern in E8. destruct (setup_memory_management _ _ _ _) as [[? ?]| |] in E8; [|done..]. by injection E8 as _ <-. }
  apply stbind_Ret in E1 as ([] & s9 & E9 & E1). apply init_devices_phase in E9; [|by rewrite H8].
  apply stbind_Ret in E1 as ([] & s10 & E10 & E1). pose proof (kept_say _ _ (or_introl eq_refl) _ _ _ E10 E9) as H10. clear E10.
  apply stbind_Ret in E1 as ([] & s11 & E11 & E1). apply (kept_rest_of_log layout _ _ _ E1).
  unfold on_run, attach_serial_sink in E11. cbn [k_acquire k_release kernel_ops] in E11. destruct (run s10) as [l k] eqn:E0. destruct H10 as [Hl Hm]. rewrite E0 in Hl, Hm. cbn in Hl, Hm.
  match type of E11 with context [match ?x with _ => _ end] => destruct x as [[[] r2]| |] eqn:Ea end; [|done..]. injection E11 as <-. cbn [run].
  apply stbind_Ret in Ea as ([] & [l1 k1] & Ea & Eb). unfold on_kernel in Ea.
  destruct (acquire fuel LoggerLock k) as [[[] k2]| |] eqn:Eq; [|done..]. injection Ea as <- <-.
  apply acquire_manager in Eq. cbn in Eb. injection Eb as <-. subst l. split; [done|]. cbn. by rewrite Eq.
Qed.
End Phases.

(** *** Regions that end at 4 GiB *)

Section Overflow.
Context `{Profile} {D E : Type} (port_write : driver -> list Z -> st D (result Z E)).
Context (level_text : Z -> list Z) (x86_boot_sink : list Z -> st D unit) (t : KInit.target).
Context (fuel : nat) (b : bstate).

#[local] Notation keeps := (kept (fun s : system D => boot s = b)).

Lemma kept_boot_run {A} (f : st (running driver D) A) : keeps (on_run f).
Proof using. intros s a s'. unfold on_run. destruct (f (run s)) as [[? ?]| |]; [|done..]. by intros [= _ <-]. Qed.

Lemma kept_boot_kern {A} (f : st kstate A) : keeps (on_kern f).
Proof using. intros s a s'. unfold on_kern. destruct (f (kern s)) as [[? ?]| |]; [|done..]. by intros [= _ <-]. Qed.

Lemma kept_boot_layout l : keeps (log_memory_layout level_text x86_boot_sink t fuel l).
Proof using. unfold log_memory_layout, say. repeat first [apply kept_boot_run | apply kept_lift | apply kept_bind; [|intros ?]]. Qed.

Lemma kept_boot_system : keeps (log_system_info level_text x86_boot_sink t fuel).
Proof using.
  unfold log_system_info, say. repeat first [apply kept_boot_run | apply kept_get | apply kept_lift | apply kept_bind; [|intros ?]].
  destruct (CMDLINE _); [apply kept_boot_run|apply kept_ret].
Qed.

Lemma kept_boot_devices : keeps (init_devices level_text x86_boot_sink t fuel).
Proof using.
  unfold init_devices. apply kept_bind; [apply kept_get|]. intros s. destruct (manager _); [by intros ? ? ?|].
  repeat first [apply kept_boot_run | apply kept_lift | apply kept_bind; [|intros ?]].
Qed.

(** Logging computes the end of every region. *)
Lemma log_regions_Ret l : debug_assertions = true -> forall s a s',
  log_regions level_text x86_boot_sink t fuel l s = Ret (a, s') -> Forall (fun r => base r + size r < 2 ^ 32) l.
Proof using.
  intros Hd. induction l as [|r l IH]; intros s a s' E1; [constructor|]. cbn [log_regions] in E1.
  apply stbind_Ret in E1 as (e & s1 & [Ee _]%lift_Ret & E1). apply stbind_Ret in E1 as (u & s2 & _ & E1).
  constructor; [|by eapply IH]. unfold add, arith in Ee. destruct (_ && _) eqn:Eb; [|by rewrite Hd in Ee].
  apply andb_true_iff in Eb as [_ Eb%Z.ltb_lt]. exact Eb.
Qed.

Lemma after_discovery_regions symbol s a s' : debug_assertions = true -> boot s = b ->
  after_discovery port_write level_text x86_boot_sink t fuel symbol b s = Ret (a, s') ->
  Forall (fun r => base r + size r < 2 ^ 32) (memory_regions (plat b)).
Proof using.
  intros Hd Hb E1. unfold after_discovery, rest_of_log, say in E1.
  apply stbind_Ret in E1 as (mm & s1 & [_ ->]%lift_Ret & E1). apply stbind_Ret in E1 as (lay & s2 & E2%kept_boot_kern & E1).
  apply stbind_Ret in E1 as (u3 & s3 & E3%kept_boot_devices & E1). apply stbind_Ret in E1 as (u4 & s4 & E4%kept_boot_run & E1).
  apply stbind_Ret in E1 as (u5 & s5 & E5%kept_boot_run & E1). apply stbind_Ret in E1 as (u6 & s6 & E6%kept_boot_run & E1).
  apply stbind_Ret in E1 as (u7 & s7 & E7%kept_boot_layout & E1). apply stbind_Ret in E1 as (u8 & s8 & E8%kept_boot_system & E1).
  apply stbind_Ret in E1 as (u9 & s9 & E9 & _). unfold log_discovered_hardware, say in E9.
  apply stbind_Ret in E9 as (s0 & s10 & [= <- <-] & E9). apply stbind_Ret in E9 as (u11 & s11 & _ & E9).
  apply stbind_Ret in E9 as (u12 & s12 & _ & E9). apply stbind_Ret in E9 as (u13 & s13 & E13 & _).
  rewrite <- (E8 (E7 (E6 (E5 (E4 (E3 (E2 Hb))))))). by eapply log_regions_Ret.
Qed.
End Overflow.

(** ** Theorems *)

Section Claims.
Context `{Profile} {D E : Type} (port_write : driver -> list Z -> st D (result Z E)).
Context (level_text : Z -> list Z) (x86_boot_sink : list Z -> st D unit).

#[local] Notation kernel_init := (kernel_init port_write level_text x86_boot_sink).
#[local] Notation run_kernel := (run_kernel port_write level_text x86_boot_sink).

(** A PC that no boot loader describes boots: whatever memory holds and
    wherever the kernel ends, [kernel_init] returns with both allocators
    initialised inside the 127 MiB from 1 MiB on, the serial port at 0x3f8
    registered as the console, though not under the name console, and every
    lock free.  It leaves its first line on the boot console and sends the
    whole boot log, which says what the layout, the tables and the devices
    are, to the serial port. *)
Theorem x86_raw_boot fuel midr symbol mt atags m : (0 < fuel)%nat -> mt <> MB2_MAGIC -> exists l hb pb m' fl b dm,
  kernel_end l = get_kernel_end_address TargetX86 symbol /\ kernel_end l <= (page_table l).1 /\
  (page_table l).2 = heap_start l /\ heap_start l <= heap_end l <= page_alloc_start l /\
  page_alloc_start l < page_alloc_end l <= 0x8000000 /\
  heap_ok (heap_start l) (region_end HEAP_LOG (heap_end l)) ((Some hb, m'), ∅) /\ pages_ok (Some pb, m') fl /\
  serial_console dm = Some (DUart16550 0x3f8) /\ Devices.get dm "console" = None /\
  PLATFORM_NAME (plat b) = "Generic PC (x86)"%string /\ list_names dm = ["serial0"%string] /\
  forall d0 d1 d2, x86_boot_sink (line_of level_text [text "Kernel Early Initialization Complete"; [10]]) d0 = Ret (tt, d1) ->
    deliver port_write (DUart16550 0x3f8) (map (line_of level_text) (boot_log l (plat b) ["serial0"%string])) d1 = Ret (tt, d2) ->
    kernel_init TargetX86 fuel midr symbol mt atags (power_on m d0) = Ret (tt,
      mkSystem b (KInit.mkKernel (Some hb) (Some pb) m' (page_table l).1)
        (mkLogger (Runtime [serial_log_sink port_write fuel]) 3, mkKernel [] (Some dm) d2) true).
Proof.
  intros Hf Hmt. destruct (init_raw_x86 fuel midr m) as (b & Ei & B).
  assert (Hdet : determine_boot_info TargetX86 m mt atags = Raw) by (unfold determine_boot_info; by rewrite (proj2 (Z.eqb_neq _ _))).
  pose proof (bt_regions _ _ _ _ B) as Hr. pose proof (bt_devices _ _ _ _ B) as Hd. cbn [take pc_regions pc_devices] in Hr, Hd.
  pose proof (pc_memory_map (plat b) Hr) as Em.
  destruct (Platform.init_devices (plat b) Devices.new) as [dm|e] eqn:Edm.
  2: { unfold Platform.init_devices in Edm. by rewrite Hd in Edm. }
  assert (Hc : serial_console dm = Some (DUart16550 0x3f8) /\ Devices.get dm "console" = None /\ list_names dm = ["serial0"%string]).
  { unfold Platform.init_devices in Edm. rewrite Hd in Edm. injection Edm as <-. by split_and!. }
  destruct Hc as (Hc1 & Hc2 & Hc3).
  destruct (kernel_init_ok port_write level_text x86_boot_sink TargetX86 fuel midr symbol mt atags m b pc_map dm (DUart16550 0x3f8) Hf)
    as (l & hb & pb & m' & fl & L1 & L2 & L3 & L4 & L5 & L6 & L7 & L8).
  - by rewrite Hdet.
  - exact Em.
  - apply pc_boot_ok.
  - rewrite Hd. by repeat constructor.
  - exact Edm.
  - exact Hc1.
  - unfold total_ram. by rewrite Hr.
  - rewrite Hr. unfold fits, usize_bits. repeat constructor; cbn; lia.
  - exists l, hb, pb, m', fl, b, dm. cbn [pc_map ram_start ram_size] in L5. rewrite Hc3 in L8.
    split_and!; [exact L1|exact L2|exact L3|lia|lia|lia|lia|exact L6|exact L7|exact Hc1|exact Hc2| |exact Hc3|exact L8].
    rewrite (bt_name _ _ _ _ B). unfold determine_platform_name, has_compat. by rewrite Hd.
Qed.

(** C9: No boot ends in the idle loop: on either processor, whatever memory,
    boot loader and devices are, and whatever state it starts from, the kernel
    that goes through [kernel_init] and enters [kernel_main] never comes to
    the end of its set-up, because listing the devices logs while the manager
    is locked and the serial sink locks the manager. *)
Theorem kernel_never_idles t fuel draw midr symbol mt atags s r :
  run_kernel t draw fuel midr symbol mt atags s <> Ret r.
Proof.
  destruct r as [[] s']. intros (u & s1 & E1%kernel_init_phase & E2)%stbind_Ret.
  apply stbind_Ret in E2 as (s2 & s3 & [= <- <-] & E2). destruct E1 as [Hl [dm Hm]].
  unfold on_run in E2. destruct (run s1) as [l k]. cbn [fst snd] in Hl, Hm. subst l.
  destruct (kernel_main _ _ _ _ _ _) as [[[] r]| |] eqn:Ek in E2; [|done..].
  exact (kernel_main_stuck port_write _ _ _ _ _ _ _ dm 3 Hm ltac:(done) _ Ek).
Qed.

(** C40: on ARM the kernel never starts: the probe compares twelve bits of the
    main ID register with constants that do not fit in twelve bits, and the
    device-tree parser is not compiled in, so whatever the processor and
    memory, [kernel_init] panics. *)
Theorem arm_boot_panics fuel midr symbol mt atags m d : 0 <= midr ->
  kernel_init TargetArm fuel midr symbol mt atags (power_on m d) = Panic.
Proof.
  intros Hm. destruct (init_arm_fails fuel midr m (determine_boot_info TargetArm m mt atags) Hm) as (s & Ei).
  { intros a b. unfold determine_boot_info. destruct (negb _); [|done]. by destruct (_ =? _). }
  unfold Init.kernel_init. erewrite stbind_step by reflexivity. cbv beta zeta. cbn [power_on kern ram].
  by erewrite stbind_step by (unfold on_boot; cbn [power_on boot kern run logger_set]; rewrite Ei; reflexivity).
Qed.

(** Regions that ordinary firmware reports stop the boot: ACPI memory (type
    3, which the parser takes for MMIO) above the kernel makes [kernel_init]
    panic, and a region that ends at 4 GiB, such as the BIOS, keeps it from
    ever returning when overflow checks are on. *)
Theorem multiboot_boot_stops info l fuel midr symbol m d : info_at m info l -> load32 m info < Z.of_nat fuel ->
  (length (regions_of l) <= 62)%nat ->
  ((exists r, r ∈ of_type Mmio (regions_of l) /\ 0x6400000 < base r + size r < 2 ^ 32) ->
   kernel_init TargetX86 fuel midr symbol MB2_MAGIC info (power_on m d) = Panic) /\
  (debug_assertions = true -> (exists r, r ∈ regions_of l /\ 2 ^ 32 <= base r + size r) ->
   forall r, kernel_init TargetX86 fuel midr symbol MB2_MAGIC info (power_on m d) <> Ret r).
Proof.
  intros Hi Hf Hn. destruct (init_multiboot info l fuel TargetX86 midr m Hi Hf) as (s & E1 & B & _).
  assert (H0 : (0 < fuel)%nat) by (destruct Hi as (_ & ? & _); lia).
  assert (Hr : memory_regions (plat s) = regions_of l ++ pc_regions).
  { rewrite (bt_regions _ _ _ _ B). apply take_ge. rewrite length_app. cbn. lia. }
  assert (Ei : Boot.init fuel TargetX86 midr m (determine_boot_info TargetX86 m MB2_MAGIC info) (mkBoot fresh None) = Ret (Ok tt, s)) by done.
  split.
  - intros (r & Hin & He). rewrite (kernel_init_booted _ _ _ _ _ _ _ _ _ _ _ s H0 Ei). unfold after_discovery, mbind at 1, st_bind at 1.
    pose proof (memory_map_fuel (plat s)). destruct (memory_map (plat s)) as [mm| |] eqn:Em; [|done|done]. cbn [lift].
    assert (Hisa : mkRegion 0xa0000 0x60000 Mmio ∈ of_type Mmio (memory_regions (plat s))).
    { rewrite Hr, of_type_app. apply elem_of_app. right. by left. }
    destruct (memory_map_window (plat s) mm _ r Em Hisa) as [Hb Hw].
    { rewrite Hr, of_type_app. apply elem_of_app. by left. }
    { unfold fits, usize_bits. lia. }
    { cbn. lia. }
    unfold mbind at 1, st_bind at 1, on_kern. cbn [kern]. rewrite setup_in_window; [done|cbn in Hb; lia| |lia].
    apply (memory_map_base _ _ Em). rewrite Hr. apply regions_of_nonneg.
  - intros Hd (r & Hin & He) [a s'] E'. rewrite (kernel_init_booted _ _ _ _ _ _ _ _ _ _ _ s H0 Ei) in E'.
    apply after_discovery_regions in E' as Hall; [|done|done]. rewrite Hr in Hall.
    apply Forall_app in Hall as [Hall _]. eapply Forall_forall in Hall; [|exact Hin]. lia.
Qed.
End Claims.

(** ** Witnesses *)

#[local] Instance debug_profile : Profile := Build_Profile true.

(** Devices that keep every line they are given. *)
Definition keep_line (line : list Z) : st (list (list Z)) unit := modify (fun d => d ++ [line]).
Definition keep_write (h : driver) (line : list Z) : st (list (list Z)) (result Z SerialError) :=
  _ ← keep_line line; mret (Ok (Z.of_nat (length line))).
Definition plain_level (level : Z) : list Z := text (if level =? 3 then "INFO " else "WARN ").

Lemma deliver_kept port ls : forall d, deliver keep_write port ls d = Ret (tt, d ++ ls).
Proof.
  induction ls as [|l ls IH]; intros d; [by rewrite app_nil_r|]. cbn [deliver].
  erewrite stbind_step by reflexivity. rewrite IH. by rewrite <- app_assoc.
Qed.

Lemma x86_raw_boot_witness : exists l p s,
  kernel_init keep_write plain_level keep_line TargetX86 1 0 0x234567 0 0 (power_on (fun _ => 0) []) = Ret (tt, s) /\
  kernel_end l = 0x234567 /\
  dev (run s).2 = line_of plain_level [text "Kernel Early Initialization Complete"; [10]] ::
    map (line_of plain_level) (boot_log l p ["serial0"%string]).
Proof.
  destruct (x86_raw_boot keep_write plain_level keep_line 1 0 0x234567 0 0 (fun _ => 0))
    as (l & hb & pb & m' & fl & b & dm & L1 & _ & _ & _ & _ & _ & _ & _ & _ & _ & _ & L2); [lia|by vm_compute|].
  eexists l, (plat b), _. split; [apply (L2 [] [line_of plain_level [text "Kernel Early Initialization Complete"; [10]]]);
    [reflexivity|apply deliver_kept]|]. split; [exact L1|reflexivity].
Defined.

Lemma multiboot_boot_stops_witness :
  kernel_init keep_write plain_level keep_line TargetX86 121 0 0x200000 MB2_MAGIC 0x9000 (power_on demo_mem []) = Panic.
Proof.
  destruct (multiboot_boot_stops keep_write plain_level keep_line 0x9000 demo_tags 121 0 0x200000 demo_mem [] demo_info_at) as [Hs _];
    [by vm_compute|cbn; lia|].
  apply Hs. exists (mkRegion 0x7fe0000 0x20000 Mmio). split; [by left|cbn; lia].
Defined.

Lemma arm_boot_panics_witness :
  kernel_init keep_write plain_level keep_line TargetArm 0 0x410fb767 0x8000 3138 0x100 (power_on (fun _ => 0) []) = Panic.
Proof. apply (arm_boot_panics keep_write plain_level keep_line 0 0x410fb767). lia. Defined.
