(* ===== verification/Start.v ===== *)
(** * Start-up code

    The first instructions of the kernel: kernel/src/arch/arm/boot/boot.S and
    kernel/src/arch/x86/boot/boot.S, instruction by instruction on the registers
    they use, up to the calls of [kernel_init] and [kernel_main], and the
    exception vectors of kernel/src/arch/arm/exception/vectors.S.  What the
    linker scripts place is an argument.  The theorems say which memory the
    first Rust function finds, which is what [power_on] of [Boot] stands for. *)
From S2P Require Import Prelude Memory Utf8 Buddy Heap Pages Devices Platform Fb KInit Boot Logger Locks Main Init Cpu ArmEntry.

(** ** ARM *)

(** The symbols of linker-arm.ld. *)
Record arm_link := mkArmLink {
  _data_load : Z; _data_start : Z; _data_end : Z;
  _bss_start : Z; _bss_end : Z;
  _irq_stack_top : Z; _svc_stack_top : Z; _kernel_stack_top : Z;
  _vectors : Z;
}.

(** The processor of [ArmEntry] with what only start-up code sets. *)
Record boot_cpu := mkBootCpu { core : arm; sp_svc : Z; VBAR : Z }.

Definition with_core (f : arm -> arm) : st boot_cpu unit :=
  modify (fun c => mkBootCpu (f (core c)) (sp_svc c) (VBAR c)).
Definition reg (n : nat) : st boot_cpu Z := gets (fun c => gpr (core c) !!! n).
Definition set_reg (n : nat) (v : Z) : st boot_cpu unit :=
  with_core (fun c => mkArm (<[n := v]> (gpr c)) (sp_sys c) (lr_sys c) (sp_irq c) (lr_irq c) (spsr_irq c) (pc c) (psr c) (ram c)).
Definition set_psr (f : Z -> Z) : st boot_cpu unit :=
  with_core (fun c => mkArm (gpr c) (sp_sys c) (lr_sys c) (sp_irq c) (lr_irq c) (spsr_irq c) (pc c) (f (psr c)) (ram c)).
Definition set_ram (f : mem -> mem) : st boot_cpu unit :=
  with_core (fun c => mkArm (gpr c) (sp_sys c) (lr_sys c) (sp_irq c) (lr_irq c) (spsr_irq c) (pc c) (psr c) (f (ram c))).

(** Instructions.  [cps] is ignored in user mode; the ARM1176 of the board has
    no hypervisor mode, and works in every other one. *)
Definition mov (d s : nat) : st boot_cpu unit := v ← reg s; set_reg d v.
Definition ldr (d b : nat) : st boot_cpu unit :=
  a ← reg b;
  m ← gets (fun c => ram (core c));
  _ ← set_reg d (load32 m a);
  set_reg b (wrap 32 (a + 4)).
Definition str (s b : nat) : st boot_cpu unit :=
  a ← reg b;
  v ← reg s;
  _ ← set_ram (fun m => store32 m a v);
  set_reg b (wrap 32 (a + 4)).
Definition MODE_SVC : Z := 0x13.
Definition MODE_SYS : Z := 0x1f.
Definition cpsid_if : st boot_cpu unit :=
  set_psr (fun p => if mode_of p =? 0x10 then p else Z.lor p 0xc0).
Definition cps (mode : Z) : st boot_cpu unit :=
  set_psr (fun p => if mode_of p =? 0x10 then p else Z.lor (Z.land p (lnot 32 0x1f)) mode).

(** The stack pointer of the current mode; the code sets no other bank. *)
Definition ldr_sp (v : Z) : st boot_cpu unit := modify (fun c =>
  let k := core c in
  let mode := mode_of (psr k) in
  if mode =? MODE_IRQ then
    mkBootCpu (mkArm (gpr k) (sp_sys k) (lr_sys k) v (lr_irq k) (spsr_irq k) (pc k) (psr k) (ram k)) (sp_svc c) (VBAR c)
  else if mode =? MODE_SVC then mkBootCpu k v (VBAR c)
  else if (mode =? MODE_SYS) || (mode =? 0x10) then
    mkBootCpu (mkArm (gpr k) v (lr_sys k) (sp_irq k) (lr_irq k) (spsr_irq k) (pc k) (psr k) (ram k)) (sp_svc c) (VBAR c)
  else c).
Definition mcr_vbar (r : nat) : st boot_cpu unit :=
  v ← reg r; modify (fun c => mkBootCpu (core c) (sp_svc c) v).

(** [lt] after [cmp ra, rb] compares signed words. *)
Definition cmp_lt (ra rb : nat) : st boot_cpu bool :=
  a ← reg ra;
  b ← reg rb;
  mret (to_signed 32 a <? to_signed 32 b).

Fixpoint copy_data (fuel : nat) : st boot_cpu unit :=
  match fuel with
  | O => out_of_fuel
  | S fuel =>
      lt ← cmp_lt 1 2;
      if (lt : bool) then _ ← ldr 3 0; _ ← str 3 1; copy_data fuel else mret tt
  end.

Fixpoint zero_bss (fuel : nat) : st boot_cpu unit :=
  match fuel with
  | O => out_of_fuel
  | S fuel =>
      lt ← cmp_lt 0 1;
      if (lt : bool) then _ ← str 2 0; zero_bss fuel else mret tt
  end.

Definition setup_stacks (l : arm_link) : st boot_cpu unit :=
  _ ← cps MODE_IRQ;
  _ ← ldr_sp (_irq_stack_top l);
  _ ← cps MODE_SVC;
  _ ← ldr_sp (_svc_stack_top l);
  _ ← cps MODE_SYS;
  ldr_sp (_kernel_stack_top l).

Definition set_vbar (l : arm_link) : st boot_cpu unit :=
  _ ← set_reg 0 (_vectors l);
  _ ← mcr_vbar 0;
  set_reg 0 0.

(** [_start] up to the branch to [kernel_init]. *)
Definition arm_setup (l : arm_link) (fuel : nat) : st boot_cpu unit :=
  _ ← cpsid_if;
  _ ← mov 4 1;
  _ ← mov 5 2;
  _ ← set_reg 0 (_data_load l);
  _ ← set_reg 1 (_data_start l);
  _ ← set_reg 2 (_data_end l);
  _ ← copy_data fuel;
  _ ← set_reg 0 (_bss_start l);
  _ ← set_reg 1 (_bss_end l);
  _ ← set_reg 2 0;
  _ ← zero_bss fuel;
  _ ← setup_stacks l;
  _ ← set_vbar l;
  _ ← mov 0 4;
  mov 1 5.

(** [_start] up to the loop at [halt]; the Rust functions are arguments that
    take r0 and r1. *)
Definition arm_start (l : arm_link) (fuel : nat) (kernel_init : Z -> Z -> st boot_cpu unit) (kernel_main : st boot_cpu unit) :
  st boot_cpu unit :=
  _ ← arm_setup l fuel;
  machine_type ← reg 0;
  atags_addr ← reg 1;
  _ ← kernel_init machine_type atags_addr;
  kernel_main.

(** The exception vectors: an entry loads the program counter or is a [nop]. *)
Inductive handler := StartHandler | UndefinedHandler | SvcHandler | PrefetchAbortHandler | DataAbortHandler | IrqHandler | FiqHandler.
Definition vectors : list (option handler) :=
  [Some StartHandler; Some UndefinedHandler; Some SvcHandler; Some PrefetchAbortHandler; Some DataAbortHandler; None;
   Some IrqHandler; Some FiqHandler].
Definition vectored (offset : Z) : option handler := head (omap id (drop (Z.to_nat (offset / 4)) vectors)).

(** ** x86 *)

(** The symbols of linker-x86.ld and of boot.S. *)
Record x86_link := mkX86Link { bss_start : Z; bss_end : Z; stack_top : Z }.

Record i386 := mkI386 {
  eax : Z; ebx : Z; ecx : Z; edx : Z; esi : Z; edi : Z; ebp : Z; esp : Z;
  flags : Z;
  mem86 : mem;
}.

Definition DF_BIT : Z := Z.shiftl 1 10.

(** [rep stosb] for a counter of [n]: the direction flag gives the direction. *)
Fixpoint rep_stosb (n : nat) (down : bool) (edi al : Z) (m : mem) : Z * mem :=
  match n with
  | O => (edi, m)
  | S n => rep_stosb n down (wrap 32 (if down then edi - 1 else edi + 1)) al (store8 m edi al)
  end.

Definition push (v : Z) (c : i386) : i386 :=
  let sp := wrap 32 (esp c - 4) in
  mkI386 (eax c) (ebx c) (ecx c) (edx c) (esi c) (edi c) (ebp c) sp (flags c) (store32 (mem86 c) sp v).

Definition cli86 (c : i386) : i386 :=
  mkI386 (eax c) (ebx c) (ecx c) (edx c) (esi c) (edi c) (ebp c) (esp c) (Z.land (flags c) (lnot 32 IF_BIT)) (mem86 c).

(** [cli] to [push %esi]. *)
Definition x86_zero (l : x86_link) (c : i386) : i386 :=
  let c := cli86 c in
  let n := wrap 32 (bss_end l - bss_start l) in
  let '(edi, m) := rep_stosb (Z.to_nat n) (negb (Z.land (flags c) DF_BIT =? 0)) (bss_start l) 0 (mem86 c) in
  mkI386 0 (ebx c) 0 (ebx c) (eax c) edi (stack_top l) (stack_top l) (flags c) m.
Definition x86_setup (l : x86_link) (c : i386) : i386 :=
  let c := x86_zero l c in
  push (esi c) (push (edx c) c).

(** [call]: the return address and the jump. *)
Definition call (return_address : Z) (f : i386 -> option i386) (c : i386) : option i386 := f (push return_address c).

(** [_start] up to the loop at [halt]; [after_init] and [after_main] are the
    addresses of the instructions after the calls. *)
Definition x86_start (l : x86_link) (after_init after_main : Z) (kernel_init kernel_main : i386 -> option i386) (c : i386) : option i386 :=
  c ← call after_init kernel_init (x86_setup l c);
  c ← call after_main kernel_main c;
  Some (cli86 (mkI386 (eax c) (ebx c) (ecx c) (edx c) (esi c) (edi c) (ebp c) (wrap 32 (esp c + 8)) (flags c) (mem86 c))).

(** The arguments of a C function at its entry. *)
Definition argument (n : Z) (c : i386) : Z := load32 (mem86 c) (esp c + 4 + 4 * n).

(** ** Lemmas: x86 *)

Lemma rep_stosb_up n : forall edi al m, 0 <= edi -> edi + Z.of_nat n < 2 ^ 32 ->
  (rep_stosb n false edi al m).1 = edi + Z.of_nat n /\
  forall x, (rep_stosb n false edi al m).2 x = write_bytes m edi al (Z.of_nat n) x.
Proof.
  induction n as [|n IH]; intros edi al m H0 Hn; cbn [rep_stosb].
  - split; [cbn; lia|]. intros x. cbn [snd]. unfold write_bytes. destruct (Z.leb_spec edi x), (Z.ltb_spec x (edi + Z.of_nat 0)); (done || lia).
  - replace (wrap 32 (edi + 1)) with (edi + 1) by (symmetry; apply Z.mod_small; lia).
    destruct (IH (edi + 1) al (store8 m edi al)) as [E1 E2]; [lia..|]. split; [rewrite E1; lia|].
    intros x. rewrite E2. unfold write_bytes, store8.
    destruct (Z.leb_spec (edi + 1) x), (Z.leb_spec edi x), (Z.ltb_spec x (edi + 1 + Z.of_nat n)),
      (Z.ltb_spec x (edi + Z.of_nat (S n))), (Z.eqb_spec x edi); (done || lia).
Qed.

Lemma rep_stosb_down n : forall edi al m, Z.of_nat n <= edi < 2 ^ 32 ->
  forall x, (rep_stosb n true edi al m).2 x = write_bytes m (edi + 1 - Z.of_nat n) al (Z.of_nat n) x.
Proof.
  induction n as [|n IH]; intros edi al m Hn x; cbn [rep_stosb].
  - cbn [snd]. unfold write_bytes. destruct (Z.leb_spec (edi + 1 - Z.of_nat 0) x), (Z.ltb_spec x (edi + 1 - Z.of_nat 0 + Z.of_nat 0)); (done || lia).
  - replace (wrap 32 (edi - 1)) with (edi - 1) by (symmetry; apply Z.mod_small; lia).
    rewrite IH by lia. unfold write_bytes, store8.
    destruct (Z.leb_spec (edi - 1 + 1 - Z.of_nat n) x), (Z.leb_spec (edi + 1 - Z.of_nat (S n)) x),
      (Z.ltb_spec x (edi - 1 + 1 - Z.of_nat n + Z.of_nat n)),
      (Z.ltb_spec x (edi + 1 - Z.of_nat (S n) + Z.of_nat (S n))), (Z.eqb_spec x edi); (done || lia).
Qed.

(** What linker-x86.ld and the stack of boot.S give. *)
Record x86_link_ok (l : x86_link) : Prop := {
  xl_start : 0 <= bss_start l;
  xl_stack : bss_start l + 16384 <= stack_top l <= bss_end l;
  xl_end : bss_end l < 2 ^ 32;
}.

Lemma cli86_flags c : 0 <= flags c -> Z.testbit (flags (cli86 c)) 9 = false /\ Z.land (flags (cli86 c)) DF_BIT = Z.land (flags c) DF_BIT.
Proof.
  intros Hf. cbn [flags cli86]. split; [by rewrite Z.land_spec, andb_false_r|].
  by rewrite <- Z.land_assoc.
Qed.

Section Setup86.
Context (l : x86_link) (Hl : x86_link_ok l) (c : i386).

Lemma bss_count : Z.of_nat (Z.to_nat (wrap 32 (bss_end l - bss_start l))) = bss_end l - bss_start l.
Proof using Hl. destruct Hl. unfold wrap. rewrite Z.mod_small by lia. lia. Qed.

(** Clearing upwards: .bss and nothing else. *)
Lemma x86_zero_up : 0 <= flags c -> Z.land (flags c) DF_BIT = 0 -> forall x, mem86 (x86_zero l c) x =
  write_bytes (mem86 c) (bss_start l) 0 (bss_end l - bss_start l) x.
Proof using Hl.
  intros Hf Hd x. unfold x86_zero. destruct (cli86_flags c Hf) as [_ E]. rewrite E, Hd. cbn [Z.eqb negb].
  pose proof bss_count as Hn. destruct Hl.
  destruct (rep_stosb_up (Z.to_nat (wrap 32 (bss_end l - bss_start l))) (bss_start l) 0 (mem86 (cli86 c))) as [_ E2]; [lia..|].
  rewrite Hn in E2. specialize (E2 x). by destruct (rep_stosb _ _ _ _ _).
Qed.

(** Clearing downwards. *)
Lemma x86_zero_down : 0 <= flags c -> Z.land (flags c) DF_BIT <> 0 -> bss_end l <= 2 * bss_start l ->
  forall x, mem86 (x86_zero l c) x =
    write_bytes (mem86 c) (2 * bss_start l + 1 - bss_end l) 0 (bss_end l - bss_start l) x.
Proof using Hl.
  intros Hf Hd Hb x. unfold x86_zero. destruct (cli86_flags c Hf) as [_ E]. rewrite E, (proj2 (Z.eqb_neq _ _) Hd). cbn [negb].
  pose proof bss_count as Hn. destruct Hl.
  pose proof (rep_stosb_down (Z.to_nat (wrap 32 (bss_end l - bss_start l))) (bss_start l) 0 (mem86 (cli86 c)) ltac:(lia) x) as E2.
  rewrite Hn in E2. replace (bss_start l + 1 - (bss_end l - bss_start l)) with (2 * bss_start l + 1 - bss_end l) in E2 by lia.
  by destruct (rep_stosb _ _ _ _ _).
Qed.

Lemma x86_zero_regs : let z := x86_zero l c in
  esi z = eax c /\ edx z = ebx c /\ esp z = stack_top l /\ ebp z = stack_top l /\ flags z = flags (cli86 c).
Proof using. unfold x86_zero. by destruct (rep_stosb _ _ _ _ _). Qed.

(** The entry of [kernel_init]: three words on the stack. *)
Lemma x86_entry ret : fits 32 (eax c) -> fits 32 (ebx c) -> let e := push ret (x86_setup l c) in
  argument 0 e = eax c /\ argument 1 e = ebx c /\ esp e = stack_top l - 12 /\ ebp e = stack_top l /\
  flags e = flags (cli86 c) /\
  (forall x, ~ in_block (stack_top l - 12) 12 x -> mem86 e x = mem86 (x86_zero l c) x).
Proof using Hl.
  intros Ha Hb e. destruct x86_zero_regs as (E1 & E2 & E3 & E4 & E5). destruct Hl as [H1 H2 H3].
  assert (Es : esp e = stack_top l - 12).
  { unfold e, x86_setup, push. cbn [esp]. rewrite E3. unfold wrap.
    rewrite (Z.mod_small (stack_top l - 4)), (Z.mod_small (stack_top l - 4 - 4)), (Z.mod_small (stack_top l - 4 - 4 - 4)) by lia.
    lia. }
  assert (Em : mem86 e = store32 (store32 (store32 (mem86 (x86_zero l c)) (stack_top l - 4) (ebx c)) (stack_top l - 8) (eax c)) (stack_top l - 12) ret).
  { unfold e, x86_setup, push. cbn [esp mem86]. rewrite E3, E1, E2. unfold wrap.
    rewrite !(Z.mod_small (stack_top l - 4)), !(Z.mod_small (stack_top l - 4 - 4)), (Z.mod_small (stack_top l - 4 - 4 - 4)) by lia.
    f_equal; [f_equal|]; lia. }
  unfold argument. rewrite Es, Em. split_and!; try done.
  - replace (stack_top l - 12 + 4 + 4 * 0) with (stack_top l - 8) by lia.
    rewrite load32_store32_ne by lia. by apply load32_store32_eq.
  - replace (stack_top l - 12 + 4 + 4 * 1) with (stack_top l - 4) by lia.
    rewrite !load32_store32_ne by lia. by apply load32_store32_eq.
  - intros x Hx. unfold in_block in Hx. by rewrite !store32_same_outside by (unfold in_block; lia).
Qed.
End Setup86.

(** *** Boot information in changed memory *)

Section Agree.
Context (m m' : mem) (lo hi : Z) (Hsame : forall x, lo <= x < hi -> m' x = m x).

Lemma load32_agree a : lo <= a -> a + 4 <= hi -> load32 m' a = load32 m a.
Proof using Hsame. intros. unfold load32. by rewrite !Hsame by lia. Qed.

Lemma load64_agree a : lo <= a -> a + 8 <= hi -> load64 m' a = load64 m a.
Proof using Hsame. intros. unfold load64. by rewrite !load32_agree by lia. Qed.

Lemma bytes_agree a n : lo <= a -> a + Z.of_nat n <= hi -> bytes_at m' a n = bytes_at m a n.
Proof using Hsame.
  intros Ha Hn. unfold bytes_at. apply list_fmap_ext. intros i j Hi.
  apply lookup_seq in Hi as [-> Hi]. apply Hsame. lia.
Qed.

Lemma fb_tag_agree p : lo <= p -> p + 29 <= hi -> parse_mb2_fb_tag m' p = parse_mb2_fb_tag m p.
Proof using Hsame. intros. unfold parse_mb2_fb_tag. by rewrite !load32_agree, !Hsame by lia. Qed.

Lemma tag_agree a size t : tag_at m a size t -> lo <= a -> 8 <= size -> a + size + 32 <= hi -> tag_at m' a size t.
Proof using Hsame.
  intros Ht Ha H8 Hhi. destruct Ht as [s E H Hb Hf H0|es esz E E8 E12 H H16 He|tag E Ep Hp|ty E Hty].
  - apply at_cmdline; rewrite ?load32_agree, ?bytes_agree, ?Hsame by lia; done.
  - apply (at_memory_map _ _ _ _ esz); rewrite ?load32_agree by lia; try done.
    intros i b n ty Hi. pose proof (lookup_lt_Some _ _ _ Hi) as Hlt.
    assert (Hle : Z.of_nat i * esz + esz <= Z.of_nat (length es) * esz) by nia.
    assert (Hge : 0 <= Z.of_nat i * esz) by nia.
    rewrite !load64_agree, load32_agree by lia. by apply He.
  - apply at_framebuffer; rewrite ?load32_agree, ?fb_tag_agree by lia; done.
  - apply at_other; rewrite ?load32_agree by lia; done.
Qed.

Lemma tags_agree end_ a l : tags_at m end_ a l -> lo <= a -> end_ + 32 <= hi -> tags_at m' end_ a l.
Proof using Hsame.
  induction 1 as [a Hge|a Hlt Hz|a size t l Hlt Hsz H8 Hend Ht Hl IH]; intros Ha Hhi.
  - by apply tags_end.
  - destruct (up_spec 8 a ltac:(lia)) as [Hu _]. apply tags_terminator; [done|].
    rewrite load32_agree; [done|unfold align8; lia..].
  - destruct (up_spec 8 a ltac:(lia)) as [Hu _]. fold (align8 a) in Hu.
    apply (tags_cons _ _ _ size); try done; [rewrite load32_agree by lia; done|apply tag_agree; (done || lia)|].
    apply IH; lia.
Qed.
End Agree.

(** The bytes discovery reads: the structure and the fields past its end that
    a framebuffer tag is read for. *)
Definition info_block (m : mem) (info : Z) (x : Z) : Prop := in_block info (load32 m info + 32) x.

Lemma info_agree m m' info l : info_at m info l -> (forall x, info_block m info x -> m' x = m x) -> info_at m' info l.
Proof.
  intros (Hi & Ht & Hlim & Hl) Hs. unfold info_block, in_block in Hs.
  set (n := load32 m info) in *.
  assert (E : load32 m' info = n) by (apply (load32_agree m m' info (info + (n + 32)) Hs); lia).
  unfold info_at. rewrite E. split_and!; [lia..|].
  apply (tags_agree m m' info (info + (n + 32)) Hs); (done || lia).
Qed.

(** ** x86 boots *)

(** C31: from [_start], entered as the Multiboot2 protocol demands with the
    direction flag clear, [kernel_init] is called with interrupts off, the
    boot loader's two words as its arguments and the stack of boot.S, in a
    memory whose .bss is zero below the stack in use and which is otherwise as
    it was loaded; so it finds the boot information and fills the platform
    tables with what the tags say: the memory regions with addresses cut to 32
    bits followed by the standard ones of a PC, the framebuffers and standard
    devices, the last command line that is UTF-8 and the first framebuffer
    tag. *)
Theorem multiboot_start `{Profile} link c info l fuel midr ret : x86_link_ok link -> fits 32 (flags c) ->
  Z.land (flags c) DF_BIT = 0 -> eax c = MB2_MAGIC -> ebx c = info ->
  info_at (mem86 c) info l -> load32 (mem86 c) info < Z.of_nat fuel ->
  (forall x, info_block (mem86 c) info x -> ~ bss_start link <= x < bss_end link) ->
  let e := push ret (x86_setup link c) in let m := mem86 e in
  argument 0 e = MB2_MAGIC /\ argument 1 e = info /\ Z.testbit (flags e) 9 = false /\ esp e = stack_top link - 12 /\
  (forall x, bss_start link <= x < bss_end link -> ~ in_block (stack_top link - 12) 12 x -> m x = 0) /\
  same_outside (fun x => bss_start link <= x < bss_end link) (mem86 c) m /\
  exists s, Boot.init fuel TargetX86 midr m (determine_boot_info TargetX86 m (argument 0 e) (argument 1 e)) (mkBoot fresh None) = Ret (Ok tt, s) /\
    memory_regions (plat s) = take 64 (regions_of l ++ pc_regions) /\
    devices_of (plat s) = take 32 (fb_devices_of l ++ pc_devices) /\
    CMDLINE (plat s) = foldl tag_cmdline None l /\ fb_tag s = foldl tag_fb None l /\
    ARCH (plat s) = X86 /\ tables_wf (plat s).
Proof.
  intros Hok Hf Hd Ea Eb Hi Hfuel Hout e m.
  assert (Hlim : fits 32 (ebx c)) by (destruct Hi as (? & ? & ? & _); unfold fits; lia).
  destruct (x86_entry link Hok c ret) as (A0 & A1 & Es & _ & Ef & Em); [by rewrite Ea|done|].
  fold e in A0, A1, Es, Ef, Em. rewrite Ea in A0. rewrite Eb in A1. destruct (cli86_flags c) as [Eif _]; [unfold fits in Hf; lia|].
  pose proof (x86_zero_up link Hok c ltac:(unfold fits in Hf; lia) Hd) as Hz. destruct Hok as [H1 H2 H3].
  assert (Ho : same_outside (fun x => bss_start link <= x < bss_end link) (mem86 c) m).
  { intros x Hx. unfold m. rewrite Em by (unfold in_block; lia). rewrite Hz.
    apply write_bytes_same_outside. unfold in_block. lia. }
  split_and!; [done|done|by rewrite Ef|done| |done|].
  { intros x Hx Hs. unfold m. rewrite Em by done. rewrite Hz. apply write_bytes_in. unfold in_block. lia. }
  assert (Hi' : info_at m info l) by (apply (info_agree (mem86 c)); [done|]; intros x Hx; by apply Ho, Hout).
  assert (El : load32 m info = load32 (mem86 c) info).
  { destruct Hi as (_ & Ht & _). apply (load32_same_outside (fun x => bss_start link <= x < bss_end link)); [done|].
    intros x Hx. apply Hout. unfold info_block, in_block in *. lia. }
  destruct (init_multiboot info l fuel TargetX86 midr m Hi') as (s & E & B & C & F); [by rewrite El|].
  exists s. rewrite A0, A1. destruct B. by split_and!.
Qed.

(** C3: a PC that no boot loader describes boots: from [_start], wherever the
    linker ends the kernel between 1 and 100 MiB, [kernel_init] is called with
    the two words of the boot loader and returns with both allocators
    initialised inside the 127 MiB from 1 MiB on and above the image and its
    stack, the serial port at 0x3f8 registered as the console, though not under
    the name console, and every lock free.  It leaves its first line on the
    boot console and sends the whole boot log, which says what the layout, the
    tables and the devices are, to the serial port. *)
Theorem pc_start_boots `{Profile} {D E : Type} (port_write : driver -> list Z -> st D (result Z E)) level_text
    (x86_boot_sink : list Z -> st D unit) link c fuel midr ret :
  x86_link_ok link -> 0x100000 < bss_end link < 0x6400000 -> fits 32 (flags c) -> Z.land (flags c) DF_BIT = 0 ->
  fits 32 (eax c) -> fits 32 (ebx c) -> eax c <> MB2_MAGIC -> (0 < fuel)%nat ->
  let e := push ret (x86_setup link c) in exists l hb pb m' fl b dm,
  kernel_end l = bss_end link /\ esp e < bss_end link <= (page_table l).1 /\
  (page_table l).2 = heap_start l /\ heap_start l <= heap_end l <= page_alloc_start l /\
  page_alloc_start l < page_alloc_end l <= 0x8000000 /\
  heap_ok (heap_start l) (region_end HEAP_LOG (heap_end l)) ((Some hb, m'), ∅) /\ pages_ok (Some pb, m') fl /\
  serial_console dm = Some (DUart16550 0x3f8) /\ Devices.get dm "console" = None /\
  PLATFORM_NAME (plat b) = "Generic PC (x86)"%string /\ list_names dm = ["serial0"%string] /\
  forall d0 d1 d2, x86_boot_sink (line_of level_text [text "Kernel Early Initialization Complete"; [10]]) d0 = Ret (tt, d1) ->
    deliver port_write (DUart16550 0x3f8) (map (line_of level_text) (boot_log l (plat b) ["serial0"%string])) d1 = Ret (tt, d2) ->
    kernel_init port_write level_text x86_boot_sink TargetX86 fuel midr (bss_end link) (argument 0 e) (argument 1 e)
        (power_on (mem86 e) d0) = Ret (tt,
      mkSystem b (KInit.mkKernel (Some hb) (Some pb) m' (page_table l).1)
        (mkLogger (Runtime [serial_log_sink port_write fuel]) 3, Locks.mkKernel [] (Some dm) d2) true).
Proof.
  intros Hok Hend Hf Hd Ha Hb Hne Hfuel e. destruct (x86_entry link Hok c ret Ha Hb) as (A0 & A1 & Es & _). fold e in A0, A1, Es.
  destruct (x86_raw_boot port_write level_text x86_boot_sink fuel midr (bss_end link) (argument 0 e) (argument 1 e) (mem86 e) Hfuel)
    as (l & hb & pb & m' & fl & b & dm & L1 & L2 & L3 & L4 & L5 & L6 & L7 & L8 & L9 & L10 & L11 & L12); [by rewrite A0|].
  assert (Hk : get_kernel_end_address TargetX86 (bss_end link) = bss_end link).
  { unfold get_kernel_end_address. by rewrite !(proj2 (Z.ltb_lt _ _)) by lia. }
  rewrite Hk in L1. pose proof (xl_stack _ Hok). exists l, hb, pb, m', fl, b, dm.
  split_and!; [exact L1|lia|lia|exact L3|lia|lia|lia|lia|exact L6|exact L7|exact L8|exact L9|exact L10|exact L11|exact L12].
Qed.

(** A direction flag that is set, which the protocol leaves open, makes the
    start-up code clear the memory below .bss, where the code is, and leave
    .bss as it was but for its first byte. *)
Theorem x86_start_backwards link c : x86_link_ok link -> fits 32 (flags c) -> Z.land (flags c) DF_BIT <> 0 ->
  bss_end link <= 2 * bss_start link -> let m := mem86 (x86_zero link c) in
  (forall x, bss_start link < x < bss_end link -> m x = mem86 c x) /\
  (forall x, 2 * bss_start link - bss_end link < x <= bss_start link -> m x = 0).
Proof.
  intros Hok Hf Hd Hb m. pose proof (x86_zero_down link Hok c ltac:(unfold fits in Hf; lia) Hd Hb) as Hz.
  destruct Hok as [H1 H2 H3]. split; intros x Hx; unfold m; rewrite Hz.
  - apply write_bytes_same_outside. unfold in_block. lia.
  - apply write_bytes_in. unfold in_block. lia.
Qed.

(** ** Lemmas: ARM *)

Definition bytes_ok (m : mem) : Prop := forall x, fits 8 (m x).

Lemma store_load_word m a b x : bytes_ok m -> store32 m b (load32 m a) x = copy_nonoverlapping m a b 4 x.
Proof.
  intros Hm. unfold store32, load32, u32_of_le, copy_nonoverlapping.
  pose proof (Hm a) as B0. pose proof (Hm (a + 1)) as B1. pose proof (Hm (a + 2)) as B2. pose proof (Hm (a + 3)) as B3.
  unfold fits in *. change (2 ^ 8) with 256 in *.
  destruct (Z.leb_spec b x), (Z.ltb_spec x (b + 4)); cbn [andb].
  2-4: by rewrite !(proj2 (Z.eqb_neq _ _)) by lia.
  destruct (Z.eqb_spec x b) as [->|]; [rewrite Z.sub_diag, Z.add_0_r; Z.div_mod_to_equations; lia|].
  destruct (Z.eqb_spec x (b + 1)) as [->|]; [replace (a + (b + 1 - b)) with (a + 1) by lia; Z.div_mod_to_equations; lia|].
  destruct (Z.eqb_spec x (b + 2)) as [->|]; [replace (a + (b + 2 - b)) with (a + 2) by lia; Z.div_mod_to_equations; lia|].
  destruct (Z.eqb_spec x (b + 3)) as [->|]; [replace (a + (b + 3 - b)) with (a + 3) by lia; Z.div_mod_to_equations; lia|lia].
Qed.

Lemma store32_bytes_ok m a v : bytes_ok m -> bytes_ok (store32 m a v).
Proof.
  intros Hm x. unfold store32. repeat case_match; try apply Hm; unfold fits; apply Z.mod_pos_bound; lia.
Qed.

(** The processor with registers [g] and memory [m]. *)
Definition running (c : boot_cpu) (g : list Z) (m : mem) : boot_cpu :=
  let k := core c in
  mkBootCpu (mkArm g (sp_sys k) (lr_sys k) (sp_irq k) (lr_irq k) (spsr_irq k) (pc k) (psr k) m) (sp_svc c) (VBAR c).

Lemma copy_step fuel c load dst e r3 rest m : to_signed 32 dst < to_signed 32 e ->
  copy_data (S fuel) (running c (load :: dst :: e :: r3 :: rest) m) =
  copy_data fuel (running c (wrap 32 (load + 4) :: wrap 32 (dst + 4) :: e :: load32 m load :: rest) (store32 m dst (load32 m load))).
Proof.
  intros Hlt. cbn [copy_data]. unfold cmp_lt. erewrite stbind_step; [|done]. cbv beta.
  replace (_ <? _) with true by (symmetry; by apply Z.ltb_lt). reflexivity.
Qed.

Lemma copy_done fuel c load dst e r3 rest m : to_signed 32 e <= to_signed 32 dst ->
  copy_data (S fuel) (running c (load :: dst :: e :: r3 :: rest) m) = Ret (tt, running c (load :: dst :: e :: r3 :: rest) m).
Proof.
  intros Hle. cbn [copy_data]. unfold cmp_lt. erewrite stbind_step; [|done]. cbv beta.
  replace (_ <? _) with false by (symmetry; by apply Z.ltb_ge). reflexivity.
Qed.

Lemma zero_step fuel c dst e r2 rest m : to_signed 32 dst < to_signed 32 e ->
  zero_bss (S fuel) (running c (dst :: e :: r2 :: rest) m) = zero_bss fuel (running c (wrap 32 (dst + 4) :: e :: r2 :: rest) (store32 m dst r2)).
Proof.
  intros Hlt. cbn [zero_bss]. unfold cmp_lt. erewrite stbind_step; [|done]. cbv beta.
  replace (_ <? _) with true by (symmetry; by apply Z.ltb_lt). reflexivity.
Qed.

Lemma zero_done fuel c dst e r2 rest m : to_signed 32 e <= to_signed 32 dst ->
  zero_bss (S fuel) (running c (dst :: e :: r2 :: rest) m) = Ret (tt, running c (dst :: e :: r2 :: rest) m).
Proof.
  intros Hle. cbn [zero_bss]. unfold cmp_lt. erewrite stbind_step; [|done]. cbv beta.
  replace (_ <? _) with false by (symmetry; by apply Z.ltb_ge). reflexivity.
Qed.

(** [n] rounds of four bytes reach [e] from [a]. *)
Definition rounds (a e : Z) (n : nat) : Prop := e <= a + 4 * Z.of_nat n < e + 4.

Lemma copy_data_ok c e rest n : forall fuel load dst r3 m, (n < fuel)%nat -> rounds dst e n -> bytes_ok m ->
  0 <= load -> 0 <= dst -> load + 4 * Z.of_nat n < 2 ^ 31 -> dst + 4 * Z.of_nat n < 2 ^ 31 -> 0 <= e ->
  dst <= load \/ load + 4 * Z.of_nat n <= dst ->
  exists load' r3' m', copy_data fuel (running c (load :: dst :: e :: r3 :: rest) m) =
      Ret (tt, running c (load' :: dst + 4 * Z.of_nat n :: e :: r3' :: rest) m') /\
    bytes_ok m' /\ forall x, m' x = copy_nonoverlapping m load dst (4 * Z.of_nat n) x.
Proof.
  induction n as [|n IH]; intros fuel load dst r3 m Hf Hr Hm Hl0 Hd0 Hl Hd He Ho; destruct fuel as [|fuel]; try lia.
  - exists load, r3, m. unfold rounds in Hr. split; [|split; [done|]].
    + rewrite copy_done by (rewrite !to_signed_small by lia; lia). by replace (dst + 4 * Z.of_nat 0) with dst by lia.
    + intros x. unfold copy_nonoverlapping. destruct (Z.leb_spec dst x), (Z.ltb_spec x (dst + 4 * Z.of_nat 0)); (done || lia).
  - unfold rounds in Hr. rewrite copy_step by (rewrite !to_signed_small by lia; lia).
    unfold wrap. rewrite !Z.mod_small by lia.
    destruct (IH fuel (load + 4) (dst + 4) (load32 m load) (store32 m dst (load32 m load))) as (load' & r3' & m' & E & Hb & Em);
      try lia; [unfold rounds; lia|by apply store32_bytes_ok|].
    exists load', r3', m'. split; [|split; [done|]].
    + rewrite E. by replace (dst + 4 + 4 * Z.of_nat n) with (dst + 4 * Z.of_nat (S n)) by lia.
    + intros x. rewrite Em. unfold copy_nonoverlapping at 1.
      rewrite !store_load_word by done. unfold copy_nonoverlapping.
      destruct (Z.leb_spec (dst + 4) x), (Z.ltb_spec x (dst + 4 + 4 * Z.of_nat n)), (Z.leb_spec dst x), (Z.ltb_spec x (dst + 4)),
        (Z.ltb_spec x (dst + 4 * Z.of_nat (S n))), (Z.leb_spec dst (load + 4 + (x - (dst + 4)))),
        (Z.ltb_spec (load + 4 + (x - (dst + 4))) (dst + 4)); try lia; cbn [andb]; f_equal; lia.
Qed.

Lemma zero_bss_ok c e rest n : forall fuel dst m, (n < fuel)%nat -> rounds dst e n ->
  0 <= dst -> dst + 4 * Z.of_nat n < 2 ^ 31 -> 0 <= e ->
  exists m', zero_bss fuel (running c (dst :: e :: 0 :: rest) m) =
      Ret (tt, running c (dst + 4 * Z.of_nat n :: e :: 0 :: rest) m') /\
    forall x, m' x = write_bytes m dst 0 (4 * Z.of_nat n) x.
Proof.
  induction n as [|n IH]; intros fuel dst m Hf Hr Hd0 Hd He; destruct fuel as [|fuel]; try lia; unfold rounds in Hr.
  - exists m. split.
    + rewrite zero_done by (rewrite !to_signed_small by lia; lia). by replace (dst + 4 * Z.of_nat 0) with dst by lia.
    + intros x. unfold write_bytes. destruct (Z.leb_spec dst x), (Z.ltb_spec x (dst + 4 * Z.of_nat 0)); (done || lia).
  - rewrite zero_step by (rewrite !to_signed_small by lia; lia). unfold wrap. rewrite Z.mod_small by lia.
    destruct (IH fuel (dst + 4) (store32 m dst 0)) as (m' & E & Em); try lia; [unfold rounds; lia|].
    exists m'. split; [rewrite E; by replace (dst + 4 + 4 * Z.of_nat n) with (dst + 4 * Z.of_nat (S n)) by lia|].
    intros x. rewrite Em. unfold write_bytes, store32.
    destruct (Z.leb_spec (dst + 4) x), (Z.ltb_spec x (dst + 4 + 4 * Z.of_nat n)), (Z.leb_spec dst x),
      (Z.ltb_spec x (dst + 4 * Z.of_nat (S n))); try lia; cbn [andb]; try done;
      destruct (Z.eqb_spec x dst), (Z.eqb_spec x (dst + 1)), (Z.eqb_spec x (dst + 2)), (Z.eqb_spec x (dst + 3)); done || lia.
Qed.

Lemma up_rounds a e : (4 | a) -> a <= e -> rounds a e (Z.to_nat ((up 4 e - a) / 4)) /\
  4 * Z.of_nat (Z.to_nat ((up 4 e - a) / 4)) = up 4 e - a.
Proof.
  intros [q Hq] Hle. destruct (up_spec 4 e ltac:(lia)) as [Hu [p Hp]]. unfold rounds.
  assert (E : (up 4 e - a) / 4 = p - q) by (rewrite Hp, Hq, <- Z.mul_sub_distr_r; by apply Z.div_mul).
  rewrite E. lia.
Qed.

(** What linker-arm.ld gives: aligned sections in this order, below 2 GiB (the
    loops compare signed words), and a load image that does not lie across the
    start of .data. *)
Record arm_link_ok (l : arm_link) : Prop := {
  al_load : 0 <= _data_load l;
  al_data : 0 <= _data_start l <= _data_end l /\ (4 | _data_start l);
  al_bss : _data_end l <= _bss_start l <= _bss_end l /\ (4 | _bss_start l);
  al_high : up 4 (_bss_end l) < 2 ^ 31;
  al_image : _data_load l + (up 4 (_data_end l) - _data_start l) < 2 ^ 31;
  al_apart : _data_start l <= _data_load l \/ _data_load l + (up 4 (_data_end l) - _data_start l) <= _data_start l;
}.

(** The memory the loops leave: whole words are copied and cleared. *)
Definition loaded (l : arm_link) (m : mem) : mem :=
  write_bytes (copy_nonoverlapping m (_data_load l) (_data_start l) (up 4 (_data_end l) - _data_start l))
    (_bss_start l) 0 (up 4 (_bss_end l) - _bss_start l).

Lemma up_below a b : (4 | b) -> a <= b -> up 4 a <= b.
Proof.
  intros [q Hq] Hle. destruct (up_spec 4 a ltac:(lia)) as [Hu [p Hp]]. lia.
Qed.

Lemma mode_set p mode : Z.land mode 0x1f = mode -> mode_of (Z.lor (Z.land p (lnot 32 0x1f)) mode) = mode.
Proof.
  intros Hm. unfold mode_of. rewrite Z.land_lor_distr_l, <- Z.land_assoc. change (Z.land (lnot 32 0x1f) 0x1f) with 0.
  by rewrite Z.land_0_r.
Qed.

Lemma mode_set_bit p mode n : 5 <= n < 32 -> 0 <= mode < 32 ->
  Z.testbit (Z.lor (Z.land p (lnot 32 0x1f)) mode) n = Z.testbit p n.
Proof.
  intros Hn Hm. rewrite Z.lor_spec, Z.land_spec, (testbit_high mode 5 n), orb_false_r by (unfold fits; lia).
  rewrite lnot_testbit by (unfold fits; lia). rewrite (testbit_high 0x1f 5 n) by (unfold fits; lia).
  rewrite (proj2 (Z.ltb_lt n 32)) by lia. by rewrite andb_true_r.
Qed.

Lemma mode_masked p : mode_of (Z.lor p 0xc0) = mode_of p.
Proof. unfold mode_of. rewrite Z.land_lor_distr_l. change (Z.land 0xc0 0x1f) with 0. by rewrite Z.lor_0_r. Qed.

(** The status word after the mode changes. *)
Definition masked (p : Z) : Z := Z.lor p 0xc0.
Definition in_mode (mode p : Z) : Z := Z.lor (Z.land p (lnot 32 0x1f)) mode.

Lemma mode_of_in mode p : Z.land mode 0x1f = mode -> mode_of (in_mode mode p) = mode.
Proof. apply mode_set. Qed.

Lemma cps_ok md g ss ls si li sq q p m sv vb : mode_of p <> 0x10 ->
  cps md (mkBootCpu (mkArm g ss ls si li sq q p m) sv vb) =
  Ret (tt, mkBootCpu (mkArm g ss ls si li sq q (in_mode md p) m) sv vb).
Proof. intros Hp. unfold cps, set_psr, with_core, modify. cbn. by rewrite (proj2 (Z.eqb_neq _ _) Hp). Qed.

Lemma setup_stacks_ok l g ss ls si li sq q p m sv vb : mode_of p <> 0x10 ->
  setup_stacks l (mkBootCpu (mkArm g ss ls si li sq q p m) sv vb) =
  Ret (tt, mkBootCpu (mkArm g (_kernel_stack_top l) ls (_irq_stack_top l) li sq q (in_mode MODE_SYS (in_mode MODE_SVC (in_mode MODE_IRQ p))) m)
    (_svc_stack_top l) vb).
Proof.
  intros Hp. unfold setup_stacks.
  assert (Hsp : forall mode p ss si sv v, Z.land mode 0x1f = mode -> mode <> 0x10 ->
    ldr_sp v (mkBootCpu (mkArm g ss ls si li sq q (in_mode mode p) m) sv vb) =
    Ret (tt, if mode =? MODE_IRQ then mkBootCpu (mkArm g ss ls v li sq q (in_mode mode p) m) sv vb
             else if mode =? MODE_SVC then mkBootCpu (mkArm g ss ls si li sq q (in_mode mode p) m) v vb
             else if (mode =? MODE_SYS) || (mode =? 0x10) then mkBootCpu (mkArm g v ls si li sq q (in_mode mode p) m) sv vb
             else mkBootCpu (mkArm g ss ls si li sq q (in_mode mode p) m) sv vb)).
  { intros mode p0 ss0 si0 sv0 v Hm _. unfold ldr_sp, modify. cbn [core psr]. by rewrite mode_of_in. }
  erewrite stbind_step by (by apply cps_ok).
  erewrite stbind_step by (by apply (Hsp MODE_IRQ)). cbn [Z.eqb MODE_IRQ Pos.eqb].
  erewrite stbind_step by (apply cps_ok; by rewrite (mode_of_in MODE_IRQ)).
  erewrite stbind_step by (by apply (Hsp MODE_SVC)).
  erewrite stbind_step by (apply cps_ok; cbn; by rewrite (mode_of_in MODE_SVC)).
  by rewrite (Hsp MODE_SYS).
Qed.

Lemma thirteen (g : list Z) : length g = 13%nat -> exists a0 a1 a2 a3 a4 a5 rest, g = a0 :: a1 :: a2 :: a3 :: a4 :: a5 :: rest.
Proof.
  intros Hg. do 6 (destruct g as [|? g]; [done|]). by do 7 eexists.
Qed.

Lemma cpsid_ok c : mode_of (psr (core c)) <> 0x10 -> let k := core c in
  cpsid_if c = Ret (tt, mkBootCpu (mkArm (gpr k) (sp_sys k) (lr_sys k) (sp_irq k) (lr_irq k) (spsr_irq k) (pc k) (masked (psr k)) (ram k)) (sp_svc c) (VBAR c)).
Proof. intros Hp k. unfold cpsid_if, set_psr, with_core, modify. subst k. by rewrite (proj2 (Z.eqb_neq _ _) Hp). Qed.

Lemma arm_setup_ok l c fuel : arm_link_ok l -> length (gpr (core c)) = 13%nat -> bytes_ok (ram (core c)) ->
  mode_of (psr (core c)) <> 0x10 -> up 4 (_data_end l) - _data_start l < 4 * Z.of_nat fuel ->
  up 4 (_bss_end l) - _bss_start l < 4 * Z.of_nat fuel ->
  let k := core c in exists g m, arm_setup l fuel c =
    Ret (tt, mkBootCpu (mkArm g (_kernel_stack_top l) (lr_sys k) (_irq_stack_top l) (lr_irq k) (spsr_irq k) (pc k)
      (in_mode MODE_SYS (in_mode MODE_SVC (in_mode MODE_IRQ (masked (psr k))))) m) (_svc_stack_top l) (_vectors l)) /\
    length g = 13%nat /\ g !!! 0%nat = gpr k !!! 1%nat /\ g !!! 1%nat = gpr k !!! 2%nat /\ (forall x, m x = loaded l (ram k) x).
Proof.
  intros [H1 [H2 H2'] [H3 H3'] H4 H5 H6] Hg Hb Hp Hf1 Hf2 k.
  destruct (thirteen _ Hg) as (a0 & a1 & a2 & a3 & a4 & a5 & rest & Eg).
  destruct (up_rounds (_data_start l) (_data_end l) H2' ltac:(lia)) as [R1 N1].
  destruct (up_rounds (_bss_start l) (_bss_end l) H3' ltac:(lia)) as [R2 N2].
  pose proof (up_spec 4 (_bss_end l) ltac:(lia)) as [U2 _]. pose proof (up_below _ _ H3' (proj1 H3)) as U1.
  set (c0 := mkBootCpu (mkArm (gpr k) (sp_sys k) (lr_sys k) (sp_irq k) (lr_irq k) (spsr_irq k) (pc k) (masked (psr k)) (ram k)) (sp_svc c) (VBAR c)).
  destruct (copy_data_ok c0 (_data_end l) (a1 :: a2 :: rest) (Z.to_nat ((up 4 (_data_end l) - _data_start l) / 4)) fuel
    (_data_load l) (_data_start l) a3 (ram k) ltac:(lia) R1 Hb) as (ld & r3' & m1 & E1 & Hb1 & Em1); [lia..|].
  destruct (zero_bss_ok c0 (_bss_end l) (r3' :: a1 :: a2 :: rest) (Z.to_nat ((up 4 (_bss_end l) - _bss_start l) / 4)) fuel
    (_bss_start l) m1 ltac:(lia) R2) as (m2 & E2 & Em2); [lia..|].
  eexists _, m2. split; [|split; [|split; [|split]]].
  - unfold arm_setup. rewrite (stbind_step _ _ _ _ _ (cpsid_ok c Hp)). fold k. fold c0. replace c0 with (running c0 (a0 :: a1 :: a2 :: a3 :: a4 :: a5 :: rest) (ram k)) by (unfold running, c0; cbn; fold k in Eg; by rewrite <- Eg).
    do 5 (erewrite stbind_step; [|reflexivity]).
    erewrite stbind_step; [|exact E1]. do 3 (erewrite stbind_step; [|reflexivity]).
    erewrite stbind_step; [|exact E2].
    erewrite stbind_step; [|apply setup_stacks_ok; cbn; unfold masked; by rewrite mode_masked].
    reflexivity.
  - rewrite Eg in Hg. cbn in *. lia.
  - fold k in Eg. by rewrite Eg.
  - fold k in Eg. by rewrite Eg.
  - intros x. rewrite Em2, N2. unfold loaded, write_bytes. rewrite Em1, N1. done.
Qed.

(** ** ARM starts *)

(** C39: [_start] in any privileged mode comes to [kernel_init] with the machine
    type and the tags of the boot loader, in system mode on the kernel stack
    with both kinds of interrupts masked, the stacks of interrupt and
    supervisor mode and the vectors set; .data holds its load image, .bss is
    zero, and nothing else of memory is changed but the padding to the next
    word.  [kernel_main] follows when [kernel_init] returns. *)
Theorem arm_start_ready l c fuel : arm_link_ok l -> length (gpr (core c)) = 13%nat -> bytes_ok (ram (core c)) ->
  mode_of (psr (core c)) <> 0x10 -> up 4 (_data_end l) - _data_start l < 4 * Z.of_nat fuel ->
  up 4 (_bss_end l) - _bss_start l < 4 * Z.of_nat fuel ->
  exists c', (forall kernel_init kernel_main, arm_start l fuel kernel_init kernel_main c =
      (_ ← kernel_init (gpr (core c) !!! 1%nat) (gpr (core c) !!! 2%nat); kernel_main) c') /\
    mode_of (psr (core c')) = MODE_SYS /\ Z.testbit (psr (core c')) 7 = true /\ Z.testbit (psr (core c')) 6 = true /\
    stack (core c') = _kernel_stack_top l /\ sp_irq (core c') = _irq_stack_top l /\ sp_svc c' = _svc_stack_top l /\
    VBAR c' = _vectors l /\ vectored 0x18 = Some IrqHandler /\ vectored 0x08 = Some SvcHandler /\
    (forall x, _data_start l <= x < _data_end l -> ram (core c') x = ram (core c) (_data_load l + (x - _data_start l))) /\
    (forall x, _bss_start l <= x < _bss_end l -> ram (core c') x = 0) /\
    same_outside (fun x => _data_start l <= x < _data_end l + 3 \/ _bss_start l <= x < _bss_end l + 3)
      (ram (core c)) (ram (core c')).
Proof.
  intros Hl Hg Hb Hp Hf1 Hf2. destruct (arm_setup_ok l c fuel Hl Hg Hb Hp Hf1 Hf2) as (g & m & E & _ & G0 & G1 & Em).
  destruct Hl as [H1 [H2 H2'] [H3 H3'] H4 H5 H6].
  pose proof (up_spec 4 (_bss_end l) ltac:(lia)) as [U2 _]. pose proof (up_spec 4 (_data_end l) ltac:(lia)) as [U1 _].
  pose proof (up_below _ _ H3' (proj1 H3)) as U3.
  eexists. split; [intros ki km; unfold arm_start; erewrite stbind_step by exact E;
    erewrite stbind_step by reflexivity; erewrite stbind_step by reflexivity; cbn [core gpr]; by rewrite G0, G1|].
  cbn [core psr sp_irq sp_svc VBAR ram].
  assert (Hm : mode_of (in_mode MODE_SYS (in_mode MODE_SVC (in_mode MODE_IRQ (masked (psr (core c)))))) = MODE_SYS) by (by apply mode_of_in).
  assert (Hbit : forall n, 5 <= n < 32 -> Z.testbit (in_mode MODE_SYS (in_mode MODE_SVC (in_mode MODE_IRQ (masked (psr (core c)))))) n =
    Z.testbit (psr (core c)) n || Z.testbit 0xc0 n).
  { intros n Hn. unfold in_mode, MODE_SYS, MODE_SVC, MODE_IRQ. rewrite !mode_set_bit by lia. unfold masked. apply Z.lor_spec. }
  split_and!; try done.
  1-2: rewrite Hbit by lia; apply orb_true_r.
  - unfold stack, in_irq_mode. cbn [psr sp_sys]. by rewrite Hm.
  - intros x Hx. rewrite Em. unfold loaded. rewrite write_bytes_same_outside by (unfold in_block; lia).
    unfold copy_nonoverlapping. by rewrite (proj2 (Z.leb_le _ _)), (proj2 (Z.ltb_lt _ _)) by lia.
  - intros x Hx. rewrite Em. unfold loaded. apply write_bytes_in. unfold in_block. lia.
  - intros x Hx. rewrite Em. unfold loaded. rewrite write_bytes_same_outside by (unfold in_block; lia).
    unfold copy_nonoverlapping. destruct (Z.leb_spec (_data_start l) x), (Z.ltb_spec x (_data_start l + (up 4 (_data_end l) - _data_start l))); try done; lia.
Qed.

(** ** Witnesses *)

(** The information of [Boot]'s example, a kernel whose .bss begins at 2 MiB
    and a boot loader that leaves the flags at 2. *)
Definition demo_x86_link : x86_link := mkX86Link 0x200000 0x205000 0x204010.
Definition demo_entry : i386 := mkI386 MB2_MAGIC 0x9000 0 0 0 0 0 0x7000 2 demo_mem.

Lemma demo_x86_link_ok : x86_link_ok demo_x86_link.
Proof. by split; vm_compute; repeat split; intros. Qed.

Definition release : Profile := {| debug_assertions := false |}.

Lemma multiboot_start_witness : exists s,
  let e := push 0x100050 (x86_setup demo_x86_link demo_entry) in
  Boot.init (H := release) 121 TargetX86 0 (mem86 e) (Multiboot2 (argument 0 e) (argument 1 e)) (mkBoot fresh None) = Ret (Ok tt, s) /\
  CMDLINE (plat s) = Some "g"%string.
Proof.
  destruct (multiboot_start (H := release) demo_x86_link demo_entry 0x9000 demo_tags 121 0 0x100050 demo_x86_link_ok)
    as (A0 & A1 & _ & _ & _ & _ & s & E & _ & _ & C & _).
  - split; by vm_compute.
  - by vm_compute.
  - done.
  - done.
  - exact demo_info_at.
  - by vm_compute.
  - intros x. assert (Eb : load32 (mem86 demo_entry) 0x9000 = 120) by (by vm_compute).
    unfold info_block, in_block. rewrite Eb. cbn. lia.
  - exists s. split; [|exact C]. rewrite A0, A1 in *. exact E.
Defined.

Lemma x86_start_backwards_witness :
  mem86 (x86_zero demo_x86_link (mkI386 MB2_MAGIC 0x9000 0 0 0 0 0 0x7000 0x402 (fun _ => 1))) 0x200001 = 1 /\
  mem86 (x86_zero demo_x86_link (mkI386 MB2_MAGIC 0x9000 0 0 0 0 0 0x7000 0x402 (fun _ => 1))) 0x1ff000 = 0.
Proof.
  destruct (x86_start_backwards demo_x86_link (mkI386 MB2_MAGIC 0x9000 0 0 0 0 0 0x7000 0x402 (fun _ => 1)) demo_x86_link_ok)
    as [A B]; [split; by vm_compute|by vm_compute|by vm_compute|].
  split; [rewrite A; [done|cbn; lia]|apply B; cbn; lia].
Defined.

Definition demo_arm_link : arm_link := mkArmLink 0x20000 0x20000 0x20006 0x20008 0x20011 0x33000 0x36000 0x31000 0x8000.
Definition demo_boot_cpu : boot_cpu :=
  mkBootCpu (mkArm [0; 3138; 0x100; 0; 0; 0; 0; 0; 0; 0; 0; 0; 0] 0 0 0 0 0 0x8020 0x1d3 (fun x => x mod 256)) 0 0.

Lemma arm_start_ready_witness : exists c', arm_start demo_arm_link 4 (fun a b => set_reg 0 (a + b)) (mret tt) demo_boot_cpu =
  set_reg 0 (3138 + 0x100) c' /\ ram (core c') 0x20005 = 5 /\ ram (core c') 0x20010 = 0.
Proof.
  destruct (arm_start_ready demo_arm_link demo_boot_cpu 4) as (c' & E & _ & _ & _ & _ & _ & _ & _ & _ & _ & D & B0 & _).
  - split; cbn; [lia|split; [lia|by exists 0x8000]|split; [lia|by exists 0x8002]|by vm_compute..|left; lia].
  - done.
  - intros x. unfold fits. apply Z.mod_pos_bound. lia.
  - by vm_compute.
  - by vm_compute.
  - by vm_compute.
  - exists c'. split; [rewrite E; cbn; reflexivity|].
    split; [rewrite D; [done|cbn; lia]|apply B0; cbn; lia].
Defined.

Definition plain_entry : i386 := mkI386 0 0 0 0 0 0 0 0x7000 2 (fun _ => 0).

Lemma pc_start_boots_witness : exists l p s,
  let e := push 0x100050 (x86_setup demo_x86_link plain_entry) in
  kernel_init (H := release) keep_write plain_level keep_line TargetX86 1 0 0x205000 (argument 0 e) (argument 1 e)
    (power_on (mem86 e) []) = Ret (tt, s) /\
  kernel_end l = 0x205000 /\
  dev (run s).2 = line_of plain_level [text "Kernel Early Initialization Complete"; [10]] ::
    map (line_of plain_level) (boot_log l p ["serial0"%string]).
Proof.
  destruct (pc_start_boots (H := release) keep_write plain_level keep_line demo_x86_link plain_entry 1 0 0x100050 demo_x86_link_ok)
    as (l & hb & pb & m' & fl & b & dm & L1 & _ & _ & _ & _ & _ & _ & _ & _ & _ & _ & L2); [by vm_compute|split; by vm_compute|
    by vm_compute|split; by vm_compute|split; by vm_compute|by vm_compute|lia|].
  eexists l, (plat b), _. split; [apply (L2 [] [line_of plain_level [text "Kernel Early Initialization Complete"; [10]]]);
    [reflexivity|apply deliver_kept]|]. split; [exact L1|reflexivity].
Defined.
